(* ===== verification/_CoqProject ===== *)
-Q . S2P
Prelude.v
Os.v
Fd.v
Config.v
Core.v
HealthState.v
TcpHealth.v
Metrics.v
HealthSelection.v
LoadBalance.v
TcpState.v
TcpReactor.v
TcpReactorSafety.v
TcpReactorTheorems.v
UdpReactor.v
UdpReactorSafety.v
UdpReactorTheorems.v
UdpProbe.v
UdpProbeSafety.v
UdpProbeTheorems.v
XdpSchema.v
XdpProgram.v
XdpTheorems.v
BpfKernel.v
RuntimeStore.v
MapStore.v
ConfigSync.v
XdpAttachment.v
RuntimeConfig.v
RuntimeService.v
XdpLayout.v
RuntimeServiceSafety.v
RuntimeServiceTheorems.v
MetricsService.v
ServiceRuntime.v
TcpService.v
UdpService.v
Cli.v
SelectionSafety.v
ServiceSafety.v
TcpServiceSafety.v
UdpServiceSafety.v
Containment.v
TcpContainment.v
UdpContainment.v
ServiceContainment.v
CliTheorems.v
Frames.v
XdpMain.v
AttachmentSafety.v
XdpMainTheorems.v
XdpKernelExample.v
XdpMainSafety.v
