(* ===== verification/Prelude.v ===== *)
(** * L4 load balancer with XDP: verification library

    The repository holds two programs.  [l4lb] (src/src/cli/main.cpp) is a proxy
    in user space that balances TCP connections or UDP flows over backends.  The
    XDP program (src/src/xdp/main.cpp) loads, configures and attaches an eBPF
    program that rewrites and redirects UDP datagrams in the kernel (direct server
    return), with a fixed table of backends or with a table that follows health
    probes.  This library models both from [main] to the system calls and proves
    what makes them correct.

    ** How a program becomes a definition

    A function that changes state is a computation of the state-and-exception
    monad [M St A] of this file.  It ends with a value, with one of the exceptions
    of [exn], or - a loop whose bound is exhausted - with [Diverge].  State is
    explicit: the object's fields as a record, and below them an arbitrary world.
    What the repository does not contain is an operation of a type class over that
    world: the system calls ([FileOps], [TcpOps], [UdpOps], [TcpProbeOps],
    [ProbeSystem], [ServiceOps], [MetricsOps], [XdpCalls], [InterfaceOps], ...),
    libbpf and bpf(2) ([Libbpf], [BpfCalls], [BpfElements]), the user's callbacks.
    Their documented behaviour is a second class, of laws ([FileContent],
    [TcpKernel], [UdpKernel], [RuntimeKernel], [LinkKernel], ...); no law limits
    when a call fails, what a peer sends, or how events interleave.  For each
    group of laws a scripted world ([Module Scripted...]) satisfies all of them,
    and the witnesses run the definitions on it.  Integers keep the width and the
    wrap-around of the source, text is the bytes the compiler stores, times are
    nanosecond counts of a steady clock.

    ** Files and sources (paths under src/src)

    - [Prelude]: bytes, integers, exceptions, the monad with [try]/[catch],
      destructors and bounded loops, its weakest preconditions ([wp], the tactic
      [wp_step]) and the shared lemmas.  [Os]: files.  [Frames]: computations that
      stay inside a preorder ([keeps], the tactic [keep]).  [Containment]: which
      exceptions can leave a program.
    - [Config]: config/Config.h, Config.cpp, the parser and the bounded reader.
    - [Core]: core/BackendScheduler, RoundRobinScheduler.h, UdpFlow.h.
    - [HealthState], [TcpHealth], [HealthSelection]: health/HealthState.h,
      health/TcpHealthChecker, control/HealthSelection.  [SelectionSafety]: the
      descriptors of the checks.  [LoadBalance]: the shares of the backends.
    - [Metrics], [MetricsService]: metrics/Metrics, net/Statistics.h,
      control/MetricsService.
    - [Fd]: net/Fd.h, the class that owns a descriptor.
    - [TcpState], [TcpReactor], [TcpReactorSafety], [TcpReactorTheorems],
      [TcpContainment]: net/TcpState.h and net/TcpReactor.
    - [UdpReactor], [UdpReactorSafety], [UdpReactorTheorems], [UdpContainment]:
      net/UdpReactor.
    - [ServiceRuntime], [TcpService], [UdpService], [Cli]: control/TcpService.cpp,
      UdpService.cpp, Service.cpp and cli/main.cpp.  [ServiceSafety],
      [TcpServiceSafety], [UdpServiceSafety], [ServiceContainment], [CliTheorems]:
      what the composed program does.
    - [UdpProbe], [UdpProbeSafety], [UdpProbeTheorems]: health/UdpProbeChecker.
    - [XdpSchema], [XdpLayout], [XdpProgram], [XdpTheorems]: the three schema
      headers, the memory layout of their structures with the assertions about it,
      and the four programs xdp/*.bpf.c, which run on one packet and on the
      statistics slot of one CPU.
    - [BpfKernel]: libbpf and bpf(2).  [RuntimeStore]: xdp/RuntimeMapStore.
      [MapStore]: xdp/MapStore and xdp/DsrMapStore.  [ConfigSync]:
      control/XdpConfigSync and control/DsrConfigSync.  [XdpAttachment]:
      xdp/XdpAttachment.
    - [RuntimeConfig]: control/RuntimeDsrConfig.  [RuntimeService],
      [RuntimeServiceSafety], [RuntimeServiceTheorems]: control/RuntimeDsrService.
    - [XdpMain], [XdpMainTheorems], [XdpMainSafety]: xdp/main.cpp.
      [AttachmentSafety]: the attachment behind the interface of the runtime mode;
      [XdpKernelExample]: a scripted kernel below it.

    ** How the components interact

    The proxy: [Cli.main] loads a configuration and [runService] builds a runtime
    object of [ServiceRuntime], whose callbacks a reactor calls.  The world of the
    reactor is the runtime object with the system below it: [TcpServiceSafety] and
    [UdpServiceSafety] show that this world is a kernel in the sense of
    [TcpReactorSafety] and [UdpReactorSafety] and that the callbacks keep the
    contract the reactor asks for, so the theorems about an arbitrary kernel and
    arbitrary callbacks hold in the composed program.  [HealthSelection] uses a
    scheduler through [BackendScheduler] and its laws [BackendSchedulerSpec],
    which round robin satisfies, and owns a TCP health checker.

    The XDP program: the static modes drive an attachment directly, synchronising
    the maps through [MapAccess].  The runtime mode is written against the
    interface [RuntimeAttachment] and proved against [RuntimeAttachmentLaws];
    [AttachmentSafety.attachment_promise] derives these laws for the attachment of
    the repository from the laws of the kernel ([AttachmentKernel],
    [ElementFrame]).  The runtime mode uses the probe checker through
    [ProbeCollaborators], which the sockets of the repository implement.

    ** What the theorems show

    - Ownership.  A history of the objects of [Fd] closes every descriptor once.
    - Proxy over TCP.  In every reachable state the bytes received on one side of
      a session are those sent on the other followed by the pending queue; tokens,
      descriptors, capacity and the accounting of sessions agree; each turn of the
      loop ends, a drain is over at its deadline, closing a session is complete
      whatever its callbacks throw, and no private exception escapes.
    - Proxy over UDP.  The two indexes of the flows are inverse to each other, the
      creation of a flow is a transaction, and a datagram goes to the backend of
      its flow and a reply back to its client, whole or not at all.
    - Both protocols, from [main].  The exit status, as a function of the arguments,
      of the configuration that was read and of how the service ended; every descriptor is given
      back; the metrics settle and each line of them is written whole.
    - Selection and health.  The state machine is a fold over the results of the
      probes, a backend that is picked is healthy, no turn is skipped, and without
      health checks every backend gets the same number of sessions.
    - Probes.  The history of a probe's own socket accounts for its state, a poll
      is bounded, a nonce is not repeated.
    - eBPF programs.  No access leaves the packet; a datagram for the service is
      redirected to the backend of its flow with exactly the MAC addresses
      rewritten; every packet is counted once, under the action it got; the runtime
      program agrees with the static one on the same table and drops what it has
      no backend for.  Comparing values by their bytes compares the values.
    - Maps and attachments.  The maps hold the configuration that was checked, or
      an error is reported; a publication is a transaction; an attachment touches
      no link but its own.  The history of the links records what the kernel was
      asked and what it answered - [Attached], [Detached], and [Absent] where a
      query showed that a link is gone - and no link disappears from the state of
      an attachment without the answer that shows it.
    - Runtime mode.  A pass keeps the published, the applied and the probed
      configuration in agreement; two requests for a publication are at least a
      second apart (the ghost field [w_requests] logs their times); a run gives
      back sockets and links, and a run that ends well held the link it attached.
    - Configurations.  Each parser accepts the well-formed texts: what it returns
      is valid and a rendered value is read back; readers are bounded and return
      the whole file.  A configuration of the runtime mode has, target by target and
      in their order, the addresses, interfaces and probe endpoints of its file.
    - The XDP program, from [main].  The exit status, and the history of the links
      of a whole run in every mode.

    ** Bounds

    Loops that the source bounds by data recurse on it.  The others take a bound:
    [fuel] for the inner loops of the TCP reactor - one more than the buffer limit
    and the interruptions (EINTR) to come is enough, which is [within_bounds] and
    follows in every reachable state; [readFuel] for the runtime configuration, one
    turn per byte that is allowed and one for the end; [objectFuel] for the object
    file, its size ([reads_enough]); [drain] for the output at a stop, the
    nanoseconds of one second on a clock that moves ([drains]).  [turns] is no
    bound of the source: an event loop or a control loop may run for ever, and
    [turns] is how much of it is observed; the theorems hold for every value.
    In each case a theorem says that [Diverge] is not reached or what it means.

    ** Not modelled

    - What only forwards or declares: prototypes in class bodies, deleted copy
      operations, accessors, and the virtual forwarders of interfaces.
    - The fault injection of the options of both reactors (setupError, recvmsgCall
      and the like) and the friends named TestAccess: the tests set them; a failing
      system call is already a possible answer of each class.
    - The map declarations of the eBPF programs beyond their types and sizes, and
      the verifier, JIT and libbpf themselves.
    - The signal mask and the non-blocking state of the terminal are operations of
      the classes; the delivery of a signal is an event that the world reports.
    - Memory exhaustion inside a definition: [BadAlloc] is an exception that a
      callback or a collaborator may throw, not one that each allocation does.
    - The tests, scripts, build files and documents of the repository. *)
From Stdlib Require Export ZArith Lia ZifyBool Ascii String.
From stdpp Require Export base tactics list strings gmap fin_maps sorting.
From stdpp Require Import options.
#[export] Set Default Proof Using "Type".
#[export] Set Warnings "-clear-no-such-hyp".

Open Scope Z_scope.

(** ** Bytes, text and machine integers *)

Abbreviation bytes := (list ascii).

(** A literal of the source as the bytes the compiler stores (UTF-8). *)
Definition bs (s : string) : bytes := list_ascii_of_string s.

Definition code (c : ascii) : Z := Z.of_N (N_of_ascii c).
Definition chr (n : Z) : ascii := ascii_of_N (Z.to_N n).

Definition u8 (x : Z) : Z := x mod 2 ^ 8.
Definition u16 (x : Z) : Z := x mod 2 ^ 16.
Definition u32 (x : Z) : Z := x mod 2 ^ 32.
Definition u64 (x : Z) : Z := x mod 2 ^ 64.
Definition UINT64_MAX : Z := 2 ^ 64 - 1.

Definition len {A} (l : list A) : Z := Z.of_nat (length l).

(** [std::to_string] on an unsigned 64-bit value: twenty digits are enough. *)
Fixpoint decimal_loop (fuel : nat) (n : Z) (acc : bytes) : bytes :=
  match fuel with
  | O => acc
  | S fuel' =>
      let acc' := chr (48 + n mod 10) :: acc in
      if n <? 10 then acc' else decimal_loop fuel' (n / 10) acc'
  end.
Definition to_string (n : Z) : bytes := decimal_loop 20 n [].

Arguments len : simpl never.
Arguments code : simpl never.
Arguments chr : simpl never.
Arguments to_string : simpl never.

(** [std::string::find(char)] and friends; [None] is [npos]. *)
Fixpoint find_char (c : ascii) (s : bytes) : option nat :=
  match s with
  | [] => None
  | x :: s' => if decide (x = c) then Some O else S <$> find_char c s'
  end.

Fixpoint find_if (p : ascii -> bool) (s : bytes) : option nat :=
  match s with
  | [] => None
  | x :: s' => if p x then Some O else S <$> find_if p s'
  end.

Fixpoint starts_with (pre s : bytes) : bool :=
  match pre, s with
  | [], _ => true
  | _ :: _, [] => false
  | x :: pre', y :: s' => bool_decide (x = y) && starts_with pre' s'
  end.

Fixpoint contains (pat s : bytes) : bool :=
  starts_with pat s || match s with [] => false | _ :: s' => contains pat s' end.

(** [substr(0, pos)] with [npos] allowed. *)
Definition prefix_to (pos : option nat) (s : bytes) : bytes :=
  match pos with Some n => take n s | None => s end.

(** Durations are nanosecond counts of [std::chrono::steady_clock]. *)
Definition ms (n : Z) : Z := n * 1000000.
Definition seconds (n : Z) : Z := n * 1000000000.

(** Linux errno values that the source compares against. *)
Definition EPERM : Z := 1.
Definition ENOENT : Z := 2.
Definition EINTR : Z := 4.
Definition EIO : Z := 5.
Definition EBADF : Z := 9.
Definition EAGAIN : Z := 11.
Definition EWOULDBLOCK : Z := 11.
Definition ENOMEM : Z := 12.
Definition EACCES : Z := 13.
Definition EFAULT : Z := 14.
Definition EBUSY : Z := 16.
Definition EEXIST : Z := 17.
Definition ENODEV : Z := 19.
Definition EINVAL : Z := 22.
Definition ENFILE : Z := 23.
Definition EMFILE : Z := 24.
Definition ENONET : Z := 64.
Definition EPROTO : Z := 71.
Definition ENOTSOCK : Z := 88.
Definition EMSGSIZE : Z := 90.
Definition ENOPROTOOPT : Z := 92.
Definition EOPNOTSUPP : Z := 95.
Definition EADDRNOTAVAIL : Z := 99.
Definition ENETDOWN : Z := 100.
Definition ENETUNREACH : Z := 101.
Definition ECONNABORTED : Z := 103.
Definition ECONNRESET : Z := 104.
Definition ENOBUFS : Z := 105.
Definition ETIMEDOUT : Z := 110.
Definition ECONNREFUSED : Z := 111.
Definition EHOSTDOWN : Z := 112.
Definition EHOSTUNREACH : Z := 113.
Definition EINPROGRESS : Z := 115.

(** Event bits of epoll(7). *)
Definition EPOLLIN : Z := 1.
Definition EPOLLOUT : Z := 4.
Definition EPOLLERR : Z := 8.
Definition EPOLLHUP : Z := 16.
Definition EPOLLRDHUP : Z := 8192.

Definition has_any (events mask : Z) : bool := negb (Z.land events mask =? 0).

(** ** Exceptions and the state-exception monad *)

Inductive exn : Type :=
| SystemError (code : Z) (what : bytes)
| InvalidArgument (what : bytes)
| LogicError (what : bytes)
| LengthError (what : bytes)
| OutOfRange (what : bytes)
| OverflowError (what : bytes)
| RuntimeError (what : bytes)
| BadAlloc
| SessionFailure (operation : bytes) (error : Z)
| RuntimeControlError (what : bytes)
| RuntimePublishError (what : bytes) (committed : bool).

#[export] Instance exn_eq_dec : EqDecision exn.
Proof. solve_decision. Defined.

(** [std::exception::what()]; a [std::system_error] adds the text of its code. *)
Definition what (strerror : Z -> bytes) (e : exn) : bytes :=
  match e with
  | SystemError error w => w ++ bs ": " ++ strerror error
  | InvalidArgument w | LogicError w | LengthError w | OutOfRange w | OverflowError w
  | RuntimeError w | RuntimeControlError w | RuntimePublishError w _ | SessionFailure w _ => w
  | BadAlloc => bs "std::bad_alloc"
  end.

(** What a statement sequence ends with.  [Diverge] marks exhausted fuel; the
    termination theorems show that it is not reached. *)
Inductive outcome (A : Type) : Type :=
| Ret (a : A)
| Throw (e : exn)
| Diverge.
Arguments Ret {A} a.
Arguments Throw {A} e.
Arguments Diverge {A}.

#[export] Instance outcome_eq_dec {A} `{EqDecision A} : EqDecision (outcome A).
Proof. solve_decision. Defined.

(** C++ statements change the state and keep the change when they throw. *)
Definition M (St A : Type) : Type := St -> outcome A * St.

Definition mret {St A} (a : A) : M St A := fun s => (Ret a, s).
Definition mthrow {St A} (e : exn) : M St A := fun s => (Throw e, s).
Definition mdiverge {St A} : M St A := fun s => (Diverge, s).
Definition mbind {St A B} (m : M St A) (f : A -> M St B) : M St B :=
  fun s => match m s with
           | (Ret a, s') => f a s'
           | (Throw e, s') => (Throw e, s')
           | (Diverge, s') => (Diverge, s')
           end.
(** A pure computation that may throw. *)
Definition lift_outcome {St A} (o : outcome A) : M St A := fun s => (o, s).
Definition mget {St} : M St St := fun s => (Ret s, s).
Definition mgets {St A} (f : St -> A) : M St A := fun s => (Ret (f s), s).
Definition mmodify {St} (f : St -> St) : M St unit := fun s => (Ret tt, f s).
Definition mcatch {St A} (m : M St A) (h : exn -> M St A) : M St A :=
  fun s => match m s with
           | (Throw e, s') => h e s'
           | r => r
           end.
(** Destructors run on every way out. *)
Definition mfinally {St A} (m : M St A) (cleanup : St -> St) : M St A :=
  fun s => let '(o, s') := m s in (o, cleanup s').
(** An operation of the outside world on the world component of a state. *)
Definition mlift {St W A} (get : St -> W) (set : W -> St -> St)
    (op : W -> A * W) : M St A :=
  fun s => let '(a, w) := op (get s) in (Ret a, set w s).

(** A call of the outside world when the state is the world itself. *)
Definition mworld {W A} (op : W -> A * W) : M W A :=
  fun w => let '(a, w') := op w in (Ret a, w').

(** A component's own fields next to the world it acts on. *)
Definition own {C W A} (f : C -> A) : M (C * W) A := fun s => (Ret (f s.1), s).
Definition world {C W} : M (C * W) W := fun s => (Ret s.2, s).
Definition update {C W} (f : C -> C) : M (C * W) unit := fun s => (Ret tt, (f s.1, s.2)).
Definition call {C W A} (op : W -> A * W) : M (C * W) A :=
  fun s => let '(a, w) := op s.2 in (Ret a, (s.1, w)).
Definition effect {C W} (op : W -> W) : M (C * W) unit :=
  fun s => (Ret tt, (s.1, op s.2)).
(** Code of the world (a callback) that may throw. *)
Definition outside {C W A} (m : M W A) : M (C * W) A :=
  fun s => let '(o, w) := m s.2 in (o, (s.1, w)).
(** A method of a member object: [get] and [set] locate it in the owner. *)
Definition zoom {C D W A} (get : D -> C) (set : C -> D -> D) (m : M (C * W) A)
    : M (D * W) A :=
  fun s => let '(o, (c, w)) := m (get s.1, s.2) in (o, (set c s.1, w)).

Declare Scope prog_scope.
Delimit Scope prog_scope with prog.
Notation "x <- m ;; k" := (mbind m (fun x => k))
  (at level 100, m at next level, right associativity) : prog_scope.
Notation "m ;;; k" := (mbind m (fun _ => k))
  (at level 100, k at level 200, right associativity) : prog_scope.
Open Scope prog_scope.

Definition mwhen {St} (b : bool) (m : M St unit) : M St unit :=
  if b then m else mret tt.

(** Run [m] once per element, as a range [for] does. *)
Fixpoint mfor {St A} (l : list A) (m : A -> M St unit) : M St unit :=
  match l with
  | [] => mret tt
  | a :: l' => m a ;;; mfor l' m
  end.

(** Loops: the body says whether to go on ([inl]) or to leave ([inr]). *)
Fixpoint mloop {St A B} (fuel : nat) (body : A -> M St (A + B)) (a : A) : M St B :=
  match fuel with
  | O => mdiverge
  | S fuel' =>
      r <- body a ;;
      match r with
      | inl a' => mloop fuel' body a'
      | inr b => mret b
      end
  end.

(** Run a report and remember the first exception. *)
Definition attempt {St} (m : M St unit) (firstFailure : option exn) : M St (option exn) :=
  mcatch (m ;;; mret firstFailure)
    (fun e => mret (match firstFailure with Some f => Some f | None => Some e end)).

(** Calling an empty [std::function]. *)
Definition badFunctionCall {St A} : M St A := mthrow (RuntimeError (bs "bad_function_call")).

(** A failed call is a [std::system_error]. *)
Definition orThrow {W A} (what : bytes) (op : W -> (A + Z) * W) : M W A :=
  result <- mworld op ;;
  match result with
  | inl a => mret a
  | inr errno => mthrow (SystemError errno what)
  end.

(** What holds of a value if there is one. *)
Definition optional {A} (P : A -> Prop) (o : option A) : Prop :=
  match o with Some a => P a | None => True end.

(** ** Weakest preconditions

    [wp m Q s]: running [m] from [s] ends in an outcome and a state that [Q]
    accepts. *)
Definition wp {St A} (m : M St A) (Q : outcome A -> St -> Prop) (s : St) : Prop :=
  Q (m s).1 (m s).2.

Section wp_rules.
Context {St : Type}.

Lemma wp_ret {A} (a : A) (Q : outcome A -> St -> Prop) s :
  Q (Ret a) s -> wp (mret a) Q s.
Proof. done. Qed.

Lemma wp_throw {A} e (Q : outcome A -> St -> Prop) s :
  Q (Throw e) s -> wp (mthrow e) Q s.
Proof. done. Qed.

Lemma wp_diverge {A} (Q : outcome A -> St -> Prop) s :
  Q Diverge s -> wp mdiverge Q s.
Proof. done. Qed.

Lemma wp_get (Q : outcome St -> St -> Prop) s : Q (Ret s) s -> wp mget Q s.
Proof. done. Qed.

Lemma wp_gets {A} (f : St -> A) (Q : outcome A -> St -> Prop) s :
  Q (Ret (f s)) s -> wp (mgets f) Q s.
Proof. done. Qed.

Lemma wp_modify f (Q : outcome unit -> St -> Prop) s :
  Q (Ret tt) (f s) -> wp (mmodify f) Q s.
Proof. done. Qed.

Lemma wp_lift {W A} (get : St -> W) set (op : W -> A * W)
    (Q : outcome A -> St -> Prop) s :
  Q (Ret (op (get s)).1) (set (op (get s)).2 s) -> wp (mlift get set op) Q s.
Proof. unfold wp, mlift. by destruct (op (get s)). Qed.

Lemma wp_world {A} (op : St -> A * St) (Q : outcome A -> St -> Prop) s :
  Q (Ret (op s).1) (op s).2 -> wp (mworld op) Q s.
Proof. unfold wp, mworld. by destruct (op s). Qed.

Lemma wp_own {C W A} (f : C -> A) (Q : outcome A -> C * W -> Prop) s :
  Q (Ret (f s.1)) s -> wp (own f) Q s.
Proof. done. Qed.

Lemma wp_getworld {C W} (Q : outcome W -> C * W -> Prop) s : Q (Ret s.2) s -> wp world Q s.
Proof. done. Qed.

Lemma wp_update {C W} (f : C -> C) (Q : outcome unit -> C * W -> Prop) s :
  Q (Ret tt) (f s.1, s.2) -> wp (update f) Q s.
Proof. done. Qed.

Lemma wp_call {C W A} (op : W -> A * W) (Q : outcome A -> C * W -> Prop) s :
  Q (Ret (op s.2).1) (s.1, (op s.2).2) -> wp (call op) Q s.
Proof. unfold wp, call. by destruct (op s.2). Qed.

Lemma wp_effect {C W} (op : W -> W) (Q : outcome unit -> C * W -> Prop) s :
  Q (Ret tt) (s.1, op s.2) -> wp (effect op) Q s.
Proof. done. Qed.

Lemma wp_outside {C W A} (m : M W A) (Q : outcome A -> C * W -> Prop) s :
  Q (m s.2).1 (s.1, (m s.2).2) -> wp (outside m) Q s.
Proof. unfold wp, outside. by destruct (m s.2). Qed.

Lemma wp_zoom {C D W A} get set (m : M (C * W) A) (Q : outcome A -> D * W -> Prop) s :
  wp m (fun o s' => Q o (set s'.1 s.1, s'.2)) (get s.1, s.2) ->
  wp (zoom get set m) Q s.
Proof. unfold wp, zoom. by destruct (m (get s.1, s.2)) as [o [c w]]. Qed.

Lemma wp_outcome {A} (o : outcome A) (Q : outcome A -> St -> Prop) s :
  Q o s -> wp (lift_outcome o) Q s.
Proof. done. Qed.

Lemma wp_mono {A} (m : M St A) (Q Q' : outcome A -> St -> Prop) s :
  wp m Q s -> (forall o s', Q o s' -> Q' o s') -> wp m Q' s.
Proof. unfold wp. eauto. Qed.

Lemma wp_conj {A} (m : M St A) (Q Q' : outcome A -> St -> Prop) s :
  wp m Q s -> wp m Q' s -> wp m (fun o s' => Q o s' /\ Q' o s') s.
Proof. unfold wp. eauto. Qed.

Lemma wp_bind {A B} (m : M St A) (f : A -> M St B) (Q : outcome B -> St -> Prop) s :
  wp m (fun o s' => match o with
                    | Ret a => wp (f a) Q s'
                    | Throw e => Q (Throw e) s'
                    | Diverge => Q Diverge s'
                    end) s ->
  wp (mbind m f) Q s.
Proof. unfold wp, mbind. destruct (m s) as [[] s']; eauto. Qed.

Lemma wp_catch {A} (m : M St A) h (Q : outcome A -> St -> Prop) s :
  wp m (fun o s' => match o with
                    | Throw e => wp (h e) Q s'
                    | o => Q o s'
                    end) s ->
  wp (mcatch m h) Q s.
Proof. unfold wp, mcatch. destruct (m s) as [[] s']; eauto. Qed.

Lemma wp_finally {A} (m : M St A) cleanup (Q : outcome A -> St -> Prop) s :
  wp m (fun o s' => Q o (cleanup s')) s -> wp (mfinally m cleanup) Q s.
Proof. unfold wp, mfinally. by destruct (m s). Qed.

Lemma wp_when (b : bool) (m : M St unit) (Q : outcome unit -> St -> Prop) s :
  (if b then wp m Q s else Q (Ret tt) s) -> wp (mwhen b m) Q s.
Proof. by destruct b. Qed.

(** The rule of a range loop: an invariant that every iteration keeps. *)
Lemma wp_for {A} (l : list A) (m : A -> M St unit) (I : St -> Prop)
    (Q : outcome unit -> St -> Prop) s :
  I s ->
  (forall a s', a ∈ l -> I s' ->
     wp (m a) (fun o s'' => match o with Ret _ => I s'' | o => Q o s'' end) s') ->
  (forall s', I s' -> Q (Ret tt) s') ->
  wp (mfor l m) Q s.
Proof.
  intros HI Hm HQ. revert s HI. induction l as [|a l IH]; intros s HI; simpl.
  - apply wp_ret. auto.
  - apply wp_bind. eapply wp_mono; [apply (Hm a s); [set_solver|done]|].
    intros [|e|] s' Hs'; [|done|done]. apply IH; [|done].
    intros a' s'' Ha. apply Hm. set_solver.
Qed.

(** The same for a counting loop, with an invariant about the position. *)
Lemma wp_for_seq (n : nat) (m : nat -> M St unit) (I : nat -> St -> Prop)
    (Q : outcome unit -> St -> Prop) s :
  I O s ->
  (forall k s', (k < n)%nat -> I k s' ->
     wp (m k) (fun o s'' => match o with Ret _ => I (S k) s'' | o => Q o s'' end) s') ->
  (forall s', I n s' -> Q (Ret tt) s') ->
  wp (mfor (seq 0 n) m) Q s.
Proof.
  intros HI Hm HQ.
  assert (Hgen : forall k j s', (j + k = n)%nat -> I j s' -> wp (mfor (seq j k) m) Q s').
  { induction k as [|k IH]; intros j s' Hjk Hj; simpl.
    - apply wp_ret. apply HQ. by replace n with j by lia.
    - apply wp_bind. eapply wp_mono; [apply Hm; [lia|done]|].
      intros [|e|] s'' Hs''; [|done|done]. apply IH; [lia|done]. }
  by apply Hgen.
Qed.

(** The rule of a fuelled loop, without a termination argument: exhausted
    fuel is one of the outcomes [Q] has to accept. *)
Lemma wp_loop {A B} (fuel : nat) (body : A -> M St (A + B)) (I : A -> St -> Prop)
    (Q : outcome B -> St -> Prop) a s :
  I a s ->
  (forall a s, I a s ->
     wp (body a) (fun o s' => match o with
                              | Ret (inl a') => I a' s'
                              | Ret (inr b) => Q (Ret b) s'
                              | Throw e => Q (Throw e) s'
                              | Diverge => Q Diverge s'
                              end) s) ->
  (forall a s, I a s -> Q Diverge s) ->
  wp (mloop fuel body a) Q s.
Proof.
  intros HI Hb Hd. revert a s HI.
  induction fuel as [|fuel IH]; intros a s HI; simpl.
  - apply wp_diverge. eauto.
  - apply wp_bind. eapply wp_mono; [by apply Hb|].
    intros [[a'|b]|e|] s' Hs'; auto.
Qed.

(** The rule with a measure: enough fuel never runs out. *)
Lemma wp_loop_measure {A B} (mu : A -> St -> nat) (fuel : nat)
    (body : A -> M St (A + B)) (I : A -> St -> Prop)
    (Q : outcome B -> St -> Prop) a s :
  (mu a s < fuel)%nat ->
  I a s ->
  (forall a s, I a s ->
     wp (body a) (fun o s' => match o with
                              | Ret (inl a') => I a' s' /\ (mu a' s' < mu a s)%nat
                              | Ret (inr b) => Q (Ret b) s'
                              | Throw e => Q (Throw e) s'
                              | Diverge => Q Diverge s'
                              end) s) ->
  wp (mloop fuel body a) Q s.
Proof.
  intros Hf HI Hb. revert a s HI Hf.
  induction fuel as [|fuel IH]; intros a s HI Hf; [lia|]; simpl.
  apply wp_bind. eapply wp_mono; [by apply Hb|].
  intros [[a'|b]|e|] s' Hs'; auto. destruct Hs'. apply IH; [done|lia].
Qed.
End wp_rules.

(** ** Relational postconditions

    [P s A o s'] relates the state [s] before a computation with its outcome [o]
    and the state [s'] after it; the ones that compose chain through [mbind]. *)
Definition composes {St} (P : St -> forall A, outcome A -> St -> Prop) : Prop :=
  (forall s A B (a : A) (o : outcome B) s' s'', P s A (Ret a) s' -> P s' B o s'' -> P s B o s'') /\
  (forall s A B e s', P s A (Throw e) s' -> P s B (Throw e) s') /\
  (forall s A s', ~ P s A Diverge s').

Lemma wp_compose {St} (P : St -> forall A, outcome A -> St -> Prop) {A B}
    (m : M St A) (k : A -> M St B) s :
  composes P ->
  wp m (P s A) s ->
  (forall a s', P s A (Ret a) s' -> wp (k a) (P s' B) s') ->
  wp (mbind m k) (P s B) s.
Proof.
  intros (K1 & K2 & K3) Hm Hk. apply wp_bind. eapply wp_mono; [exact Hm|].
  intros [a|e|] s' HP; [|by eapply K2|by destruct (K3 _ _ _ HP)].
  eapply wp_mono; [by apply Hk|]. intros o s'' HP'. by eapply K1.
Qed.

(** One step of symbolic execution; stops at calls, which the proofs hand to
    their specifications. *)
Ltac wp_step :=
  lazymatch goal with
  | |- wp (mret _) _ _ => apply wp_ret
  | |- wp (mthrow _) _ _ => apply wp_throw
  | |- wp mdiverge _ _ => apply wp_diverge
  | |- wp mget _ _ => apply wp_get
  | |- wp (mgets _) _ _ => apply wp_gets
  | |- wp (mmodify _) _ _ => apply wp_modify
  | |- wp (mlift _ _ _) _ _ => apply wp_lift
  | |- wp (mworld _) _ _ => apply wp_world
  | |- wp (mbind _ _) _ _ => apply wp_bind
  | |- wp (own _) _ _ => apply wp_own
  | |- wp (lift_outcome _) _ _ => apply wp_outcome
  | |- wp (update _) _ _ => apply wp_update
  | |- wp world _ _ => apply wp_getworld
  | |- wp (call _) _ _ => apply wp_call
  | |- wp (effect _) _ _ => apply wp_effect
  | |- wp (outside _) _ _ => apply wp_outside
  | |- wp (zoom _ _ _) _ _ => apply wp_zoom
  | |- wp (mcatch _ _) _ _ => apply wp_catch
  | |- wp (mfinally _ _) _ _ => apply wp_finally
  | |- wp (mwhen _ _) _ _ => apply wp_when
  | |- wp (let '(_, _) := ?x in _) _ _ => destruct x eqn:?
  | |- wp (match ?x with _ => _ end) _ _ => destruct x eqn:?
  | |- wp (if ?x then _ else _) _ _ => destruct x eqn:?
  | |- (if ?x then wp _ _ _ else _) => destruct x eqn:?
  end; cbv beta iota.
Ltac wp_steps := repeat wp_step.

(** ** Small facts and automation shared by the components *)

Create HintDb l4lb.
Create Rewrite HintDb l4lb_len.

(** Boolean tests of the source as propositions. *)
Ltac bool_to_prop :=
  repeat match goal with
  | H : _ && _ = true |- _ => apply andb_true_iff in H as [? ?]
  | H : _ || _ = false |- _ => apply orb_false_iff in H as [? ?]
  | H : _ || _ = true |- _ => apply orb_true_iff in H
  | H : _ && _ = false |- _ => apply andb_false_iff in H
  | H : negb _ = true |- _ => apply negb_true_iff in H
  | H : negb _ = false |- _ => apply negb_false_iff in H
  | H : (_ =? _) = true |- _ => apply Z.eqb_eq in H
  | H : (_ =? _) = false |- _ => apply Z.eqb_neq in H
  | H : (_ <? _) = true |- _ => apply Z.ltb_lt in H
  | H : (_ <? _) = false |- _ => apply Z.ltb_ge in H
  | H : (_ <=? _) = true |- _ => apply Z.leb_le in H
  | H : (_ <=? _) = false |- _ => apply Z.leb_gt in H
  | H : bool_decide _ = true |- _ => apply bool_decide_eq_true_1 in H
  | H : bool_decide _ = false |- _ => apply bool_decide_eq_false_1 in H
  end.

Lemma code_range c : 0 <= code c < 256.
Proof.
  unfold code. pose proof (N_ascii_bounded c). lia.
Qed.

Lemma code_chr n : 0 <= n < 256 -> code (chr n) = n.
Proof.
  intros Hn. unfold code, chr. rewrite N_ascii_embedding by lia. lia.
Qed.

Lemma chr_code c : chr (code c) = c.
Proof.
  unfold chr, code. rewrite N2Z.id. apply ascii_N_embedding.
Qed.

Lemma code_inj c d : code c = code d -> c = d.
Proof. intros H. by rewrite <-(chr_code c), H, chr_code. Qed.

Lemma len_nonneg {A} (l : list A) : 0 <= len l.
Proof. unfold len. lia. Qed.

Lemma len_app {A} (l k : list A) : len (l ++ k) = len l + len k.
Proof. unfold len. rewrite length_app. lia. Qed.

Lemma len_cons {A} (x : A) l : len (x :: l) = 1 + len l.
Proof. unfold len. simpl. lia. Qed.

Lemma u8_range x : 0 <= u8 x < 256.
Proof. unfold u8. by apply Z.mod_pos_bound. Qed.
Lemma u32_range x : 0 <= u32 x < 2 ^ 32.
Proof. unfold u32. by apply Z.mod_pos_bound. Qed.
Lemma u64_range x : 0 <= u64 x < 2 ^ 64.
Proof. unfold u64. by apply Z.mod_pos_bound. Qed.
Lemma u8_small x : 0 <= x < 256 -> u8 x = x.
Proof. apply Z.mod_small. Qed.
Lemma u16_small x : 0 <= x < 65536 -> u16 x = x.
Proof. apply Z.mod_small. Qed.
Lemma u32_small x : 0 <= x < 2 ^ 32 -> u32 x = x.
Proof. apply Z.mod_small. Qed.
Lemma u64_small x : 0 <= x < 2 ^ 64 -> u64 x = x.
Proof. apply Z.mod_small. Qed.

#[export] Hint Resolve len_nonneg code_range u8_range u32_range u64_range : l4lb.
#[export] Hint Rewrite @len_app @len_cons : l4lb_len.

Lemma find_char_Some c s n :
  find_char c s = Some n <->
  (exists tl, drop n s = c :: tl) /\ c ∉ take n s.
Proof.
  revert n. induction s as [|x s IH]; intros n; simpl.
  - destruct n; simpl; split; [done| by intros [[? ?] ?] |done|by intros [[? ?] ?]].
  - destruct (decide (x = c)) as [->|Hx].
    + split.
      * intros [= <-]. split; [by eexists|set_solver].
      * intros [[tl Htl] Hn]. destruct n; [done|]. simpl in Hn. set_solver.
    + split.
      * intros (m & Hm & ->)%fmap_Some. apply IH in Hm as [Htl Hn].
        split; [done|]. simpl. set_solver.
      * intros [[tl Htl] Hn]. destruct n as [|n]; simpl in *; [congruence|].
        apply fmap_Some. exists n. split; [|done]. apply IH. set_solver.
Qed.

Lemma find_char_None c s : find_char c s = None <-> c ∉ s.
Proof.
  induction s as [|x s IH]; simpl; [set_solver|].
  destruct (decide (x = c)) as [->|Hx]; [set_solver|].
  rewrite fmap_None, IH. set_solver.
Qed.

Lemma find_char_app c s t :
  c ∉ s -> find_char c (s ++ c :: t) = Some (length s).
Proof.
  intros Hs. apply find_char_Some. rewrite drop_app_length, take_app_length.
  eauto.
Qed.

Lemma find_char_split c s n :
  find_char c s = Some n <->
  exists u v, s = u ++ c :: v /\ length u = n /\ c ∉ u.
Proof.
  rewrite find_char_Some. split.
  - intros [[tl Htl] Hn]. exists (take n s), tl. split_and!; [|rewrite length_take|done].
    + by rewrite <-Htl, take_drop.
    + assert (n < length s)%nat; [|lia]. destruct (decide (n < length s)%nat); [done|].
      rewrite drop_ge in Htl by lia. done.
  - intros (u & v & -> & <- & Hu). rewrite drop_app_length, take_app_length. eauto.
Qed.

Lemma app_cons_inj_notin (c : ascii) (u v u' v' : bytes) :
  c ∉ u -> c ∉ u' -> u ++ c :: v = u' ++ c :: v' -> u = u' /\ v = v'.
Proof.
  intros Hu Hu' H. pose proof (f_equal (find_char c) H) as Hf.
  rewrite !find_char_app in Hf by done. injection Hf as Hf.
  apply app_inj_1 in H as [-> [= ->]]; done.
Qed.

Lemma drop_app_cons_length {A} (l : list A) x k : drop (S (length l)) (l ++ x :: k) = k.
Proof. induction l; simpl; [by rewrite drop_0|done]. Qed.

Lemma list_filter_all {A} (P : A -> Prop) `{!forall x, Decision (P x)} l : Forall P l -> filter P l = l.
Proof. induction 1; [done|]. rewrite filter_cons_True by done. by f_equal. Qed.

Lemma list_filter_none {A} (P : A -> Prop) `{!forall x, Decision (P x)} l :
  Forall (fun x => ~ P x) l -> filter P l = [].
Proof. induction 1; [done|]. by rewrite filter_cons_False. Qed.
