(* ===== verification/Os.v ===== *)
(** * Interfaces to the operating system

    System calls are code outside this repository, so they are operations of a
    type class over an arbitrary world [W]; the components take an instance as
    a parameter and the witnesses supply scripted ones.  A call that can fail
    returns [inl] its value or [inr] the errno.  [FileContent] is the documented
    behaviour of [read] on a regular file. *)
From S2P Require Import Prelude.

Inductive OpenFlag := O_RDONLY | O_NONBLOCK | O_CLOEXEC | O_NOFOLLOW.

(** The fields of [struct stat] that the source looks at. *)
Record FileStat := mkFileStat {
  st_isreg : bool;
  st_size : Z;
  st_dev : Z;
  st_ino : Z;
  st_mtim : Z * Z;
  st_ctim : Z * Z
}.

Class FileOps (W : Type) := {
  os_open : bytes -> list OpenFlag -> W -> (Z + Z) * W;
  os_fstat : Z -> W -> (FileStat + Z) * W;
  os_read : Z -> Z -> W -> (bytes + Z) * W;
  os_close : Z -> W -> W;
  os_strerror : Z -> bytes
}.

(** [content w fd] is what remains to be read from [fd]: a read returns a
    prefix of it, at most as long as asked for, and the empty prefix only at
    the end of the file. *)
Class FileContent (W : Type) `{FileOps W} := {
  content : W -> Z -> bytes;
  os_read_content : forall fd limit w, 0 < limit ->
    match os_read fd limit w with
    | (inl chunk, w') =>
        content w fd = chunk ++ content w' fd /\ len chunk <= limit /\
        (chunk = [] -> content w fd = [])
    | (inr _, w') => content w' fd = content w fd
    end
}.

(** A scripted file system for the witnesses: one regular file, read in
    chunks of at most [chunk_size] bytes; closed descriptors are recorded. *)
Module ScriptedFile.
Record world := mkWorld {
  remaining : bytes;
  chunk_size : Z;
  closed : list Z
}.

#[global] Instance ops : FileOps world := {
  os_open _ _ w := (inl 3, w);
  os_fstat _ w := (inl (mkFileStat true (len (remaining w)) 1 1 (0, 0) (0, 0)), w);
  os_read _ limit w :=
    let n := Z.to_nat (Z.min limit (Z.max 1 (chunk_size w))) in
    (inl (take n (remaining w)), mkWorld (drop n (remaining w)) (chunk_size w) (closed w));
  os_close fd w := mkWorld (remaining w) (chunk_size w) (fd :: closed w);
  os_strerror _ := bs "error"
}.

#[global] Instance file_content : FileContent world.
Proof.
  refine {| content w _ := remaining w |}.
  intros fd limit w Hl. simpl. split_and!.
  - by rewrite take_drop.
  - unfold len. rewrite length_take. lia.
  - intros Ht. destruct (remaining w) as [|c r] eqn:E; [done|].
    destruct (Z.to_nat _) eqn:En; [lia|done].
Defined.
End ScriptedFile.
