(* ===== verification/Fd.v ===== *)
(** * Unique ownership of descriptors (src/src/net/Fd.h)

    The class whose objects are the descriptor members of both reactors, of the
    health checker and of the runtime mode.  The objects of a program live in a
    store; a history of their operations closes every descriptor it was given
    exactly once, or still holds it in exactly one object. *)
From S2P Require Import Prelude.

(** ** Objects and their operations *)

(** The object's name and its [fd_]; [closes] are the calls of [::close], the
    last first. *)
Record FdStore := mkFdStore {
  objects : gmap nat Z;
  closes : list Z
}.

Definition set_fd (o : nat) (f : Z) (s : FdStore) : FdStore :=
  mkFdStore (<[o := f]> (objects s)) (closes s).

(** [if (fd_ >= 0) ::close(std::exchange(fd_, -1));] *)
Definition closeFd (o : nat) (s : FdStore) : FdStore :=
  match objects s !! o with
  | Some f => if 0 <=? f then mkFdStore (<[o := -1]> (objects s)) (f :: closes s) else s
  | None => s
  end.

(** [std::exchange(other.fd_, -1)] *)
Definition exchangeFd (other : nat) (s : FdStore) : Z * FdStore :=
  (default (-1) (objects s !! other), set_fd other (-1) s).

Inductive FdOperation :=
| Construct (o : nat) (fd : Z)
| MoveConstruct (o other : nat)
| MoveAssign (o other : nat)
| Close (o : nat)
| Destroy (o : nat).

(** What C++ asks of the program: an object is constructed once and used only
    while it lives. *)
Definition wellFormed (op : FdOperation) (s : FdStore) : bool :=
  let alive o := bool_decide (is_Some (objects s !! o)) in
  match op with
  | Construct o _ => negb (alive o)
  | MoveConstruct o other => negb (alive o) && alive other
  | MoveAssign o other => alive o && alive other
  | Close o | Destroy o => alive o
  end.

Definition fdStep (op : FdOperation) (s : FdStore) : FdStore :=
  match op with
  | Construct o fd => set_fd o fd s
  | MoveConstruct o other => let '(f, s) := exchangeFd other s in set_fd o f s
  | MoveAssign o other =>
      if bool_decide (o = other) then s
      else let '(f, s) := exchangeFd other (closeFd o s) in set_fd o f s
  | Close o => closeFd o s
  | Destroy o => let s := closeFd o s in mkFdStore (delete o (objects s)) (closes s)
  end.

Inductive fd_history : list FdOperation -> FdStore -> Prop :=
| fd_start : fd_history [] (mkFdStore ∅ [])
| fd_more ops op s : fd_history ops s -> wellFormed op s = true -> fd_history (op :: ops) (fdStep op s).

(** The descriptors that a history was given. *)
Definition given (ops : list FdOperation) : list Z :=
  omap (fun op => match op with Construct _ fd => if 0 <=? fd then Some fd else None | _ => None end) ops.

(** The descriptors in the objects. *)
Definition owned (m : gmap nat Z) : list Z := filter (fun f => 0 <= f) (snd <$> map_to_list m).

(** ** Properties *)

Definition holding (f : Z) : list Z := filter (fun f => 0 <= f) [f].

Lemma holding_negative f : f < 0 -> holding f = [].
Proof. intros Hf. unfold holding. by rewrite filter_cons_False by lia. Qed.

Lemma holding_positive f : 0 <= f -> holding f = [f].
Proof. intros Hf. unfold holding. by rewrite filter_cons_True. Qed.

Lemma owned_insert m o f : m !! o = None -> owned (<[o := f]> m) ≡ₚ holding f ++ owned m.
Proof.
  intros Ho. unfold owned, holding. rewrite map_to_list_insert by done.
  by rewrite fmap_cons, <-filter_app.
Qed.

Lemma owned_lookup m o f : m !! o = Some f -> owned m ≡ₚ holding f ++ owned (delete o m).
Proof.
  intros Ho. rewrite <-(insert_delete_id m o f) at 1 by done. apply owned_insert. apply lookup_delete_eq.
Qed.

Lemma owned_set m o f f' : m !! o = Some f -> owned (<[o := f']> m) ≡ₚ holding f' ++ owned (delete o m).
Proof.
  intros Ho. rewrite <-insert_delete_eq. apply owned_insert, lookup_delete_eq.
Qed.

(** The descriptors of a store, closed or held. *)
Definition accounted (s : FdStore) : list Z := closes s ++ owned (objects s).

Lemma closeFd_accounted o s : accounted (closeFd o s) ≡ₚ accounted s.
Proof.
  unfold closeFd, accounted. destruct (objects s !! o) as [f|] eqn:Ho; [|done].
  destruct (Z.leb_spec 0 f) as [Hf|]; [|done]. cbn [closes objects].
  rewrite (owned_set _ _ _ _ Ho), (owned_lookup _ _ _ Ho).
  rewrite (holding_negative (-1)), (holding_positive f) by lia. cbn. by rewrite <-Permutation_middle.
Qed.

Lemma closeFd_alive o o' s :
  is_Some (objects (closeFd o s) !! o') <-> is_Some (objects s !! o').
Proof.
  unfold closeFd. destruct (objects s !! o) as [f|] eqn:Ho; [|done].
  destruct (0 <=? f); [|done]. cbn. destruct (decide (o = o')) as [->|].
  - rewrite lookup_insert_eq, Ho. by split; eauto.
  - by rewrite lookup_insert_ne.
Qed.

Lemma closeFd_released o s : is_Some (objects s !! o) ->
  exists f, objects (closeFd o s) !! o = Some f /\ f < 0.
Proof.
  intros [f Ho]. unfold closeFd. rewrite Ho. destruct (Z.leb_spec 0 f).
  - exists (-1). cbn. by rewrite lookup_insert_eq.
  - by exists f.
Qed.

(** The object's descriptor moves into an object that holds none. *)
Lemma move_accounted o other s :
  o <> other -> is_Some (objects s !! other) ->
  (forall f, objects s !! o = Some f -> f < 0) ->
  accounted (let '(f, s) := exchangeFd other s in set_fd o f s) ≡ₚ accounted s.
Proof.
  intros Hne [f Hf] Hempty. unfold exchangeFd, set_fd, accounted. cbn. rewrite Hf. cbn. f_equiv.
  assert (Hother : owned (<[other := -1]> (objects s)) ≡ₚ owned (delete other (objects s)))
    by exact (owned_set _ _ _ (-1) Hf).
  rewrite (owned_lookup _ _ _ Hf). destruct (objects s !! o) as [g|] eqn:Ho.
  - assert (Ho' : <[other := -1]> (objects s) !! o = Some g) by by rewrite lookup_insert_ne.
    rewrite (owned_set _ _ _ _ Ho'), <-Hother, (owned_lookup _ _ _ Ho').
    by rewrite (holding_negative g) by by apply Hempty.
  - rewrite owned_insert by by rewrite lookup_insert_ne. by rewrite Hother.
Qed.

Lemma fdStep_accounted op s : wellFormed op s = true ->
  accounted (fdStep op s) ≡ₚ given [op] ++ accounted s.
Proof.
  destruct op as [o fd|o other|o other|o|o]; cbn [wellFormed fdStep]; intros Hw.
  - apply negb_true_iff, bool_decide_eq_false_1, eq_None_not_Some in Hw.
    unfold accounted, set_fd. cbn. rewrite owned_insert by done.
    destruct (Z.leb_spec 0 fd); [rewrite holding_positive by done|by rewrite holding_negative].
    cbn. by rewrite <-Permutation_middle.
  - apply andb_true_iff in Hw as [Hn Ho]. apply negb_true_iff, bool_decide_eq_false_1, eq_None_not_Some in Hn.
    apply bool_decide_eq_true_1 in Ho. apply move_accounted; [|done|congruence].
    intros ->. destruct Ho. congruence.
  - apply andb_true_iff in Hw as [Ha%bool_decide_eq_true_1 Ho%bool_decide_eq_true_1].
    case_bool_decide as Hd; [done|]. etrans; [|apply (closeFd_accounted o)].
    apply move_accounted; [done|by apply closeFd_alive|].
    intros f Hf. destruct (closeFd_released o s Ha) as (g & Hg & ?). congruence.
  - apply closeFd_accounted.
  - apply bool_decide_eq_true_1 in Hw. cbn. rewrite <-(closeFd_accounted o s).
    destruct (closeFd_released o s Hw) as (g & Hg & Hneg). unfold accounted. cbn.
    by rewrite (owned_lookup _ _ _ Hg), holding_negative.
Qed.

(** C34: unique ownership.  Whatever objects a program constructs, moves, assigns,
    closes and destroys, every descriptor it put into an object has been closed
    exactly once or is held by exactly one object, a moved-from object holds
    none; and when no object is left every descriptor has been closed once. *)
Theorem fd_closed_once ops s :
  fd_history ops s ->
  given ops ≡ₚ closes s ++ owned (objects s) /\
  (objects s = ∅ -> closes s ≡ₚ given ops) /\
  (forall o other, wellFormed (MoveAssign o other) s = true -> o <> other ->
     objects (fdStep (MoveAssign o other) s) !! other = Some (-1)).
Proof.
  intros Hh. assert (Ha : given ops ≡ₚ accounted s).
  { induction Hh as [|ops op s _ IH Hw]; [done|]. rewrite (fdStep_accounted _ _ Hw), <-IH.
    apply reflexive_eq. unfold given. cbn. by destruct op as [? fd| | | |]; try destruct (0 <=? fd). }
  split; [exact Ha|]. split.
  - intros He. rewrite Ha. unfold accounted. rewrite He. unfold owned. rewrite map_to_list_empty.
    by rewrite app_nil_r.
  - intros o other _ Hne. cbn [fdStep]. rewrite bool_decide_false by done. cbn.
    by rewrite lookup_insert_ne, lookup_insert_eq.
Qed.

(** Two descriptors: one is moved over the other, closed by hand, and both
    objects are destroyed. *)
Definition sampleHistory : list FdOperation :=
  [Destroy 2; Destroy 1; Close 1; MoveAssign 1 2; Construct 2 4; Construct 1 3].
Definition sampleStore : FdStore := foldr fdStep (mkFdStore ∅ []) sampleHistory.

Lemma fd_closed_once_witness :
  fd_history sampleHistory sampleStore /\ objects sampleStore = ∅ /\ closes sampleStore ≡ₚ [4; 3].
Proof.
  assert (Hh : fd_history sampleHistory sampleStore)
    by (unfold sampleStore, sampleHistory; cbn [foldr]; repeat (apply fd_more; [|reflexivity]); apply fd_start).
  assert (He : objects sampleStore = ∅) by reflexivity.
  split; [exact Hh|]. split; [exact He|]. exact (proj1 (proj2 (fd_closed_once _ _ Hh)) He).
Defined.
