(* ===== verification/Config.v ===== *)
(** * Configuration (src/src/config/Config.h, src/src/config/Config.cpp)

    The value types, the pure line-oriented parser [parseConfig] and the bounded
    file reader [loadConfig], with: exactness of the decimal parser, the round
    trip of endpoints through [formatEndpoint] (src/src/control/TcpService.cpp),
    validity of every accepted configuration, the round trip of configurations
    through a canonical rendering, the position reported with an error, and the
    independence of [loadConfig] from the sizes of the reads. *)
From S2P Require Import Prelude Os.

(** ** Data (Config.h) *)

Record Endpoint := mkEndpoint {
  address : list Z;   (* std::array<uint8_t, 4> *)
  port : Z            (* uint16_t *)
}.

Inductive Protocol := kTcp | kUdp.
Inductive MetricsKind := kMetricsOff | kMetricsStderr.
Inductive HealthCheck := kHealthOff | kHealthTcpConnect.
Inductive SchedulerKind := kRoundRobin.

Record Config := mkConfig {
  listen : Endpoint;
  backends : list Endpoint;
  protocol : Protocol;
  metrics : MetricsKind;
  healthCheck : HealthCheck;
  scheduler : SchedulerKind
}.

Inductive ErrorKind := kFile | kSyntax | kField | kMissing.

Record ConfigError := mkConfigError {
  err_kind : ErrorKind;
  err_line : Z;
  err_eof : bool;
  err_message : bytes
}.

Definition ConfigResult : Type := Config + ConfigError.

#[export] Instance endpoint_eq_dec : EqDecision Endpoint.
Proof. solve_decision. Defined.
#[export] Instance protocol_eq_dec : EqDecision Protocol.
Proof. solve_decision. Defined.
#[export] Instance metrics_kind_eq_dec : EqDecision MetricsKind.
Proof. solve_decision. Defined.
#[export] Instance health_check_eq_dec : EqDecision HealthCheck.
Proof. solve_decision. Defined.
#[export] Instance scheduler_kind_eq_dec : EqDecision SchedulerKind.
Proof. solve_decision. Defined.
#[export] Instance config_eq_dec : EqDecision Config.
Proof. solve_decision. Defined.
#[export] Instance error_kind_eq_dec : EqDecision ErrorKind.
Proof. solve_decision. Defined.
#[export] Instance config_error_eq_dec : EqDecision ConfigError.
Proof. solve_decision. Defined.

Definition kMaxConfigBytes : Z := 65536.

Definition emptyEndpoint : Endpoint := mkEndpoint [0; 0; 0; 0] 0.

Definition emptyConfig : Config :=
  mkConfig emptyEndpoint [] kTcp kMetricsOff kHealthOff kRoundRobin.

(** ** Field parsers (Config.cpp, anonymous namespace) *)

Definition makeConfigLineError (kind : ErrorKind) (lineNumber : Z) (message : string)
    : ConfigError :=
  mkConfigError kind lineNumber false (bs message).

Definition makeConfigFileError (path reason : bytes) : ConfigResult :=
  inr (mkConfigError kFile 0 false (bs "文件 " ++ path ++ bs "：" ++ reason)).

Definition isBlank (c : ascii) : bool :=
  bool_decide (c = " "%char) || bool_decide (c = "009"%char).

(** [find_first_not_of] / [find_last_not_of] blank; empty when there is none. *)
Definition trimConfigWhitespace (value : bytes) : bytes :=
  match find_if (fun c => negb (isBlank c)) value with
  | None => []
  | Some first =>
      match find_if (fun c => negb (isBlank c)) (rev value) with
      | None => []
      | Some fromEnd =>
          let last := (length value - 1 - fromEnd)%nat in
          take (last - first + 1) (drop first value)
      end
  end.

Fixpoint parseUnsignedDecimal_loop (value : bytes) (maximum result : Z) : option Z :=
  match value with
  | [] => Some result
  | character :: rest =>
      if (code character <? code "0") || (code character >? code "9") then None else
      let digit := code character - code "0" in
      if result >? u32 (maximum - digit) / 10 then None else
      parseUnsignedDecimal_loop rest maximum (u32 (result * 10 + digit))
  end.

Definition parseUnsignedDecimal (value : bytes) (maximum : Z) : option Z :=
  if bool_decide (value = []) ||
     ((1 <? len value) && bool_decide (head value = Some "0"%char))
  then None
  else
    match parseUnsignedDecimal_loop value maximum 0 with
    | None => None
    | Some result => if result >? maximum then None else Some result
    end.

(** The four-iteration loop over the octets; [addressOctetIndex] counts up
    while [todo] counts down. *)
Fixpoint parseIpv4Octets (todo addressOctetIndex : nat) (address : bytes)
    (result : list Z) : option (list Z) :=
  match todo with
  | O => Some result
  | S todo' =>
      let dot := find_char "." address in
      if negb (Bool.eqb (bool_decide (addressOctetIndex < 3)%nat)
                        (bool_decide (dot <> None)))
      then None
      else
        match parseUnsignedDecimal (prefix_to dot address) 255 with
        | None => None
        | Some part =>
            let result' := <[addressOctetIndex := u8 part]> result in
            let address' :=
              match dot with
              | Some d => if bool_decide (addressOctetIndex < 3)%nat
                          then drop (d + 1) address else address
              | None => address
              end in
            parseIpv4Octets todo' (S addressOctetIndex) address' result'
        end
  end.

Definition parseIpv4Endpoint (value : bytes) (backend : bool) : option Endpoint :=
  match find_char ":" value with
  | None => None
  | Some colon =>
      match parseUnsignedDecimal (drop (colon + 1) value) 65535 with
      | None => None
      | Some p =>
          if p =? 0 then None else
          match parseIpv4Octets 4 0 (take colon value) [0; 0; 0; 0] with
          | None => None
          | Some addressBytes =>
              let a0 := nth 0 addressBytes 0 in
              if ((224 <=? a0) && (a0 <=? 239)) ||
                 bool_decide (addressBytes = [255; 255; 255; 255]) ||
                 (backend && bool_decide (addressBytes = [0; 0; 0; 0]))
              then None
              else Some (mkEndpoint addressBytes (u16 p))
          end
      end
  end.

(** ** The line loop of [parseConfig] *)

Record ParseState := mkParseState {
  config : Config;
  hasListen : bool;
  hasProtocol : bool;
  hasScheduler : bool;
  hasHealth : bool;
  hasMetrics : bool
}.

Definition initialParseState : ParseState :=
  mkParseState emptyConfig false false false false false.

Definition set_listen (e : Endpoint) (c : Config) : Config :=
  mkConfig e (backends c) (protocol c) (metrics c) (healthCheck c) (scheduler c).
Definition set_backends (l : list Endpoint) (c : Config) : Config :=
  mkConfig (listen c) l (protocol c) (metrics c) (healthCheck c) (scheduler c).
Definition set_protocol (p : Protocol) (c : Config) : Config :=
  mkConfig (listen c) (backends c) p (metrics c) (healthCheck c) (scheduler c).
Definition set_metrics (m : MetricsKind) (c : Config) : Config :=
  mkConfig (listen c) (backends c) (protocol c) m (healthCheck c) (scheduler c).
Definition set_healthCheck (h : HealthCheck) (c : Config) : Config :=
  mkConfig (listen c) (backends c) (protocol c) (metrics c) h (scheduler c).
Definition set_scheduler (k : SchedulerKind) (c : Config) : Config :=
  mkConfig (listen c) (backends c) (protocol c) (metrics c) (healthCheck c) k.

(** One [key = value] field: the dispatch on the key. *)
Definition parseConfigField (st : ParseState) (lineNumber : Z) (key value : bytes)
    : ParseState + ConfigError :=
  let error kind message := inr (makeConfigLineError kind lineNumber message) in
  let '(mkParseState c hl hp hs hh hm) := st in
  if bool_decide (key = bs "protocol") then
    if hp then error kField "protocol 不能重复" else
    if bool_decide (value = bs "tcp") then
      inl (mkParseState (set_protocol kTcp c) hl true hs hh hm)
    else if bool_decide (value = bs "udp") then
      inl (mkParseState (set_protocol kUdp c) hl true hs hh hm)
    else error kField "protocol 仅支持 tcp/udp"
  else if bool_decide (key = bs "metrics") then
    if hm then error kField "metrics 不能重复" else
    if bool_decide (value = bs "off") then
      inl (mkParseState (set_metrics kMetricsOff c) hl hp hs hh true)
    else if bool_decide (value = bs "stderr") then
      inl (mkParseState (set_metrics kMetricsStderr c) hl hp hs hh true)
    else error kField "metrics 仅支持 off/stderr"
  else if bool_decide (key = bs "health_check") then
    if hh then error kField "health_check 不能重复" else
    if bool_decide (value = bs "off") then
      inl (mkParseState (set_healthCheck kHealthOff c) hl hp hs true hm)
    else if bool_decide (value = bs "tcp_connect") then
      inl (mkParseState (set_healthCheck kHealthTcpConnect c) hl hp hs true hm)
    else error kField "health_check 仅支持 off/tcp_connect"
  else if bool_decide (key = bs "scheduler") then
    if hs then error kField "scheduler 不能重复" else
    if bool_decide (value <> bs "round_robin") then
      error kField "scheduler 仅支持 round_robin"
    else inl (mkParseState (set_scheduler kRoundRobin c) hl hp true hh hm)
  else if bool_decide (key <> bs "listen") && bool_decide (key <> bs "backend") then
    error kField "未知配置键"
  else if bool_decide (key = bs "listen") && hl then
    error kField "listen 不能重复"
  else
    match parseIpv4Endpoint value (bool_decide (key = bs "backend")) with
    | None => error kField "无效的 IPv4 地址或端口"
    | Some parsed =>
        if bool_decide (key = bs "listen") then
          inl (mkParseState (set_listen parsed c) true hp hs hh hm)
        else if len (backends c) =? 256 then
          error kField "backend 最多 256 个"
        else if bool_decide (parsed ∈ backends c) then
          error kField "backend 端点不能重复"
        else inl (mkParseState (set_backends (backends c ++ [parsed]) c) hl hp hs hh hm)
    end.

(** The body of the loop for one line (without its terminator). *)
Definition parseConfigLine (st : ParseState) (lineNumber : Z) (line : bytes)
    : ParseState + ConfigError :=
  let error kind message := inr (makeConfigLineError kind lineNumber message) in
  if bool_decide ("000"%char ∈ line) || bool_decide ("013"%char ∈ line) ||
     contains [chr 239; chr 187; chr 191] line
  then error kSyntax "不允许 NUL、BOM 或孤立 CR"
  else
    let line := trimConfigWhitespace line in
    if bool_decide (line = []) || bool_decide (head line = Some "#"%char)
    then inl st
    else
      match find_char "=" line with
      | None => error kSyntax "每个字段必须恰有一个等号"
      | Some equal =>
          if bool_decide (find_char "=" (drop (equal + 1) line) <> None)
          then error kSyntax "每个字段必须恰有一个等号"
          else
            let key := trimConfigWhitespace (take equal line) in
            let value := trimConfigWhitespace (drop (equal + 1) line) in
            if bool_decide (key = []) || bool_decide (value = [])
            then error kSyntax "键和值不能为空"
            else parseConfigField st lineNumber key value
      end.

(** [text.substr(0, newline)], a trailing CR dropped when there is a newline,
    and the remaining text. *)
Definition splitConfigLine (text : bytes) : bytes * bytes :=
  match find_char "010" text with
  | Some newline =>
      let line := take newline text in
      (match last line with
       | Some c => if bool_decide (c = "013"%char) then take (length line - 1) line else line
       | None => line
       end, drop (newline + 1) text)
  | None => (text, [])
  end.

(** [while (!text.empty())]; the text gets shorter, so its length is fuel. *)
Fixpoint parseConfigLoop (fuel : nat) (text : bytes) (lineNumber : Z) (st : ParseState)
    : option (ParseState * Z + ConfigError) :=
  match text with
  | [] => Some (inl (st, lineNumber))
  | _ :: _ =>
      match fuel with
      | O => None
      | S fuel' =>
          let lineNumber := lineNumber + 1 in
          let '(line, rest) := splitConfigLine text in
          match parseConfigLine st lineNumber line with
          | inr e => Some (inr e)
          | inl st' => parseConfigLoop fuel' rest lineNumber st'
          end
      end
  end.

Definition parseConfig (text : bytes) : option ConfigResult :=
  if len text >? kMaxConfigBytes then
    Some (inr (mkConfigError kFile 0 false (bs "配置超过 65536 字节")))
  else
    match parseConfigLoop (length text) text 0 initialParseState with
    | None => None
    | Some (inr e) => Some (inr e)
    | Some (inl (st, lineNumber)) =>
        if negb (hasListen st) || bool_decide (backends (config st) = []) then
          Some (inr (mkConfigError kMissing (lineNumber + 1) true
                       (bs "必须包含一个 listen 和至少一个 backend")))
        else Some (inl (config st))
    end.

(** ** Reading the file *)

Section load.
Context {W : Type} `{FileOps W}.

(** [while (contents.size() <= kMaxConfigBytes)]: every pass that does not
    return appends at least one byte. *)
Definition loadConfigRead (path : bytes) (fd : Z) : M W ConfigResult :=
  mloop (Z.to_nat (kMaxConfigBytes + 2)) (fun contents =>
    if len contents <=? kMaxConfigBytes then
      let limit := Z.min 4096 (kMaxConfigBytes + 1 - len contents) in
      count <- mworld (os_read fd limit) ;;
      match count with
      | inr errno => mret (inr (makeConfigFileError path (os_strerror errno)))
      | inl [] =>
          match parseConfig contents with
          | Some result => mret (inr result)
          | None => mdiverge
          end
      | inl chunk => mret (inl (contents ++ chunk))
      end
    else mret (inr (makeConfigFileError path (bs "配置超过 65536 字节")))) [].

Definition loadConfig (path : bytes) : M W ConfigResult :=
  file <- mworld (os_open path [O_RDONLY; O_NONBLOCK; O_CLOEXEC]) ;;
  match file with
  | inr errno => mret (makeConfigFileError path (os_strerror errno))
  | inl fd =>
      mfinally
        (info <- mworld (os_fstat fd) ;;
         match info with
         | inr errno => mret (makeConfigFileError path (os_strerror errno))
         | inl st =>
             if negb (st_isreg st) then
               mret (makeConfigFileError path (bs "必须为普通文件"))
             else loadConfigRead path fd
         end)
        (os_close fd)
  end.
End load.

(** ** Printing endpoints (src/src/control/TcpService.cpp) *)

Definition formatEndpoint (endpoint : Endpoint) : bytes :=
  let a i := to_string (nth i (address endpoint) 0) in
  a 0%nat ++ bs "." ++ a 1%nat ++ bs "." ++ a 2%nat ++ bs "." ++ a 3%nat ++ bs ":" ++
  to_string (port endpoint).

(** ** Specification: valid configurations and a canonical rendering *)

Definition octet (x : Z) : Prop := 0 <= x < 256.

Definition valid_listen (e : Endpoint) : Prop :=
  length (address e) = 4%nat /\ Forall octet (address e) /\ 0 < port e < 65536 /\
  ~ (224 <= nth 0 (address e) 0 <= 239) /\ address e <> [255; 255; 255; 255].

Definition valid_backend (e : Endpoint) : Prop :=
  valid_listen e /\ address e <> [0; 0; 0; 0].

Definition valid_config (c : Config) : Prop :=
  valid_listen (listen c) /\ Forall valid_backend (backends c) /\
  NoDup (backends c) /\ 1 <= len (backends c) <= 256.

Definition render_protocol (p : Protocol) : bytes :=
  match p with kTcp => bs "tcp" | kUdp => bs "udp" end.
Definition render_metrics (m : MetricsKind) : bytes :=
  match m with kMetricsOff => bs "off" | kMetricsStderr => bs "stderr" end.
Definition render_health (h : HealthCheck) : bytes :=
  match h with kHealthOff => bs "off" | kHealthTcpConnect => bs "tcp_connect" end.

Definition config_fields (c : Config) : list (bytes * bytes) :=
  (bs "protocol", render_protocol (protocol c)) ::
  (bs "metrics", render_metrics (metrics c)) ::
  (bs "health_check", render_health (healthCheck c)) ::
  (bs "scheduler", bs "round_robin") ::
  (bs "listen", formatEndpoint (listen c)) ::
  map (fun e => (bs "backend", formatEndpoint e)) (backends c).

Definition render_field (f : bytes * bytes) : bytes := f.1 ++ bs "=" ++ f.2 ++ ["010"%char].
Definition render_config (c : Config) : bytes := concat (map render_field (config_fields c)).

(** The lines of a text: terminated by LF (one CR before it dropped), the last
    one possibly unterminated. *)
Definition strip_cr (line : bytes) : bytes :=
  match last line with
  | Some c => if bool_decide (c = "013"%char) then take (length line - 1) line else line
  | None => line
  end.

Fixpoint split_lines (cur text : bytes) : list bytes :=
  match text with
  | [] => if bool_decide (cur = []) then [] else [cur]
  | c :: text' =>
      if bool_decide (c = "010"%char) then strip_cr cur :: split_lines [] text'
      else split_lines (cur ++ [c]) text'
  end.

Definition config_lines (text : bytes) : list bytes := split_lines [] text.

Fixpoint fold_lines (lines : list bytes) (n : Z) (st : ParseState)
    : ParseState * Z + ConfigError :=
  match lines with
  | [] => inl (st, n)
  | line :: lines' =>
      match parseConfigLine st (n + 1) line with
      | inr e => inr e
      | inl st' => fold_lines lines' (n + 1) st'
      end
  end.

(** The parser as a fold over the lines of the text. *)
Definition parse_reference (text : bytes) : ConfigResult :=
  if len text >? kMaxConfigBytes then
    inr (mkConfigError kFile 0 false (bs "配置超过 65536 字节"))
  else
    match fold_lines (config_lines text) 0 initialParseState with
    | inr e => inr e
    | inl (st, n) =>
        if negb (hasListen st) || bool_decide (backends (config st) = []) then
          inr (mkConfigError kMissing (n + 1) true
                 (bs "必须包含一个 listen 和至少一个 backend"))
        else inl (config st)
    end.

(** What the loop keeps true of the fields read so far. *)
Definition parse_state_ok (st : ParseState) : Prop :=
  (hasListen st = true -> valid_listen (listen (config st))) /\
  Forall valid_backend (backends (config st)) /\
  NoDup (backends (config st)) /\ len (backends (config st)) <= 256.

(** Characters that no part of the line syntax reacts to. *)
Definition plain (c : ascii) : bool :=
  negb (isBlank c) && negb (bool_decide (c ∈ ["000"; "010"; "013"; "="; "#"; chr 239]%char)).

(** ** Decimal numbers *)

Definition is_digit (c : ascii) : Prop := 48 <= code c <= 57.
Definition dec_step (r : Z) (c : ascii) : Z := r * 10 + (code c - 48).
Definition dec_value (s : bytes) : Z := foldl dec_step 0 s.
Definition canonical_decimal (s : bytes) : Prop :=
  s <> [] /\ Forall is_digit s /\ (1 < len s -> head s <> Some "0"%char).

#[export] Instance is_digit_dec c : Decision (is_digit c).
Proof. unfold is_digit. apply _. Defined.

Lemma decimal_loop_acc fuel n acc :
  decimal_loop fuel n acc = decimal_loop fuel n [] ++ acc.
Proof.
  revert n acc. induction fuel as [|fuel IH]; intros n acc; simpl; [done|].
  destruct (n <? 10); [done|]. rewrite IH, (IH _ [_]), <-(assoc_L _). done.
Qed.

Lemma decimal_loop_S fuel n :
  decimal_loop (S fuel) n [] =
  (if n <? 10 then [] else decimal_loop fuel (n / 10) []) ++ [chr (48 + n mod 10)].
Proof. simpl. destruct (n <? 10); [done|]. apply decimal_loop_acc. Qed.

Lemma code_digit n : 0 <= n -> code (chr (48 + n mod 10)) = 48 + n mod 10.
Proof. intros. apply code_chr. pose proof (Z.mod_pos_bound n 10). lia. Qed.

Lemma decimal_loop_digits fuel n :
  0 <= n -> Forall is_digit (decimal_loop fuel n []).
Proof.
  revert n. induction fuel as [|fuel IH]; intros n Hn; [constructor|].
  rewrite decimal_loop_S. apply Forall_app. split.
  - destruct (n <? 10); [constructor|]. apply IH. by apply Z.div_pos.
  - constructor; [|constructor]. unfold is_digit. rewrite code_digit by done.
    pose proof (Z.mod_pos_bound n 10). lia.
Qed.

Lemma to_string_digits n : 0 <= n -> Forall is_digit (to_string n).
Proof. apply decimal_loop_digits. Qed.

Lemma decimal_loop_length fuel n : (length (decimal_loop fuel n []) <= fuel)%nat.
Proof.
  revert n. induction fuel as [|fuel IH]; intros n; [done|].
  rewrite decimal_loop_S, length_app. simpl. destruct (n <? 10); simpl; [lia|].
  specialize (IH (n / 10)). lia.
Qed.

Lemma to_string_length n : (length (to_string n) <= 20)%nat.
Proof. apply decimal_loop_length. Qed.

Lemma dec_value_snoc s c : dec_value (s ++ [c]) = dec_value s * 10 + (code c - 48).
Proof. unfold dec_value. by rewrite foldl_app. Qed.

Lemma div10_bound fuel n :
  10 <= n < 10 ^ Z.of_nat (S fuel) -> 1 <= n / 10 < 10 ^ Z.of_nat fuel.
Proof.
  rewrite Nat2Z.inj_succ, Z.pow_succ_r by lia. intros Hn. split.
  - apply Z.div_le_lower_bound; lia.
  - apply Z.div_lt_upper_bound; lia.
Qed.

Lemma decimal_loop_value fuel n :
  0 <= n < 10 ^ Z.of_nat fuel -> dec_value (decimal_loop fuel n []) = n.
Proof.
  revert n. induction fuel as [|fuel IH]; intros n Hn.
  - simpl in *. unfold dec_value. simpl. lia.
  - rewrite decimal_loop_S, dec_value_snoc, code_digit by lia.
    destruct (Z.ltb_spec n 10).
    + rewrite Z.mod_small by lia. unfold dec_value. simpl. lia.
    + rewrite IH.
      * pose proof (Z.div_mod n 10). lia.
      * pose proof (div10_bound fuel n). lia.
Qed.

Lemma to_string_value n : 0 <= n < 2 ^ 64 -> dec_value (to_string n) = n.
Proof. intros. apply decimal_loop_value. lia. Qed.

Lemma dec_value_nonneg s : Forall is_digit s -> 0 <= dec_value s.
Proof.
  induction s as [|c s IH] using rev_ind; intros Hs; [done|].
  apply Forall_app in Hs as [Hs Hc]. apply Forall_inv in Hc. unfold is_digit in Hc.
  rewrite dec_value_snoc. specialize (IH Hs). lia.
Qed.

Lemma canonical_decimal_init s c :
  canonical_decimal (s ++ [c]) -> s <> [] -> canonical_decimal s /\ head s <> Some "0"%char.
Proof.
  intros (_ & Hd & Hz) Hs. apply Forall_app in Hd as [Hd _].
  assert (Hh : head s <> Some "0"%char).
  { destruct s as [|x s]; [done|]. apply Hz. rewrite len_app. unfold len. simpl. lia. }
  split; [|done]. by split_and!.
Qed.

Lemma dec_value_lower s :
  canonical_decimal s -> 1 < len s -> 10 ^ (len s - 1) <= dec_value s.
Proof.
  induction s as [|c s IH] using rev_ind; intros Hc Hl; [done|].
  rewrite len_app in *. change (len [c]) with 1 in *. rewrite dec_value_snoc.
  assert (Hcd : is_digit c) by (destruct Hc as (_ & Hd & _);
    apply Forall_app in Hd as [_ Hd]; by apply Forall_inv in Hd).
  unfold is_digit in Hcd.
  destruct (canonical_decimal_init s c) as [Hs Hh]; [done|by intros ->|].
  replace (len s + 1 - 1) with (Z.succ (len s - 1)) by lia.
  rewrite Z.pow_succ_r by lia.
  destruct (decide (1 < len s)); [specialize (IH Hs); lia|].
  destruct s as [|x [|y s]]; [done| |unfold len in *; simpl in *; lia].
  destruct Hs as (_ & Hx & _). apply Forall_inv in Hx. unfold is_digit in Hx.
  assert (code x <> 48) by (intros Hx0; apply Hh; simpl; f_equal; by apply code_inj).
  unfold dec_value, dec_step, len. simpl. lia.
Qed.

Lemma decimal_loop_canonical fuel s :
  canonical_decimal s -> (length s <= fuel)%nat -> decimal_loop fuel (dec_value s) [] = s.
Proof.
  revert fuel. induction s as [|c s IH] using rev_ind; intros fuel Hc Hf; [by destruct Hc|].
  rewrite length_app in Hf. simpl in Hf. destruct fuel as [|fuel]; [lia|].
  assert (Hcd : is_digit c) by (destruct Hc as (_ & Hd & _);
    apply Forall_app in Hd as [_ Hd]; by apply Forall_inv in Hd).
  unfold is_digit in Hcd. rewrite decimal_loop_S, dec_value_snoc.
  replace ((dec_value s * 10 + (code c - 48)) mod 10) with (code c - 48).
  2: { rewrite Z.add_comm, Z.mod_add by lia. rewrite Z.mod_small; lia. }
  replace (48 + (code c - 48)) with (code c) by lia. rewrite chr_code. f_equal.
  destruct (decide (s = [])) as [->|Hs].
  - change (dec_value []) with 0.
    destruct (Z.ltb_spec (0 * 10 + (code c - 48)) 10); [done|lia].
  - destruct (canonical_decimal_init s c) as [Hs' Hh]; [done..|].
    assert (1 <= dec_value s).
    { destruct (decide (1 < len s)) as [Hl|Hl].
      - pose proof (dec_value_lower s Hs' Hl). pose proof (Z.pow_pos_nonneg 10 (len s - 1)). lia.
      - destruct s as [|x [|y s]]; [done| |unfold len in *; simpl in *; lia].
        destruct Hs' as (_ & Hx & _). apply Forall_inv in Hx. unfold is_digit in Hx.
        assert (code x <> 48) by (intros Hx0; apply Hh; simpl; f_equal; by apply code_inj).
        unfold dec_value, dec_step. simpl. lia. }
    destruct (Z.ltb_spec (dec_value s * 10 + (code c - 48)) 10); [lia|].
    rewrite Z.add_comm, Z.div_add by lia. rewrite Z.div_small by lia. rewrite Z.add_0_l.
    apply IH; [done|lia].
Qed.

Lemma decimal_loop_nonempty fuel n : decimal_loop (S fuel) n [] <> [].
Proof. rewrite decimal_loop_S. by intros [_ ?]%app_eq_nil. Qed.

Lemma decimal_loop_head fuel n :
  1 <= n < 10 ^ Z.of_nat fuel -> head (decimal_loop fuel n []) <> Some "0"%char.
Proof.
  revert n. induction fuel as [|fuel IH]; intros n Hn; [simpl in *; lia|].
  rewrite decimal_loop_S. destruct (Z.ltb_spec n 10).
  - cbn [app head]. rewrite Z.mod_small by lia. intros [= Heq].
    apply (f_equal code) in Heq. rewrite code_chr in Heq by lia.
    change (code "0") with 48 in Heq. lia.
  - pose proof (div10_bound fuel n ltac:(lia)) as Hb. specialize (IH _ Hb).
    destruct fuel as [|fuel]; [simpl in *; lia|].
    pose proof (decimal_loop_nonempty fuel (n / 10)).
    by destruct (decimal_loop (S fuel) (n / 10) []).
Qed.

Lemma to_string_nonempty n : to_string n <> [].
Proof. apply decimal_loop_nonempty. Qed.

Lemma to_string_canonical n : 0 <= n < 2 ^ 64 -> canonical_decimal (to_string n).
Proof.
  intros Hn. split_and!.
  - apply to_string_nonempty.
  - apply to_string_digits. lia.
  - intros Hl. destruct (decide (n = 0)) as [->|].
    + vm_compute in Hl. done.
    + apply decimal_loop_head. lia.
Qed.

Lemma canonical_to_string s :
  canonical_decimal s -> (length s <= 20)%nat -> to_string (dec_value s) = s.
Proof. apply decimal_loop_canonical. Qed.

(** The overflow guard of the loop is exact: it rejects a digit if and only if
    the accumulated value would exceed [maximum]. *)
Lemma parse_guard_exact maximum r d :
  0 <= d <= 9 -> 9 <= maximum ->
  (maximum - d) / 10 < r <-> maximum < r * 10 + d.
Proof.
  intros Hd Hm. pose proof (Z.div_mod (maximum - d) 10).
  pose proof (Z.mod_pos_bound (maximum - d) 10). lia.
Qed.

Lemma foldl_dec_step_le s r : Forall is_digit s -> 0 <= r -> r <= foldl dec_step r s.
Proof.
  revert r. induction s as [|c s IH]; intros r Hs Hr; simpl; [lia|].
  apply Forall_cons in Hs as [Hc Hs]. unfold is_digit in Hc.
  etrans; [|apply IH; [done|]]; unfold dec_step; lia.
Qed.

Lemma parse_loop_spec s maximum r v :
  9 <= maximum < 2 ^ 32 -> 0 <= r <= maximum ->
  parseUnsignedDecimal_loop s maximum r = Some v <->
  Forall is_digit s /\ foldl dec_step r s = v /\ v <= maximum.
Proof.
  intros Hm. revert r. induction s as [|c s IH]; intros r Hr; simpl.
  - split; [intros [= <-]; split_and!; auto; lia|]. by intros (_ & -> & _).
  - change (code "0") with 48. change (code "9") with 57. rewrite !Z.gtb_ltb.
    destruct ((code c <? 48) || (57 <? code c)) eqn:Hdig.
    { split; [done|]. intros (Hc & _). apply Forall_cons in Hc as [Hc _].
      unfold is_digit in Hc. lia. }
    assert (Hc : is_digit c) by (unfold is_digit; lia). unfold is_digit in Hc.
    rewrite (u32_small (maximum - _)) by lia.
    pose proof (parse_guard_exact maximum r (code c - 48)) as Hg.
    destruct (Z.ltb_spec ((maximum - (code c - 48)) / 10) r) as [Hlt|Hge].
    + split; [done|]. intros (Hs & Hv & Hle). apply Forall_cons in Hs as [_ Hs].
      exfalso. pose proof (foldl_dec_step_le s (dec_step r c) Hs) as Hmono.
      rewrite Hv in Hmono. unfold dec_step in Hmono. lia.
    + rewrite u32_small by lia. rewrite IH by lia. fold (dec_step r c).
      rewrite Forall_cons. unfold is_digit at 2. naive_solver.
Qed.

Lemma parseUnsignedDecimal_iff value maximum n :
  9 <= maximum < 2 ^ 32 ->
  parseUnsignedDecimal value maximum = Some n <->
  0 <= n <= maximum /\ value = to_string n.
Proof.
  intros Hm. unfold parseUnsignedDecimal.
  assert (Hcan : forall v, canonical_decimal v <->
    bool_decide (v = []) || ((1 <? len v) && bool_decide (head v = Some "0"%char)) = false /\
    Forall is_digit v).
  { intros v. unfold canonical_decimal. rewrite orb_false_iff, andb_false_iff.
    rewrite !bool_decide_eq_false, Z.ltb_ge. split.
    - intros (? & ? & Hz). split_and!; [done| |done].
      destruct (Z.le_gt_cases (len v) 1); [by left|right; auto with lia].
    - intros ([? [?|?]] & ?); split_and!; auto; lia. }
  split.
  - intros Hp. destruct (bool_decide _ || _) eqn:Hz; [done|].
    destruct (parseUnsignedDecimal_loop value maximum 0) as [r|] eqn:El; [|done].
    apply parse_loop_spec in El as (Hd & Hv & Hle); [|lia..].
    destruct (r >? maximum); [done|]. injection Hp as ->.
    assert (Hc : canonical_decimal value) by (apply Hcan; auto).
    fold (dec_value value) in Hv. pose proof (dec_value_nonneg value Hd).
    split; [lia|]. rewrite <-Hv. symmetry. apply canonical_to_string; [done|].
    destruct (decide (1 < len value)) as [Hl|]; [|unfold len in *; lia].
    pose proof (dec_value_lower value Hc Hl) as Hlow.
    assert (len value - 1 < 10); [|unfold len in *; lia].
    apply (Z.pow_lt_mono_r_iff 10); lia.
  - intros (Hn & ->). pose proof (to_string_canonical n ltac:(lia)) as Hc.
    apply Hcan in Hc as [-> Hd].
    rewrite (proj2 (parse_loop_spec (to_string n) maximum 0 n Hm ltac:(lia))).
    + rewrite Z.gtb_ltb. destruct (Z.ltb_spec maximum n); [lia|done].
    + split_and!; [done| |lia]. apply to_string_value. lia.
Qed.

(** ** Endpoints *)

(** Closed facts about characters, decided by computation. *)
Ltac decide_char := first [done | apply (bool_decide_unpack _); vm_compute; exact I].

Lemma not_in_digits c s : Forall is_digit s -> ~ is_digit c -> c ∉ s.
Proof. intros Hs Hc Hin. rewrite Forall_forall in Hs. auto. Qed.

Lemma to_string_no_char c n : 0 <= n -> ~ is_digit c -> c ∉ to_string n.
Proof. intros Hn. apply not_in_digits. by apply to_string_digits. Qed.

Lemma octet_parse s n :
  parseUnsignedDecimal s 255 = Some n <-> 0 <= n <= 255 /\ s = to_string n.
Proof. apply parseUnsignedDecimal_iff. lia. Qed.

(** One of the first three octets: digits up to a dot. *)
Lemma parseIpv4Octets_dot todo i address result l :
  (i < 3)%nat ->
  parseIpv4Octets (S todo) i address result = Some l <->
  exists n rest, 0 <= n <= 255 /\ address = to_string n ++ "."%char :: rest /\
    parseIpv4Octets todo (S i) rest (<[i := n]> result) = Some l.
Proof.
  intros Hi. simpl. rewrite (bool_decide_true (i < 3)%nat) by done.
  destruct (find_char "." address) as [d|] eqn:Hd; simpl.
  - pose proof Hd as (u & v & -> & <- & Hu)%find_char_split.
    rewrite take_app_length. rewrite Nat.add_1_r, drop_app_cons_length.
    split.
    + destruct (parseUnsignedDecimal u 255) as [n|] eqn:Hn; [|done].
      apply octet_parse in Hn as [Hn ->]. rewrite u8_small by lia. eauto.
    + intros (n & rest & Hn & Happ & Hrest).
      apply app_cons_inj_notin in Happ as [-> ->];
        [|done|apply to_string_no_char; [lia|decide_char]].
      rewrite (proj2 (octet_parse _ n)) by done. by rewrite u8_small by lia.
  - split; [done|]. intros (n & rest & Hn & -> & _).
    apply find_char_None in Hd. set_solver.
Qed.

(** The last octet: digits and nothing else. *)
Lemma parseIpv4Octets_last address result l :
  parseIpv4Octets 1 3 address result = Some l <->
  exists n, 0 <= n <= 255 /\ address = to_string n /\ l = <[3%nat := n]> result.
Proof.
  simpl.
  destruct (find_char "." address) as [d|] eqn:Hd; simpl.
  - split; [done|]. intros (n & Hn & -> & _).
    assert (find_char "." (to_string n) = None); [|congruence].
    apply find_char_None, to_string_no_char; [lia|decide_char].
  - split.
    + destruct (parseUnsignedDecimal address 255) as [n|] eqn:Hn; [|done].
      intros [= <-]. apply octet_parse in Hn as [Hn ->]. rewrite u8_small by lia. eauto.
    + intros (n & Hn & -> & ->). rewrite (proj2 (octet_parse _ n)) by done.
      by rewrite u8_small by lia.
Qed.

Definition format_address (l : list Z) : bytes :=
  let a i := to_string (nth i l 0) in
  a 0%nat ++ bs "." ++ a 1%nat ++ bs "." ++ a 2%nat ++ bs "." ++ a 3%nat.

Lemma parseIpv4Octets_iff address l :
  parseIpv4Octets 4 0 address [0; 0; 0; 0] = Some l <->
  length l = 4%nat /\ Forall octet l /\ address = format_address l.
Proof.
  split.
  - rewrite parseIpv4Octets_dot by lia. intros (a & r0 & Ha & -> & H0).
    rewrite parseIpv4Octets_dot in H0 by lia. destruct H0 as (b & r1 & Hb & -> & H1).
    rewrite parseIpv4Octets_dot in H1 by lia. destruct H1 as (c & r2 & Hc & -> & H2).
    apply parseIpv4Octets_last in H2 as (d & Hd & -> & ->). simpl.
    split_and!; [done| |done]. repeat constructor; lia.
  - intros (Hl & Ho & ->). destruct l as [|a [|b [|c [|d [|]]]]]; try done.
    repeat (apply Forall_cons in Ho as [? Ho]). unfold octet in *.
    unfold format_address. simpl nth.
    apply parseIpv4Octets_dot; [lia|]. eexists a, _. split_and!; [lia..|reflexivity|].
    apply parseIpv4Octets_dot; [lia|]. eexists b, _. split_and!; [lia..|reflexivity|].
    apply parseIpv4Octets_dot; [lia|]. eexists c, _. split_and!; [lia..|reflexivity|].
    apply parseIpv4Octets_last. eexists d. split_and!; [lia..|done|done].
Qed.

Lemma format_address_no_char c l :
  Forall octet l -> ~ is_digit c -> c <> "."%char -> c ∉ format_address l.
Proof.
  intros Ho Hc Hdot. assert (Hn : forall i, c ∉ to_string (nth i l 0)).
  { intros i. apply to_string_no_char; [|done].
    destruct (nth_in_or_default i l 0) as [Hin| ->]; [|lia].
    rewrite Forall_forall in Ho. apply list_elem_of_In in Hin. apply Ho in Hin.
    unfold octet in Hin. lia. }
  unfold format_address. simpl. repeat (rewrite elem_of_app || rewrite elem_of_cons).
  intros [Hin|[Hin|[Hin|[Hin|[Hin|[Hin|Hin]]]]]]; first [done|by eapply Hn].
Qed.

Definition valid_endpoint (backend : bool) (e : Endpoint) : Prop :=
  if backend then valid_backend e else valid_listen e.

Lemma valid_endpoint_listen b e : valid_endpoint b e -> valid_listen e.
Proof. destruct b; [by intros []|done]. Qed.

Lemma formatEndpoint_split e :
  formatEndpoint e = format_address (address e) ++ ":"%char :: to_string (port e).
Proof. unfold formatEndpoint, format_address. simpl. by repeat (rewrite <-app_assoc; simpl). Qed.

Lemma parseIpv4Endpoint_iff value backend e :
  parseIpv4Endpoint value backend = Some e <->
  valid_endpoint backend e /\ value = formatEndpoint e.
Proof.
  assert (Hport : forall s n, parseUnsignedDecimal s 65535 = Some n <->
            0 <= n <= 65535 /\ s = to_string n).
  { intros. apply parseUnsignedDecimal_iff. lia. }
  unfold parseIpv4Endpoint. rewrite formatEndpoint_split. split.
  - destruct (find_char ":" value) as [colon|] eqn:Hc; [|done].
    apply find_char_split in Hc as (u & v & -> & <- & Hu).
    rewrite Nat.add_1_r, drop_app_cons_length, take_app_length.
    destruct (parseUnsignedDecimal v 65535) as [p|] eqn:Hp; [|done].
    apply Hport in Hp as [Hp ->]. destruct (Z.eqb_spec p 0); [done|].
    destruct (parseIpv4Octets 4 0 u [0; 0; 0; 0]) as [l|] eqn:Hl; [|done].
    apply parseIpv4Octets_iff in Hl as (Hl & Ho & ->).
    destruct (_ || _) eqn:Hbad; [done|]. intros [= <-]. bool_to_prop. simpl.
    rewrite u16_small by lia. split; [|done].
    unfold valid_endpoint, valid_backend, valid_listen. simpl.
    destruct backend; simpl in *; bool_to_prop; split_and!; auto; try lia.
    destruct H0 as [|H0]; [done|]. by apply bool_decide_eq_false_1 in H0.
  - intros [Hv ->]. destruct e as [l p]. cbn [address port] in *.
    assert (valid_listen (mkEndpoint l p)) as (Hl & Ho & Hp & Hm & Hb).
    { destruct backend; simpl in Hv; [apply Hv|done]. }
    cbn [address port] in *. rewrite find_char_app by (apply format_address_no_char; decide_char).
    rewrite Nat.add_1_r, drop_app_cons_length, take_app_length.
    rewrite (proj2 (Hport _ p)) by (split; [lia|done]).
    destruct (Z.eqb_spec p 0); [lia|].
    rewrite (proj2 (parseIpv4Octets_iff _ l)) by done.
    rewrite u16_small by lia.
    destruct (_ || _) eqn:Hbad; [|done]. exfalso.
    apply orb_true_iff in Hbad as [[Hbad|Hbad]%orb_true_iff|Hbad]; [lia|by bool_to_prop|].
    apply andb_true_iff in Hbad as [-> Hbad%bool_decide_eq_true_1]. by apply Hv.
Qed.

(** ** The line loop *)

Lemma split_lines_prefix cur u v :
  "010"%char ∉ u ->
  split_lines cur (u ++ v) = split_lines (cur ++ u) v.
Proof.
  revert cur. induction u as [|c u IH]; intros cur Hu; simpl.
  - by rewrite app_nil_r.
  - rewrite bool_decide_false by set_solver. rewrite IH by set_solver.
    by rewrite <-app_assoc.
Qed.

Lemma config_lines_cons u v :
  "010"%char ∉ u -> config_lines (u ++ "010"%char :: v) = strip_cr u :: config_lines v.
Proof. intros Hu. unfold config_lines. by rewrite split_lines_prefix. Qed.

Lemma config_lines_last u :
  "010"%char ∉ u -> config_lines u = if bool_decide (u = []) then [] else [u].
Proof.
  intros Hu. unfold config_lines. rewrite <-(app_nil_r u) at 1.
  by rewrite split_lines_prefix.
Qed.

Lemma parseConfigLoop_fold fuel text n st :
  (length text <= fuel)%nat ->
  parseConfigLoop fuel text n st = Some (fold_lines (config_lines text) n st).
Proof.
  revert text n st. induction fuel as [|fuel IH]; intros text n st Hf.
  { destruct text; [done|simpl in Hf; lia]. }
  destruct (decide (text = [])) as [->|Hne]; [done|].
  transitivity (let '(line, rest) := splitConfigLine text in
    match parseConfigLine st (n + 1) line with
    | inr e => Some (inr e)
    | inl st' => parseConfigLoop fuel rest (n + 1) st'
    end); [by destruct text|].
  unfold splitConfigLine. destruct (find_char "010" text) as [k|] eqn:Hk.
  - apply find_char_split in Hk as (u & v & -> & <- & Hu).
    rewrite Nat.add_1_r, drop_app_cons_length, take_app_length.
    rewrite config_lines_cons by done. fold (strip_cr u). simpl.
    destruct (parseConfigLine st (n + 1) (strip_cr u)) as [st'|e]; [|done].
    apply IH. rewrite length_app in Hf. simpl in Hf. lia.
  - apply find_char_None in Hk. rewrite config_lines_last by done.
    rewrite bool_decide_false by done. simpl.
    destruct (parseConfigLine st (n + 1) text); [|done]. by destruct fuel.
Qed.

Lemma parseConfig_reference text : parseConfig text = Some (parse_reference text).
Proof.
  unfold parseConfig, parse_reference. destruct (_ >? _); [done|].
  rewrite parseConfigLoop_fold by done.
  destruct (fold_lines _ _ _) as [[st n]|e]; [|done]. by destruct (_ || _).
Qed.

Lemma fold_lines_app l1 l2 n st :
  fold_lines (l1 ++ l2) n st =
  match fold_lines l1 n st with
  | inr e => inr e
  | inl (st', n') => fold_lines l2 n' st'
  end.
Proof.
  revert n st. induction l1 as [|line l1 IH]; intros n st; simpl; [done|].
  destruct (parseConfigLine _ _ _); [|done]. apply IH.
Qed.

Lemma fold_lines_count lines n st st' n' :
  fold_lines lines n st = inl (st', n') -> n' = n + len lines.
Proof.
  revert n st. induction lines as [|line lines IH]; intros n st; simpl.
  - intros [= _ ->]. unfold len. simpl. lia.
  - destruct (parseConfigLine _ _ _); [|done]. intros H%IH. rewrite len_cons. lia.
Qed.

(** ** Every accepted configuration is valid *)

(** Case analysis on the dispatch of [parseConfigField]. *)
Ltac field_cases H :=
  cbv beta zeta iota in H;
  repeat (match type of H with
          | (if ?b then _ else _) = _ => destruct b eqn:?
          | match ?x with Some _ => _ | None => _ end = _ => destruct x eqn:?
          end; try discriminate H).

Lemma parseConfigField_ok st n key value st' :
  parse_state_ok st -> parseConfigField st n key value = inl st' -> parse_state_ok st'.
Proof.
  intros (Hl & Hb & Hn & Hc) Hf. unfold parseConfigField in Hf.
  destruct st as [c hl hp hs hh hm]. unfold parse_state_ok.
  cbn [config hasListen] in *.
  field_cases Hf; injection Hf as <-;
    cbn [config hasListen backends listen set_listen set_backends set_protocol set_metrics
         set_healthCheck set_scheduler]; split_and!; auto.
  all: repeat match goal with
       | E : parseIpv4Endpoint _ _ = Some _ |- _ => apply parseIpv4Endpoint_iff in E as [? ->]
       end; bool_to_prop; auto.
  - intros _. by eapply valid_endpoint_listen.
  - apply Forall_app. split; [done|]. constructor; [|constructor].
    assert (key = bs "backend") as Hkey.
    { destruct Heqb3 as [E|E]; bool_to_prop; by apply dec_stable. }
    by rewrite bool_decide_true in H.
  - apply NoDup_app. split_and!; [done| |apply NoDup_singleton].
    intros x Hx ->%list_elem_of_singleton. done.
  - rewrite len_app. change (len [_]) with 1. lia.
Qed.

Lemma parseConfigLine_ok st n line st' :
  parse_state_ok st -> parseConfigLine st n line = inl st' -> parse_state_ok st'.
Proof.
  intros Hok. unfold parseConfigLine. destruct (_ || _ || _); [done|].
  destruct (_ || _); [by intros [= <-]|]. destruct (find_char _ _); [|done].
  destruct (bool_decide _); [done|]. destruct (_ || _); [done|].
  by apply parseConfigField_ok.
Qed.

Lemma fold_lines_ok lines n st st' n' :
  parse_state_ok st -> fold_lines lines n st = inl (st', n') -> parse_state_ok st'.
Proof.
  revert n st. induction lines as [|line lines IH]; intros n st Hok; simpl.
  - by intros [= <- _].
  - destruct (parseConfigLine _ _ _) eqn:E; [|done]. apply IH. by eapply parseConfigLine_ok.
Qed.

Lemma initialParseState_ok : parse_state_ok initialParseState.
Proof.
  unfold parse_state_ok. simpl. split_and!; [done|constructor|constructor|].
  unfold len. simpl. lia.
Qed.

Lemma parse_reference_valid text c : parse_reference text = inl c -> valid_config c.
Proof.
  unfold parse_reference. destruct (_ >? _); [done|].
  destruct (fold_lines _ _ _) as [[st n]|e] eqn:E; [|done].
  destruct (_ || _) eqn:Hm; [done|]. intros [= <-]. bool_to_prop.
  apply fold_lines_ok in E as (Hl & Hb & Hn & Hc); [|apply initialParseState_ok].
  unfold valid_config. split_and!; auto.
  destruct (backends (config st)); [done|]. rewrite len_cons. pose proof (len_nonneg l). lia.
Qed.

(** ** Rendering and parsing back *)

Lemma find_if_head p c s : p c = true -> find_if p (c :: s) = Some O.
Proof. simpl. by intros ->. Qed.

Lemma plain_not_blank c : plain c = true -> negb (isBlank c) = true.
Proof. unfold plain. by intros [? ?]%andb_true_iff. Qed.

Lemma trim_plain v : forallb plain v = true -> trimConfigWhitespace v = v.
Proof.
  intros Hv. unfold trimConfigWhitespace. destruct v as [|c v]; [done|].
  assert (Hall : forall x, x ∈ c :: v -> negb (isBlank x) = true).
  { intros x Hx. apply plain_not_blank. rewrite forallb_forall in Hv.
    by apply Hv, list_elem_of_In. }
  rewrite find_if_head by (apply Hall; set_solver).
  destruct (rev (c :: v)) as [|d w] eqn:Hr.
  { apply (f_equal length) in Hr. rewrite length_rev in Hr. done. }
  rewrite find_if_head.
  - rewrite drop_0, take_ge; [done|lia].
  - apply Hall. apply list_elem_of_In, in_rev. rewrite Hr. by left.
Qed.

Lemma contains_head_notin x pat s : x ∉ s -> contains (x :: pat) s = false.
Proof.
  induction s as [|y s IH]; intros Hx; simpl; [done|].
  rewrite bool_decide_false by set_solver. apply IH. set_solver.
Qed.

Lemma forallb_plain_notin c s : plain c = false -> forallb plain s = true -> c ∉ s.
Proof.
  intros Hc Hs Hin. rewrite forallb_forall in Hs. apply list_elem_of_In in Hin.
  apply Hs in Hin. congruence.
Qed.

Lemma parseConfigLine_field st n k v :
  forallb plain k = true -> k <> [] -> forallb plain v = true -> v <> [] ->
  parseConfigLine st n (k ++ "="%char :: v) = parseConfigField st n k v.
Proof.
  intros Hk Hk0 Hv Hv0.
  assert (Hn : forall c, plain c = false -> c <> "="%char -> c ∉ k ++ "="%char :: v).
  { intros c Hc Hne. rewrite elem_of_app, elem_of_cons.
    pose proof (forallb_plain_notin c k Hc Hk). pose proof (forallb_plain_notin c v Hc Hv).
    naive_solver. }
  assert (Hblank : trimConfigWhitespace (k ++ "="%char :: v) = k ++ "="%char :: v).
  { unfold trimConfigWhitespace. destruct k as [|c k]; [done|]. simpl app.
    rewrite find_if_head by (simpl in Hk; bool_to_prop; by apply plain_not_blank).
    destruct (rev v) as [|d w] eqn:Hr.
    { apply (f_equal length) in Hr. rewrite length_rev in Hr. by destruct v. }
    replace (rev (c :: k ++ "="%char :: v)) with (d :: (w ++ "="%char :: rev (c :: k))).
    - rewrite find_if_head.
      + rewrite drop_0, take_ge; [done|lia].
      + apply plain_not_blank. rewrite forallb_forall in Hv. apply Hv, in_rev.
        rewrite Hr. by left.
    - change (c :: k ++ "="%char :: v) with ((c :: k) ++ "="%char :: v).
      rewrite rev_app_distr. cbn [rev]. rewrite Hr, <-!app_assoc. done. }
  unfold parseConfigLine.
  rewrite (bool_decide_false ("000"%char ∈ _)) by (apply Hn; [by vm_compute|done]).
  rewrite (bool_decide_false ("013"%char ∈ _)) by (apply Hn; [by vm_compute|done]).
  rewrite contains_head_notin by (apply Hn; [by vm_compute|decide_char]).
  cbn [orb]. cbv zeta. rewrite Hblank.
  rewrite bool_decide_false by (by intros [? ?]%app_eq_nil).
  rewrite bool_decide_false.
  2: { destruct k as [|c k]; [done|]. simpl in *. intros [= ->].
       apply andb_true_iff in Hk as [Hk _]. by vm_compute in Hk. }
  cbn [orb]. rewrite find_char_app by (by apply forallb_plain_notin).
  rewrite Nat.add_1_r, drop_app_cons_length, take_app_length.
  rewrite (proj2 (find_char_None "=" v)) by (by apply forallb_plain_notin).
  rewrite bool_decide_false by (intros Hf; by apply Hf).
  rewrite !trim_plain by done.
  by rewrite !bool_decide_false.
Qed.

Lemma digits_plain s : Forall is_digit s -> forallb plain s = true.
Proof.
  intros Hs. apply forallb_forall. intros c Hc%list_elem_of_In.
  rewrite Forall_forall in Hs. apply Hs in Hc. unfold is_digit in Hc.
  unfold plain, isBlank. rewrite !bool_decide_false; [done|..].
  - intros Hin%list_elem_of_In. cbn [In] in Hin.
    repeat (destruct Hin as [<-|Hin]; [by apply (bool_decide_eq_true_2 _) in Hc|]). done.
  - intros ->. by apply (bool_decide_eq_true_2 _) in Hc.
  - intros ->. by apply (bool_decide_eq_true_2 _) in Hc.
Qed.

Lemma formatEndpoint_plain b e :
  valid_endpoint b e -> forallb plain (formatEndpoint e) = true /\ formatEndpoint e <> [].
Proof.
  intros Hv%valid_endpoint_listen. destruct Hv as (Hl & Ho & Hp & _). split.
  - assert (Hn : forall i, forallb plain (to_string (nth i (address e) 0)) = true).
    { intros i. apply digits_plain, to_string_digits.
      destruct (nth_in_or_default i (address e) 0) as [Hin| ->]; [|lia].
      rewrite Forall_forall in Ho. apply list_elem_of_In, Ho in Hin. unfold octet in Hin. lia. }
    unfold formatEndpoint. rewrite !forallb_app, !Hn.
    rewrite (digits_plain (to_string (port e))) by (apply to_string_digits; lia).
    by vm_compute.
  - unfold formatEndpoint. pose proof (to_string_nonempty (nth 0 (address e) 0)).
    intros [? ?]%app_eq_nil. done.
Qed.

Lemma formatEndpoint_length e : len (formatEndpoint e) <= 104.
Proof.
  unfold formatEndpoint. autorewrite with l4lb_len. change (len (bs ".")) with 1.
  change (len (bs ":")) with 1.
  assert (forall n, len (to_string n) <= 20) as Hn.
  { intros n. unfold len. pose proof (to_string_length n). lia. }
  pose proof (Hn (nth 0 (address e) 0)). pose proof (Hn (nth 1 (address e) 0)).
  pose proof (Hn (nth 2 (address e) 0)). pose proof (Hn (nth 3 (address e) 0)).
  pose proof (Hn (port e)). lia.
Qed.

(** One rendered line in front of a text. *)
Lemma config_lines_field k v rest :
  forallb plain k = true -> forallb plain v = true -> v <> [] ->
  config_lines (render_field (k, v) ++ rest) = (k ++ "="%char :: v) :: config_lines rest.
Proof.
  intros Hk Hv Hv0. unfold render_field. simpl. rewrite <-!app_assoc. simpl.
  rewrite <-app_assoc. simpl.
  replace (k ++ "="%char :: v ++ "010"%char :: rest)
    with ((k ++ "="%char :: v) ++ "010"%char :: rest) by (by rewrite <-app_assoc).
  rewrite config_lines_cons.
  - f_equal. unfold strip_cr. destruct (last (k ++ "="%char :: v)) as [c|] eqn:Hl; [|done].
    rewrite bool_decide_false; [done|]. intros ->.
    rewrite last_app, last_cons in Hl. destruct (last v) as [d|] eqn:Hd.
    + simpl in Hl. injection Hl as ->. apply last_Some_elem_of in Hd.
      by apply (forallb_plain_notin "013" v).
    + apply last_None in Hd. done.
  - rewrite elem_of_app, elem_of_cons. intros [Hin|[Hin|Hin]]; [| done|];
      revert Hin; by apply forallb_plain_notin.
Qed.

Lemma fold_lines_field k v rest n st :
  forallb plain k = true -> k <> [] -> forallb plain v = true -> v <> [] ->
  fold_lines (config_lines (render_field (k, v) ++ rest)) n st =
  match parseConfigField st (n + 1) k v with
  | inr e => inr e
  | inl st' => fold_lines (config_lines rest) (n + 1) st'
  end.
Proof.
  intros. rewrite config_lines_field by done. simpl. by rewrite parseConfigLine_field.
Qed.

Lemma parseConfigField_backend e n c hp hs hh hm :
  valid_backend e -> len (backends c) < 256 -> e ∉ backends c ->
  parseConfigField (mkParseState c true hp hs hh hm) n (bs "backend") (formatEndpoint e) =
  inl (mkParseState (set_backends (backends c ++ [e]) c) true hp hs hh hm).
Proof.
  intros He Hl Hin. unfold parseConfigField.
  change (bool_decide (bs "backend" = bs "backend")) with true.
  change (bool_decide (bs "backend" = bs "listen")) with false.
  change (bool_decide (bs "backend" <> bs "backend")) with false.
  rewrite (proj2 (parseIpv4Endpoint_iff (formatEndpoint e) true e)) by done.
  destruct (Z.eqb_spec (len (backends c)) 256); [lia|].
  by rewrite (bool_decide_false (e ∈ backends c)).
Qed.

Lemma parseConfigField_listen e n c hp hs hh hm :
  valid_listen e ->
  parseConfigField (mkParseState c false hp hs hh hm) n (bs "listen") (formatEndpoint e) =
  inl (mkParseState (set_listen e c) true hp hs hh hm).
Proof.
  intros He. unfold parseConfigField.
  change (bool_decide (bs "listen" = bs "backend")) with false.
  by rewrite (proj2 (parseIpv4Endpoint_iff (formatEndpoint e) false e)).
Qed.

Lemma parseConfigField_options p m h n :
  parseConfigField initialParseState n (bs "protocol") (render_protocol p) =
    inl (mkParseState (set_protocol p emptyConfig) false true false false false) /\
  parseConfigField (mkParseState (set_protocol p emptyConfig) false true false false false) n
    (bs "metrics") (render_metrics m) =
    inl (mkParseState (set_metrics m (set_protocol p emptyConfig)) false true false false true) /\
  parseConfigField
    (mkParseState (set_metrics m (set_protocol p emptyConfig)) false true false false true) n
    (bs "health_check") (render_health h) =
    inl (mkParseState (mkConfig emptyEndpoint [] p m h kRoundRobin) false true false true true) /\
  parseConfigField
    (mkParseState (mkConfig emptyEndpoint [] p m h kRoundRobin) false true false true true) n
    (bs "scheduler") (bs "round_robin") =
    inl (mkParseState (mkConfig emptyEndpoint [] p m h kRoundRobin) false true true true true).
Proof. by destruct p, m, h. Qed.

Definition render_backends (l : list Endpoint) : bytes :=
  concat (map render_field (map (fun e => (bs "backend", formatEndpoint e)) l)).

Lemma fold_lines_backends l n c hp hs hh hm :
  Forall valid_backend l -> NoDup (backends c ++ l) -> len (backends c ++ l) <= 256 ->
  fold_lines (config_lines (render_backends l)) n (mkParseState c true hp hs hh hm) =
  inl (mkParseState (set_backends (backends c ++ l) c) true hp hs hh hm, n + len l).
Proof.
  revert n c. induction l as [|e l IH]; intros n c Hv Hn Hl.
  - simpl. rewrite app_nil_r. change (len []) with 0. rewrite Z.add_0_r. by destruct c.
  - apply Forall_cons in Hv as [He Hv].
    destruct (formatEndpoint_plain true e He) as [Hp Hne].
    change (render_backends (e :: l))
      with (render_field (bs "backend", formatEndpoint e) ++ render_backends l).
    rewrite fold_lines_field by (done || by vm_compute).
    rewrite len_app, len_cons in Hl. pose proof (len_nonneg l).
    rewrite parseConfigField_backend; [|done|lia|].
    2: { apply NoDup_app in Hn as (_ & Hd & _). intros Hin. apply (Hd e Hin). set_solver. }
    rewrite IH.
    + simpl. rewrite <-app_assoc. rewrite len_cons. do 2 f_equal. lia.
    + done.
    + simpl. by rewrite <-app_assoc.
    + simpl. rewrite <-app_assoc. rewrite len_app. simpl. rewrite len_cons. lia.
Qed.

Lemma render_endpoint_length k e :
  len (render_field (k, formatEndpoint e)) <= len k + 106.
Proof.
  unfold render_field. cbn [fst snd]. autorewrite with l4lb_len.
  pose proof (formatEndpoint_length e).
  change (len (bs "=")) with 1. change (len []) with 0. lia.
Qed.

Lemma render_backends_length l : len (render_backends l) <= 113 * len l.
Proof.
  unfold render_backends. induction l as [|e l IH]; [done|].
  cbn [map concat]. rewrite len_cons, len_app. pose proof (render_endpoint_length (bs "backend") e).
  change (len (bs "backend")) with 7 in H. lia.
Qed.

Lemma parse_reference_render c : valid_config c -> parse_reference (render_config c) = inl c.
Proof.
  intros (Hl & Hb & Hn & Hc). unfold parse_reference.
  destruct c as [l b p m h []]. cbn [backends] in *.
  destruct (formatEndpoint_plain false l Hl) as [Hpl Hne].
  assert (Hsplit : render_config (mkConfig l b p m h kRoundRobin) =
    render_field (bs "protocol", render_protocol p) ++
    render_field (bs "metrics", render_metrics m) ++
    render_field (bs "health_check", render_health h) ++
    render_field (bs "scheduler", bs "round_robin") ++
    render_field (bs "listen", formatEndpoint l) ++ render_backends b) by done.
  rewrite Hsplit. rewrite Z.gtb_ltb.
  destruct (Z.ltb_spec kMaxConfigBytes (len (render_field (bs "protocol", render_protocol p) ++
    render_field (bs "metrics", render_metrics m) ++
    render_field (bs "health_check", render_health h) ++
    render_field (bs "scheduler", bs "round_robin") ++
    render_field (bs "listen", formatEndpoint l) ++ render_backends b))) as [Hlong|_].
  { exfalso. unfold kMaxConfigBytes in Hlong. autorewrite with l4lb_len in Hlong.
    pose proof (render_backends_length b).
    pose proof (render_endpoint_length (bs "listen") l) as Hlisten.
    change (len (bs "listen")) with 6 in Hlisten.
    assert (len (render_field (bs "protocol", render_protocol p)) <= 20) by by destruct p.
    assert (len (render_field (bs "metrics", render_metrics m)) <= 20) by by destruct m.
    assert (len (render_field (bs "health_check", render_health h)) <= 30) by by destruct h.
    change (len (render_field (bs "scheduler", bs "round_robin"))) with 22 in Hlong. lia. }
  rewrite fold_lines_field by first [done|by destruct p|by destruct m|by destruct h].
  destruct (parseConfigField_options p m h (0 + 1)) as (-> & _).
  rewrite fold_lines_field by first [done|by destruct p|by destruct m|by destruct h].
  destruct (parseConfigField_options p m h (0 + 1 + 1)) as (_ & -> & _).
  rewrite fold_lines_field by first [done|by destruct p|by destruct m|by destruct h].
  destruct (parseConfigField_options p m h (0 + 1 + 1 + 1)) as (_ & _ & -> & _).
  rewrite fold_lines_field by first [done|by destruct p|by destruct m|by destruct h].
  destruct (parseConfigField_options p m h (0 + 1 + 1 + 1 + 1)) as (_ & _ & _ & ->).
  rewrite fold_lines_field by first [done|by destruct p|by destruct m|by destruct h].
  rewrite parseConfigField_listen by done.
  rewrite fold_lines_backends; [|done|done|simpl; lia].
  simpl. destruct b; [|done]. change (len []) with 0 in Hc. lia.
Qed.

(** ** Positions of errors *)

Lemma parseConfigField_error st n k v e :
  parseConfigField st n k v = inr e ->
  err_kind e = kField /\ err_line e = n /\ err_eof e = false.
Proof.
  unfold parseConfigField. destruct st as [c hl hp hs hh hm]. intros Hf.
  field_cases Hf; injection Hf as <-; done.
Qed.

Lemma parseConfigLine_error st n line e :
  parseConfigLine st n line = inr e ->
  (err_kind e = kSyntax \/ err_kind e = kField) /\ err_line e = n /\ err_eof e = false.
Proof.
  unfold parseConfigLine. cbv zeta.
  destruct (_ || _ || _); [intros [= <-]; auto|].
  destruct (_ || _); [done|]. destruct (find_char _ _); [|intros [= <-]; auto].
  destruct (bool_decide _); [intros [= <-]; auto|].
  destruct (_ || _); [intros [= <-]; auto|].
  intros (? & ? & ?)%parseConfigField_error. auto.
Qed.

Lemma fold_lines_error lines n st e :
  fold_lines lines n st = inr e ->
  exists pre line post st',
    lines = pre ++ line :: post /\ fold_lines pre n st = inl (st', n + len pre) /\
    parseConfigLine st' (n + len pre + 1) line = inr e.
Proof.
  revert n st. induction lines as [|line lines IH]; intros n st; [done|]. simpl.
  destruct (parseConfigLine st (n + 1) line) as [st'|e'] eqn:E.
  - intros (pre & l & post & st'' & -> & Hpre & Hl)%IH.
    exists (line :: pre), l, post, st''. split_and!; [done| |].
    + simpl. rewrite E, Hpre. rewrite len_cons. do 2 f_equal. lia.
    + rewrite len_cons. rewrite <-Hl. f_equal. lia.
  - intros [= <-]. exists [], line, lines, st. split_and!; [done| |].
    + simpl. do 2 f_equal. change (len []) with 0. lia.
    + rewrite <-E. f_equal. change (len []) with 0. lia.
Qed.

(** ** Reading: the chunks do not matter *)

Lemma loadConfigRead_spec {W} `{FileContent W} path fd w :
  wp (loadConfigRead path fd) (fun o w' =>
    (exists errno, o = Ret (makeConfigFileError path (os_strerror errno))) \/
    (len (content w fd) <= kMaxConfigBytes /\ o = Ret (parse_reference (content w fd))) \/
    (kMaxConfigBytes < len (content w fd) /\
     o = Ret (makeConfigFileError path (bs "配置超过 65536 字节")))) w.
Proof.
  unfold loadConfigRead. pose (total := content w fd).
  apply (wp_loop_measure (fun contents _ => Z.to_nat (kMaxConfigBytes + 1 - len contents))
    _ _ (fun contents w' => contents ++ content w' fd = total)).
  { change (len []) with 0. unfold kMaxConfigBytes. lia. }
  { done. }
  intros contents w' Hinv. cbv beta.
  destruct (Z.leb_spec (len contents) kMaxConfigBytes) as [Hle|Hgt].
  - apply wp_bind, wp_world. set (limit := Z.min 4096 _).
    pose proof (os_read_content fd limit w') as Hread.
    destruct (os_read fd limit w') as [[chunk|errno] w'']; simpl.
    + destruct Hread as (Hc & Hlim & Hend); [unfold limit; lia|].
      destruct chunk as [|c chunk].
      * rewrite parseConfig_reference. apply wp_ret. right. left.
        rewrite Hend, app_nil_r in Hinv by done. subst contents. done.
      * apply wp_ret. split.
        -- rewrite <-app_assoc, <-Hc. done.
        -- rewrite len_app, len_cons. pose proof (len_nonneg chunk). lia.
    + apply wp_ret. left. by exists errno.
  - apply wp_ret. right. right. split; [|done]. fold total. rewrite <-Hinv, len_app.
    pose proof (len_nonneg (content w' fd)). lia.
Qed.

(** ** Properties *)

(** C37: every text that [parseConfig] accepts yields a valid configuration: a
    listen endpoint and 1 to 256 distinct backends, every port non-zero, no
    multicast or broadcast address, no backend 0.0.0.0; and [parseConfig]
    always returns. *)
Theorem parseConfig_valid text :
  exists r, parseConfig text = Some r /\
    match r with inl c => valid_config c | inr _ => True end.
Proof.
  exists (parse_reference text). split; [apply parseConfig_reference|].
  destruct (parse_reference text) eqn:E; [|done]. by eapply parse_reference_valid.
Qed.

(** C36: a valid configuration written in the file format is read back exactly,
    backends in the same order. *)
Theorem parseConfig_render c :
  valid_config c -> parseConfig (render_config c) = Some (inl c).
Proof. intros Hc. by rewrite parseConfig_reference, parse_reference_render. Qed.

Definition sample_config : Config :=
  mkConfig (mkEndpoint [127; 0; 0; 1] 8080)
    [mkEndpoint [127; 0; 0; 1] 9001; mkEndpoint [10; 0; 0; 255] 65535]
    kUdp kMetricsStderr kHealthTcpConnect kRoundRobin.

Lemma sample_config_valid : valid_config sample_config.
Proof.
  unfold valid_config, valid_backend, valid_listen. split_and!; try done.
  all: repeat first [constructor | split_and! | done | set_solver | lia].
Qed.

Lemma parseConfig_render_witness :
  valid_config sample_config /\ parseConfig (render_config sample_config) = Some (inl sample_config).
Proof.
  split; [apply sample_config_valid|]. apply (parseConfig_render sample_config), sample_config_valid.
Defined.

(** [parseIpv4Endpoint] accepts exactly the texts that [formatEndpoint]
    prints for valid endpoints, and returns the endpoint printed. *)
Theorem parseIpv4Endpoint_exact value backend e :
  parseIpv4Endpoint value backend = Some e <->
  valid_endpoint backend e /\ value = formatEndpoint e.
Proof. apply parseIpv4Endpoint_iff. Qed.

(** An error names its place: line 0 for an oversized text; one past the
    last line, with the end-of-file mark, for missing fields; otherwise the
    first line that the line parser rejects, all lines before it accepted. *)
Theorem parseConfig_error_position text e :
  parseConfig text = Some (inr e) ->
  (err_kind e = kFile /\ err_line e = 0 /\ err_eof e = false /\ kMaxConfigBytes < len text) \/
  (err_kind e = kMissing /\ err_line e = len (config_lines text) + 1 /\ err_eof e = true) \/
  ((err_kind e = kSyntax \/ err_kind e = kField) /\ err_eof e = false /\
   exists pre line post st, config_lines text = pre ++ line :: post /\
     err_line e = len pre + 1 /\ fold_lines pre 0 initialParseState = inl (st, len pre) /\
     parseConfigLine st (len pre + 1) line = inr e).
Proof.
  rewrite parseConfig_reference. intros [= He]. unfold parse_reference in He.
  rewrite Z.gtb_ltb in He. destruct (Z.ltb_spec kMaxConfigBytes (len text)).
  { injection He as <-. auto. }
  destruct (fold_lines _ _ _) as [[st n]|e'] eqn:E.
  - destruct (_ || _); [|done]. injection He as <-. right. left.
    apply fold_lines_count in E as ->. simpl. split_and!; [done|lia|done].
  - injection He as <-. right. right.
    apply fold_lines_error in E as (pre & line & post & st & Hl & Hpre & Hline).
    rewrite Z.add_0_l in *. pose proof Hline as (? & ? & ?)%parseConfigLine_error.
    split_and!; [done..|]. eauto 10.
Qed.

Definition bad_text : bytes :=
  bs "listen=127.0.0.1:80" ++ ["013"; "010"]%char ++ bs "# note" ++ ["010"%char] ++
  bs "backend=1.2.3.4:0".

Lemma parseConfig_error_position_witness :
  exists e, parseConfig bad_text = Some (inr e) /\ err_line e = 3 /\ err_eof e = false.
Proof.
  exists (makeConfigLineError kField 3 "无效的 IPv4 地址或端口").
  assert (Hp : parseConfig bad_text =
    Some (inr (makeConfigLineError kField 3 "无效的 IPv4 地址或端口"))) by by vm_compute.
  split; [exact Hp|].
  destruct (parseConfig_error_position _ _ Hp) as [H|[H|(_ & H & _)]].
  - by destruct H.
  - by destruct H.
  - by split.
Defined.

(** [loadConfig] on a regular file always returns, closes the descriptor,
    and, unless a read fails, its result depends only on the contents, never on
    how the kernel splits them into reads: the parse of the whole contents, or
    the size error beyond 65536 bytes. *)
Theorem loadConfig_contents {W} `{FileContent W} path w fd w1 st w2 :
  os_open path [O_RDONLY; O_NONBLOCK; O_CLOEXEC] w = (inl fd, w1) ->
  os_fstat fd w1 = (inl st, w2) -> st_isreg st = true ->
  exists r w3, loadConfig path w = (Ret r, os_close fd w3) /\
    ((exists errno, r = makeConfigFileError path (os_strerror errno)) \/
     (len (content w2 fd) <= kMaxConfigBytes /\ parseConfig (content w2 fd) = Some r) \/
     (kMaxConfigBytes < len (content w2 fd) /\
      r = makeConfigFileError path (bs "配置超过 65536 字节"))).
Proof.
  intros Hopen Hstat Hreg. unfold loadConfig, mbind, mworld. rewrite Hopen.
  unfold mfinally. rewrite Hstat, Hreg. simpl.
  pose proof (loadConfigRead_spec path fd w2) as Hr. unfold wp in Hr.
  destruct (loadConfigRead path fd w2) as [o w3]. simpl in Hr.
  destruct Hr as [[errno ->]|[[Hl ->]|[Hl ->]]]; eexists _, _; (split; [done|]).
  - eauto.
  - right. left. by rewrite parseConfig_reference.
  - auto.
Qed.

Lemma loadConfig_contents_witness :
  let w := ScriptedFile.mkWorld (render_config sample_config) 7 [] in
  exists r w3, loadConfig (bs "l4lb.conf") w = (Ret r, os_close 3 w3) /\
    r = inl sample_config.
Proof.
  intros w.
  destruct (@loadConfig_contents _ ScriptedFile.ops ScriptedFile.file_content (bs "l4lb.conf") w 3 w
              (mkFileStat true (len (render_config sample_config)) 1 1 (0, 0) (0, 0)) w
              eq_refl eq_refl eq_refl) as (r & w3 & Hl & Hr).
  exists r, w3. split; [exact Hl|].
  destruct Hr as [[errno Hr]|[[_ Hr]|[Hr _]]].
  - exfalso. assert (Hgood : (loadConfig (bs "l4lb.conf") w).1 = Ret (inl sample_config))
      by by vm_compute.
    rewrite Hl, Hr in Hgood. simpl in Hgood. discriminate Hgood.
  - assert (Hp : parseConfig (render_config sample_config) = Some (inl sample_config))
      by by vm_compute.
    change (content w 3) with (render_config sample_config) in Hr. congruence.
  - by vm_compute in Hr.
Defined.
