(* ===== verification/Core.v ===== *)
(** * Backend selection and UDP flow values (src/src/core)

    The scheduler interface as a class, the round-robin policy that implements
    it, and the pure flow key, hash and idle deadline of the UDP path. *)
From S2P Require Import Prelude Config.

(** ** BackendScheduler (BackendScheduler.h): the operation ... *)

Class BackendScheduler (Sch : Type) := {
  selectNextBackendIndex : Sch -> Z * Sch
}.

(** The k-th selection from a state, and the state after k selections. *)
Fixpoint after_selections {Sch} `{BackendScheduler Sch} (k : nat) (s : Sch) : Sch :=
  match k with
  | O => s
  | S k' => after_selections k' (selectNextBackendIndex s).2
  end.
Definition selection {Sch} `{BackendScheduler Sch} (k : nat) (s : Sch) : Z :=
  (selectNextBackendIndex (after_selections k s)).1.

(** ... and what its implementations promise to a pool of [pool s] backends:
    indexes in range, and every index within one round. *)
Class BackendSchedulerSpec (Sch : Type) `{BackendScheduler Sch} := {
  sched_valid : Sch -> Prop;
  pool : Sch -> nat;
  sched_step_valid : forall s, sched_valid s -> sched_valid (selectNextBackendIndex s).2;
  sched_step_pool : forall s, sched_valid s -> pool (selectNextBackendIndex s).2 = pool s;
  sched_in_range : forall s, sched_valid s ->
    0 <= (selectNextBackendIndex s).1 < Z.of_nat (pool s);
  sched_visits_all : forall s i, sched_valid s -> 0 <= i < Z.of_nat (pool s) ->
    exists k, (k < pool s)%nat /\ selection k s = i
}.

(** ** RoundRobinScheduler.h *)

Record RoundRobinScheduler := mkRoundRobinScheduler {
  backendCount_ : Z;
  nextBackendIndex_ : Z
}.

Definition newRoundRobinScheduler (backendCount : Z) : outcome RoundRobinScheduler :=
  if backendCount =? 0 then Throw (InvalidArgument (bs "empty backend pool"))
  else Ret (mkRoundRobinScheduler backendCount 0).

Definition roundRobinSelectNext (s : RoundRobinScheduler) : Z * RoundRobinScheduler :=
  let selected := nextBackendIndex_ s in
  let next :=
    if nextBackendIndex_ s =? u64 (backendCount_ s - 1) then 0
    else u64 (nextBackendIndex_ s + 1) in
  (selected, mkRoundRobinScheduler (backendCount_ s) next).

#[export] Instance round_robin_scheduler : BackendScheduler RoundRobinScheduler := {
  selectNextBackendIndex := roundRobinSelectNext
}.

(** BackendScheduler.cpp: the factory.  [SchedulerKind] has one constructor, so
    the final throw of the source is unreachable. *)
Definition createBackendScheduler (kind : SchedulerKind) (backendCount : Z)
    : outcome RoundRobinScheduler :=
  match kind with
  | kRoundRobin => newRoundRobinScheduler backendCount
  end.

(** ** UdpFlow.h *)

Record UdpFlowKey := mkUdpFlowKey {
  client : Endpoint;
  localAddress : list Z
}.

#[export] Instance udp_flow_key_eq_dec : EqDecision UdpFlowKey.
Proof. solve_decision. Defined.

#[export] Instance endpoint_countable : Countable Endpoint.
Proof.
  refine (inj_countable' (fun e => (address e, port e)) (fun p => mkEndpoint p.1 p.2) _).
  by intros [].
Defined.
#[export] Instance udp_flow_key_countable : Countable UdpFlowKey.
Proof.
  refine (inj_countable' (fun k => (client k, localAddress k))
            (fun p => mkUdpFlowKey p.1 p.2) _).
  by intros [].
Defined.

Definition udpFlowHash (key : UdpFlowKey) : Z :=
  let value := port (client key) in
  let value := foldl (fun v byte => u64 (v * 131 + byte)) value (address (client key)) in
  foldl (fun v byte => u64 (v * 131 + byte)) value (localAddress key).

Record UdpIdleDeadline := mkUdpIdleDeadline { lastSubmissionTime : Z }.

Definition recordSubmission (now : Z) (d : UdpIdleDeadline) : UdpIdleDeadline :=
  mkUdpIdleDeadline now.
Definition udpExpired (d : UdpIdleDeadline) (now timeout : Z) : bool :=
  timeout <=? now - lastSubmissionTime d.

(** ** Round robin meets the interface *)

Definition rr_valid (s : RoundRobinScheduler) : Prop :=
  0 <= nextBackendIndex_ s < backendCount_ s /\ backendCount_ s < 2 ^ 64.

Lemma roundRobinSelectNext_mod s :
  rr_valid s ->
  roundRobinSelectNext s =
  (nextBackendIndex_ s,
   mkRoundRobinScheduler (backendCount_ s) ((nextBackendIndex_ s + 1) mod backendCount_ s)).
Proof.
  intros [Hi Hc]. unfold roundRobinSelectNext. rewrite (u64_small (_ - 1)) by lia.
  do 2 f_equal. destruct (Z.eqb_spec (nextBackendIndex_ s) (backendCount_ s - 1)) as [->|].
  - replace (backendCount_ s - 1 + 1) with (backendCount_ s) by lia. by rewrite Z.mod_same by lia.
  - rewrite u64_small, Z.mod_small by lia. done.
Qed.

Lemma rr_after_selections k s :
  rr_valid s ->
  after_selections k s =
  mkRoundRobinScheduler (backendCount_ s) ((nextBackendIndex_ s + Z.of_nat k) mod backendCount_ s).
Proof.
  revert s. induction k as [|k IH]; intros s Hs.
  - simpl. destruct Hs as [Hi _]. rewrite Z.add_0_r, Z.mod_small by done. by destruct s.
  - cbn [after_selections selectNextBackendIndex round_robin_scheduler].
    rewrite roundRobinSelectNext_mod by done. cbn [snd].
    destruct Hs as [Hi Hc]. rewrite IH.
    + cbn [backendCount_ nextBackendIndex_]. f_equal.
      rewrite Zplus_mod_idemp_l. f_equal. lia.
    + split; [|done]. apply Z.mod_pos_bound. simpl. lia.
Qed.

Lemma rr_selection k s :
  rr_valid s -> selection k s = (nextBackendIndex_ s + Z.of_nat k) mod backendCount_ s.
Proof. intros Hs. unfold selection. by rewrite rr_after_selections. Qed.

#[export] Instance round_robin_spec : BackendSchedulerSpec RoundRobinScheduler.
Proof.
  refine {| sched_valid := rr_valid; pool s := Z.to_nat (backendCount_ s) |}.
  - intros s Hs. cbn [selectNextBackendIndex round_robin_scheduler].
    rewrite roundRobinSelectNext_mod by done. destruct Hs as [Hi Hc]. split; [|done].
    apply Z.mod_pos_bound. simpl. lia.
  - done.
  - intros s [Hi Hc]. simpl. lia.
  - intros s i Hs Hi. pose proof Hs as [Hn Hc].
    exists (Z.to_nat ((i - nextBackendIndex_ s) mod backendCount_ s)).
    pose proof (Z.mod_pos_bound (i - nextBackendIndex_ s) (backendCount_ s)).
    split; [lia|]. rewrite rr_selection by done. rewrite Z2Nat.id by lia.
    rewrite Zplus_mod_idemp_r. replace (nextBackendIndex_ s + (i - nextBackendIndex_ s)) with i by lia.
    apply Z.mod_small. lia.
Defined.

(** ** Properties *)

(** The scheduler that the factory creates for n > 0 backends selects
    index k mod n at its k-th call (k from 0), for every k and every n that a
    64-bit size can hold; an empty pool is refused. *)
Theorem createBackendScheduler_round_robin kind n k :
  0 <= n < 2 ^ 64 ->
  match createBackendScheduler kind n with
  | Ret s => 0 < n /\ selection k s = Z.of_nat k mod n
  | Throw e => n = 0 /\ e = InvalidArgument (bs "empty backend pool")
  | Diverge => False
  end.
Proof.
  intros Hn. destruct kind. simpl. unfold newRoundRobinScheduler.
  destruct (Z.eqb_spec n 0); [done|]. split; [lia|].
  rewrite rr_selection; [done|]. split; simpl; lia.
Qed.

Lemma createBackendScheduler_round_robin_witness :
  0 <= 3 < 2 ^ 64 /\
  selection 7 (mkRoundRobinScheduler 3 0) = 1.
Proof.
  split; [lia|].
  pose proof (createBackendScheduler_round_robin kRoundRobin 3 7 ltac:(lia)) as H.
  simpl in H. apply H.
Defined.
