(* ===== verification/HealthState.v ===== *)
(** * The consecutive-result state machine (src/src/health/HealthState.h)

    One state per backend, fed with the outcome of each probe.  Both checkers
    (TCP handshakes and UDP probes) use it. *)
From S2P Require Import Prelude.

Inductive HealthStatus := kUnknown | kHealthy | kUnhealthy.

#[export] Instance health_status_eq_dec : EqDecision HealthStatus.
Proof. solve_decision. Defined.

Record HealthState := mkHealthState {
  status : HealthStatus;
  successes : Z;
  failures : Z
}.

#[export] Instance health_state_eq_dec : EqDecision HealthState.
Proof. solve_decision. Defined.

Definition newHealthState : HealthState := mkHealthState kUnknown 0 0.

(** The result says whether the status changed. *)
Definition applyProbeResult (st : HealthState) (success : bool) : bool * HealthState :=
  let before := status st in
  let st' :=
    if success then
      let n := Z.min (u32 (successes st + 1)) 2 in
      mkHealthState (if n =? 2 then kHealthy else status st) n 0
    else
      let n := Z.min (u32 (failures st + 1)) 3 in
      mkHealthState (if n =? 3 then kUnhealthy else status st) 0 n in
  (bool_decide (before <> status st'), st').

Definition healthStatusName (s : HealthStatus) : bytes :=
  match s with
  | kUnknown => bs "Unknown"
  | kHealthy => bs "Healthy"
  | kUnhealthy => bs "Unhealthy"
  end.

(** ** Specification by the history of results

    A history lists the most recent result first.  The latest run decides:
    two successes in a row mean Healthy, three failures in a row Unhealthy, and
    a shorter run leaves the verdict of the results before it. *)

Fixpoint spec_status (history : list bool) : HealthStatus :=
  match history with
  | [] => kUnknown
  | _ :: older =>
      if bool_decide (take 2 history = [true; true]) then kHealthy
      else if bool_decide (take 3 history = [false; false; false]) then kUnhealthy
      else spec_status older
  end.

(** The length of the latest run of [r]. *)
Fixpoint latest_run (r : bool) (history : list bool) : Z :=
  match history with
  | x :: older => if bool_decide (x = r) then 1 + latest_run r older else 0
  | [] => 0
  end.

Definition state_after (history : list bool) : HealthState :=
  foldr (fun r st => (applyProbeResult st r).2) newHealthState history.

(** The states that occur. *)
Definition health_ok (st : HealthState) : Prop :=
  0 <= successes st <= 2 /\ 0 <= failures st <= 3 /\
  (successes st = 0 \/ failures st = 0) /\
  (successes st = 2 -> status st = kHealthy) /\
  (failures st = 3 -> status st = kUnhealthy).

Lemma applyProbeResult_ok st r : health_ok st -> health_ok (applyProbeResult st r).2.
Proof.
  intros (Hs & Hf & _). unfold applyProbeResult, health_ok.
  destruct r; cbn [snd successes failures status];
    rewrite u32_small by lia;
    match goal with |- context [?a =? ?b] => destruct (Z.eqb_spec a b) end;
    split_and!; lia || done.
Qed.

Lemma new_health_ok : health_ok newHealthState.
Proof. unfold health_ok; simpl; split_and!; lia || done. Qed.
#[export] Hint Resolve applyProbeResult_ok new_health_ok : l4lb.

Lemma latest_run_nonneg r h : 0 <= latest_run r h.
Proof. induction h; simpl; [lia|]. case_bool_decide; lia. Qed.

Lemma latest_run_ge (r : bool) n h :
  Z.of_nat n <= latest_run r h <-> take n h = replicate n r.
Proof.
  revert h. induction n as [|n IH]; intros h.
  - rewrite take_0. simpl. pose proof (latest_run_nonneg r h). split; [done|lia].
  - destruct h as [|x h]; simpl; [split; [lia|done]|].
    case_bool_decide as Hx.
    + subst. specialize (IH h).
      split; [intros; f_equal; apply IH; lia|]. intros [= Heq]. apply IH in Heq. lia.
    + split; [lia|]. intros [= ? _]. done.
Qed.

Lemma state_after_runs h :
  successes (state_after h) = Z.min (latest_run true h) 2 /\
  failures (state_after h) = Z.min (latest_run false h) 3.
Proof.
  induction h as [|r h [IHs IHf]]; simpl; [done|].
  pose proof (latest_run_nonneg true h). pose proof (latest_run_nonneg false h).
  unfold applyProbeResult.
  destruct r; cbn [snd successes failures]; rewrite ?IHs, ?IHf, u32_small by lia;
    repeat case_bool_decide; try done; lia.
Qed.

(** C26: after any history of probe results the status is the one the history
    calls for (two successes in a row make a backend Healthy, three failures in
    a row Unhealthy, a shorter run keeps the older verdict), the counters are
    the saturated lengths of the latest run, and a result is reported as a
    change exactly when it changes the status. *)
Theorem applyProbeResult_history h r :
  let st := state_after h in
  status st = spec_status h /\
  successes st = Z.min (latest_run true h) 2 /\
  failures st = Z.min (latest_run false h) 3 /\
  ((applyProbeResult st r).1 = true <-> spec_status (r :: h) <> spec_status h).
Proof.
  assert (Hst : forall h, status (state_after h) = spec_status h).
  { clear. induction h as [|r h IH]; [done|].
    cbn [state_after foldr]. fold (state_after h).
    destruct (state_after_runs h) as [Hs Hf].
    pose proof (latest_run_nonneg true h). pose proof (latest_run_nonneg false h).
    pose proof (latest_run_ge true 1 h) as Ht. pose proof (latest_run_ge false 2 h) as Hff.
    cbn [spec_status]. unfold applyProbeResult.
    destruct r; cbn [snd status]; rewrite ?Hs, ?Hf, u32_small by lia; cbn [take].
    - rewrite (bool_decide_false (true :: take 2 h = _)) by done.
      destruct (Z.eqb_spec (Z.min (Z.min (latest_run true h) 2 + 1) 2) 2);
        case_bool_decide as Hd; try done.
      + destruct Hd. f_equal. apply Ht. lia.
      + injection Hd as Hd. apply Ht in Hd. lia.
    - rewrite (bool_decide_false (false :: take 1 h = _)) by done.
      destruct (Z.eqb_spec (Z.min (Z.min (latest_run false h) 3 + 1) 3) 3);
        case_bool_decide as Hd; try done.
      + destruct Hd. f_equal. apply Hff. lia.
      + injection Hd as Hd. apply Hff in Hd. lia. }
  intros st. subst st. destruct (state_after_runs h) as [Hs Hf]. split_and!; [apply Hst|done|done|].
  rewrite <-(Hst h), <-(Hst (r :: h)). cbn [state_after foldr]. fold (state_after h).
  unfold applyProbeResult. cbn [fst snd]. rewrite bool_decide_eq_true. split; congruence.
Qed.
