(* ===== verification/TcpHealth.v ===== *)
(** * TCP handshake health checks (src/src/health/TcpHealthChecker.h, .cpp)

    The non-blocking prober: one probe slot per backend, generation tokens that
    invalidate stale readiness events, deadlines and the per-backend schedule.
    The operating system is the class [TcpProbeOps]; the functions of
    [TcpHealthCheckOptions] replace exactly these calls. *)
From S2P Require Import Prelude Config HealthState.

(** ** TcpHealthChecker.h *)

Record HealthChange := mkHealthChange {
  hc_backend : nat;
  hc_from : HealthStatus;
  hc_to : HealthStatus;
  hc_reason : bytes;
  hc_error : Z
}.

(** The calls of the checker; the options of the source inject replacements
    for the same calls. *)
Class TcpProbeOps (W : Type) := {
  probe_now : W -> Z * W;
  probe_socket : W -> (Z + Z) * W;
  probe_connect : Z -> Endpoint -> W -> (unit + Z) * W;
  probe_socket_error : Z -> W -> (Z + Z) * W;
  probe_epoll_create : W -> (Z + Z) * W;
  probe_epoll_add : Z -> Z -> W -> (unit + Z) * W;
  probe_epoll_del : Z -> W -> W;
  probe_epoll_poll : W -> (list Z + Z) * W;
  probe_close : Z -> W -> W
}.

Record Probe := mkProbe {
  state : HealthState;
  fd : Z;
  token : Z;
  nextProbeTime : Z;
  probeDeadline : Z
}.

#[export] Instance probe_inhabited : Inhabited Probe :=
  populate (mkProbe newHealthState (-1) 0 0 0).

Record TcpHealthChecker := mkTcpHealthChecker {
  endpoints_ : list Endpoint;
  interval : Z;
  timeout : Z;
  epollFd_ : Z;
  probes_ : list Probe;
  nextProbeToken_ : Z
}.

Definition set_probes (l : list Probe) (c : TcpHealthChecker) : TcpHealthChecker :=
  mkTcpHealthChecker (endpoints_ c) (interval c) (timeout c) (epollFd_ c) l (nextProbeToken_ c).
Definition set_probe (i : nat) (p : Probe) (c : TcpHealthChecker) : TcpHealthChecker :=
  set_probes (<[i := p]> (probes_ c)) c.
Definition set_nextToken (t : Z) (c : TcpHealthChecker) : TcpHealthChecker :=
  mkTcpHealthChecker (endpoints_ c) (interval c) (timeout c) (epollFd_ c) (probes_ c) t.

Definition isLocalResourceError (socketError : Z) : bool :=
  (socketError =? EMFILE) || (socketError =? ENFILE) || (socketError =? ENOMEM) ||
  (socketError =? ENOBUFS).

Definition activeProbeCount (c : TcpHealthChecker) : Z :=
  len (filter (fun p => token p <> 0) (probes_ c)).

Section checker.
Context {W : Type} `{TcpProbeOps W}.

(** The constructor: the member [epollFd_] is created before the options are
    looked at, and closed again when the body throws. *)
Definition newTcpHealthChecker (endpoints : list Endpoint) (interval timeout : Z)
    : M W TcpHealthChecker :=
  created <- mworld probe_epoll_create ;;
  if bool_decide (endpoints = []) || (256 <? len endpoints) || (interval <=? 0) ||
     (timeout <=? 0)
  then
    match created with
    | inl epollFd => mmodify (probe_close epollFd)
    | inr _ => mret tt
    end ;;;
    mthrow (InvalidArgument (bs "invalid health checker options"))
  else
    match created with
    | inr errno => mthrow (SystemError errno (bs "health epoll_create1"))
    | inl epollFd =>
        mret (mkTcpHealthChecker endpoints interval timeout epollFd
                (replicate (length endpoints) (mkProbe newHealthState (-1) 0 0 0)) 1)
    end.

(** The destructor of the members: the probes, then the epoll descriptor. *)
Definition destroyTcpHealthChecker (c : TcpHealthChecker) : M W unit :=
  mfor (probes_ c) (fun p => if 0 <=? fd p then mmodify (probe_close (fd p)) else mret tt) ;;;
  mmodify (probe_close (epollFd_ c)).

Context (healthChangeCallback_ : option (HealthChange -> M W unit)).

Definition completeBackendProbe (backendIndex : nat) (success : bool) (reason : bytes)
    (error time : Z) : M (TcpHealthChecker * W) unit :=
  c <- own id ;;
  let probe := probes_ c !!! backendIndex in
  (if 0 <=? fd probe then
     effect (probe_epoll_del (fd probe)) ;;; effect (probe_close (fd probe))
   else mret tt) ;;;
  let before := status (state probe) in
  let '(changed, st) := applyProbeResult (state probe) success in
  update (set_probe backendIndex
            (mkProbe st (-1) 0 (time + interval c) (probeDeadline probe))) ;;;
  match healthChangeCallback_ with
  | Some callback =>
      mwhen changed
        (outside (callback (mkHealthChange backendIndex before (status st) reason error)))
  | None => mret tt
  end.

(** What follows connect(2). *)
Definition startConnected (backendIndex : nat) (time newFd : Z) (c : TcpHealthChecker)
    (connected : unit + Z) : M (TcpHealthChecker * W) unit :=
  match connected with
  | inl _ => completeBackendProbe backendIndex true (bs "connected") 0 time
  | inr error =>
      if negb (error =? EINPROGRESS) then
        completeBackendProbe backendIndex false
          (if isLocalResourceError error then bs "local_error" else bs "connect_error")
          error time
      else if nextProbeToken_ c =? UINT64_MAX then
        mthrow (OverflowError (bs "health token exhausted"))
      else
        update (fun c =>
          let p := probes_ c !!! backendIndex in
          set_nextToken (nextProbeToken_ c + 1)
            (set_probe backendIndex
               (mkProbe (state p) (fd p) (nextProbeToken_ c) (nextProbeTime p)
                  (time + timeout c)) c)) ;;;
        added <- call (probe_epoll_add newFd (nextProbeToken_ c)) ;;
        match added with
        | inl _ => mret tt
        | inr errno =>
            completeBackendProbe backendIndex false (bs "local_error") errno time
        end
  end.

Definition startBackendProbe (backendIndex : nat) (time : Z)
    : M (TcpHealthChecker * W) unit :=
  sock <- call probe_socket ;;
  match sock with
  | inr errno =>
      old <- own (fun c => fd (probes_ c !!! backendIndex)) ;;
      (if 0 <=? old then effect (probe_close old) else mret tt) ;;;
      update (fun c => let p := probes_ c !!! backendIndex in
        set_probe backendIndex
          (mkProbe (state p) (-1) (token p) (nextProbeTime p) (probeDeadline p)) c) ;;;
      completeBackendProbe backendIndex false (bs "local_error") errno time
  | inl newFd =>
      old <- own (fun c => fd (probes_ c !!! backendIndex)) ;;
      (if 0 <=? old then effect (probe_close old) else mret tt) ;;;
      update (fun c => let p := probes_ c !!! backendIndex in
        set_probe backendIndex
          (mkProbe (state p) newFd (token p) (nextProbeTime p) (probeDeadline p)) c) ;;;
      c <- own id ;;
      connected <- call (probe_connect newFd (nth backendIndex (endpoints_ c) emptyEndpoint)) ;;
      startConnected backendIndex time newFd c connected
  end.

(** The inner loop over the ready events: the first one with the probe's token
    completes it and leaves the loop. *)
Fixpoint completeReadyProbe (events : list Z) (backendIndex : nat) (time : Z)
    : M (TcpHealthChecker * W) unit :=
  match events with
  | [] => mret tt
  | event :: events' =>
      probe <- own (fun c => probes_ c !!! backendIndex) ;;
      if negb (event =? token probe) then completeReadyProbe events' backendIndex time
      else
        result <- call (probe_socket_error (fd probe)) ;;
        match result with
        | inr errno => completeBackendProbe backendIndex false (bs "local_error") errno time
        | inl error =>
            completeBackendProbe backendIndex (error =? 0)
              (if error =? 0 then bs "connected"
               else if isLocalResourceError error then bs "local_error"
               else bs "connect_error")
              error time
        end
  end.

(** The body of the loop over the probes. *)
Definition pollBackendProbe (events : list Z) (time : Z) (backendIndex : nat)
    : M (TcpHealthChecker * W) unit :=
  probe <- own (fun c => probes_ c !!! backendIndex) ;;
  if negb (token probe =? 0) && (probeDeadline probe <=? time) then
    completeBackendProbe backendIndex false (bs "timeout") ETIMEDOUT time
  else if negb (token probe =? 0) then completeReadyProbe events backendIndex time
  else mwhen (nextProbeTime probe <=? time) (startBackendProbe backendIndex time).

Definition pollHealthProbes : M (TcpHealthChecker * W) unit :=
  time <- call probe_now ;;
  polled <- call probe_epoll_poll ;;
  match polled with
  | inr errno =>
      if errno =? EINTR then mret tt
      else mthrow (SystemError errno (bs "health epoll_wait"))
  | inl events =>
      if 256 <? len events then mthrow (LogicError (bs "health invalid event count"))
      else
        n <- own (fun c => length (probes_ c)) ;;
        mfor (seq 0 n) (pollBackendProbe events time)
  end.
End checker.

(** ** What one poll may do to a probe *)

Section proofs.
Context {W : Type} `{TcpProbeOps W}.
Context (callback : option (HealthChange -> M W unit)).
(** socket(2) returns a descriptor, which is not negative, or an error. *)
Context (socket_fd : forall w newFd w', probe_socket w = (inl newFd, w') -> 0 <= newFd).

(** The change callback terminates (it may throw). *)
Definition callback_returns : Prop :=
  forall f, callback = Some f -> forall change w, (f change w).1 <> Diverge.

(** A probe that has reported [success] at [time]. *)
Definition completed_as (c : TcpHealthChecker) (time : Z) (success : bool) (p p' : Probe) : Prop :=
  state p' = (applyProbeResult (state p) success).2 /\
  fd p' = -1 /\ token p' = 0 /\ nextProbeTime p' = time + interval c.

(** A probe whose connection is being established under the token [t]. *)
Definition started_as (c : TcpHealthChecker) (time t : Z) (p p' : Probe) : Prop :=
  state p' = state p /\ 0 <= fd p' /\ token p' = t /\
  nextProbeTime p' = nextProbeTime p /\ probeDeadline p' = time + timeout c.

(** The normal results of one turn of the loop for the probe [p]: an expired
    probe fails, an event with the current token completes it, everything else
    leaves it alone; an idle probe whose time has come is completed at once or
    started, and any other idle probe rests. *)
Definition turn (c : TcpHealthChecker) (events : list Z) (time t : Z) (p p' : Probe) : Prop :=
  if token p =? 0 then
    if nextProbeTime p <=? time then
      (exists success, completed_as c time success p p') \/ started_as c time t p p'
    else p' = p
  else if probeDeadline p <=? time then completed_as c time false p p'
  else if bool_decide (token p ∈ events) then exists success, completed_as c time success p p'
  else p' = p.

(** [t] is the next token after the turn: it advances by one when a token was
    spent, and a started probe holds the spent token. *)
Definition turn_result (i : nat) (events : list Z) (time : Z) (c : TcpHealthChecker)
    (o : outcome unit) (c' : TcpHealthChecker) : Prop :=
  exists p' t,
    c' = set_nextToken t (set_probe i p' c) /\
    (t = nextProbeToken_ c \/ t = nextProbeToken_ c + 1 /\ nextProbeToken_ c <> UINT64_MAX) /\
    (token p' = 0 \/
     token p' = token (probes_ c !!! i) /\ fd p' = fd (probes_ c !!! i) \/
     token p' = nextProbeToken_ c /\ t = nextProbeToken_ c + 1 /\ 0 <= fd p') /\
    (state p' = state (probes_ c !!! i) \/
     exists success, state p' = (applyProbeResult (state (probes_ c !!! i)) success).2) /\
    (o = Ret tt -> turn c events time (nextProbeToken_ c) (probes_ c !!! i) p') /\
    (callback_returns -> o <> Diverge).

Lemma set_probe_twice i p q c : set_probe i p (set_probe i q c) = set_probe i p c.
Proof. unfold set_probe, set_probes. simpl. by rewrite list_insert_insert_eq. Qed.
Lemma set_probe_nextToken i p t c :
  set_probe i p (set_nextToken t c) = set_nextToken t (set_probe i p c).
Proof. done. Qed.
Lemma set_nextToken_same c : set_nextToken (nextProbeToken_ c) c = c.
Proof. by destruct c. Qed.
Lemma set_probe_same i c : set_probe i (probes_ c !!! i) c = c.
Proof.
  destruct c as [e iv to ep ps t]. unfold set_probe, set_probes; simpl. f_equal.
  destruct (ps !! i) as [p|] eqn:Hp.
  - rewrite (list_lookup_total_correct _ _ _ Hp). by apply list_insert_id.
  - apply list_insert_ge. by apply lookup_ge_None_1.
Qed.
Lemma lookup_set_probe i p c :
  (i < length (probes_ c))%nat -> probes_ (set_probe i p c) !!! i = p.
Proof. intros. unfold set_probe; simpl. by rewrite list_lookup_total_insert_eq. Qed.
Lemma length_set_probe i p c : length (probes_ (set_probe i p c)) = length (probes_ c).
Proof. unfold set_probe; simpl. by rewrite length_insert. Qed.

Lemma completeBackendProbe_spec i success reason error time c w Q :
  (forall o w', (callback_returns -> o <> Diverge) -> Q o (set_probe i
      (mkProbe (applyProbeResult (state (probes_ c !!! i)) success).2 (-1) 0
         (time + interval c) (probeDeadline (probes_ c !!! i))) c, w')) ->
  wp (completeBackendProbe callback i success reason error time) Q (c, w).
Proof.
  intros HQ. unfold completeBackendProbe.
  destruct (applyProbeResult (state (probes_ c !!! i)) success) as [changed st] eqn:Ea.
  simpl in HQ. wp_steps; cbn [fst snd] in *; unfold id in *;
    rewrite Ea in *; simplify_eq; apply HQ; try done.
  all: intros Hret; by apply Hret.
Qed.

(** Completing the probe, possibly after the slot was filled and a token
    spent, is a turn. *)
Lemma turn_completed p t c c1 i events time o w success :
  c1 = set_nextToken t (set_probe i p c) ->
  (i < length (probes_ c))%nat ->
  state p = state (probes_ c !!! i) ->
  (t = nextProbeToken_ c \/ t = nextProbeToken_ c + 1 /\ nextProbeToken_ c <> UINT64_MAX) ->
  (forall p', completed_as c time success (probes_ c !!! i) p' ->
     turn c events time (nextProbeToken_ c) (probes_ c !!! i) p') ->
  (callback_returns -> o <> Diverge) ->
  turn_result i events time c o
    (set_probe i
       (mkProbe (applyProbeResult (state (probes_ c1 !!! i)) success).2 (-1) 0
          (time + interval c1) w) c1).
Proof.
  intros -> Hi Hp Ht Hturn Hret. cbn [probes_ set_nextToken interval].
  rewrite lookup_set_probe by done. eexists _, t.
  rewrite set_probe_nextToken, set_probe_twice. split; [done|]. split; [done|].
  split; [by left|]. split; [right; exists success; cbn; by rewrite Hp|].
  split; [|done]. intros _. apply Hturn. unfold completed_as. cbn. by rewrite Hp.
Qed.

(** Completing the probe as it stands. *)
Lemma turn_completed_now c i events time o w success :
  (i < length (probes_ c))%nat ->
  (forall p', completed_as c time success (probes_ c !!! i) p' ->
     turn c events time (nextProbeToken_ c) (probes_ c !!! i) p') ->
  (callback_returns -> o <> Diverge) ->
  turn_result i events time c o
    (set_probe i
       (mkProbe (applyProbeResult (state (probes_ c !!! i)) success).2 (-1) 0
          (time + interval c) w) c).
Proof.
  intros. eapply (turn_completed (probes_ c !!! i) (nextProbeToken_ c)); eauto.
  by rewrite set_probe_same, set_nextToken_same.
Qed.

Lemma startBackendProbe_spec i events time c w :
  (i < length (probes_ c))%nat ->
  token (probes_ c !!! i) = 0 ->
  (nextProbeTime (probes_ c !!! i) <=? time) = true ->
  wp (startBackendProbe callback i time) (fun o s' => turn_result i events time c o s'.1) (c, w).
Proof using All.
  intros Hi Hidle Hdue.
  assert (Hturn : forall success p', completed_as c time success (probes_ c !!! i) p' ->
            turn c events time (nextProbeToken_ c) (probes_ c !!! i) p').
  { intros success p' Hp'. unfold turn. rewrite Hidle, Hdue. left. eauto. }
  unfold startBackendProbe. wp_step. wp_step. cbn [snd fst].
  destruct (probe_socket w) as [[newFd|errno] w1] eqn:Hsock; cbn [fst snd].
  2: { wp_steps; apply completeBackendProbe_spec; intros o w2 Hret;
       eapply (turn_completed _ (nextProbeToken_ c)); eauto; done. }
  apply socket_fd in Hsock as Hfd.
  wp_step. wp_step. wp_step. eapply (wp_mono _ (fun o s' => exists w2, o = Ret tt /\ s' = (c, w2))).
  { wp_steps; eauto. }
  intros _ _ (w2 & -> & ->). unfold startConnected.
  wp_step; wp_step; cbn [fst]; unfold id; wp_step; wp_step; wp_step; cbn [fst snd].
  set (p0 := mkProbe (state (probes_ c !!! i)) newFd _ _ _).
  assert (Hl : probes_ (set_probe i p0 c) !!! i = p0) by by apply lookup_set_probe.
  wp_steps; cbn [fst snd] in *;
    try (apply completeBackendProbe_spec; intros o w3 Hret).
  - eapply (turn_completed p0 (nextProbeToken_ c)); eauto.
  - eapply (turn_completed p0 (nextProbeToken_ c)); eauto.
  - exists p0, (nextProbeToken_ c). split; [done|]. split; [by left|].
    split; [left; apply Hidle|]. split; [by left|]. done.
  - rewrite Hl, set_probe_twice. eexists _, _. split; [done|].
    split; [right; split; [done|by apply Z.eqb_neq]|].
    split; [right; right; done|]. split; [by left|]. split; [|done]. intros _. unfold turn. rewrite Hidle, Hdue. right. done.
  - eapply (turn_completed _ (nextProbeToken_ c + 1)).
    + by rewrite Hl, set_probe_twice.
    + done.
    + done.
    + right. split; [done|by apply Z.eqb_neq].
    + apply Hturn.
    + done.
Qed.

Lemma completeReadyProbe_spec i evs events time c w :
  (i < length (probes_ c))%nat ->
  token (probes_ c !!! i) <> 0 ->
  (probeDeadline (probes_ c !!! i) <=? time) = false ->
  (forall t, t = token (probes_ c !!! i) -> t ∈ events <-> t ∈ evs) ->
  wp (completeReadyProbe callback evs i time)
    (fun o s' => turn_result i events time c o s'.1) (c, w).
Proof using All.
  intros Hi Htok Hlive. revert w. induction evs as [|e evs IH]; intros w Hev; simpl.
  - wp_steps. exists (probes_ c !!! i), (nextProbeToken_ c).
    rewrite set_probe_same, set_nextToken_same. split; [done|]. split; [by left|].
    split; [by right; left|]. split; [by left|]. split; [|done]. intros _. unfold turn.
    rewrite (proj2 (Z.eqb_neq _ _) Htok), Hlive, bool_decide_false; [done|].
    rewrite Hev by done. set_solver.
  - wp_step. wp_step. cbn [fst]. wp_step.
    { apply IH. intros t ->. rewrite Hev by done.
      apply negb_true_iff, Z.eqb_neq in Heqb. set_solver. }
    apply negb_false_iff, Z.eqb_eq in Heqb. subst e.
    assert (Hturn : forall success p', completed_as c time success (probes_ c !!! i) p' ->
              turn c events time (nextProbeToken_ c) (probes_ c !!! i) p').
    { intros success p' Hp'. unfold turn.
      rewrite (proj2 (Z.eqb_neq _ _) Htok), Hlive, bool_decide_true; [eauto|].
      rewrite Hev by done. set_solver. }
    wp_step. wp_step. cbn [snd fst]. destruct (probe_socket_error _ w) as [[error|errno] w1];
      cbn [fst snd]; apply completeBackendProbe_spec; intros o w2 Hret;
      eapply turn_completed_now; eauto.
Qed.

Lemma pollBackendProbe_spec i events time c w :
  (i < length (probes_ c))%nat ->
  wp (pollBackendProbe callback events time i)
    (fun o s' => turn_result i events time c o s'.1) (c, w).
Proof using All.
  intros Hi. unfold pollBackendProbe. wp_step. wp_step. cbn [fst].
  destruct (Z.eqb_spec (token (probes_ c !!! i)) 0) as [Hidle|Hbusy]; cbn [negb andb].
  - wp_step. destruct (nextProbeTime _ <=? time) eqn:Hdue.
    + by apply startBackendProbe_spec.
    + exists (probes_ c !!! i), (nextProbeToken_ c).
      cbn [fst]. rewrite set_probe_same, set_nextToken_same. split; [done|]. split; [by left|].
      split; [by right; left|]. split; [by left|]. split; [|done]. intros _. unfold turn. by rewrite Hidle, Hdue.
  - destruct (probeDeadline _ <=? time) eqn:Hdue.
    + apply completeBackendProbe_spec. intros o w1 Hret. eapply turn_completed_now; [done| |done].
      intros p' Hp'. unfold turn. by rewrite (proj2 (Z.eqb_neq _ _) Hbusy), Hdue.
    + by apply completeReadyProbe_spec.
Qed.

(** The invariant of the checker: a running probe owns a descriptor and a token
    that was handed out before and is nobody else's. *)
Definition checker_ok (c : TcpHealthChecker) : Prop :=
  1 <= nextProbeToken_ c <= UINT64_MAX /\
  (forall i, (i < length (probes_ c))%nat ->
     health_ok (state (probes_ c !!! i)) /\
     (token (probes_ c !!! i) = 0 \/
      1 <= token (probes_ c !!! i) < nextProbeToken_ c /\ 0 <= fd (probes_ c !!! i))) /\
  (forall i j, (i < length (probes_ c))%nat -> (j < length (probes_ c))%nat ->
     token (probes_ c !!! i) = token (probes_ c !!! j) ->
     token (probes_ c !!! i) <> 0 -> i = j).

Lemma lookup_turned i t p c j :
  (i < length (probes_ c))%nat ->
  probes_ (set_nextToken t (set_probe i p c)) !!! j =
    if decide (j = i) then p else probes_ c !!! j.
Proof.
  intros Hi. cbn [probes_ set_nextToken]. unfold set_probe; cbn [probes_ set_probes].
  destruct (decide (j = i)) as [->|Hj].
  - by rewrite list_lookup_total_insert_eq.
  - by rewrite list_lookup_total_insert_ne.
Qed.


Lemma turn_result_ok i events time c o c' :
  (i < length (probes_ c))%nat ->
  checker_ok c -> turn_result i events time c o c' ->
  checker_ok c' /\ interval c' = interval c /\ timeout c' = timeout c /\
  length (probes_ c') = length (probes_ c) /\ nextProbeToken_ c <= nextProbeToken_ c' /\
  (forall j, j <> i -> probes_ c' !!! j = probes_ c !!! j).
Proof.
  intros Hi (Hn & Hp & Hd) (p' & t & -> & Ht & Htok & Hst & _ & _).
  assert (Hown : health_ok (state p') /\
            (token p' = 0 \/ 1 <= token p' < t /\ 0 <= fd p')).
  { destruct (Hp i Hi) as [Hh Hpi]. split.
    - destruct Hst as [->|[b ->]]; auto with l4lb.
    - destruct Htok as [?|[[-> ->]|(-> & -> & ?)]]; [by left| |lia].
      destruct Hpi as [?|[? ?]]; [by left|]. right. lia. }
  assert (Hne : token p' = 0 \/ token p' = token (probes_ c !!! i) \/
            token p' = nextProbeToken_ c) by lia.
  split_and!; try done.
  - split; [cbn; lia|]. split.
    + intros j Hj. rewrite lookup_turned by done. destruct (decide (j = i)); [done|].
      cbn [probes_ set_nextToken] in Hj. rewrite length_set_probe in Hj.
      destruct (Hp j Hj) as [? [?|[? ?]]]; split; auto. right. cbn. lia.
    + intros j k Hj Hk. cbn [probes_ set_nextToken] in Hj, Hk.
      rewrite length_set_probe in Hj, Hk. rewrite !lookup_turned by done.
      destruct (Hp j Hj) as [_ Hj']. destruct (Hp k Hk) as [_ Hk'].
      destruct (decide (j = i)) as [->|], (decide (k = i)) as [->|]; try done; intros He H0.
      * destruct Hne as [?|[Hne|Hne]]; [lia| |lia]. apply Hd; [done|done|lia|lia].
      * destruct Hne as [?|[Hne|Hne]]; [lia| |lia]. apply Hd; [done|done|lia|lia].
      * by apply Hd.
  - cbn. by rewrite length_insert.
  - cbn. lia.
  - intros j Hj. rewrite lookup_turned by done. by rewrite decide_False.
Qed.

Lemma turn_params c c' events time t p p' :
  interval c = interval c' -> timeout c = timeout c' ->
  turn c events time t p p' -> turn c' events time t p p'.
Proof. unfold turn, completed_as, started_as. by intros -> ->. Qed.

Lemma pollHealthProbes_spec c w :
  checker_ok c ->
  let time := (probe_now w).1 in
  let polled := (probe_epoll_poll (probe_now w).2).1 in
  wp (pollHealthProbes callback)
    (fun o s' =>
       (checker_ok s'.1 /\ length (probes_ s'.1) = length (probes_ c)) /\
       (callback_returns -> o <> Diverge) /\
       match o, polled with
       | Ret _, inl events =>
           forall i, (i < length (probes_ c))%nat ->
             exists t, nextProbeToken_ c <= t /\
               turn c events time t (probes_ c !!! i) (probes_ s'.1 !!! i)
       | Ret _, inr errno => errno = EINTR /\ s'.1 = c
       | _, _ => True
       end) (c, w).
Proof using All.
  intros Hok time polled. unfold pollHealthProbes.
  wp_step. wp_step. wp_step. wp_step. cbn [fst snd]. fold time. fold polled.
  destruct polled as [events|errno]; cbn [fst snd].
  2: { wp_step; wp_step; cbn [fst]; split_and!; try done; by apply Z.eqb_eq. }
  wp_step; [by wp_steps|]. wp_step. wp_step. cbn [fst snd].
  set (n := length (probes_ c)).
  apply (wp_for_seq n _ (fun k s' => checker_ok s'.1 /\
    interval s'.1 = interval c /\ timeout s'.1 = timeout c /\ length (probes_ s'.1) = n /\
    nextProbeToken_ c <= nextProbeToken_ s'.1 /\
    (forall i, (i < k)%nat -> exists t, nextProbeToken_ c <= t /\
       turn c events time t (probes_ c !!! i) (probes_ s'.1 !!! i)) /\
    (forall i, (k <= i)%nat -> probes_ s'.1 !!! i = probes_ c !!! i))).
  - split_and!; try done; cbn; lia.
  - intros k [c' w'] Hk (Hok' & Hiv & Hto & Hlen & Hnt & Hdone & Hrest). cbn [fst] in *.
    eapply wp_mono; [apply pollBackendProbe_spec; lia|]. intros o [c'' w''] Htr. cbn [fst] in *.
    pose proof (turn_result_ok k events time c' o c'' ltac:(lia) Hok' Htr)
      as (Hok'' & Hiv' & Hto' & Hlen' & Hnt' & Hother).
    assert (Hn : callback_returns -> o <> Diverge)
      by (destruct Htr as (p' & t & _ & _ & _ & _ & _ & Hret); exact Hret).
    destruct o as [[]|e|]; [|split_and!; (done || congruence)..].
    split; [done|]. split; [congruence|]. split; [congruence|]. split; [congruence|].
    split; [lia|]. split.
    + intros i Hi. destruct (decide (i = k)) as [->|].
      * destruct Htr as (p' & t & -> & _ & _ & _ & Hturn & _).
        rewrite lookup_turned, decide_True by (done || lia).
        exists (nextProbeToken_ c'). split; [done|]. rewrite <-(Hrest k) by lia.
        eapply turn_params; [done..|]. by apply Hturn.
      * rewrite Hother by done. apply Hdone. lia.
    + intros i Hi. rewrite Hother by lia. apply Hrest. lia.
  - intros [c' w'] (Hok' & _ & _ & Hlen & _ & Hdone & _). split; [done|]. split; [done|]. apply Hdone.
Qed.

(** One poll of the health checker, whatever the operating system and the
    change callback do.  In every outcome a running probe keeps a descriptor
    and a token of its own, different from every other probe's, and the counters
    stay within their limits.  A poll that returns has taken exactly one turn
    for every backend: a probe past its deadline failed; a probe with an event
    for its current token completed; an event with any other token (a stale one
    of an earlier probe on the same descriptor, say) left the probe alone; an
    idle backend was probed when its time had come and not before, under a
    token that was never used.  A poll interrupted by a signal changes
    nothing. *)
Theorem pollHealthProbes_turns c w :
  checker_ok c ->
  let time := (probe_now w).1 in
  let polled := (probe_epoll_poll (probe_now w).2).1 in
  wp (pollHealthProbes callback)
    (fun o s' =>
       checker_ok s'.1 /\
       match o, polled with
       | Ret _, inl events =>
           forall i, (i < length (probes_ c))%nat ->
             exists t, nextProbeToken_ c <= t /\
               turn c events time t (probes_ c !!! i) (probes_ s'.1 !!! i)
       | Ret _, inr errno => errno = EINTR /\ s'.1 = c
       | _, _ => True
       end) (c, w).
Proof using All.
  intros Hok time polled. eapply wp_mono; [by apply pollHealthProbes_spec|].
  intros o s' ([? _] & _ & Ht). by split.
Qed.
End proofs.

(** ** A scripted operating system: connections stay in progress, and the
    script lists the ready tokens of the next poll. *)
Module ScriptedProbe.
Record world := mkWorld {
  clock : Z;
  ready : list Z;
  next_fd : Z;
  closed : list Z
}.

#[global] Instance ops : TcpProbeOps world := {
  probe_now w := (clock w, w);
  probe_socket w :=
    (inl (Z.abs (next_fd w)), mkWorld (clock w) (ready w) (next_fd w + 1) (closed w));
  probe_connect _ _ w := (inr EINPROGRESS, w);
  probe_socket_error _ w := (inl 0, w);
  probe_epoll_create w :=
    (inl (Z.abs (next_fd w)), mkWorld (clock w) (ready w) (next_fd w + 1) (closed w));
  probe_epoll_add _ _ w := (inl tt, w);
  probe_epoll_del _ w := w;
  probe_epoll_poll w := (inl (ready w), mkWorld (clock w) [] (next_fd w) (closed w));
  probe_close fd w := mkWorld (clock w) (ready w) (next_fd w) (fd :: closed w)
}.

Lemma socket_fd (w : world) newFd w' : probe_socket w = (inl newFd, w') -> 0 <= newFd.
Proof. cbn. intros [= <- _]. lia. Qed.
End ScriptedProbe.

(** Two backends, the first with a probe in flight under token 5; the poll sees
    a stale event for token 4. *)
Definition example_checker : TcpHealthChecker :=
  mkTcpHealthChecker [emptyEndpoint; emptyEndpoint] (seconds 1) (seconds 1) 3
    [mkProbe newHealthState 7 5 0 (seconds 9); mkProbe newHealthState (-1) 0 (seconds 3) 0] 6.

Lemma example_checker_ok : checker_ok example_checker.
Proof.
  split; [unfold UINT64_MAX; cbn; lia|]. split.
  - intros [|[|i]]; cbn; intros; split; apply new_health_ok || lia.
  - intros [|[|i]] [|[|j]]; cbn; intros; lia.
Qed.

Lemma pollHealthProbes_turns_witness :
  let s' := (pollHealthProbes None
               (example_checker, ScriptedProbe.mkWorld (seconds 4) [4] 8 [])).2 in
  checker_ok s'.1 /\ probes_ s'.1 !!! 0%nat = probes_ example_checker !!! 0%nat.
Proof.
  pose proof (pollHealthProbes_turns None ScriptedProbe.socket_fd example_checker
                (ScriptedProbe.mkWorld (seconds 4) [4] 8 []) example_checker_ok) as [Hok Ht].
  split; [exact Hok|].
  destruct (Ht 0%nat ltac:(cbn; lia)) as (t & _ & Hturn). exact Hturn.
Defined.
