(* ===== verification/Metrics.v ===== *)
(** * Metrics (src/src/metrics/Metrics.h, Metrics.cpp and net/Statistics.h)

    The statistics collector with saturating counters, the one-line JSON
    snapshot, and the output that emits ready, periodic and final snapshots. *)
From S2P Require Import Prelude Config.

(** ** Statistics.h *)

Inductive StatKind :=
| kCreated | kClosed | kBytesC2b | kBytesB2c | kDatagramC2b | kDatagramB2c
| kRejected | kDropped | kError | kTimeout.

#[export] Instance stat_kind_eq_dec : EqDecision StatKind.
Proof. solve_decision. Defined.

Record StatEvent := mkStatEvent { kind : StatKind; amount : Z }.
(** [amount] has the default value 1. *)
Definition stat (k : StatKind) : StatEvent := mkStatEvent k 1.

(** The change of the number of sessions or flows that an event reports, and
    the events that keep this number between 0 and [limit]. *)
Definition live_change (e : StatEvent) : Z :=
  match kind e with kCreated => 1 | kClosed => -1 | _ => 0 end.

Definition countable_event (limit : Z) (e : StatEvent) (live_before : Z) : Prop :=
  live_change e <> 0 -> amount e = 1 /\ 0 <= live_before + live_change e <= Z.max 0 limit.

(** ** Metrics.h: the snapshot *)

Inductive BackendHealth := bhDisabled | bhUnknown | bhHealthy | bhUnhealthy.

Record BackendHealthSnapshot := mkBackendHealthSnapshot {
  health : BackendHealth;
  eligible : bool
}.
Definition defaultBackendHealth : BackendHealthSnapshot := mkBackendHealthSnapshot bhDisabled true.

#[export] Instance backend_health_inhabited : Inhabited BackendHealthSnapshot :=
  populate defaultBackendHealth.

Record MetricsSnapshot := mkMetricsSnapshot {
  m_protocol : Protocol;
  m_seq : Z;
  uptimeMs : Z;
  sessionsCreatedTotal : Z;
  sessionsClosedTotal : Z;
  sessionsActive : Z;
  bytesC2bTotal : Z;
  bytesB2cTotal : Z;
  datagramsC2bTotal : Z;
  datagramsB2cTotal : Z;
  rejectedTotal : Z;
  droppedDatagramsTotal : Z;
  errorsTotal : Z;
  timeoutsTotal : Z;
  counterSaturated : bool;
  backendCount : Z;
  m_backends : list BackendHealthSnapshot
}.

(** Assignments to single fields. *)
Definition set_seq (v : Z) (d : MetricsSnapshot) : MetricsSnapshot :=
  mkMetricsSnapshot
    (m_protocol d) v (uptimeMs d) (sessionsCreatedTotal d) (sessionsClosedTotal d)
    (sessionsActive d) (bytesC2bTotal d) (bytesB2cTotal d) (datagramsC2bTotal d)
    (datagramsB2cTotal d) (rejectedTotal d) (droppedDatagramsTotal d) (errorsTotal d)
    (timeoutsTotal d) (counterSaturated d) (backendCount d) (m_backends d).
Definition set_uptimeMs (v : Z) (d : MetricsSnapshot) : MetricsSnapshot :=
  mkMetricsSnapshot
    (m_protocol d) (m_seq d) v (sessionsCreatedTotal d) (sessionsClosedTotal d)
    (sessionsActive d) (bytesC2bTotal d) (bytesB2cTotal d) (datagramsC2bTotal d)
    (datagramsB2cTotal d) (rejectedTotal d) (droppedDatagramsTotal d) (errorsTotal d)
    (timeoutsTotal d) (counterSaturated d) (backendCount d) (m_backends d).
Definition set_sessionsCreatedTotal (v : Z) (d : MetricsSnapshot) : MetricsSnapshot :=
  mkMetricsSnapshot
    (m_protocol d) (m_seq d) (uptimeMs d) v (sessionsClosedTotal d) (sessionsActive d)
    (bytesC2bTotal d) (bytesB2cTotal d) (datagramsC2bTotal d) (datagramsB2cTotal d)
    (rejectedTotal d) (droppedDatagramsTotal d) (errorsTotal d) (timeoutsTotal d)
    (counterSaturated d) (backendCount d) (m_backends d).
Definition set_sessionsClosedTotal (v : Z) (d : MetricsSnapshot) : MetricsSnapshot :=
  mkMetricsSnapshot
    (m_protocol d) (m_seq d) (uptimeMs d) (sessionsCreatedTotal d) v (sessionsActive d)
    (bytesC2bTotal d) (bytesB2cTotal d) (datagramsC2bTotal d) (datagramsB2cTotal d)
    (rejectedTotal d) (droppedDatagramsTotal d) (errorsTotal d) (timeoutsTotal d)
    (counterSaturated d) (backendCount d) (m_backends d).
Definition set_sessionsActive (v : Z) (d : MetricsSnapshot) : MetricsSnapshot :=
  mkMetricsSnapshot
    (m_protocol d) (m_seq d) (uptimeMs d) (sessionsCreatedTotal d) (sessionsClosedTotal d) v
    (bytesC2bTotal d) (bytesB2cTotal d) (datagramsC2bTotal d) (datagramsB2cTotal d)
    (rejectedTotal d) (droppedDatagramsTotal d) (errorsTotal d) (timeoutsTotal d)
    (counterSaturated d) (backendCount d) (m_backends d).
Definition set_bytesC2bTotal (v : Z) (d : MetricsSnapshot) : MetricsSnapshot :=
  mkMetricsSnapshot
    (m_protocol d) (m_seq d) (uptimeMs d) (sessionsCreatedTotal d) (sessionsClosedTotal d)
    (sessionsActive d) v (bytesB2cTotal d) (datagramsC2bTotal d) (datagramsB2cTotal d)
    (rejectedTotal d) (droppedDatagramsTotal d) (errorsTotal d) (timeoutsTotal d)
    (counterSaturated d) (backendCount d) (m_backends d).
Definition set_bytesB2cTotal (v : Z) (d : MetricsSnapshot) : MetricsSnapshot :=
  mkMetricsSnapshot
    (m_protocol d) (m_seq d) (uptimeMs d) (sessionsCreatedTotal d) (sessionsClosedTotal d)
    (sessionsActive d) (bytesC2bTotal d) v (datagramsC2bTotal d) (datagramsB2cTotal d)
    (rejectedTotal d) (droppedDatagramsTotal d) (errorsTotal d) (timeoutsTotal d)
    (counterSaturated d) (backendCount d) (m_backends d).
Definition set_datagramsC2bTotal (v : Z) (d : MetricsSnapshot) : MetricsSnapshot :=
  mkMetricsSnapshot
    (m_protocol d) (m_seq d) (uptimeMs d) (sessionsCreatedTotal d) (sessionsClosedTotal d)
    (sessionsActive d) (bytesC2bTotal d) (bytesB2cTotal d) v (datagramsB2cTotal d)
    (rejectedTotal d) (droppedDatagramsTotal d) (errorsTotal d) (timeoutsTotal d)
    (counterSaturated d) (backendCount d) (m_backends d).
Definition set_datagramsB2cTotal (v : Z) (d : MetricsSnapshot) : MetricsSnapshot :=
  mkMetricsSnapshot
    (m_protocol d) (m_seq d) (uptimeMs d) (sessionsCreatedTotal d) (sessionsClosedTotal d)
    (sessionsActive d) (bytesC2bTotal d) (bytesB2cTotal d) (datagramsC2bTotal d) v
    (rejectedTotal d) (droppedDatagramsTotal d) (errorsTotal d) (timeoutsTotal d)
    (counterSaturated d) (backendCount d) (m_backends d).
Definition set_rejectedTotal (v : Z) (d : MetricsSnapshot) : MetricsSnapshot :=
  mkMetricsSnapshot
    (m_protocol d) (m_seq d) (uptimeMs d) (sessionsCreatedTotal d) (sessionsClosedTotal d)
    (sessionsActive d) (bytesC2bTotal d) (bytesB2cTotal d) (datagramsC2bTotal d)
    (datagramsB2cTotal d) v (droppedDatagramsTotal d) (errorsTotal d) (timeoutsTotal d)
    (counterSaturated d) (backendCount d) (m_backends d).
Definition set_droppedDatagramsTotal (v : Z) (d : MetricsSnapshot) : MetricsSnapshot :=
  mkMetricsSnapshot
    (m_protocol d) (m_seq d) (uptimeMs d) (sessionsCreatedTotal d) (sessionsClosedTotal d)
    (sessionsActive d) (bytesC2bTotal d) (bytesB2cTotal d) (datagramsC2bTotal d)
    (datagramsB2cTotal d) (rejectedTotal d) v (errorsTotal d) (timeoutsTotal d)
    (counterSaturated d) (backendCount d) (m_backends d).
Definition set_errorsTotal (v : Z) (d : MetricsSnapshot) : MetricsSnapshot :=
  mkMetricsSnapshot
    (m_protocol d) (m_seq d) (uptimeMs d) (sessionsCreatedTotal d) (sessionsClosedTotal d)
    (sessionsActive d) (bytesC2bTotal d) (bytesB2cTotal d) (datagramsC2bTotal d)
    (datagramsB2cTotal d) (rejectedTotal d) (droppedDatagramsTotal d) v (timeoutsTotal d)
    (counterSaturated d) (backendCount d) (m_backends d).
Definition set_timeoutsTotal (v : Z) (d : MetricsSnapshot) : MetricsSnapshot :=
  mkMetricsSnapshot
    (m_protocol d) (m_seq d) (uptimeMs d) (sessionsCreatedTotal d) (sessionsClosedTotal d)
    (sessionsActive d) (bytesC2bTotal d) (bytesB2cTotal d) (datagramsC2bTotal d)
    (datagramsB2cTotal d) (rejectedTotal d) (droppedDatagramsTotal d) (errorsTotal d) v
    (counterSaturated d) (backendCount d) (m_backends d).
Definition set_counterSaturated (v : bool) (d : MetricsSnapshot) : MetricsSnapshot :=
  mkMetricsSnapshot
    (m_protocol d) (m_seq d) (uptimeMs d) (sessionsCreatedTotal d) (sessionsClosedTotal d)
    (sessionsActive d) (bytesC2bTotal d) (bytesB2cTotal d) (datagramsC2bTotal d)
    (datagramsB2cTotal d) (rejectedTotal d) (droppedDatagramsTotal d) (errorsTotal d)
    (timeoutsTotal d) v (backendCount d) (m_backends d).
Definition set_backendCount (v : Z) (d : MetricsSnapshot) : MetricsSnapshot :=
  mkMetricsSnapshot
    (m_protocol d) (m_seq d) (uptimeMs d) (sessionsCreatedTotal d) (sessionsClosedTotal d)
    (sessionsActive d) (bytesC2bTotal d) (bytesB2cTotal d) (datagramsC2bTotal d)
    (datagramsB2cTotal d) (rejectedTotal d) (droppedDatagramsTotal d) (errorsTotal d)
    (timeoutsTotal d) (counterSaturated d) v (m_backends d).
Definition set_backends (v : list BackendHealthSnapshot) (d : MetricsSnapshot) : MetricsSnapshot :=
  mkMetricsSnapshot
    (m_protocol d) (m_seq d) (uptimeMs d) (sessionsCreatedTotal d) (sessionsClosedTotal d)
    (sessionsActive d) (bytesC2bTotal d) (bytesB2cTotal d) (datagramsC2bTotal d)
    (datagramsB2cTotal d) (rejectedTotal d) (droppedDatagramsTotal d) (errorsTotal d)
    (timeoutsTotal d) (counterSaturated d) (backendCount d) v.

(** ** Metrics.cpp: the collector *)

(** The new value and the new flag. *)
Definition addSaturatingCounter (value incrementAmount : Z) (saturated : bool) : Z * bool :=
  if UINT64_MAX - value <=? incrementAmount then (UINT64_MAX, true)
  else (u64 (value + incrementAmount), saturated).

Definition incrementCounter (get : MetricsSnapshot -> Z)
    (set : Z -> MetricsSnapshot -> MetricsSnapshot) (incrementAmount : Z)
    (data_ : MetricsSnapshot) : MetricsSnapshot :=
  let '(value, saturated) :=
    addSaturatingCounter (get data_) incrementAmount (counterSaturated data_) in
  set_counterSaturated saturated (set value data_).

Definition newMetricsCollector (p : Protocol) (count : Z) : outcome MetricsSnapshot :=
  if (256 <? count) || (count =? 0) then
    Throw (InvalidArgument (bs "invalid metrics collector"))
  else
    Ret (mkMetricsSnapshot p 0 0 0 0 0 0 0 0 0 0 0 0 0 false count
           (replicate 256 defaultBackendHealth)).

Definition recordStatEvent (event : StatEvent) (d : MetricsSnapshot) : bool * MetricsSnapshot :=
  match kind event with
  | kCreated =>
      if negb (amount event =? 1) || (1024 <=? sessionsActive d) then (false, d)
      else (true, incrementCounter sessionsCreatedTotal set_sessionsCreatedTotal (amount event)
                    (set_sessionsActive (u64 (sessionsActive d + 1)) d))
  | kClosed =>
      if negb (amount event =? 1) || (sessionsActive d =? 0) then (false, d)
      else (true, incrementCounter sessionsClosedTotal set_sessionsClosedTotal (amount event)
                    (set_sessionsActive (u64 (sessionsActive d - 1)) d))
  | kBytesC2b => (true, incrementCounter bytesC2bTotal set_bytesC2bTotal (amount event) d)
  | kBytesB2c => (true, incrementCounter bytesB2cTotal set_bytesB2cTotal (amount event) d)
  | kDatagramC2b =>
      if negb (bool_decide (m_protocol d = kUdp)) then (false, d)
      else (true, incrementCounter datagramsC2bTotal set_datagramsC2bTotal (amount event) d)
  | kDatagramB2c =>
      if negb (bool_decide (m_protocol d = kUdp)) then (false, d)
      else (true, incrementCounter datagramsB2cTotal set_datagramsB2cTotal (amount event) d)
  | kRejected => (true, incrementCounter rejectedTotal set_rejectedTotal (amount event) d)
  | kDropped =>
      if negb (bool_decide (m_protocol d = kUdp)) then (false, d)
      else (true, incrementCounter droppedDatagramsTotal set_droppedDatagramsTotal (amount event) d)
  | kError => (true, incrementCounter errorsTotal set_errorsTotal (amount event) d)
  | kTimeout => (true, incrementCounter timeoutsTotal set_timeoutsTotal (amount event) d)
  end.

(** ** Metrics.cpp: the line *)

(** JSON text is written here with apostrophes for the quotation marks. *)
Definition json (s : string) : bytes :=
  (fun c => if ascii_dec c "'" then chr 34 else c) <$> bs s.

Definition backendHealthName (state : BackendHealth) : bytes :=
  match state with
  | bhDisabled => bs "disabled"
  | bhUnknown => bs "Unknown"
  | bhHealthy => bs "Healthy"
  | bhUnhealthy => bs "Unhealthy"
  end.

Definition appendCounterField (line key : bytes) (value : Z) : bytes :=
  line ++ json ",'" ++ key ++ json "':" ++ to_string value.

Definition formatBackend (snapshot : MetricsSnapshot) (backendIndex : nat) : bytes :=
  let b := m_backends snapshot !!! backendIndex in
  (if bool_decide (backendIndex = 0)%nat then [] else bs ",") ++
  json "{'index':" ++ to_string (Z.of_nat backendIndex) ++ json ",'health':'" ++
  backendHealthName (health b) ++ json "','eligible':" ++
  (if eligible b then bs "true" else bs "false") ++ bs "}".

Definition formatMetricsSnapshot (snapshot : MetricsSnapshot) (phase : bytes) : outcome bytes :=
  if (256 <? backendCount snapshot) ||
     (negb (bool_decide (phase = bs "ready")) && negb (bool_decide (phase = bs "periodic")) &&
      negb (bool_decide (phase = bs "final")) && negb (bool_decide (phase = bs "error")))
  then Throw (InvalidArgument (bs "invalid metrics snapshot"))
  else
    let line :=
      json "metrics {'schema':1,'seq':" ++ to_string (m_seq snapshot) ++
      json ",'phase':'" ++ phase ++ json "','protocol':'" ++
      (if bool_decide (m_protocol snapshot = kTcp) then bs "tcp" else bs "udp") ++
      json "','uptime_ms':" ++ to_string (uptimeMs snapshot) in
    let line := appendCounterField line (bs "sessions_created_total")
                  (sessionsCreatedTotal snapshot) in
    let line := appendCounterField line (bs "sessions_closed_total")
                  (sessionsClosedTotal snapshot) in
    let line := appendCounterField line (bs "sessions_active") (sessionsActive snapshot) in
    let line := appendCounterField line (bs "bytes_c2b_total") (bytesC2bTotal snapshot) in
    let line := appendCounterField line (bs "bytes_b2c_total") (bytesB2cTotal snapshot) in
    let line := appendCounterField line (bs "datagrams_c2b_total") (datagramsC2bTotal snapshot) in
    let line := appendCounterField line (bs "datagrams_b2c_total") (datagramsB2cTotal snapshot) in
    let line := appendCounterField line (bs "rejected_total") (rejectedTotal snapshot) in
    let line := appendCounterField line (bs "dropped_datagrams_total")
                  (droppedDatagramsTotal snapshot) in
    let line := appendCounterField line (bs "errors_total") (errorsTotal snapshot) in
    let line := appendCounterField line (bs "timeouts_total") (timeoutsTotal snapshot) in
    let line := line ++ (if counterSaturated snapshot then json ",'counter_saturated':true"
                         else json ",'counter_saturated':false") in
    let line := line ++ json ",'backends':[" in
    let line := foldl (fun line backendIndex => line ++ formatBackend snapshot backendIndex)
                  line (seq 0 (Z.to_nat (backendCount snapshot))) in
    let line := line ++ bs "]}" ++ [chr 10] in
    if 32768 <? len line then Throw (LengthError (bs "metrics line too large")) else Ret line.

(** ** Metrics.cpp: the output *)

(** The functions of [MetricsOutputOptions] and the backend provider; each may
    throw.  A negative result of [m_write] is a failed write(2). *)
Class MetricsOps (W : Type) := {
  m_now : W -> (Z + exn) * W;
  m_write : bytes -> W -> (Z + exn) * W;
  m_health : list BackendHealthSnapshot -> W -> (list BackendHealthSnapshot + exn) * W
}.

Definition may_throw {W A} (op : W -> (A + exn) * W) : M W A :=
  fun w => match op w with
           | (inl a, w') => (Ret a, w')
           | (inr e, w') => (Throw e, w')
           end.

Record MetricsOutput := mkMetricsOutput {
  startTime_ : Z;
  nextSnapshotTime_ : Z;
  seq_ : Z;
  readyEmitted_ : bool;
  finalized_ : bool;
  enabled_ : bool
}.

Definition set_nextSnapshotTime (t : Z) (o : MetricsOutput) : MetricsOutput :=
  mkMetricsOutput (startTime_ o) t (seq_ o) (readyEmitted_ o) (finalized_ o) (enabled_ o).
Definition set_outputSeq (n : Z) (o : MetricsOutput) : MetricsOutput :=
  mkMetricsOutput (startTime_ o) (nextSnapshotTime_ o) n (readyEmitted_ o) (finalized_ o)
    (enabled_ o).
Definition set_readyEmitted (o : MetricsOutput) : MetricsOutput :=
  mkMetricsOutput (startTime_ o) (nextSnapshotTime_ o) (seq_ o) true (finalized_ o) (enabled_ o).
Definition set_finalized (o : MetricsOutput) : MetricsOutput :=
  mkMetricsOutput (startTime_ o) (nextSnapshotTime_ o) (seq_ o) (readyEmitted_ o) true (enabled_ o).
Definition disable (o : MetricsOutput) : MetricsOutput :=
  mkMetricsOutput (startTime_ o) (nextSnapshotTime_ o) (seq_ o) (readyEmitted_ o) (finalized_ o)
    false.

Section output.
Context {W : Type} `{MetricsOps W}.
(** [options_.formatter], or [formatMetricsSnapshot] when it is empty. *)
Context (formatter : MetricsSnapshot -> bytes -> outcome bytes).

Definition newMetricsOutput : M W MetricsOutput :=
  now <- may_throw m_now ;;
  mret (mkMetricsOutput now 0 0 false false true).

(** The collector [data_] is the one the output refers to. *)
Definition emitSnapshot (data_ : MetricsSnapshot) (phase : bytes) : M (MetricsOutput * W) unit :=
  enabled <- own enabled_ ;;
  if negb enabled then mret tt
  else
    mcatch
      (o <- own id ;;
       let '(seq', saturated) := addSaturatingCounter (seq_ o) 1 false in
       update (set_outputSeq seq') ;;;
       let snapshot := set_counterSaturated (counterSaturated data_ || saturated)
                         (set_seq seq' data_) in
       now <- outside (may_throw m_now) ;;
       let snapshot := set_uptimeMs (u64 (Z.quot (now - startTime_ o) 1000000)) snapshot in
       let count := Z.to_nat (backendCount snapshot) in
       filled <- outside (may_throw (m_health (take count (m_backends snapshot)))) ;;
       let snapshot := set_backends (filled ++ drop count (m_backends snapshot)) snapshot in
       line <- lift_outcome (formatter snapshot phase) ;;
       if 32768 <? len line then update disable
       else
         result <- outside (may_throw (m_write line)) ;;
         mwhen ((result <? 0) || negb (result =? len line)) (update disable))
      (fun _ => update disable).

Definition emitReadySnapshot (data_ : MetricsSnapshot) : M (MetricsOutput * W) unit :=
  o <- own id ;;
  if readyEmitted_ o || finalized_ o then mret tt
  else
    update set_readyEmitted ;;;
    emitSnapshot data_ (bs "ready") ;;;
    mcatch
      (now <- outside (may_throw m_now) ;; update (set_nextSnapshotTime (now + seconds 1)))
      (fun _ => update disable).

Definition emitPeriodicSnapshotIfDue (data_ : MetricsSnapshot) : M (MetricsOutput * W) unit :=
  o <- own id ;;
  if negb (readyEmitted_ o) || finalized_ o || negb (enabled_ o) then mret tt
  else
    mcatch
      (now <- outside (may_throw m_now) ;;
       if now <? nextSnapshotTime_ o then mret tt
       else
         emitSnapshot data_ (bs "periodic") ;;;
         now <- outside (may_throw m_now) ;;
         update (set_nextSnapshotTime (now + seconds 1)))
      (fun _ => update disable).

Definition emitFinalSnapshot (data_ : MetricsSnapshot) (error : bool) : M (MetricsOutput * W) unit :=
  o <- own id ;;
  if finalized_ o then mret tt
  else update set_finalized ;;; emitSnapshot data_ (if error then bs "error" else bs "final").
End output.

(** ** The collector counts what happened

    [total k events]: the exact sum of the amounts of kind [k], which may
    exceed 64 bits. *)
Definition total (k : StatKind) (events : list StatEvent) : Z :=
  foldr (fun e n => if decide (kind e = k) then amount e + n else n) 0 events.

Definition active_sessions (events : list StatEvent) : Z :=
  total kCreated events - total kClosed events.

(** Which event may follow the accepted events (most recent first). *)
Definition acceptable (p : Protocol) (events : list StatEvent) (e : StatEvent) : bool :=
  match kind e with
  | kCreated => (amount e =? 1) && (active_sessions events <? 1024)
  | kClosed => (amount e =? 1) && (0 <? active_sessions events)
  | kDatagramC2b | kDatagramB2c | kDropped => bool_decide (p = kUdp)
  | _ => true
  end.

Definition accepted (p : Protocol) (events : list StatEvent) : list StatEvent :=
  foldl (fun acc e => if acceptable p acc e then e :: acc else acc) [] events.

Definition counter (k : StatKind) (d : MetricsSnapshot) : Z :=
  match k with
  | kCreated => sessionsCreatedTotal d
  | kClosed => sessionsClosedTotal d
  | kBytesC2b => bytesC2bTotal d
  | kBytesB2c => bytesB2cTotal d
  | kDatagramC2b => datagramsC2bTotal d
  | kDatagramB2c => datagramsB2cTotal d
  | kRejected => rejectedTotal d
  | kDropped => droppedDatagramsTotal d
  | kError => errorsTotal d
  | kTimeout => timeoutsTotal d
  end.

Definition record_all (events : list StatEvent) (d : MetricsSnapshot) : MetricsSnapshot :=
  foldl (fun d e => (recordStatEvent e d).2) d events.

Definition amount_ok (e : StatEvent) : Prop := 0 <= amount e <= UINT64_MAX.

Record counts (p : Protocol) (acc : list StatEvent) (d : MetricsSnapshot) : Prop := {
  counts_protocol : m_protocol d = p;
  counts_counter : forall k, counter k d = Z.min UINT64_MAX (total k acc);
  counts_active : sessionsActive d = active_sessions acc;
  counts_range : 0 <= active_sessions acc <= 1024;
  counts_saturated : counterSaturated d = true <-> exists k, UINT64_MAX <= total k acc;
  counts_amounts : Forall amount_ok acc
}.

Lemma total_nonneg k acc : Forall amount_ok acc -> 0 <= total k acc.
Proof.
  unfold amount_ok. induction 1 as [|e acc He _ IH]; [done|]. simpl. case_decide; lia.
Qed.

(** Adding to a counter that holds the capped total. *)
Lemma addSaturatingCounter_spec n a flag :
  0 <= n -> 0 <= a <= UINT64_MAX ->
  addSaturatingCounter (Z.min UINT64_MAX n) a flag =
    (Z.min UINT64_MAX (a + n), flag || (UINT64_MAX <=? a + n)).
Proof.
  intros Hn Ha. unfold addSaturatingCounter.
  assert (0 < UINT64_MAX < 2 ^ 64) by (unfold UINT64_MAX; lia).
  destruct (Z.leb_spec (UINT64_MAX - Z.min UINT64_MAX n) a), (Z.leb_spec UINT64_MAX (a + n));
    try lia; f_equal; rewrite ?u64_small, ?orb_true_r, ?orb_false_r by lia; try done; lia.
Qed.

(** A setter changes one counter and nothing else of what [counts] looks at. *)
Definition writes (k : StatKind) (set : Z -> MetricsSnapshot -> MetricsSnapshot) : Prop :=
  forall v d,
    (forall k', counter k' (set v d) = if decide (k = k') then v else counter k' d) /\
    m_protocol (set v d) = m_protocol d /\ sessionsActive (set v d) = sessionsActive d /\
    counterSaturated (set v d) = counterSaturated d.

Lemma incrementCounter_counts k get set p acc d e d' :
  (forall d, get d = counter k d) -> writes k set -> kind e = k -> amount_ok e ->
  counts p acc d ->
  (forall k, counter k d' = counter k d) -> m_protocol d' = p ->
  counterSaturated d' = counterSaturated d ->
  sessionsActive d' = active_sessions (e :: acc) -> 0 <= active_sessions (e :: acc) <= 1024 ->
  counts p (e :: acc) (incrementCounter get set (amount e) d').
Proof.
  intros Hget Hset Hk Ha [Hp Hc Hact Hr Hs Ham] Hc' Hp' Hs' Hact' Hr'.
  assert (Htot : forall k', total k' (e :: acc) =
            (if decide (k = k') then amount e + total k acc else total k' acc)).
  { intros k'. cbn [total foldr]. rewrite Hk. case_decide; [by subst|done]. }
  pose proof (total_nonneg k acc Ham).
  unfold incrementCounter. rewrite Hget, Hc', Hc.
  rewrite addSaturatingCounter_spec by (done || apply Ha).
  destruct (Hset (Z.min UINT64_MAX (amount e + total k acc)) d') as (Hsc & Hsp & Hsa & _).
  split; cbn [set_counterSaturated m_protocol sessionsActive counterSaturated].
  - by rewrite Hsp.
  - intros k'. transitivity (counter k' (set (Z.min UINT64_MAX (amount e + total k acc)) d'));
      [by destruct k'|].
    rewrite Hsc, Htot, Hc'. case_decide; [done|apply Hc].
  - by rewrite Hsa.
  - done.
  - rewrite Hs', orb_true_iff, Hs, Z.leb_le. split.
    + intros [[k' Hk']|?].
      * exists k'. rewrite Htot. case_decide; [subst; unfold amount_ok in *; lia|done].
      * exists k. by rewrite Htot, decide_True.
    + intros [k' Hk']. rewrite Htot in Hk'. case_decide; [by right|left; by exists k'].
  - by constructor.
Qed.

Lemma active_sessions_cons e acc :
  active_sessions (e :: acc) = active_sessions acc +
    (if decide (kind e = kCreated) then amount e
     else if decide (kind e = kClosed) then - amount e else 0).
Proof.
  unfold active_sessions. cbn [total foldr]. fold (total kCreated acc). fold (total kClosed acc).
  repeat case_decide; (congruence || lia).
Qed.

Ltac count_step k :=
  eapply (incrementCounter_counts k); try done;
  [by intros v d'; split_and!; [intros []|..]|..];
  cbn [sessionsActive set_sessionsActive].

(** One event: the collector accepts it exactly when it is acceptable after
    the accepted ones, and then counts it. *)
Lemma recordStatEvent_counts p acc d e :
  counts p acc d -> amount_ok e ->
  (recordStatEvent e d).1 = acceptable p acc e /\
  counts p (if acceptable p acc e then e :: acc else acc) (recordStatEvent e d).2.
Proof.
  intros Hc Ha. pose proof (counts_active _ _ _ Hc) as Hact.
  pose proof (counts_range _ _ _ Hc) as Hr. pose proof (counts_protocol _ _ _ Hc) as Hp.
  pose proof (active_sessions_cons e acc) as Hcons.
  unfold recordStatEvent, acceptable. rewrite Hp.
  destruct (kind e) eqn:Hk; rewrite ?Hact.
  1: { destruct (Z.eqb_spec (amount e) 1) as [H1|]; [|done].
       destruct (Z.leb_spec 1024 (active_sessions acc)), (Z.ltb_spec (active_sessions acc) 1024);
         try lia; [done|]. split; [done|].
       change (if decide (kCreated = kCreated) then amount e else _) with (amount e) in Hcons.
       count_step kCreated; rewrite Hcons, ?H1; [|lia]. apply u64_small. lia. }
  1: { destruct (Z.eqb_spec (amount e) 1) as [H1|]; [|done].
       destruct (Z.eqb_spec (active_sessions acc) 0), (Z.ltb_spec 0 (active_sessions acc));
         try lia; [done|]. split; [done|].
       change (if decide (kClosed = kCreated) then amount e else _) with (- amount e) in Hcons.
       count_step kClosed; rewrite Hcons, ?H1; [|lia]. apply u64_small. lia. }
  all: try (destruct (bool_decide (p = kUdp)) eqn:Hudp; [|done]).
  all: split; [done|].
  all: rewrite Z.add_0_r in Hcons.
  all: match goal with Hk : kind _ = ?k |- _ => count_step k end; by rewrite Hcons.
Qed.

(** C38: after any events the collector shows what happened: it accepted
    exactly the acceptable ones (a session is created only below 1024 live ones
    and closed only when one is live; datagram events need UDP), each total is
    the exact sum capped at 2^64-1, the number of active sessions is exactly
    created minus closed, and the saturation flag is set exactly when some
    total reached the cap. *)
Theorem recordStatEvent_totals p n d events :
  newMetricsCollector p n = Ret d ->
  Forall amount_ok events ->
  let acc := accepted p events in
  let d' := record_all events d in
  (forall k, counter k d' = Z.min UINT64_MAX (total k acc)) /\
  sessionsActive d' = total kCreated acc - total kClosed acc /\
  0 <= sessionsActive d' <= 1024 /\
  (counterSaturated d' = true <-> exists k, UINT64_MAX <= total k acc).
Proof.
  intros Hnew Ham.
  assert (H0 : counts p [] d).
  { unfold newMetricsCollector in Hnew. case_match; [done|]. injection Hnew as <-.
    split; [done|by intros []|done|unfold active_sessions; cbn; lia| |done].
    cbn. split; [done|]. intros [k Hk]. unfold UINT64_MAX in Hk. lia. }
  enough (Hgen : counts p (accepted p events) (record_all events d)).
  { cbn zeta. destruct Hgen as [_ Hc Ha Hr Hs _]. rewrite Ha. done. }
  unfold accepted, record_all. clear Hnew. revert d H0. generalize (@nil StatEvent).
  induction Ham as [|e events He _ IH]; intros acc d Hc; [done|]. simpl.
  apply IH. by apply recordStatEvent_counts.
Qed.

Lemma recordStatEvent_totals_witness :
  let events := [stat kCreated; mkStatEvent kBytesC2b UINT64_MAX; stat kDropped; stat kClosed;
                 stat kClosed] in
  exists d, newMetricsCollector kTcp 2 = Ret d /\
  counterSaturated (record_all events d) = true /\ sessionsActive (record_all events d) = 0.
Proof.
  eexists. split; [reflexivity|].
  destruct (recordStatEvent_totals kTcp 2 _
     [stat kCreated; mkStatEvent kBytesC2b UINT64_MAX; stat kDropped; stat kClosed; stat kClosed]
     eq_refl) as (_ & Ha & _ & Hs).
  { repeat constructor; unfold amount_ok, UINT64_MAX; cbn; lia. }
  split; [|exact Ha]. apply Hs. exists kBytesC2b. vm_compute. discriminate.
Defined.

(** ** The line *)

Definition newline : ascii := chr 10.

Definition snapshot_ok (d : MetricsSnapshot) : Prop :=
  0 <= m_seq d < 2 ^ 64 /\ 0 <= uptimeMs d < 2 ^ 64 /\ 0 <= sessionsActive d < 2 ^ 64 /\
  (forall k, 0 <= counter k d < 2 ^ 64) /\
  0 <= backendCount d <= 256 /\ length (m_backends d) = 256%nat.

Definition known_phase (phase : bytes) : Prop :=
  phase ∈ [bs "ready"; bs "periodic"; bs "final"; bs "error"].

(** Text of one line: short, and without a line break. *)
Definition clean (n : Z) (l : bytes) : Prop := len l <= n /\ newline ∉ l.

Lemma clean_app m n a b : clean m a -> clean n b -> clean (m + n) (a ++ b).
Proof. unfold clean. rewrite len_app. intros [??] [??]. split; [lia|set_solver]. Qed.

Lemma clean_to_string n : 0 <= n -> clean 20 (to_string n).
Proof.
  intros Hn. split.
  - unfold len. pose proof (to_string_length n). lia.
  - intros Hin. pose proof (to_string_digits n Hn) as Hd. rewrite Forall_forall in Hd.
    specialize (Hd _ Hin). by vm_compute in Hd; destruct Hd.
Qed.

Lemma clean_mono m n l : m <= n -> clean m l -> clean n l.
Proof. unfold clean. intuition lia. Qed.

Lemma clean_check n l :
  (len l <=? n) && bool_decide (newline ∉ l) = true -> clean n l.
Proof. intros H. bool_to_prop. done. Qed.

(** A literal of the source. *)
Ltac clean_literal := apply clean_check; vm_compute; reflexivity.

Lemma clean_appendCounterField n line key value :
  clean n line -> clean 40 key -> 0 <= value ->
  clean (n + 70) (appendCounterField line key value).
Proof.
  intros Hl Hk Hv. unfold appendCounterField.
  apply clean_app; [done|]. apply (clean_app 2 68); [clean_literal|].
  apply (clean_app 40 28); [done|]. apply (clean_app 8 20); [clean_literal|].
  by apply clean_to_string.
Qed.

Lemma clean_formatBackend d i : clean 80 (formatBackend d i).
Proof.
  unfold formatBackend.
  apply (clean_app 1 79); [case_bool_decide; clean_literal|].
  apply (clean_app 9 70); [clean_literal|].
  apply (clean_app 20 50); [apply clean_to_string; lia|].
  apply (clean_app 11 39); [clean_literal|].
  apply (clean_app 9 30); [destruct (health _); clean_literal|].
  apply (clean_app 13 17); [clean_literal|].
  apply (clean_app 5 12); [destruct (eligible _); clean_literal|clean_literal].
Qed.

Lemma clean_backends d n line l :
  clean n line ->
  clean (n + 80 * len l) (foldl (fun line i => line ++ formatBackend d i) line l).
Proof.
  revert n line. induction l as [|i l IH]; intros n line Hl; simpl.
  - eapply clean_mono; [|exact Hl]. change (len []) with 0. lia.
  - rewrite len_cons. eapply clean_mono; [|apply IH, clean_app, clean_formatBackend; exact Hl]. lia.
Qed.

Lemma foldl_backends d line l :
  foldl (fun line i => line ++ formatBackend d i) line l =
  line ++ concat (formatBackend d <$> l).
Proof.
  revert line. induction l as [|i l IH]; intros line; simpl; [by rewrite app_nil_r|].
  by rewrite IH, app_assoc.
Qed.

(** The text of the line before the final line break. *)
Definition line_body (d : MetricsSnapshot) (phase : bytes) : bytes :=
  let line :=
    json "metrics {'schema':1,'seq':" ++ to_string (m_seq d) ++ json ",'phase':'" ++ phase ++
    json "','protocol':'" ++
    (if bool_decide (m_protocol d = kTcp) then bs "tcp" else bs "udp") ++
    json "','uptime_ms':" ++ to_string (uptimeMs d) in
  let line := foldl (fun line '(key, value) => appendCounterField line (bs key) value) line
    [("sessions_created_total", sessionsCreatedTotal d);
     ("sessions_closed_total", sessionsClosedTotal d);
     ("sessions_active", sessionsActive d);
     ("bytes_c2b_total", bytesC2bTotal d); ("bytes_b2c_total", bytesB2cTotal d);
     ("datagrams_c2b_total", datagramsC2bTotal d); ("datagrams_b2c_total", datagramsB2cTotal d);
     ("rejected_total", rejectedTotal d); ("dropped_datagrams_total", droppedDatagramsTotal d);
     ("errors_total", errorsTotal d); ("timeouts_total", timeoutsTotal d)]%string in
  foldl (fun line i => line ++ formatBackend d i)
    ((line ++ (if counterSaturated d then json ",'counter_saturated':true"
               else json ",'counter_saturated':false")) ++ json ",'backends':[")
    (seq 0 (Z.to_nat (backendCount d))) ++ bs "]}".

Lemma phase_known phase :
  known_phase phase ->
  negb (bool_decide (phase = bs "ready")) && negb (bool_decide (phase = bs "periodic")) &&
  negb (bool_decide (phase = bs "final")) && negb (bool_decide (phase = bs "error")) = false.
Proof. unfold known_phase. intros H. repeat (apply elem_of_cons in H as [->|H]; [done|]). set_solver. Qed.

Lemma clean_phase phase : known_phase phase -> clean 8 phase.
Proof.
  unfold known_phase. intros H.
  repeat (apply elem_of_cons in H as [->|H]; [clean_literal|]). set_solver.
Qed.

Lemma clean_line_body d phase :
  snapshot_ok d -> known_phase phase -> clean 32000 (line_body d phase).
Proof.
  intros (Hseq & Hup & Hact & Hcnt & Hn & Hlen) Hphase.
  pose proof (fun k => proj1 (Hcnt k)) as Hc.
  unfold line_body. cbn [foldl].
  assert (Hbase : clean 200
    (json "metrics {'schema':1,'seq':" ++ to_string (m_seq d) ++ json ",'phase':'" ++ phase ++
     json "','protocol':'" ++
     (if bool_decide (m_protocol d = kTcp) then bs "tcp" else bs "udp") ++
     json "','uptime_ms':" ++ to_string (uptimeMs d))).
  { apply (clean_app 30 170); [clean_literal|]. apply (clean_app 20 150); [apply clean_to_string; lia|].
    apply (clean_app 20 130); [clean_literal|].
    apply (clean_app 8 122); [by apply clean_phase|].
    apply (clean_app 20 102); [clean_literal|].
    apply (clean_app 10 92); [case_bool_decide; clean_literal|].
    apply (clean_app 20 72); [clean_literal|].
    eapply clean_mono; [|apply clean_to_string]; lia. }
  apply (clean_app 31000 1000); [|clean_literal].
  eapply (clean_mono (1070 + 80 * len (seq 0 (Z.to_nat (backendCount d))))).
  { unfold len. rewrite length_seq. lia. }
  apply clean_backends. apply (clean_app 1020 50); [|clean_literal].
  apply (clean_app 970 50); [|destruct (counterSaturated d); clean_literal].
  do 11 (match goal with |- clean ?n _ =>
           replace n with (n - 70 + 70) by done; apply clean_appendCounterField;
           [change (n - 70) with ltac:(let m := eval vm_compute in (n - 70) in exact m)
           |clean_literal|]
         end; [|solve [lia | apply (Hc kCreated) | apply (Hc kClosed) | apply (Hc kBytesC2b)
                | apply (Hc kBytesB2c) | apply (Hc kDatagramC2b) | apply (Hc kDatagramB2c)
                | apply (Hc kRejected) | apply (Hc kDropped) | apply (Hc kError)
                | apply (Hc kTimeout)]]).
  exact Hbase.
Qed.

Lemma formatMetricsSnapshot_eq d phase :
  snapshot_ok d -> known_phase phase ->
  formatMetricsSnapshot d phase = Ret (line_body d phase ++ [newline]).
Proof.
  intros Hd Hp. pose proof (clean_line_body d phase Hd Hp) as [Hlen _].
  destruct Hd as (_ & _ & _ & _ & Hn & _).
  unfold formatMetricsSnapshot. rewrite phase_known by done.
  destruct (Z.ltb_spec 256 (backendCount d)); [lia|]. cbn [orb].
  unfold line_body in *. cbn [foldl] in *.
  rewrite (app_assoc _ (bs "]}") [chr 10]). fold newline.
  match goal with |- (if 32768 <? len (?b ++ _) then _ else _) = _ => set (body := b) in * end.
  rewrite len_app. change (len [newline]) with 1.
  destruct (Z.ltb_spec 32768 (len body + 1)); [lia|done].
Qed.

(** ** The line determines the snapshot *)

Definition digit_head (l : bytes) : Prop :=
  match l with c :: _ => is_digit c | [] => False end.

Lemma digits_app_inj (a b x y : bytes) :
  Forall is_digit a -> Forall is_digit b -> ~ digit_head x -> ~ digit_head y ->
  a ++ x = b ++ y -> a = b /\ x = y.
Proof.
  intros Ha. revert b. induction Ha as [|c a Hc Ha IH]; intros [|d b] Hb Hx Hy He; simpl in *.
  - done.
  - subst. apply Forall_inv in Hb. by destruct Hx.
  - subst. by destruct Hy.
  - injection He as -> He. apply Forall_inv_tail in Hb.
    destruct (IH b Hb Hx Hy He) as [-> ->]. done.
Qed.

Lemma to_string_app_inj m n x y :
  0 <= m < 2 ^ 64 -> 0 <= n < 2 ^ 64 -> ~ digit_head x -> ~ digit_head y ->
  to_string m ++ x = to_string n ++ y -> m = n /\ x = y.
Proof.
  intros Hm Hn Hx Hy He.
  apply digits_app_inj in He as [He ->]; [|apply to_string_digits; lia..|done|done].
  split; [|done]. by rewrite <-(to_string_value m), <-(to_string_value n), He.
Qed.

Lemma word_app_inj c (a b x y : bytes) :
  c ∉ a -> c ∉ b -> head x = Some c -> head y = Some c ->
  a ++ x = b ++ y -> a = b /\ x = y.
Proof.
  intros Ha Hb Hx Hy He. destruct x as [|c' x], y as [|c'' y]; try done.
  injection Hx as ->. injection Hy as ->.
  destruct (app_cons_inj_notin _ _ _ _ _ Ha Hb He) as [-> ->]. done.
Qed.

Definition quote : ascii := chr 34.

Lemma backendHealthName_inj s t : backendHealthName s = backendHealthName t -> s = t.
Proof. by destruct s, t. Qed.

Lemma notin_check (c : ascii) (l : bytes) : bool_decide (c ∉ l) = true -> c ∉ l.
Proof. apply bool_decide_eq_true_1. Qed.

Lemma not_digit_head (c : ascii) (l : bytes) :
  bool_decide (is_digit c) = false -> ~ digit_head (c :: l).
Proof. intros H. by apply bool_decide_eq_false_1 in H. Qed.

Lemma formatBackend_inj d e i x y :
  formatBackend d i ++ x = formatBackend e i ++ y ->
  m_backends d !!! i = m_backends e !!! i /\ x = y.
Proof.
  unfold formatBackend. destruct (m_backends d !!! i) as [h1 b1].
  destruct (m_backends e !!! i) as [h2 b2]. cbn [health eligible].
  intros H. rewrite <-!app_assoc in H. do 4 apply app_inv_head in H.
  apply (word_app_inj quote) in H as [Hh H];
    [|apply notin_check; destruct h1; done|apply notin_check; destruct h2; done|done|done].
  apply backendHealthName_inj in Hh as ->. apply app_inv_head in H.
  apply (word_app_inj "}"%char) in H as [Hb H];
    [|apply notin_check; destruct b1; done|apply notin_check; destruct b2; done
     |done|done].
  apply app_inv_head in H. split; [|done]. f_equal. by destruct b1, b2.
Qed.

Lemma phase_no_quote phase : known_phase phase -> quote ∉ phase.
Proof.
  unfold known_phase. intros H.
  repeat (apply elem_of_cons in H as [->|H]; [by apply notin_check|]). set_solver.
Qed.

Lemma backends_text_inj d e k i j :
  concat (formatBackend d <$> seq k i) ++ bs "]}" = concat (formatBackend e <$> seq k j) ++ bs "]}" ->
  i = j /\ forall n, (k <= n < k + i)%nat -> m_backends d !!! n = m_backends e !!! n.
Proof.
  assert (Hhead : forall d k i, head (concat (formatBackend d <$> seq k (S i)) ++ bs "]}") <>
            Some "]"%char).
  { clear. intros d k i. cbn. unfold formatBackend. destruct k; discriminate. }
  revert k j. induction i as [|i IH]; intros k [|j] H; [split; [done|lia]|..].
  - exfalso. apply (Hhead e k j). by rewrite <-H.
  - exfalso. apply (Hhead d k i). by rewrite H.
  - cbn [seq fmap list_fmap concat] in H. rewrite <-!app_assoc in H.
    apply formatBackend_inj in H as [Hk H]. apply IH in H as [-> Hn]. split; [done|].
    intros n Hn'. destruct (decide (n = k)) as [->|]; [done|]. apply Hn. lia.
Qed.

(** Equal numbers off both sides; what follows them is a literal. *)
Ltac peel_number H E :=
  apply to_string_app_inj in H as [E H];
  [|lia|lia|apply not_digit_head; vm_compute; reflexivity
   |apply not_digit_head; vm_compute; reflexivity].

Lemma saturated_text (b : bool) :
  (if b then json ",'counter_saturated':true" else json ",'counter_saturated':false") =
  json ",'counter_saturated':" ++ (if b then bs "true" else bs "false").
Proof. by destruct b. Qed.

Lemma line_body_inj d1 d2 p1 p2 :
  snapshot_ok d1 -> snapshot_ok d2 -> known_phase p1 -> known_phase p2 ->
  line_body d1 p1 = line_body d2 p2 ->
  p1 = p2 /\ m_protocol d1 = m_protocol d2 /\ m_seq d1 = m_seq d2 /\ uptimeMs d1 = uptimeMs d2 /\
  sessionsActive d1 = sessionsActive d2 /\ (forall k, counter k d1 = counter k d2) /\
  counterSaturated d1 = counterSaturated d2 /\ backendCount d1 = backendCount d2 /\
  (forall i, (i < Z.to_nat (backendCount d1))%nat -> m_backends d1 !!! i = m_backends d2 !!! i).
Proof.
  intros (Hq1 & Hu1 & Ha1 & Hc1 & Hn1 & _) (Hq2 & Hu2 & Ha2 & Hc2 & Hn2 & _) Hp1 Hp2 H.
  pose proof (Hc1 kCreated). pose proof (Hc1 kClosed). pose proof (Hc1 kBytesC2b).
  pose proof (Hc1 kBytesB2c). pose proof (Hc1 kDatagramC2b). pose proof (Hc1 kDatagramB2c).
  pose proof (Hc1 kRejected). pose proof (Hc1 kDropped). pose proof (Hc1 kError).
  pose proof (Hc1 kTimeout).
  pose proof (Hc2 kCreated). pose proof (Hc2 kClosed). pose proof (Hc2 kBytesC2b).
  pose proof (Hc2 kBytesB2c). pose proof (Hc2 kDatagramC2b). pose proof (Hc2 kDatagramB2c).
  pose proof (Hc2 kRejected). pose proof (Hc2 kDropped). pose proof (Hc2 kError).
  pose proof (Hc2 kTimeout). cbn [counter] in *.
  unfold line_body in H. rewrite !foldl_backends in H. cbn [foldl] in H.
  unfold appendCounterField in H. rewrite !saturated_text, <-!app_assoc in H.
  apply app_inv_head in H. peel_number H Eseq. apply app_inv_head in H.
  apply (word_app_inj quote) in H as [Ep H];
    [|by apply phase_no_quote|by apply phase_no_quote|done|done].
  apply app_inv_head in H.
  apply (word_app_inj quote) in H as [Eproto H];
    [|apply notin_check; by destruct (m_protocol d1)|apply notin_check; by destruct (m_protocol d2)
     |done|done].
  apply app_inv_head in H. peel_number H Eup.
  do 3 apply app_inv_head in H. peel_number H E1.
  do 3 apply app_inv_head in H. peel_number H E2.
  do 3 apply app_inv_head in H. peel_number H E3.
  do 3 apply app_inv_head in H. peel_number H E4.
  do 3 apply app_inv_head in H. peel_number H E5.
  do 3 apply app_inv_head in H. peel_number H E6.
  do 3 apply app_inv_head in H. peel_number H E7.
  do 3 apply app_inv_head in H. peel_number H E8.
  do 3 apply app_inv_head in H. peel_number H E9.
  do 3 apply app_inv_head in H. peel_number H E10.
  do 3 apply app_inv_head in H. peel_number H E11.
  apply app_inv_head in H.
  apply (word_app_inj ","%char) in H as [Es H];
    [|apply notin_check; by destruct (counterSaturated d1)
     |apply notin_check; by destruct (counterSaturated d2)|done|done].
  apply app_inv_head in H. apply backends_text_inj in H as [En Hb].
  assert (m_protocol d1 = m_protocol d2) by by destruct (m_protocol d1), (m_protocol d2).
  assert (counterSaturated d1 = counterSaturated d2)
    by by destruct (counterSaturated d1), (counterSaturated d2).
  split_and!; try done; [intros []; done|lia|]. intros i Hi. apply Hb. lia.
Qed.

(** A snapshot whose values fit 64 bits is written as one complete line of
    at most 32768 bytes (the limit of the output), for up to 256 backends and
    whatever the values; and the line determines the snapshot: the phase, every
    counter, the saturation flag and the state of every backend. *)
Theorem formatMetricsSnapshot_line d phase :
  snapshot_ok d -> known_phase phase ->
  exists body,
    formatMetricsSnapshot d phase = Ret (body ++ [newline]) /\
    (newline ∉ body) /\ len (body ++ [newline]) <= 32768 /\
    (forall d' phase', snapshot_ok d' -> known_phase phase' ->
      formatMetricsSnapshot d' phase' = Ret (body ++ [newline]) ->
      phase' = phase /\ m_protocol d' = m_protocol d /\ m_seq d' = m_seq d /\
      uptimeMs d' = uptimeMs d /\ sessionsActive d' = sessionsActive d /\
      (forall k, counter k d' = counter k d) /\ counterSaturated d' = counterSaturated d /\
      backendCount d' = backendCount d /\
      forall i, (i < Z.to_nat (backendCount d))%nat -> m_backends d' !!! i = m_backends d !!! i).
Proof.
  intros Hd Hp. destruct (clean_line_body d phase Hd Hp) as [Hlen Hnl].
  exists (line_body d phase). split; [by apply formatMetricsSnapshot_eq|].
  split; [done|]. split; [rewrite len_app; change (len [newline]) with 1; lia|].
  intros d' phase' Hd' Hp' He. rewrite formatMetricsSnapshot_eq in He by done.
  injection He as He. apply app_inv_tail in He.
  destruct (line_body_inj d' d phase' phase Hd' Hd Hp' Hp He)
    as (? & ? & ? & ? & ? & ? & ? & Hn & Hb).
  split_and!; try done. intros i Hi. apply Hb. by rewrite Hn.
Qed.

Definition example_snapshot : MetricsSnapshot :=
  mkMetricsSnapshot kUdp 7 1500 3 1 2 100 200 10 20 0 1 0 4 false 2
    (mkBackendHealthSnapshot bhUnhealthy false :: replicate 255 defaultBackendHealth).

Lemma formatMetricsSnapshot_line_witness :
  exists line, formatMetricsSnapshot example_snapshot (bs "periodic") = Ret line /\
    len line <= 32768.
Proof.
  destruct (formatMetricsSnapshot_line example_snapshot (bs "periodic")) as (body & He & _ & Hl & _).
  - split_and!; try done; try (cbn; lia). intros []; cbn; lia.
  - unfold known_phase. set_solver.
  - eexists. split; [exact He|exact Hl].
Defined.

Lemma wp_may_throw {C W A} (op : W -> (A + exn) * W) (Q : outcome A -> C * W -> Prop) o w :
  match (op w).1 with
  | inl a => Q (Ret a) (o, (op w).2)
  | inr e => Q (Throw e) (o, (op w).2)
  end ->
  wp (outside (may_throw op)) Q (o, w).
Proof. unfold wp, outside, may_throw. cbn [snd]. by destruct (op w) as [[a|e] w']. Qed.

(** ** The output as a state machine

    [Logged] records, next to any environment, every line handed to the writer
    and the writer's answer. *)
Section logged.
Context {W : Type} `{MetricsOps W}.
Context (formatter : MetricsSnapshot -> bytes -> outcome bytes).

Abbreviation LW := (W * list (bytes * (Z + exn)))%type.

Instance logged_ops : MetricsOps LW := {
  m_now w := let '(r, w') := m_now w.1 in (r, (w', w.2));
  m_write line w := let '(r, w') := m_write line w.1 in (r, (w', w.2 ++ [(line, r)]));
  m_health l w := let '(r, w') := m_health l w.1 in (r, (w', w.2))
}.

Inductive output_op := OpReady | OpPeriodic | OpFinal (error : bool).

(** The calls with the collector's contents at each call. *)
Definition run_op (op : output_op * MetricsSnapshot) : M (MetricsOutput * LW) unit :=
  match op with
  | (OpReady, data) => emitReadySnapshot formatter data
  | (OpPeriodic, data) => emitPeriodicSnapshotIfDue formatter data
  | (OpFinal error, data) => emitFinalSnapshot formatter data error
  end.

(** What a written line shows: phase, sequence number, collector contents. *)
Record emission := mkEmission { e_phase : bytes; e_seq : Z; e_data : MetricsSnapshot }.

Definition shows (entry : bytes * (Z + exn)) (e : emission) : Prop :=
  exists snap,
    formatter snap (e_phase e) = Ret entry.1 /\ m_seq snap = e_seq e /\
    m_protocol snap = m_protocol (e_data e) /\ backendCount snap = backendCount (e_data e) /\
    sessionsActive snap = sessionsActive (e_data e) /\
    forall k, counter k snap = counter k (e_data e).

Definition complete (entry : bytes * (Z + exn)) : Prop := entry.2 = inl (len entry.1).

(** The order of the phases: ready at most once and first, then periodic
    snapshots, then at most one final or error snapshot. *)
Definition phases_ok (l : list bytes) : Prop :=
  exists r p f, l = r ++ p ++ f /\ (r = [] \/ r = [bs "ready"]) /\
    Forall (eq (bs "periodic")) p /\ (f = [] \/ f = [bs "final"] \/ f = [bs "error"]) /\
    (p <> [] -> r <> []).

Definition numbered (es : list emission) : Prop :=
  forall i e, es !! i = Some e -> e_seq e = Z.min UINT64_MAX (Z.of_nat i + 1).

Record core_inv (o : MetricsOutput) (log : list (bytes * (Z + exn))) (es : list emission)
    : Prop := {
  inv_shows : Forall2 shows log es;
  inv_numbered : numbered es;
  inv_enabled : enabled_ o = true ->
    Forall complete log /\ seq_ o = Z.min UINT64_MAX (len es);
  inv_failed : Forall complete (take (length log - 1) log)
}.

Definition running (enabled ready : bool) (phases : list bytes) : Prop :=
  (exists p, Forall (eq (bs "periodic")) p /\ phases = bs "ready" :: p) \/
  phases = [] /\ (enabled = true -> ready = false).

Definition phase_inv (o : MetricsOutput) (phases : list bytes) : Prop :=
  phases_ok phases /\
  (readyEmitted_ o = false -> finalized_ o = false -> phases = []) /\
  (finalized_ o = false -> running (enabled_ o) (readyEmitted_ o) phases).

Definition output_inv o log es : Prop := core_inv o log es /\ phase_inv o (e_phase <$> es).

(** One emission: nothing happens when the output is disabled; else it either
    stays silent and is disabled, or hands exactly one line to the writer. *)
Definition emitted (data : MetricsSnapshot) (phase : bytes) (o o' : MetricsOutput)
    (log log' : list (bytes * (Z + exn))) : Prop :=
  readyEmitted_ o' = readyEmitted_ o /\ finalized_ o' = finalized_ o /\
  (log' = log /\ enabled_ o' = false \/
   exists entry,
     enabled_ o = true /\ log' = log ++ [entry] /\
     shows entry (mkEmission phase (addSaturatingCounter (seq_ o) 1 false).1 data) /\
     seq_ o' = (addSaturatingCounter (seq_ o) 1 false).1 /\
     (enabled_ o' = true -> complete entry)).

Context (formatter_returns : forall d phase, formatter d phase <> Diverge).

Lemma emitSnapshot_spec data phase o w log :
  wp (emitSnapshot formatter data phase)
    (fun r s' => r = Ret tt /\ emitted data phase o s'.1 log s'.2.2) (o, (w, log)).
Proof using All.
  unfold emitSnapshot. wp_step. wp_step. cbn [fst].
  destruct (enabled_ o) eqn:Hen; cbn [negb].
  2: { apply wp_ret. split; [done|]. split_and!; try done. left. done. }
  wp_step. wp_step. wp_step. unfold id. cbn [fst].
  destruct (addSaturatingCounter (seq_ o) 1 false) as [seq' sat] eqn:Hsat.
  wp_step. wp_step. wp_step. cbn [fst snd].
  apply wp_may_throw. cbn [m_now logged_ops fst snd].
  destruct (m_now w) as [[now|e] w1]; cbn [fst snd];
    [|wp_steps; split; [done|]; split_and!; try done; by left].
  wp_step. apply wp_may_throw. cbn [m_health logged_ops fst snd].
  destruct (m_health _ w1) as [[filled|e] w2]; cbn [fst snd];
    [|wp_steps; split; [done|]; split_and!; try done; by left].
  wp_step. set (snap := set_backends _ _). wp_step.
  destruct (formatter snap phase) as [line|e|] eqn:Hline;
    [|wp_steps; split; [done|]; split_and!; try done; by left|by apply formatter_returns in Hline].
  wp_step; [wp_steps; split; [done|]; split_and!; try done; by left|].
  wp_step. apply wp_may_throw. cbn [m_write logged_ops fst snd].
  assert (Hshow : forall r, shows (line, r) (mkEmission phase seq' data)).
  { intros r. by exists snap. }
  destruct (m_write line w2) as [[r|e] w3]; cbn [fst snd].
  - wp_steps; (split; [done|]; split_and!; [done|done|]; right; exists (line, inl r));
      rewrite Hsat; split_and!; try done.
    intros _. unfold complete; cbn. bool_to_prop. by f_equal.
  - wp_steps. split; [done|]. split_and!; [done|done|]. right. exists (line, inr e).
    rewrite Hsat. split_and!; done.
Qed.

Lemma core_inv_ext o o' log es :
  core_inv o log es -> (enabled_ o' = true -> enabled_ o = true /\ seq_ o' = seq_ o) ->
  core_inv o' log es.
Proof.
  intros [Hs Hn He Hf] Ho. split; try done.
  intros Hen. destruct (Ho Hen) as [Hen' ->]. by apply He.
Qed.

Lemma core_emitted data phase o o' log log' es :
  core_inv o log es -> emitted data phase o o' log log' ->
  (log' = log /\ enabled_ o' = false /\ core_inv o' log' es) \/
  (enabled_ o = true /\ exists n, core_inv o' log' (es ++ [mkEmission phase n data])).
Proof.
  intros Hc (_ & _ & [[-> Hd]|(entry & Hen & -> & Hshow & Hseq & Hcomp)]).
  - left. split_and!; try done. eapply core_inv_ext; [done|congruence].
  - right. split; [done|]. destruct Hc as [Hs Hn He Hf]. destruct (He Hen) as [Hall Hq].
    rewrite Hq in *.
    pose proof (addSaturatingCounter_spec (len es) 1 false (len_nonneg es)
                  ltac:(unfold UINT64_MAX; lia)) as Hadd.
    rewrite Hadd in *. cbn [fst] in *. eexists. split.
    + apply Forall2_app; [done|]. constructor; [exact Hshow|constructor].
    + intros i e Hi. apply lookup_snoc_Some in Hi as [[Hi He']|[-> <-]]; [by apply Hn|].
      cbn. unfold len. f_equal. lia.
    + intros Hen'. split; [apply Forall_app; auto|]. rewrite Hseq, len_app, len_cons.
      f_equal. change (len []) with 0. lia.
    + rewrite length_app. simpl. rewrite take_app_le by lia. by rewrite take_ge by lia.
Qed.

Lemma phases_periodic p : Forall (eq (bs "periodic")) p -> phases_ok (bs "ready" :: p).
Proof.
  intros Hp. exists [bs "ready"], p, []. rewrite app_nil_r. split_and!; auto.
Qed.

Lemma phases_nil : phases_ok [].
Proof. exists [], [], []. split_and!; auto. Qed.

Lemma phases_final enabled ready l (error : bool) :
  running enabled ready l -> phases_ok (l ++ [if error then bs "error" else bs "final"]).
Proof.
  intros [(p & Hp & ->)|[-> _]].
  - exists [bs "ready"], p, [if error then bs "error" else bs "final"].
    split_and!; auto; destruct error; auto.
  - exists [], [], [if error then bs "error" else bs "final"].
    split_and!; auto; destruct error; auto.
Qed.

Lemma running_ok enabled ready l : running enabled ready l -> phases_ok l.
Proof. intros [(p & Hp & ->)|[-> _]]; [by apply phases_periodic|apply phases_nil]. Qed.

Definition op_post (es : list emission) (r : outcome unit) (s' : MetricsOutput * LW) : Prop :=
  r = Ret tt /\ exists es', es `prefix_of` es' /\ output_inv s'.1 s'.2.2 es'.

Lemma op_post_same es o w log : output_inv o log es -> op_post es (Ret tt) (o, (w, log)).
Proof. intros Hi. split; [done|]. by exists es. Qed.

Lemma final_op_spec error data o w log es :
  output_inv o log es ->
  wp (run_op (OpFinal error, data)) (op_post es) (o, (w, log)).
Proof using All.
  intros Hi. unfold run_op, emitFinalSnapshot. wp_step. wp_step. unfold id. cbn [fst].
  wp_step; [by apply wp_ret, op_post_same|]. wp_step. wp_step. cbn [fst snd].
  eapply wp_mono; [apply emitSnapshot_spec|]. intros r [o' [w' log']] [-> Hem]. cbn [fst snd] in *.
  destruct Hi as [Hc (Hok & Hnew & Hrun)]. split; [done|].
  specialize (Hrun Heqb).
  apply (core_inv_ext _ (set_finalized o)) in Hc; [|done].
  destruct (core_emitted _ _ _ _ _ _ es Hc Hem) as [(-> & Hd & Hc')|(Hen & n & Hc')].
  - exists es. split; [done|]. split; [done|]. destruct Hem as (_ & Hf & _). cbn in Hf.
    split_and!; [done|intros; cbn in *; congruence..].
  - eexists. split; [by apply prefix_app_r|]. split; [exact Hc'|].
    destruct Hem as (_ & Hf & _). cbn in Hf. rewrite fmap_app. cbn.
    split_and!; [by eapply phases_final|intros; cbn in *; congruence..].
Qed.

Lemma next_inv t o log es : output_inv o log es -> output_inv (set_nextSnapshotTime t o) log es.
Proof. intros [Hc Hp]. split; [by eapply core_inv_ext|exact Hp]. Qed.

(** Reading the clock and setting the next deadline, or giving up. *)
Lemma schedule_next_spec es o w log (m : M (MetricsOutput * LW) unit) :
  output_inv o log es ->
  m = (now <- outside (may_throw m_now) ;; update (set_nextSnapshotTime (now + seconds 1))) ->
  wp m (fun r s' => (exists e, r = Throw e) \/ r = Ret tt) (o, (w, log)) /\
  wp m (fun r s' => output_inv s'.1 s'.2.2 es) (o, (w, log)).
Proof.
  intros Hi ->. split; wp_step; apply wp_may_throw; cbn [m_now logged_ops fst snd];
    destruct (m_now w) as [[now|e] w1]; cbn [fst snd]; eauto.
  - wp_steps. by right.
  - wp_steps. by apply next_inv.
Qed.

Lemma disable_inv o log es : output_inv o log es -> output_inv (disable o) log es.
Proof.
  intros [Hc (Hok & Hnew & Hrun)]. split; [by eapply core_inv_ext|].
  split; [done|]. split; [done|]. intros Hf.
  destruct (Hrun Hf) as [?|[-> _]]; [by left|by right].
Qed.

Lemma give_up_spec es0 es o w log (m : M (MetricsOutput * LW) unit) :
  es0 `prefix_of` es ->
  wp m (fun r s' => (exists e, r = Throw e) \/ r = Ret tt) (o, (w, log)) ->
  wp m (fun r s' => output_inv s'.1 s'.2.2 es) (o, (w, log)) ->
  wp (mcatch m (fun _ => update disable)) (op_post es0) (o, (w, log)).
Proof.
  intros Hpre H1 H2. wp_step. eapply wp_mono; [apply (wp_conj _ _ _ _ H1 H2)|].
  intros r s' [[[e ->]| ->] Hi].
  - wp_step. split; [done|]. exists es. split; [done|]. by apply disable_inv.
  - split; [done|]. by exists es.
Qed.

Lemma ready_op_spec data o w log es :
  output_inv o log es -> wp (run_op (OpReady, data)) (op_post es) (o, (w, log)).
Proof using All.
  intros Hi. unfold run_op, emitReadySnapshot. wp_step. wp_step. unfold id. cbn [fst].
  wp_step; [by apply wp_ret, op_post_same|]. wp_step. wp_step. wp_step. cbn [fst snd].
  bool_to_prop. destruct Hi as [Hc (Hok & Hnew & Hrun)].
  specialize (Hnew ltac:(done) ltac:(done)). apply fmap_nil_inv in Hnew as ->.
  apply (core_inv_ext _ (set_readyEmitted o)) in Hc; [|done].
  eapply wp_mono; [apply emitSnapshot_spec|]. intros r [o' [w' log']] [-> Hem]. cbn [fst snd] in *.
  pose proof Hem as (Hr' & Hf' & _). cbn in Hr', Hf'.
  assert (Hi' : exists es', output_inv o' log' es').
  { destruct (core_emitted _ _ _ _ _ _ [] Hc Hem) as [(-> & Hd & Hc')|(Hen & n & Hc')].
    - exists []. split; [done|]. split; [apply phases_nil|]. split; [done|].
      intros _. right. split; [done|congruence].
    - eexists. split; [exact Hc'|]. cbn. split; [by apply phases_periodic|].
      split; [intros; cbn in *; congruence|]. intros _. left. by exists []. }
  destruct Hi' as [es' Hi'].
  destruct (schedule_next_spec es' o' w' log' _ Hi' eq_refl) as [Hn1 Hn2].
  eapply give_up_spec; [apply prefix_nil|exact Hn1|exact Hn2].
Qed.

Lemma periodic_op_spec data o w log es :
  output_inv o log es -> wp (run_op (OpPeriodic, data)) (op_post es) (o, (w, log)).
Proof using All.
  intros Hi. unfold run_op, emitPeriodicSnapshotIfDue. wp_step. wp_step. unfold id. cbn [fst].
  wp_step; [by apply wp_ret, op_post_same|]. bool_to_prop.
  wp_step. wp_step. apply wp_may_throw. cbn [m_now logged_ops fst snd].
  destruct (m_now w) as [[now|e] w1]; cbn [fst snd].
  2: { wp_step. split; [done|]. exists es. split; [done|]. by apply disable_inv. }
  wp_step; [wp_step; by apply op_post_same|].
  wp_step. eapply wp_mono; [apply emitSnapshot_spec|].
  intros r [o' [w' log']] [-> Hem]. cbn [fst snd] in *.
  pose proof Hem as (Hr' & Hf' & _).
  destruct Hi as [Hc (Hok & Hnew & Hrun)]. specialize (Hrun ltac:(done)).
  destruct Hrun as [(p & Hp & Hph)|[_ Hrun]]; [|naive_solver congruence].
  assert (Hi' : exists es', es `prefix_of` es' /\ output_inv o' log' es').
  { destruct (core_emitted _ _ _ _ _ _ es Hc Hem) as [(-> & Hd & Hc')|(Hen & n & Hc')].
    - exists es. split; [done|]. split; [done|]. rewrite Hph.
      split; [by apply phases_periodic|]. split; [intros; cbn in *; congruence|]. intros _. left. by exists p.
    - eexists. split; [by apply prefix_app_r|]. split; [exact Hc'|].
      rewrite fmap_app, Hph. cbn.
      assert (Forall (eq (bs "periodic")) (p ++ [bs "periodic"])) by by apply Forall_app; auto.
      split; [by apply phases_periodic|]. split; [intros; cbn in *; congruence|]. intros _. left. by eexists. }
  destruct Hi' as (es' & Hpre & Hi').
  destruct (schedule_next_spec es' o' w' log' _ Hi' eq_refl) as [Hn1 Hn2].
  eapply wp_mono; [apply (wp_conj _ _ _ _ Hn1 Hn2)|].
  intros r s' [[[e ->]| ->] Hs'].
  - wp_step. split; [done|]. exists es'. split; [done|]. by apply disable_inv.
  - split; [done|]. by exists es'.
Qed.

Fixpoint run_ops (ops : list (output_op * MetricsSnapshot)) : M (MetricsOutput * LW) unit :=
  match ops with
  | [] => mret tt
  | op :: ops' => run_op op ;;; run_ops ops'
  end.

(** C39: the metrics output, called in any order and any number of times, with
    any collector contents, in an environment whose clock, health provider and
    writer may fail or throw at any point.  No call ever throws.  The lines
    handed to the writer are at most one ready line, then periodic lines (only
    after the ready line), then at most one final or error line, and none after
    it; they are numbered 1, 2, 3, ... and each is the formatter's rendering of
    one snapshot with that number and phase; and a write that failed or was cut
    short is never followed by another line. *)
Theorem metrics_output_lines start ops w :
  wp (run_ops ops)
    (fun r s' =>
       r = Ret tt /\
       exists es, Forall2 shows s'.2.2 es /\ numbered es /\ phases_ok (e_phase <$> es) /\
         Forall complete (take (length s'.2.2 - 1) s'.2.2))
    (mkMetricsOutput start 0 0 false false true, (w, [])).
Proof using All.
  enough (Hgen : forall o w log es, output_inv o log es ->
    wp (run_ops ops) (fun r s' => r = Ret tt /\ exists es', output_inv s'.1 s'.2.2 es')
      (o, (w, log))).
  { eapply wp_mono; [apply (Hgen _ _ _ [])|].
    - split; [by split|].
      split; [apply phases_nil|]. split; [done|]. intros _. by right.
    - intros r s' (-> & es & [[Hs Hn _ Hf] [Hok _]]). split; [done|]. by exists es. }
  induction ops as [|[op data] ops' IH]; intros o w' log es Hi; cbn [run_ops].
  - wp_step. split; [done|]. by exists es.
  - wp_step. apply wp_mono with (Q := op_post es).
    + destruct op; [by apply ready_op_spec|by apply periodic_op_spec|by apply final_op_spec].
    + intros r [o' [w'' log']] (-> & es' & _ & Hi'). eapply IH. exact Hi'.
Qed.
End logged.

Lemma formatMetricsSnapshot_returns d phase : formatMetricsSnapshot d phase <> Diverge.
Proof. unfold formatMetricsSnapshot. by repeat case_match. Qed.

(** A clock that advances one second per reading and a writer that takes whole
    lines until its budget is spent. *)
Module ScriptedMetrics.
Record world := mkWorld { clock : Z; budget : Z }.
#[global] Instance ops : MetricsOps world := {
  m_now w := (inl (clock w), mkWorld (clock w + seconds 1) (budget w));
  m_write line w :=
    (if budget w <? len line then inl (budget w) else inl (len line),
     mkWorld (clock w) (Z.max 0 (budget w - len line)));
  m_health l w := (inl l, w)
}.
End ScriptedMetrics.

Lemma metrics_output_lines_witness :
  let calls := [(OpPeriodic, example_snapshot); (OpReady, example_snapshot);
                (OpReady, example_snapshot); (OpPeriodic, example_snapshot);
                (OpFinal false, example_snapshot); (OpPeriodic, example_snapshot);
                (OpFinal true, example_snapshot)] in
  let r := run_ops formatMetricsSnapshot calls
             (mkMetricsOutput 0 0 0 false false true, (ScriptedMetrics.mkWorld 0 100000, [])) in
  r.1 = Ret tt /\ length r.2.2.2 = 3%nat /\
  exists es, Forall2 (shows formatMetricsSnapshot) r.2.2.2 es /\ phases_ok (e_phase <$> es).
Proof.
  pose proof (metrics_output_lines formatMetricsSnapshot formatMetricsSnapshot_returns 0
    [(OpPeriodic, example_snapshot); (OpReady, example_snapshot);
     (OpReady, example_snapshot); (OpPeriodic, example_snapshot);
     (OpFinal false, example_snapshot); (OpPeriodic, example_snapshot);
     (OpFinal true, example_snapshot)] (ScriptedMetrics.mkWorld 0 100000))
    as (Hr & es & Hs & _ & Hp & _).
  cbn zeta. split; [exact Hr|]. split; [vm_compute; reflexivity|]. exists es. split; [exact Hs|exact Hp].
Defined.
