(* ===== verification/HealthSelection.v ===== *)
(** * Backend selection under health checks (src/src/control/HealthSelection.h, .cpp)

    The client of two interfaces: it is parametric in the scheduler
    ([BackendScheduler], with the promises of [BackendSchedulerSpec]) and it
    owns the TCP health checker, whose changes it logs. *)
From S2P Require Import Prelude Config Core HealthState TcpHealth Metrics.

(** Standard error, and the clock of the unavailability log. *)
Class SelectionOps (W : Type) := {
  sel_log : bytes -> W -> W;
  sel_now : W -> Z * W
}.

(** ** selectEligibleBackendIndex *)

Section scheduler.
Context {Sch : Type} `{BackendScheduler Sch}.

Fixpoint selectionAttempts (attempts : nat) (s : Sch) (eligible : list bool)
    : outcome (option Z) * Sch :=
  match attempts with
  | O => (Throw (LogicError (bs "scheduler did not visit eligible backend")), s)
  | S attempts' =>
      let '(backendIndex, s') := selectNextBackendIndex s in
      match eligible !! Z.to_nat backendIndex with
      | None => (Throw (OutOfRange (bs "vector<bool>::_M_range_check")), s')
      | Some true => (Ret (Some backendIndex), s')
      | Some false => selectionAttempts attempts' s' eligible
      end
  end.

Definition selectEligibleBackendIndex (s : Sch) (eligible : list bool)
    : outcome (option Z) * Sch :=
  if forallb negb eligible then (Ret None, s)
  else selectionAttempts (length eligible) s eligible.

(** ** HealthSelection *)

Record HealthSelection := mkHealthSelection {
  config_ : Config;
  scheduler_ : Sch;
  checker_ : option TcpHealthChecker;
  lastUnavailableLogTime_ : option Z
}.

Definition set_scheduler (s : Sch) (h : HealthSelection) : HealthSelection :=
  mkHealthSelection (config_ h) s (checker_ h) (lastUnavailableLogTime_ h).
Definition set_checker (c : TcpHealthChecker) (h : HealthSelection) : HealthSelection :=
  mkHealthSelection (config_ h) (scheduler_ h) (Some c) (lastUnavailableLogTime_ h).
Definition set_lastUnavailable (t : Z) (h : HealthSelection) : HealthSelection :=
  mkHealthSelection (config_ h) (scheduler_ h) (checker_ h) (Some t).

Definition selectionEnabled (h : HealthSelection) : bool := bool_decide (checker_ h <> None).

Context {W : Type} `{TcpProbeOps W} `{SelectionOps W}.

Definition healthChangeLine (config : Config) (healthChange : HealthChange) : bytes :=
  bs "health backend=" ++ formatEndpoint (nth (hc_backend healthChange) (backends config) emptyEndpoint) ++
  bs " from=" ++ healthStatusName (hc_from healthChange) ++
  bs " to=" ++ healthStatusName (hc_to healthChange) ++
  bs " reason=" ++ hc_reason healthChange ++
  (if hc_error healthChange =? 0 then []
   else bs " errno=" ++ to_string (hc_error healthChange)) ++ [newline].

Definition onHealthChange (config : Config) (healthChange : HealthChange) : M W unit :=
  mmodify (sel_log (healthChangeLine config healthChange)).

(** The constructor; [makeScheduler] is [createBackendScheduler]. *)
Definition newHealthSelection (config : Config)
    (makeScheduler : SchedulerKind -> Z -> outcome Sch) : M W HealthSelection :=
  s <- lift_outcome (makeScheduler (scheduler config) (len (backends config))) ;;
  if bool_decide (healthCheck config = kHealthOff) then
    mret (mkHealthSelection config s None None)
  else
    c <- newTcpHealthChecker (backends config) (ms 1000) (ms 1000) ;;
    mwhen (bool_decide (protocol config = kUdp))
      (mmodify (sel_log (bs "UDP health_check=tcp_connect：相同 IP/端口的 TCP 健康端点必须代表 UDP 服务；TCP 握手不是 UDP 协议健康证明。" ++ [newline]))) ;;;
    mret (mkHealthSelection config s (Some c) None).

(** The destructor: only the checker holds resources. *)
Definition destroyHealthSelection (h : HealthSelection) : M W unit :=
  match checker_ h with
  | Some c => destroyTcpHealthChecker c
  | None => mret tt
  end.

(** [checker_->pollHealthProbes()]; the callers make sure that there is a
    checker. *)
Definition pollSelectionProbes : M (HealthSelection * W) unit :=
  h <- own id ;;
  match checker_ h with
  | None => mret tt
  | Some c =>
      zoom (fun h => default c (checker_ h)) set_checker
        (pollHealthProbes (Some (onHealthChange (config_ h))))
  end.

Definition eligibleBackends (c : TcpHealthChecker) : list bool :=
  (fun p => bool_decide (status (state p) = kHealthy)) <$> probes_ c.

(** [config_.backends[*index]] *)
Definition backendAt (config : Config) (index : Z) : Endpoint :=
  nth (Z.to_nat index) (backends config) emptyEndpoint.

Definition selectBackend : M (HealthSelection * W) (option Endpoint) :=
  h <- own id ;;
  match checker_ h with
  | None =>
      let '(index, s) := selectNextBackendIndex (scheduler_ h) in
      update (set_scheduler s) ;;;
      mret (Some (backendAt (config_ h) index))
  | Some c =>
      pollSelectionProbes ;;;
      h <- own id ;;
      let '(result, s) :=
        selectEligibleBackendIndex (scheduler_ h) (eligibleBackends (default c (checker_ h))) in
      update (set_scheduler s) ;;;
      index <- lift_outcome result ;;
      match index with
      | Some index => mret (Some (backendAt (config_ h) index))
      | None =>
          time <- call sel_now ;;
          (if match lastUnavailableLogTime_ h with
              | None => true
              | Some last => seconds 1 <=? time - last
              end
           then
             effect (sel_log (bs "no_healthy_backend" ++ [newline])) ;;;
             update (set_lastUnavailable time)
           else mret tt) ;;;
          mret None
      end
  end.

Definition backendSnapshot (s : HealthStatus) : BackendHealthSnapshot :=
  mkBackendHealthSnapshot
    (match s with kUnknown => bhUnknown | kHealthy => bhHealthy | kUnhealthy => bhUnhealthy end)
    (bool_decide (s = kHealthy)).

(** The new contents of the span; [backendState] is [probes_.at]. *)
Definition copyBackendHealth (h : HealthSelection) (span : list BackendHealthSnapshot)
    : outcome (list BackendHealthSnapshot) :=
  if negb (len span =? len (backends (config_ h))) then
    Throw (InvalidArgument (bs "health snapshot size"))
  else
    match checker_ h with
    | None => Ret (replicate (length span) defaultBackendHealth)
    | Some c =>
        match mapM (fun i => (fun p => backendSnapshot (status (state p))) <$> probes_ c !! i)
                (seq 0 (length span)) with
        | Some l => Ret l
        | None => Throw (OutOfRange (bs "vector::_M_range_check"))
        end
    end.
End scheduler.
Arguments HealthSelection Sch : clear implicits.

(** ** Properties *)

Section selection_proofs.
Context {Sch : Type} `{BackendSchedulerSpec Sch}.

Lemma after_selections_S (s : Sch) k :
  after_selections (S k) s = after_selections k (selectNextBackendIndex s).2.
Proof. done. Qed.

(** The attempts go through the schedule until an eligible backend comes. *)
Lemma selectionAttempts_spec (s : Sch) eligible k n :
  sched_valid s -> pool s = length eligible -> (k < n)%nat ->
  eligible !! Z.to_nat (selection k s) = Some true ->
  exists j, (j <= k)%nat /\
    selectionAttempts n s eligible = (Ret (Some (selection j s)), after_selections (S j) s) /\
    eligible !! Z.to_nat (selection j s) = Some true /\
    forall i, (i < j)%nat -> eligible !! Z.to_nat (selection i s) = Some false.
Proof.
  revert s k. induction n as [|n IH]; intros s k Hv Hp Hk He; [lia|].
  assert (Hin : 0 <= (selectNextBackendIndex s).1 < Z.of_nat (length eligible))
    by (rewrite <-Hp; by apply sched_in_range).
  cbn [selectionAttempts]. rewrite (surjective_pairing (selectNextBackendIndex s)).
  destruct (lookup_lt_is_Some_2 eligible (Z.to_nat (selectNextBackendIndex s).1)) as [b Hb];
    [lia|].
  cbn [fst snd]. rewrite Hb. destruct b.
  - exists 0%nat. split; [lia|]. split; [done|]. split; [done|lia].
  - destruct k as [|k]; [unfold selection in He; simpl in He; congruence|].
    destruct (IH (selectNextBackendIndex s).2 k) as (j & Hj & Hs & Hej & Hb').
    + by apply sched_step_valid.
    + rewrite <-Hp. by apply sched_step_pool.
    + lia.
    + exact He.
    + exists (S j). split; [lia|]. split; [exact Hs|]. split; [exact Hej|].
      intros [|i] Hi; [exact Hb|]. apply Hb'. lia.
Qed.

Lemma forallb_negb_lookup (eligible : list bool) :
  forallb negb eligible = false <-> exists i, eligible !! i = Some true.
Proof.
  split.
  - induction eligible as [|[] l IH]; simpl; [done|by exists 0%nat|].
    intros [i Hi]%IH. by exists (S i).
  - intros [i Hi]. apply not_true_is_false. rewrite forallb_forall.
    intros Hall. apply list_elem_of_lookup_2, list_elem_of_In in Hi.
    by apply Hall in Hi.
Qed.

Lemma selectEligible_spec (s : Sch) eligible :
  sched_valid s -> pool s = length eligible ->
  if forallb negb eligible then selectEligibleBackendIndex s eligible = (Ret None, s)
  else exists k, (k < length eligible)%nat /\
    selectEligibleBackendIndex s eligible =
      (Ret (Some (selection k s)), after_selections (S k) s) /\
    eligible !! Z.to_nat (selection k s) = Some true /\
    forall i, (i < k)%nat -> eligible !! Z.to_nat (selection i s) = Some false.
Proof.
  intros Hv Hp. unfold selectEligibleBackendIndex.
  destruct (forallb negb eligible) eqn:Hel; [done|].
  apply forallb_negb_lookup in Hel as [i Hi].
  assert (Hlt : (i < length eligible)%nat) by by eapply lookup_lt_Some.
  destruct (sched_visits_all s (Z.of_nat i) Hv ltac:(lia)) as (k & Hk & Hsel).
  rewrite Hp in Hk. destruct (selectionAttempts_spec s eligible k (length eligible))
    as (j & Hj & Hs & Hej & Hb); try done.
  - rewrite Hsel, Nat2Z.id. done.
  - exists j. split; [lia|]. done.
Qed.

(** Selection against the scheduler interface, for every scheduler that
    keeps its promises.  With no eligible backend the answer is empty and the
    schedule has not advanced.  Otherwise the answer is the first eligible
    backend of the schedule, found within one round; the ineligible ones before
    it are skipped, the schedule continues after it, and neither of the
    exceptions in the code can occur. *)
Theorem selectEligibleBackendIndex_first (s : Sch) eligible :
  sched_valid s -> pool s = length eligible ->
  if forallb negb eligible then selectEligibleBackendIndex s eligible = (Ret None, s)
  else exists k, (k < length eligible)%nat /\
    selectEligibleBackendIndex s eligible =
      (Ret (Some (selection k s)), after_selections (S k) s) /\
    eligible !! Z.to_nat (selection k s) = Some true /\
    forall i, (i < k)%nat -> eligible !! Z.to_nat (selection i s) = Some false.
Proof. apply selectEligible_spec. Qed.
End selection_proofs.

Lemma selectEligibleBackendIndex_first_witness :
  selectEligibleBackendIndex (mkRoundRobinScheduler 3 2) [false; true; false] =
    (Ret (Some 1), mkRoundRobinScheduler 3 2).
Proof.
  pose proof (@selectEligibleBackendIndex_first RoundRobinScheduler _ round_robin_spec
                (mkRoundRobinScheduler 3 2) [false; true; false]
                ltac:(change (rr_valid (mkRoundRobinScheduler 3 2)); split; cbn; lia) eq_refl) as (k & _ & Hs & He & Hi).
  destruct k as [|[|k]]; [vm_compute in He; discriminate He..|].
  rewrite Hs. destruct k; [reflexivity|]. specialize (Hi 2%nat ltac:(lia)).
  vm_compute in Hi. discriminate Hi.
Defined.

Section health_selection_proofs.
Context {Sch : Type} `{BackendSchedulerSpec Sch}.
Context {W : Type} `{TcpProbeOps W} `{SelectionOps W}.
Context (socket_fd : forall w newFd w', probe_socket w = (inl newFd, w') -> 0 <= newFd).

(** The parts fit together: the scheduler and the checker serve exactly the
    configured backends. *)
Definition selection_ok (h : HealthSelection Sch) : Prop :=
  sched_valid (scheduler_ h) /\ pool (scheduler_ h) = length (backends (config_ h)) /\
  match checker_ h with
  | None => True
  | Some c => checker_ok c /\ length (probes_ c) = length (backends (config_ h))
  end.

Definition healthy_in (h : HealthSelection Sch) (i : nat) : Prop :=
  match checker_ h with
  | None => True
  | Some c => status (state (probes_ c !!! i)) = kHealthy
  end.

Lemma eligibleBackends_lookup c i b :
  eligibleBackends c !! i = Some b ->
  b = bool_decide (status (state (probes_ c !!! i)) = kHealthy).
Proof.
  unfold eligibleBackends. rewrite list_lookup_fmap. intros (p & Hp & ->)%fmap_Some.
  by rewrite (list_lookup_total_correct _ _ _ Hp).
Qed.

Lemma onHealthChange_returns config : callback_returns (Some (onHealthChange config)).
Proof. by intros f [= <-] ch w. Qed.

Lemma after_selections_ok k (s : Sch) :
  sched_valid s -> sched_valid (after_selections k s) /\ pool (after_selections k s) = pool s.
Proof.
  revert s. induction k as [|k IH]; intros s Hv; [done|]. simpl.
  destruct (IH _ (sched_step_valid s Hv)) as [Hv' ->]. split; [done|]. by apply sched_step_pool.
Qed.

Lemma backendAt_lookup config i b :
  0 <= i < len (backends config) -> backendAt config i = b -> backends config !! Z.to_nat i = Some b.
Proof.
  unfold len, backendAt. intros Hi <-.
  destruct (lookup_lt_is_Some_2 (backends config) (Z.to_nat i)) as [x Hx]; [lia|].
  rewrite Hx. f_equal. symmetry. by apply nth_lookup_Some.
Qed.

(** Polling the probes through the selection. *)
Lemma pollSelectionProbes_spec h c w :
  checker_ h = Some c -> selection_ok h ->
  wp pollSelectionProbes
    (fun o s' => o <> Diverge /\ selection_ok s'.1 /\ exists c', s'.1 = set_checker c' h)
    (h, w).
Proof using All.
  intros Hc (Hv & Hp & Hok). rewrite Hc in Hok. destruct Hok as [Hok Hlen].
  unfold pollSelectionProbes. wp_step. wp_step. unfold id. cbn [fst]. rewrite Hc. wp_step.
  cbn [fst snd]. rewrite Hc. cbn [default].
  eapply wp_mono; [apply (pollHealthProbes_spec _ socket_fd); exact Hok|].
  intros o [c' w'] ([Hok' Hlen'] & Hret & _). cbn [fst snd] in *.
  split; [apply Hret, onHealthChange_returns|]. split; [|by exists c'].
  split_and!; try done. split; [done|]. cbn. congruence.
Qed.

(** Choosing a backend for a new session. *)
Lemma selectBackend_spec h w :
  selection_ok h ->
  wp selectBackend
    (fun o s' =>
       selection_ok s'.1 /\ config_ s'.1 = config_ h /\
       match o with
       | Ret (Some endpoint) =>
           exists i, backends (config_ h) !! i = Some endpoint /\ healthy_in s'.1 i
       | Ret None =>
           checker_ h <> None /\ scheduler_ s'.1 = scheduler_ h /\
           forall i, (i < length (backends (config_ h)))%nat -> ~ healthy_in s'.1 i
       | Throw _ => checker_ h <> None /\ scheduler_ s'.1 = scheduler_ h
       | Diverge => False
       end) (h, w).
Proof using All.
  intros Hok. pose proof Hok as (Hv & Hp & Hck). unfold selectBackend.
  wp_step. wp_step. unfold id. cbn [fst]. destruct (checker_ h) as [c|] eqn:Hc.
  2: { pose proof (sched_in_range _ Hv) as Hr. pose proof (sched_step_valid _ Hv) as Hsv.
       pose proof (sched_step_pool _ Hv) as Hsp.
       destruct (selectNextBackendIndex (scheduler_ h)) as [i s] eqn:Hs. cbn [fst snd] in *.
       wp_steps. cbn [fst snd]. split; [split_and!; cbn; try done; [congruence|by rewrite Hc]|].
       split; [done|]. exists (Z.to_nat i). split; [|unfold healthy_in; cbn; by rewrite Hc].
       apply backendAt_lookup; [unfold len; lia|done]. }
  wp_step. eapply wp_mono; [by eapply pollSelectionProbes_spec|].
  intros o [h' w'] (Hret & Hok' & c' & Hh'). cbn [fst] in *. subst h'.
  destruct o as [[]|e|]; [|by split_and!|done].
  wp_step. wp_step. unfold id. cbn [fst checker_ set_checker default scheduler_].
  destruct Hok' as (_ & _ & [Hok' Hlen']). cbn in Hlen'.
  assert (Hlen : length (eligibleBackends c') = length (backends (config_ h)))
    by (unfold eligibleBackends; by rewrite length_fmap).
  pose proof (selectEligible_spec (scheduler_ h) (eligibleBackends c') Hv
                ltac:(congruence)) as Hsel.
  destruct (forallb negb (eligibleBackends c')) eqn:Hnone.
  - assert (Hpost : forall t, selection_ok (mkHealthSelection (config_ h) (scheduler_ h) (Some c') t) /\
              forall i, (i < length (backends (config_ h)))%nat ->
                ~ healthy_in (mkHealthSelection (config_ h) (scheduler_ h) (Some c') t) i).
    { intros t. split; [by split_and!|]. intros i Hi Hh. unfold healthy_in in Hh. cbn in Hh.
      destruct (lookup_lt_is_Some_2 (eligibleBackends c') i ltac:(lia)) as [b Hb].
      pose proof (eligibleBackends_lookup _ _ _ Hb) as ->. rewrite bool_decide_true in Hb by done.
      assert (forallb negb (eligibleBackends c') = false) by (apply forallb_negb_lookup; eauto).
      congruence. }
    rewrite Hsel. wp_steps; cbn [fst snd];
      match goal with |- selection_ok ?h' /\ _ =>
        destruct (Hpost (lastUnavailableLogTime_ h')); split_and!; done
      end.
  - destruct Hsel as (k & Hk & Hs & Hek & _). rewrite Hs. wp_steps. cbn [fst snd].
    destruct (after_selections_ok (S k) (scheduler_ h) Hv) as [Hv' Hp'].
    destruct (after_selections_ok k (scheduler_ h) Hv) as [Hvk Hpk].
    pose proof (sched_in_range _ Hvk) as Hr. rewrite Hpk, Hp in Hr.
    split; [split; [exact Hv'|split; [exact (eq_trans Hp' Hp)|done]]|]. split; [done|].
    exists (Z.to_nat (selection k (scheduler_ h))). split.
    + apply backendAt_lookup; [exact Hr|done].
    + unfold healthy_in. cbn. apply eligibleBackends_lookup in Hek.
      symmetry in Hek. by apply bool_decide_eq_true_1 in Hek.
Qed.

(** C27: choosing a backend for a new session.  The health probes are polled
    first, whatever the operating system answers.  The backend returned is a
    configured one and, with health checks on, it is Healthy in the checker's
    state; the answer is empty only when no backend is Healthy, and then the
    schedule has not advanced.  An exception can only come from the poll: it
    leaves the schedule where it was. *)
Theorem selectBackend_healthy h w :
  selection_ok h ->
  wp selectBackend
    (fun o s' =>
       selection_ok s'.1 /\ config_ s'.1 = config_ h /\
       match o with
       | Ret (Some endpoint) =>
           exists i, backends (config_ h) !! i = Some endpoint /\ healthy_in s'.1 i
       | Ret None =>
           checker_ h <> None /\ scheduler_ s'.1 = scheduler_ h /\
           forall i, (i < length (backends (config_ h)))%nat -> ~ healthy_in s'.1 i
       | Throw _ => checker_ h <> None /\ scheduler_ s'.1 = scheduler_ h
       | Diverge => False
       end) (h, w).
Proof using All. apply selectBackend_spec. Qed.
End health_selection_proofs.

(** Two backends, the second one Healthy; nothing is due yet. *)
Module SelectionExample.
#[global] Instance selection_ops : SelectionOps ScriptedProbe.world := {
  sel_log _ w := w;
  sel_now w := (ScriptedProbe.clock w, w)
}.
Definition checker : TcpHealthChecker :=
  mkTcpHealthChecker [mkEndpoint [10; 0; 0; 1] 80; mkEndpoint [10; 0; 0; 2] 80]
    (seconds 1) (seconds 1) 4
    [mkProbe newHealthState (-1) 0 (seconds 3) 0; mkProbe (mkHealthState kHealthy 2 0) (-1) 0 (seconds 3) 0] 4.
Definition config : Config :=
  mkConfig (mkEndpoint [127; 0; 0; 1] 8080) (endpoints_ checker) kTcp kMetricsOff
    kHealthTcpConnect kRoundRobin.
Definition selection : HealthSelection RoundRobinScheduler :=
  mkHealthSelection config (mkRoundRobinScheduler 2 0) (Some checker) None.
Definition world : ScriptedProbe.world := ScriptedProbe.mkWorld (seconds 2) [] 9 [].

Lemma selection_valid : selection_ok selection.
Proof.
  split; [split; cbn; lia|]. split; [done|]. split; [|done].
  split; [unfold UINT64_MAX; cbn; lia|]. split.
  - intros [|[|i]]; cbn; intros; (split; [unfold health_ok; cbn; intuition lia || done|lia]).
  - intros [|[|i]] [|[|j]]; cbn; intros; lia.
Qed.
End SelectionExample.

Lemma selectBackend_healthy_witness :
  let r := selectBackend (SelectionExample.selection, SelectionExample.world) in
  r.1 = Ret (Some (mkEndpoint [10; 0; 0; 2] 80)) /\
  exists i, backends SelectionExample.config !! i = Some (mkEndpoint [10; 0; 0; 2] 80) /\
    healthy_in r.2.1 i.
Proof.
  pose proof (@selectBackend_healthy RoundRobinScheduler _ round_robin_spec ScriptedProbe.world _ _
    ScriptedProbe.socket_fd SelectionExample.selection SelectionExample.world
    SelectionExample.selection_valid) as (_ & _ & Hr).
  split; [vm_compute; reflexivity|exact Hr].
Defined.
