(* ===== verification/LoadBalance.v ===== *)
(** * Fair shares (src/src/core/RoundRobinScheduler.h, src/src/control/HealthSelection.cpp)

    A stronger promise of a scheduler, that a round of it is a permutation of the
    pool, and what it means for the sessions: without health checks every backend
    gets the same number of them. *)
From S2P Require Import Prelude Config Core TcpHealth HealthSelection.

(** From any point of the schedule, the next [pool s] selections are the indexes
    of the pool in some order. *)
Class FairScheduler (Sch : Type) `{BackendSchedulerSpec Sch} :=
  sched_round : forall s, sched_valid s ->
    (fun k => selection k s) <$> seq 0 (pool s) ≡ₚ Z.of_nat <$> seq 0 (pool s).

(** ** Round robin is fair *)

#[export] Instance round_robin_fair : FairScheduler RoundRobinScheduler.
Proof.
  intros s Hs. pose proof Hs as [Hi _]. cbn [pool round_robin_spec].
  rewrite (list_fmap_ext _ (fun k => (nextBackendIndex_ s + Z.of_nat k) mod backendCount_ s))
    by (intros; by apply rr_selection).
  symmetry. apply submseteq_length_Permutation; [|by rewrite !length_fmap].
  apply NoDup_submseteq; [apply (NoDup_fmap_2 _), NoDup_seq|].
  intros x (j & -> & Hj%elem_of_seq)%list_elem_of_fmap. apply list_elem_of_fmap.
  exists (Z.to_nat ((Z.of_nat j - nextBackendIndex_ s) mod backendCount_ s)).
  pose proof (Z.mod_pos_bound (Z.of_nat j - nextBackendIndex_ s) (backendCount_ s)).
  split; [|apply elem_of_seq; lia]. rewrite Z2Nat.id, Zplus_mod_idemp_r by lia.
  rewrite Z.mod_small; lia.
Qed.

(** ** The sessions of a service without health checks *)

Section sessions.
Context {Sch : Type} `{FairScheduler Sch}.
Context {W : Type} `{TcpProbeOps W} `{SelectionOps W}.

(** The backends of the next [n] sessions. *)
Fixpoint selectMany (n : nat) : M (HealthSelection Sch * W) (list (option Endpoint)) :=
  match n with
  | O => mret []
  | S n' =>
      b <- selectBackend ;;
      l <- selectMany n' ;;
      mret (b :: l)
  end.

Definition picks (h : HealthSelection Sch) (n : nat) : list (option Endpoint) :=
  (fun i => Some (backendAt (config_ h) i)) <$> ((fun k => selection k (scheduler_ h)) <$> seq 0 n).

Lemma selection_after n k (s : Sch) : selection k (after_selections n s) = selection (n + k) s.
Proof.
  unfold selection. f_equal. revert s. induction n as [|n IH]; intros s; [done|]. apply IH.
Qed.

Lemma picks_app h n m :
  picks h (n + m) = picks h n ++ picks (set_scheduler (after_selections n (scheduler_ h)) h) m.
Proof.
  unfold picks. rewrite seq_app, !fmap_app. do 2 f_equal. cbn [config_ scheduler_ set_scheduler].
  rewrite <-(Nat.add_0_r (0 + n)), <-fmap_add_seq, <-list_fmap_compose. apply list_fmap_ext.
  intros i k _. cbn. by rewrite selection_after.
Qed.

Lemma selectBackend_off h w : checker_ h = None ->
  selectBackend (h, w) =
  (Ret (Some (backendAt (config_ h) (selection 0 (scheduler_ h)))),
   (set_scheduler (after_selections 1 (scheduler_ h)) h, w)).
Proof.
  intros Hc. unfold selectBackend, mbind, own, id. cbn [fst snd]. rewrite Hc.
  unfold selection, after_selections.
  by destruct (selectNextBackendIndex (scheduler_ h)) as [i s].
Qed.

Lemma selectMany_picks n h w : checker_ h = None ->
  selectMany n (h, w) = (Ret (picks h n), (set_scheduler (after_selections n (scheduler_ h)) h, w)).
Proof.
  revert h. induction n as [|n IH]; intros h Hc; [by destruct h|].
  cbn [selectMany]. unfold mbind at 1. rewrite selectBackend_off by done.
  unfold mbind. rewrite IH by done. by rewrite (picks_app h 1 n : picks h (S n) = _).
Qed.

(** A round gives every backend one session. *)
Lemma picks_round h : selection_ok h ->
  picks h (length (backends (config_ h))) ≡ₚ Some <$> backends (config_ h).
Proof using All.
  intros (Hv & Hp & _). rewrite <-Hp. unfold picks.
  rewrite (sched_round _ Hv), Hp.
  rewrite <-list_fmap_compose. apply reflexive_eq, list_eq. intros i. rewrite !list_lookup_fmap.
  destruct (decide (i < length (backends (config_ h)))%nat) as [Hi|Hi].
  - rewrite lookup_seq_lt by done. cbn.
    destruct (lookup_lt_is_Some_2 _ _ Hi) as [b Hb]. rewrite Hb. cbn. do 2 f_equal.
    unfold backendAt. rewrite Nat2Z.id. by apply nth_lookup_Some.
  - rewrite lookup_seq_ge, (lookup_ge_None_2 (backends _)) by lia. done.
Qed.

Lemma after_round_ok h n : selection_ok h ->
  selection_ok (set_scheduler (after_selections n (scheduler_ h)) h).
Proof.
  intros (Hv & Hp & Hc). destruct (after_selections_ok n _ Hv) as [Hv' Hp'].
  split; [exact Hv'|]. split; [|exact Hc]. exact (eq_trans Hp' Hp).
Qed.

(** C28: fair shares.  Without health checks, [rounds] times the number of
    backends many sessions in a row are all given a backend, each configured
    backend exactly [rounds] of them, wherever the schedule was; and nothing but
    the schedule changes. *)
Theorem selectBackend_fair rounds h w :
  selection_ok h -> checker_ h = None ->
  exists l s, selectMany (rounds * length (backends (config_ h))) (h, w) = (Ret l, (set_scheduler s h, w)) /\
    l ≡ₚ mjoin (replicate rounds (Some <$> backends (config_ h))).
Proof using All.
  intros Hok Hc. rewrite selectMany_picks by done. do 2 eexists. split; [done|].
  revert h Hok Hc. induction rounds as [|rounds IH]; intros h Hok Hc; [done|].
  cbn [Nat.mul replicate mjoin list_join]. rewrite picks_app, picks_round by done. f_equiv.
  apply (IH (set_scheduler _ h)); [by apply after_round_ok|done].
Qed.
End sessions.

(** Two backends, three rounds, from the middle of the schedule. *)
Lemma selectBackend_fair_witness :
  let h := mkHealthSelection SelectionExample.config (mkRoundRobinScheduler 2 1) None None in
  let a := Some (mkEndpoint [10; 0; 0; 1] 80) in
  let b := Some (mkEndpoint [10; 0; 0; 2] 80) in
  (selectMany 6 (h, SelectionExample.world)).1 = Ret [b; a; b; a; b; a] /\
  [b; a; b; a; b; a] ≡ₚ [a; b; a; b; a; b].
Proof.
  intros h a b.
  destruct (selectBackend_fair (Sch := RoundRobinScheduler) 3 h SelectionExample.world)
    as (l & s & Hl & Hp); [split_and!; cbn; lia || done|done|].
  assert (E : (selectMany 6 (h, SelectionExample.world)).1 = Ret [b; a; b; a; b; a]) by reflexivity.
  split; [exact E|]. change (3 * length (backends (config_ h)))%nat with 6%nat in Hl.
  rewrite Hl in E. injection E as ->. exact Hp.
Defined.
