(* ===== verification/TcpState.v ===== *)
(** * State of a TCP session (src/src/net/TcpState.h)

    The fixed ring buffer with its refinement to a byte queue, the idle
    deadline, and the endpoint tokens that stand for registered descriptors. *)
From S2P Require Import Prelude.

#[export] Instance ascii_inhabited : Inhabited ascii := populate zero.

Definition kBufferLimit : Z := 64 * 1024.
Definition kLowWater : Z := 32 * 1024.

(** ** TcpPendingBuffer *)

Record TcpPendingBuffer := mkTcpPendingBuffer {
  bytes_ : list ascii;     (* std::array<char, kBufferLimit> *)
  readOffset_ : Z;
  size_ : Z
}.

Definition newTcpPendingBuffer : TcpPendingBuffer :=
  mkTcpPendingBuffer (replicate (Z.to_nat kBufferLimit) zero) 0 0.

Definition bufferRoom (b : TcpPendingBuffer) : Z := kBufferLimit - size_ b.
Definition writeOffset (b : TcpPendingBuffer) : Z := (readOffset_ b + size_ b) mod kBufferLimit.
Definition readableBytes (b : TcpPendingBuffer) : Z :=
  Z.min (size_ b) (kBufferLimit - readOffset_ b).
Definition writableBytes (b : TcpPendingBuffer) : Z :=
  Z.min (bufferRoom b) (kBufferLimit - writeOffset b).

(** The [n] bytes at [data()], as send(2) reads them. *)
Definition data (b : TcpPendingBuffer) (n : Z) : bytes :=
  take (Z.to_nat n) (drop (Z.to_nat (readOffset_ b)) (bytes_ b)).

(** recv(2) stores [chunk] at [writable()]. *)
Definition storeWritable (chunk : bytes) (b : TcpPendingBuffer) : TcpPendingBuffer :=
  mkTcpPendingBuffer (list_inserts (Z.to_nat (writeOffset b)) chunk (bytes_ b))
    (readOffset_ b) (size_ b).

Definition commitWrittenBytes (writtenBytes : Z) (b : TcpPendingBuffer)
    : outcome unit * TcpPendingBuffer :=
  if writableBytes b <? writtenBytes then
    (Throw (LogicError (bs "buffer write span overflow")), b)
  else (Ret tt, mkTcpPendingBuffer (bytes_ b) (readOffset_ b) (size_ b + writtenBytes)).

Definition consumeReadableBytes (consumedBytes : Z) (b : TcpPendingBuffer)
    : outcome unit * TcpPendingBuffer :=
  if size_ b <? consumedBytes then (Throw (LogicError (bs "buffer underflow")), b)
  else
    let size := size_ b - consumedBytes in
    (Ret tt,
     mkTcpPendingBuffer (bytes_ b)
       (if size =? 0 then 0 else (readOffset_ b + consumedBytes) mod kBufferLimit) size).

(** ** TcpIdleDeadline *)

Record TcpIdleDeadline := mkTcpIdleDeadline { lastIoTime : Z }.

Definition recordIoProgress (now bytes : Z) (d : TcpIdleDeadline) : TcpIdleDeadline :=
  if bytes =? 0 then d else mkTcpIdleDeadline now.
Definition idleExpired (d : TcpIdleDeadline) (now duration : Z) : bool :=
  duration <=? now - lastIoTime d.

(** ** EndpointTokens; a side is 0 (client) or 1 (backend). *)

Record Target := mkTarget { sessionId : Z; side : nat }.

Record EndpointTokens := mkEndpointTokens {
  nextToken_ : Z;
  entries_ : gmap Z Target
}.

Definition newEndpointTokens : EndpointTokens := mkEndpointTokens 3 ∅.

Definition registerEndpoint (sessionId : Z) (side : nat) (t : EndpointTokens)
    : outcome Z * EndpointTokens :=
  if nextToken_ t =? UINT64_MAX then (Throw (OverflowError (bs "endpoint token exhausted")), t)
  else
    let token := nextToken_ t in
    (Ret token, mkEndpointTokens (nextToken_ t + 1) (<[token := mkTarget sessionId side]> (entries_ t))).

Definition findEndpoint (token : Z) (t : EndpointTokens) : option Target := entries_ t !! token.

Definition unregisterEndpoint (token : Z) (t : EndpointTokens) : EndpointTokens :=
  mkEndpointTokens (nextToken_ t) (delete token (entries_ t)).

(** ** The ring buffer as a queue of bytes *)

Definition buffer_ok (b : TcpPendingBuffer) : Prop :=
  len (bytes_ b) = kBufferLimit /\ 0 <= readOffset_ b < kBufferLimit /\
  0 <= size_ b <= kBufferLimit.

Definition content (b : TcpPendingBuffer) : bytes :=
  (fun i => bytes_ b !!! Z.to_nat ((readOffset_ b + Z.of_nat i) mod kBufferLimit)) <$>
    seq 0 (Z.to_nat (size_ b)).


Lemma kBufferLimit_pos : 0 < kBufferLimit.
Proof. unfold kBufferLimit. lia. Qed.

Lemma len_content b : buffer_ok b -> len (content b) = size_ b.
Proof.
  intros (_ & _ & Hs). unfold len, content. rewrite length_fmap, length_seq. lia.
Qed.

Lemma content_lookup b i :
  content b !! i =
  if decide (Z.of_nat i < size_ b)
  then Some (bytes_ b !!! Z.to_nat ((readOffset_ b + Z.of_nat i) mod kBufferLimit))
  else None.
Proof.
  unfold content. rewrite list_lookup_fmap. case_decide.
  - rewrite lookup_seq_lt by lia. done.
  - rewrite lookup_seq_ge by lia. done.
Qed.

Lemma mod_wrap a :
  0 <= a < 2 * kBufferLimit ->
  a mod kBufferLimit = if decide (a < kBufferLimit) then a else a - kBufferLimit.
Proof.
  intros Ha. pose proof kBufferLimit_pos. case_decide.
  - apply Z.mod_small. lia.
  - symmetry. apply (Z.mod_unique_pos _ _ 1); lia.
Qed.

Lemma buffer_lookup b i :
  buffer_ok b -> 0 <= i < kBufferLimit ->
  bytes_ b !! Z.to_nat i = Some (bytes_ b !!! Z.to_nat i).
Proof.
  intros (Hl & _) Hi. apply list_lookup_lookup_total_lt. unfold len in Hl. lia.
Qed.

(** The contiguous readable span is a prefix of the queue. *)
Lemma data_content b n :
  buffer_ok b -> 0 <= n <= readableBytes b -> data b n = take (Z.to_nat n) (content b).
Proof.
  intros Hb Hn. pose proof Hb as (Hl & Hr & Hs). unfold readableBytes in Hn. unfold data.
  apply list_eq. intros i. destruct (decide (Z.of_nat i < n)).
  - rewrite !lookup_take_lt, lookup_drop, content_lookup, decide_True by lia.
    rewrite Z.mod_small by lia.
    replace (Z.to_nat (readOffset_ b) + i)%nat with (Z.to_nat (readOffset_ b + Z.of_nat i)) by lia.
    apply buffer_lookup; [done|lia].
  - by rewrite !lookup_take_ge by lia.
Qed.

Lemma writeOffset_range b : 0 <= writeOffset b < kBufferLimit.
Proof. apply Z.mod_pos_bound, kBufferLimit_pos. Qed.

(** Storing into the writable span and committing it appends to the queue. *)
Lemma commit_content b chunk :
  buffer_ok b -> len chunk <= writableBytes b ->
  exists b', commitWrittenBytes (len chunk) (storeWritable chunk b) = (Ret tt, b') /\
    buffer_ok b' /\ content b' = content b ++ chunk.
Proof.
  intros Hb Hn. pose proof Hb as (Hl & Hr & Hs). pose proof (writeOffset_range b) as Hw.
  pose proof (len_nonneg chunk) as Hc. pose proof kBufferLimit_pos as Hpos.
  unfold commitWrittenBytes.
  assert (Hsame : writableBytes (storeWritable chunk b) = writableBytes b) by done.
  rewrite Hsame. destruct (Z.ltb_spec (writableBytes b) (len chunk)); [lia|].
  eexists. split; [done|]. unfold writableBytes, bufferRoom in Hn.
  assert (Hlen : length (bytes_ b) = Z.to_nat kBufferLimit) by (unfold len in Hl; lia).
  split.
  - unfold buffer_ok. cbn [bytes_ readOffset_ size_ storeWritable]. unfold len.
    rewrite length_inserts. fold (len (bytes_ b)). fold (len chunk).
    split; [done|]. split; [done|]. lia.
  - apply list_eq. intros i. rewrite content_lookup.
    cbn [bytes_ readOffset_ size_ storeWritable].
    destruct (decide (Z.of_nat i < size_ b)) as [Hi|Hi].
    + rewrite decide_True by lia. rewrite lookup_app_l
        by (apply Nat2Z.inj_lt; fold (len (content b)); rewrite len_content by done; lia).
      rewrite content_lookup, decide_True by done. f_equal.
      unfold writeOffset in *. rewrite mod_wrap by lia. rewrite mod_wrap in Hn |- * by lia.
      case_decide; case_decide.
      * rewrite list_lookup_total_alt, list_lookup_inserts_lt, <-list_lookup_total_alt by lia. done.
      * lia.
      * rewrite list_lookup_total_alt, list_lookup_inserts_ge, <-list_lookup_total_alt
          by (unfold len in *; lia). done.
      * rewrite list_lookup_total_alt, list_lookup_inserts_lt, <-list_lookup_total_alt by lia. done.
    + rewrite lookup_app_r
        by (apply Nat2Z.inj_le; fold (len (content b)); rewrite len_content by done; lia).
      replace (length (content b)) with (Z.to_nat (size_ b))
        by (pose proof (len_content b Hb); unfold len in *; lia).
      case_decide as Hi'.
      * unfold writeOffset in *. rewrite mod_wrap in Hn |- * by lia.
        assert (Hj : (i - Z.to_nat (size_ b) < length chunk)%nat) by (unfold len in *; lia).
        rewrite (list_lookup_lookup_total_lt chunk) by done. f_equal.
        rewrite (mod_wrap (readOffset_ b + size_ b)) by lia.
        rewrite list_lookup_total_inserts; [f_equal|..]; unfold len in *; repeat case_decide; lia.
      * symmetry. apply lookup_ge_None_2. unfold len in *. lia.
Qed.

(** Consuming drops from the front of the queue. *)
Lemma consume_content b n :
  buffer_ok b -> 0 <= n <= size_ b ->
  exists b', consumeReadableBytes n b = (Ret tt, b') /\
    buffer_ok b' /\ content b' = drop (Z.to_nat n) (content b).
Proof.
  intros Hb Hn. pose proof Hb as (Hl & Hr & Hs). pose proof kBufferLimit_pos as Hpos.
  unfold consumeReadableBytes. destruct (Z.ltb_spec (size_ b) n); [lia|].
  eexists. split; [done|]. split.
  - unfold buffer_ok. cbn [bytes_ readOffset_ size_]. split; [done|]. split; [|lia].
    case_match; [lia|]. apply Z.mod_pos_bound. lia.
  - apply list_eq. intros i. rewrite lookup_drop, !content_lookup.
    cbn [bytes_ readOffset_ size_]. repeat case_decide; try lia; [|done]. do 3 f_equal.
    destruct (Z.eqb_spec (size_ b - n) 0); [lia|]. rewrite Zplus_mod_idemp_l. f_equal. lia.
Qed.

Lemma newBuffer_ok : buffer_ok newTcpPendingBuffer /\ content newTcpPendingBuffer = [].
Proof.
  split; [|done]. unfold buffer_ok, newTcpPendingBuffer. cbn [bytes_ readOffset_ size_].
  unfold len. rewrite length_replicate. pose proof kBufferLimit_pos. lia.
Qed.

(** A queue that is not empty can be read, one that is not full can be written. *)
Lemma spans_progress b :
  buffer_ok b ->
  (0 < size_ b -> 0 < readableBytes b) /\ (size_ b < kBufferLimit -> 0 < writableBytes b).
Proof.
  intros (_ & Hr & Hs). pose proof (writeOffset_range b).
  unfold readableBytes, writableBytes, bufferRoom. lia.
Qed.

(** ** Runs of the buffer and of the token table *)

(** What the reactor does with a buffer: store received bytes in the writable
    span and commit them, or send from the readable span and consume. *)
Inductive buffer_op := Received (chunk : bytes) | Sent (n : Z).

Definition fits (op : buffer_op) (b : TcpPendingBuffer) : bool :=
  match op with
  | Received chunk => len chunk <=? writableBytes b
  | Sent n => (0 <=? n) && (n <=? readableBytes b)
  end.

Definition buffer_step (op : buffer_op) (b : TcpPendingBuffer) : bytes * (outcome unit * TcpPendingBuffer) :=
  match op with
  | Received chunk => ([], commitWrittenBytes (len chunk) (storeWritable chunk b))
  | Sent n => (data b n, consumeReadableBytes n b)
  end.

(** The bytes sent and the final buffer; an operation outside its span is not
    performed, and an exception ends the run. *)
Fixpoint buffer_run (ops : list buffer_op) (b : TcpPendingBuffer)
    : option (bytes * bytes * TcpPendingBuffer) :=
  match ops with
  | [] => Some ([], [], b)
  | op :: ops' =>
      if negb (fits op b) then buffer_run ops' b
      else
        match buffer_step op b with
        | (out, (Ret _, b')) =>
            '(received, sent, b'') ← buffer_run ops' b';
            Some (match op with Received chunk => chunk ++ received | Sent _ => received end,
                  out ++ sent, b'')
        | _ => None
        end
  end.

Lemma buffer_run_queue ops b :
  buffer_ok b ->
  exists received sent b', buffer_run ops b = Some (received, sent, b') /\
    buffer_ok b' /\ content b ++ received = sent ++ content b'.
Proof.
  revert b. induction ops as [|op ops IH]; intros b Hb; simpl.
  - exists [], [], b. rewrite app_nil_r. done.
  - destruct (fits op b) eqn:Hfit; simpl; [|by apply IH].
    destruct op as [chunk|n]; simpl in *.
    + apply Z.leb_le in Hfit.
      destruct (commit_content b chunk Hb Hfit) as (b' & -> & Hb' & Hc).
      destruct (IH b' Hb') as (rec & sent & b'' & -> & Hb'' & He). simpl.
      eexists _, _, _. split; [done|]. split; [done|]. by rewrite <-He, Hc, app_assoc.
    + bool_to_prop. pose proof (data_content b n Hb ltac:(done)) as Hd.
      destruct (consume_content b n Hb) as (b' & -> & Hb' & Hc).
      { unfold readableBytes in *. lia. }
      destruct (IH b' Hb') as (rec & sent & b'' & -> & Hb'' & He). simpl.
      eexists _, _, _. split; [done|]. split; [done|].
      rewrite <-app_assoc, <-He, Hc, Hd, app_assoc. by rewrite take_drop.
Qed.

(** C35: the ring buffer is a byte queue of 64 KiB.  However received chunks and
    (short) sends are interleaved, wrapping around the array any number of
    times, no operation within its span throws; the bytes sent followed by the
    bytes still queued are the bytes received, in order; and as long as the
    queue is not empty (not full) there is a span to send from (to receive
    into), so neither direction can get stuck. *)
Theorem TcpPendingBuffer_fifo ops :
  exists received sent b,
    buffer_run ops newTcpPendingBuffer = Some (received, sent, b) /\
    sent ++ content b = received /\ len (content b) = size_ b /\
    0 <= size_ b <= kBufferLimit /\
    (0 < size_ b -> 0 < readableBytes b) /\ (size_ b < kBufferLimit -> 0 < writableBytes b).
Proof.
  destruct newBuffer_ok as [Hb Hnil].
  destruct (buffer_run_queue ops _ Hb) as (rec & sent & b & Hrun & Hok & He).
  exists rec, sent, b. rewrite Hnil in He. split; [done|]. split; [by rewrite <-He|].
  split; [by apply len_content|]. split; [apply Hok|]. by apply spans_progress.
Qed.

(** Tokens in use were handed out before. *)
Definition tokens_ok (t : EndpointTokens) : Prop :=
  3 <= nextToken_ t <= UINT64_MAX /\
  forall token target, findEndpoint token t = Some target -> 3 <= token < nextToken_ t.

Inductive token_op := Register (sessionId : Z) (side : nat) | Unregister (token : Z).

Definition token_step (op : token_op) (t : EndpointTokens) : EndpointTokens :=
  match op with
  | Register id side => (registerEndpoint id side t).2
  | Unregister token => unregisterEndpoint token t
  end.

Lemma newEndpointTokens_ok : tokens_ok newEndpointTokens.
Proof. split; [cbn; unfold UINT64_MAX; lia|]. intros ? ?. cbn. done. Qed.

Lemma registerEndpoint_spec id side t :
  tokens_ok t ->
  let '(o, t') := registerEndpoint id side t in
  tokens_ok t' /\ nextToken_ t <= nextToken_ t' /\
  match o with
  | Ret token =>
      token = nextToken_ t /\ nextToken_ t' = token + 1 /\ findEndpoint token t = None /\
      entries_ t' = <[token := mkTarget id side]> (entries_ t)
  | Throw e => e = OverflowError (bs "endpoint token exhausted") /\ nextToken_ t = UINT64_MAX /\ t' = t
  | Diverge => False
  end.
Proof.
  intros [Hn Hf]. unfold registerEndpoint.
  destruct (Z.eqb_spec (nextToken_ t) UINT64_MAX) as [He|He]; [split_and!; try done; lia|].
  split.
  - split; [cbn; lia|]. intros token target. cbn.
    unfold findEndpoint. cbn.
    intros [[<- _]|[_ Hl]]%lookup_insert_Some; [lia|]. apply Hf in Hl. lia.
  - cbn. split; [lia|]. split_and!; try done.
    destruct (findEndpoint (nextToken_ t) t) eqn:Hl; [|done]. apply Hf in Hl. lia.
Qed.

Lemma unregisterEndpoint_ok token t : tokens_ok t -> tokens_ok (unregisterEndpoint token t).
Proof.
  intros [Hn Hf]. split; [done|]. intros token' target. unfold findEndpoint. cbn.
  intros [_ Hl]%lookup_delete_Some. by eapply Hf.
Qed.

Lemma token_step_ok op t :
  tokens_ok t -> tokens_ok (token_step op t) /\ nextToken_ t <= nextToken_ (token_step op t).
Proof.
  intros Ht. destruct op as [id side|token]; cbn.
  - pose proof (registerEndpoint_spec id side t Ht) as Hr.
    destruct (registerEndpoint id side t). by destruct Hr as (? & ? & _).
  - split; [by apply unregisterEndpoint_ok|cbn; lia].
Qed.

(** C33: a token stays dead.  Registration returns a token that no live entry
    has and that is larger than every earlier one (or throws when the 64-bit
    counter is exhausted, changing nothing); so once a token is unregistered,
    no later sequence of registrations and removals makes it resolve again, and
    an event from an old batch cannot reach a new owner. *)
Theorem endpoint_token_never_reused t id side ops token target :
  tokens_ok t -> findEndpoint token t = Some target ->
  match registerEndpoint id side t with
  | (Ret fresh, t') =>
      token < fresh /\ findEndpoint fresh t = None /\
      findEndpoint fresh t' = Some (mkTarget id side) /\ findEndpoint token t' = Some target
  | (_, t') => t' = t /\ nextToken_ t = UINT64_MAX
  end /\
  findEndpoint token (foldl (fun t op => token_step op t) (unregisterEndpoint token t) ops) = None.
Proof.
  intros Ht Hf. pose proof (proj2 Ht _ _ Hf) as Hlt. split.
  - pose proof (registerEndpoint_spec id side t Ht) as Hr.
    destruct (registerEndpoint id side t) as [[fresh|e|] t'].
    + destruct Hr as (_ & _ & -> & _ & Hn & He). split; [lia|]. split; [done|].
      unfold findEndpoint in *. rewrite He. split; [apply lookup_insert_eq|].
      rewrite lookup_insert_ne by lia. done.
    + destruct Hr as (_ & _ & _ & ? & ?). done.
    + by destruct Hr as (_ & _ & []).
  - assert (Hgen : forall ops t, tokens_ok t -> token < nextToken_ t -> findEndpoint token t = None ->
              findEndpoint token (foldl (fun t op => token_step op t) t ops) = None).
    { clear. induction ops as [|op ops IH]; intros t Ht Hlt Hn; [done|]. simpl.
      destruct (token_step_ok op t Ht) as [Ht' Hle]. apply IH; [done|lia|].
      destruct op as [id side|token']; cbn.
      - pose proof (registerEndpoint_spec id side t Ht) as Hr.
        destruct (registerEndpoint id side t) as [[fresh|e|] t']; cbn.
        + destruct Hr as (_ & _ & -> & _ & _ & He). unfold findEndpoint in *. rewrite He.
          rewrite lookup_insert_ne by lia. done.
        + by destruct Hr as (_ & _ & _ & _ & ->).
        + by destruct Hr as (_ & _ & []).
      - unfold findEndpoint in *. cbn. apply lookup_delete_None. by right. }
    apply Hgen; [by apply unregisterEndpoint_ok|cbn; lia|].
    apply lookup_delete_eq.
Qed.

Lemma endpoint_token_never_reused_witness :
  let t := (registerEndpoint 1 0 newEndpointTokens).2 in
  tokens_ok t /\ findEndpoint 3 (foldl (fun t op => token_step op t) (unregisterEndpoint 3 t)
                                   [Register 2 0; Register 2 1]) = None.
Proof.
  assert (Ht : tokens_ok (registerEndpoint 1 0 newEndpointTokens).2)
    by apply (token_step_ok (Register 1 0)), newEndpointTokens_ok.
  split; [exact Ht|].
  apply (endpoint_token_never_reused _ 5 0 [Register 2 0; Register 2 1] 3 (mkTarget 1 0) Ht).
  reflexivity.
Defined.
