(* ===== verification/TcpReactor.v ===== *)
(** * The TCP reactor (src/src/net/TcpReactor.h, TcpReactor.cpp)

    Sessions of two endpoints with a ring buffer per direction, driven by a
    level-triggered epoll loop: accept, connect, forward with backpressure,
    half-close, deadlines, listener backoff and the bounded drain on a stop
    signal.  The operating system is the class [TcpOps]; the callbacks are
    arbitrary code of the world that may throw. *)
From S2P Require Import Prelude Config Metrics TcpState.

(** ** Data *)

Inductive EpollOperation := EPOLL_CTL_ADD | EPOLL_CTL_MOD | EPOLL_CTL_DEL.

Record EndpointState := mkEndpointState {
  fd : Z;
  token : Z;
  registered : bool;
  eof : bool;
  shutdown : bool;
  paused : bool;
  interest : Z;
  deferred : Z
}.

Definition newEndpointState : EndpointState := mkEndpointState (-1) 0 false false false false 0 0.

(** [ends[2]], [pending[2]] and [sent[2]] are indexed by a side, 0 or 1. *)
Record Session := mkSession {
  id : Z;
  backend : Endpoint;
  ends : nat -> EndpointState;
  pending : nat -> TcpPendingBuffer;
  connecting : bool;
  deadline : TcpIdleDeadline;
  sent : nat -> Z
}.

(** An array with one element replaced. *)
Definition array_set {A} (i : nat) (x : A) (a : nat -> A) : nat -> A :=
  fun j => if decide (j = i) then x else a j.

Definition newSession (i : Z) (b : Endpoint) (now : Z) : Session :=
  mkSession i b (fun _ => newEndpointState) (fun _ => newTcpPendingBuffer) true
    (mkTcpIdleDeadline now) (fun _ => 0).

#[export] Instance session_inhabited : Inhabited Session :=
  populate (newSession 0 emptyEndpoint 0).

Definition set_end (i : nat) (e : EndpointState) (s : Session) : Session :=
  mkSession (id s) (backend s) (array_set i e (ends s)) (pending s) (connecting s) (deadline s)
    (sent s).
Definition set_pending (i : nat) (b : TcpPendingBuffer) (s : Session) : Session :=
  mkSession (id s) (backend s) (ends s) (array_set i b (pending s)) (connecting s) (deadline s)
    (sent s).
Definition set_connected (s : Session) : Session :=
  mkSession (id s) (backend s) (ends s) (pending s) false (deadline s) (sent s).
Definition set_deadline (d : TcpIdleDeadline) (s : Session) : Session :=
  mkSession (id s) (backend s) (ends s) (pending s) (connecting s) d (sent s).
Definition add_sent (i : nat) (n : Z) (s : Session) : Session :=
  mkSession (id s) (backend s) (ends s) (pending s) (connecting s) (deadline s)
    (array_set i (u64 (sent s i + n)) (sent s)).

Definition set_fd (x : Z) (e : EndpointState) : EndpointState :=
  mkEndpointState x (token e) (registered e) (eof e) (shutdown e) (paused e) (interest e) (deferred e).
Definition set_token (x : Z) (e : EndpointState) : EndpointState :=
  mkEndpointState (fd e) x (registered e) (eof e) (shutdown e) (paused e) (interest e) (deferred e).
Definition set_registration (r : bool) (mask : Z) (e : EndpointState) : EndpointState :=
  mkEndpointState (fd e) (token e) r (eof e) (shutdown e) (paused e) mask (deferred e).
Definition set_eof (e : EndpointState) : EndpointState :=
  mkEndpointState (fd e) (token e) (registered e) true (shutdown e) (paused e) (interest e) (deferred e).
Definition set_shutdown (e : EndpointState) : EndpointState :=
  mkEndpointState (fd e) (token e) (registered e) (eof e) true (paused e) (interest e) (deferred e).
Definition set_paused (x : bool) (e : EndpointState) : EndpointState :=
  mkEndpointState (fd e) (token e) (registered e) (eof e) (shutdown e) x (interest e) (deferred e).
Definition set_deferred (x : Z) (e : EndpointState) : EndpointState :=
  mkEndpointState (fd e) (token e) (registered e) (eof e) (shutdown e) (paused e) (interest e) x.

Record SessionEvent := mkSessionEvent {
  se_id : Z;
  se_backend : Endpoint;
  se_accepted : bool;
  se_reason : bytes;
  se_error : Z;
  se_sent : Z * Z
}.

Record Observation := mkObservation {
  ob_kind : bytes;
  ob_session : Z;
  ob_side : Z;
  ob_value : Z;
  ob_sessions : Z;
  ob_tokens : Z
}.

Record StopEvent := mkStopEvent { stop_pending : Z * Z; deadlineNs : Z }.

Record TcpReactorOptions := mkTcpReactorOptions {
  maxSessions : Z;
  connectTimeout : Z;
  idleTimeout : Z;
  drainTimeout : Z
}.

(** The default options of the header. *)
Definition defaultTcpReactorOptions : TcpReactorOptions :=
  mkTcpReactorOptions 1024 (ms 5000) (ms 60000) (ms 1000).

(** An empty [std::function] is [None]. *)
Record TcpReactorCallbacks (W : Type) := mkTcpReactorCallbacks {
  backendSelector : option (M W (option Endpoint));
  maintenanceCallback : option (M W unit);
  statisticsCallback : option (StatEvent -> M W unit);
  readyCallback : option (M W unit);
  stoppingCallback : option (StopEvent -> M W unit);
  sessionCallback : option (SessionEvent -> M W unit);
  diagnosticCallback : option (bytes -> Z -> M W unit);
  observationCallback : option (Observation -> M W unit)
}.
Arguments mkTcpReactorCallbacks {W}.
Arguments backendSelector {W}. Arguments maintenanceCallback {W}.
Arguments statisticsCallback {W}. Arguments readyCallback {W}.
Arguments stoppingCallback {W}. Arguments sessionCallback {W}.
Arguments diagnosticCallback {W}. Arguments observationCallback {W}.

(** The descriptors of the signal, epoll and listening sockets are implicit in
    the operations that use them. *)
Record TcpReactor := mkTcpReactor {
  listenerFd_ : Z;
  tokens_ : EndpointTokens;
  sessions_ : gmap Z Session;
  nextSessionId_ : Z;
  listenerRetryTime_ : Z;
  drainDeadline_ : Z;
  stopReason_ : bytes;
  listenerDeferred_ : bool;
  resourceWarning_ : bool;
  stopRequested_ : bool;
  draining_ : bool
}.

Definition set_tokens (t : EndpointTokens) (r : TcpReactor) : TcpReactor :=
  mkTcpReactor (listenerFd_ r) t (sessions_ r) (nextSessionId_ r) (listenerRetryTime_ r)
    (drainDeadline_ r) (stopReason_ r) (listenerDeferred_ r) (resourceWarning_ r)
    (stopRequested_ r) (draining_ r).
Definition set_sessions (m : gmap Z Session) (r : TcpReactor) : TcpReactor :=
  mkTcpReactor (listenerFd_ r) (tokens_ r) m (nextSessionId_ r) (listenerRetryTime_ r)
    (drainDeadline_ r) (stopReason_ r) (listenerDeferred_ r) (resourceWarning_ r)
    (stopRequested_ r) (draining_ r).
Definition set_nextSessionId (n : Z) (r : TcpReactor) : TcpReactor :=
  mkTcpReactor (listenerFd_ r) (tokens_ r) (sessions_ r) n (listenerRetryTime_ r)
    (drainDeadline_ r) (stopReason_ r) (listenerDeferred_ r) (resourceWarning_ r)
    (stopRequested_ r) (draining_ r).
Definition set_listener (f : Z) (isDeferred : bool) (retry : Z) (r : TcpReactor) : TcpReactor :=
  mkTcpReactor f (tokens_ r) (sessions_ r) (nextSessionId_ r) retry
    (drainDeadline_ r) (stopReason_ r) isDeferred (resourceWarning_ r)
    (stopRequested_ r) (draining_ r).
Definition set_warning (b : bool) (r : TcpReactor) : TcpReactor :=
  mkTcpReactor (listenerFd_ r) (tokens_ r) (sessions_ r) (nextSessionId_ r) (listenerRetryTime_ r)
    (drainDeadline_ r) (stopReason_ r) (listenerDeferred_ r) b
    (stopRequested_ r) (draining_ r).
Definition set_stop (reason : bytes) (r : TcpReactor) : TcpReactor :=
  mkTcpReactor (listenerFd_ r) (tokens_ r) (sessions_ r) (nextSessionId_ r) (listenerRetryTime_ r)
    (drainDeadline_ r) reason (listenerDeferred_ r) (resourceWarning_ r) true (draining_ r).
Definition set_draining (drainDeadline : Z) (r : TcpReactor) : TcpReactor :=
  mkTcpReactor (listenerFd_ r) (tokens_ r) (sessions_ r) (nextSessionId_ r) (listenerRetryTime_ r)
    drainDeadline (stopReason_ r) (listenerDeferred_ r) (resourceWarning_ r)
    (stopRequested_ r) true.

(** ** The operating system

    Results are a value or an errno.  [t_order] is the order in which an
    [unordered_map] with the given keys is traversed. *)
Class TcpOps (W : Type) := {
  t_now : W -> Z * W;
  t_read_signal : W -> (Z + Z) * W;
  t_epoll_wait : Z -> W -> (list (Z * Z) + Z) * W;
  t_epoll_ctl : EpollOperation -> Z -> Z -> Z -> W -> (unit + Z) * W;
  t_accept : Z -> W -> (Z + Z) * W;
  t_socket : W -> (Z + Z) * W;
  t_connect : Z -> Endpoint -> W -> (unit + Z) * W;
  t_socket_error : Z -> W -> (Z + Z) * W;
  t_send : Z -> bytes -> W -> (Z + Z) * W;
  t_recv : Z -> Z -> W -> (bytes + Z) * W;
  t_shutdown : Z -> W -> (unit + Z) * W;
  t_close : Z -> W -> W;
  (** [errno], as the calls so far have left it *)
  t_errno : W -> Z;
  t_order : list Z -> W -> list Z
}.

Definition kSignalInfoSize : Z := 128.

Section reactor.
Context {W : Type} `{TcpOps W}.
Context (callbacks_ : TcpReactorCallbacks W) (options_ : TcpReactorOptions).
(** Bound on the iterations of each loop. *)
Context (fuel : nat).

Abbreviation act := (M (TcpReactor * W)).

(** ** Reports *)

Definition reportStatEvent (k : StatKind) (n : Z) : act unit :=
  match statisticsCallback callbacks_ with
  | Some f => outside (f (mkStatEvent k n))
  | None => mret tt
  end.

Definition reportObservation (kind : bytes) (session side value : Z) : act unit :=
  match observationCallback callbacks_ with
  | Some f =>
      r <- own (fun r => r) ;;
      outside (f (mkObservation kind session side value (Z.of_nat (size (sessions_ r)))
                    (Z.of_nat (size (entries_ (tokens_ r))))))
  | None => mret tt
  end.

Definition reportDiagnostic (operation : bytes) (error : Z) : act unit :=
  match diagnosticCallback callbacks_ with
  | Some f => outside (f operation error)
  | None => mret tt
  end.

(** ** Stop signals *)

Definition pendingTotal (side : nat) (m : gmap Z Session) : Z :=
  u64 (map_fold (fun _ s total => size_ (pending s side) + total) 0 m).

(** [listenerFd_.closeFd(); listenerDeferred_ = false;] *)
Definition closeListener : act unit :=
  r <- own (fun r => r) ;;
  (if 0 <=? listenerFd_ r then effect (t_close (listenerFd_ r)) else mret tt) ;;;
  update (fun r => set_listener (-1) false (listenerRetryTime_ r) r).

Definition startDraining : act unit :=
  now <- call t_now ;;
  update (set_draining (now + drainTimeout options_)) ;;;
  r <- own (fun r => r) ;;
  deleted <- (if negb (listenerDeferred_ r)
              then call (t_epoll_ctl EPOLL_CTL_DEL (listenerFd_ r) 0 0) else mret (inl tt)) ;;
  closeListener ;;;
  r <- own (fun r => r) ;;
  reportObservation (bs "draining") 0 (-1) 0 ;;;
  (match stoppingCallback callbacks_ with
   | Some f =>
       outside (f (mkStopEvent (pendingTotal 0 (sessions_ r), pendingTotal 1 (sessions_ r))
                     (drainDeadline_ r)))
   | None => mret tt
   end) ;;;
  match deleted with
  | inl _ => mret tt
  | inr detachError => reportDiagnostic (bs "stop listener DEL") detachError
  end.

(** One read of the signal descriptor: [inr true] returns from
    [consumeStopSignals] at once, [inr false] leaves the loop. *)
Definition readStopSignal (_ : unit) : act (unit + bool) :=
  count <- call t_read_signal ;;
  match count with
  | inl n =>
      if n =? kSignalInfoSize then
        r <- own (fun r => r) ;;
        if draining_ r then
          update (set_stop (bs "service-stop-forced")) ;;;
          reportObservation (bs "stop-forced") 0 (-1) 0 ;;;
          mret (inr true)
        else startDraining ;;; mret (inl tt)
      else mthrow (SystemError EIO (bs "read signalfd"))
  | inr errno =>
      if errno =? EINTR then mret (inl tt)
      else if errno =? EAGAIN then mret (inr false)
      else mthrow (SystemError errno (bs "read signalfd"))
  end.

Definition consumeStopSignals : act bool :=
  r <- own (fun r => r) ;;
  if stopRequested_ r then mret true
  else
    forced <- mloop fuel readStopSignal tt ;;
    if forced : bool then mret true
    else
      r <- own (fun r => r) ;;
      (if draining_ r then
         now <- call t_now ;;
         mwhen (drainDeadline_ r <=? now)
           (update (set_stop (bs "service-stop-deadline")) ;;;
            reportObservation (bs "stop-deadline") 0 (-1) 0)
       else mret tt) ;;;
      own (fun r => draining_ r || stopRequested_ r).

(** ** Sessions in place *)

Definition ses (i : Z) : act Session := own (fun r => sessions_ r !!! i).
Definition upd (i : Z) (f : Session -> Session) : act unit :=
  update (fun r => set_sessions (alter f i (sessions_ r)) r).
Definition upd_end (i : Z) (sd : nat) (f : EndpointState -> EndpointState) : act unit :=
  upd i (fun s => set_end sd (f (ends s sd)) s).

(** ** Epoll registration *)

Definition updateEpollRegistration (operation : EpollOperation) (f t mask : Z) : act unit :=
  done <- call (t_epoll_ctl operation f t mask) ;;
  match done with
  | inl _ => mret tt
  | inr errno => mthrow (SystemError errno (bs "epoll_ctl"))
  end.

(** The error to report (0 for none); the endpoint is unregistered either way. *)
Definition detachEndpointFromEpoll (e : EndpointState) : act Z :=
  if registered e then
    deleted <- call (t_epoll_ctl EPOLL_CTL_DEL (fd e) 0 0) ;;
    match deleted with
    | inl _ => mret 0
    | inr errno => mret (if negb (errno =? ENOENT) && negb (errno =? EBADF) then errno else 0)
    end
  else mret 0.

Definition removeEndpoint (i : Z) (sd : nat) : act unit :=
  s <- ses i ;;
  error <- detachEndpointFromEpoll (ends s sd) ;;
  upd_end i sd (set_registration false 0) ;;;
  mwhen (negb (error =? 0))
    (reportStatEvent kError 1 ;;; reportDiagnostic (bs "epoll_ctl DEL") error).

(** ** Closing a session *)

Definition attemptCloseErrorReport : option exn -> act (option exn) :=
  attempt (reportStatEvent kError 1).
Definition attemptCloseDiagnosticReport (c : Z) : option exn -> act (option exn) :=
  attempt (reportDiagnostic (bs "epoll_ctl DEL") c).
Definition attemptSessionEventReport (s : Session) (reason : bytes) (error : Z)
    : option exn -> act (option exn) :=
  attempt
    match sessionCallback callbacks_ with
    | Some f => outside (f (mkSessionEvent (id s) (backend s) false reason error (sent s 0%nat, sent s 1%nat)))
    | None => mret tt
    end.
Definition attemptClosedStatReport : option exn -> act (option exn) :=
  attempt (reportStatEvent kClosed 1).
Definition attemptClosedObservationReport : option exn -> act (option exn) :=
  attempt (reportObservation (bs "closed") 0 (-1) 0).

Definition detachAndClose (e : EndpointState) : act Z :=
  error <- detachEndpointFromEpoll e ;;
  (if 0 <=? fd e then effect (t_close (fd e)) else mret tt) ;;;
  mret error.

Definition reportCloseError (c : Z) (failure : option exn) : act (option exn) :=
  if c =? 0 then mret failure
  else failure <- attemptCloseErrorReport failure ;; attemptCloseDiagnosticReport c failure.

Definition closeSession (i : Z) (reason : bytes) (error : Z) : act unit :=
  r <- own (fun r => r) ;;
  match sessions_ r !! i with
  | None => mret tt
  | Some s =>
      update (fun r => set_sessions (delete i (sessions_ r)) r) ;;;
      update (fun r => set_tokens
        (unregisterEndpoint (token (ends s 1%nat))
           (unregisterEndpoint (token (ends s 0%nat)) (tokens_ r))) r) ;;;
      error0 <- detachAndClose (ends s 0%nat) ;;
      error1 <- detachAndClose (ends s 1%nat) ;;
      failure <- reportCloseError error0 None ;;
      failure <- reportCloseError error1 failure ;;
      failure <- attemptSessionEventReport s reason error failure ;;
      failure <- attemptClosedStatReport failure ;;
      failure <- attemptClosedObservationReport failure ;;
      match failure with
      | Some e => mthrow e
      | None => mret tt
      end
  end.

(** [while (!sessions_.empty())]: every turn removes a session, so the number
    of sessions at the start bounds the turns. *)
Fixpoint closeAllSessionsLoop (turns : nat) (reason : bytes) (failure : option exn) : act unit :=
  r <- own (fun r => r) ;;
  w <- world ;;
  match t_order (map_to_list (sessions_ r)).*1 w with
  | [] => match failure with Some e => mthrow e | None => mret tt end
  | i :: _ =>
      match turns with
      | O => mdiverge
      | S turns' =>
          failure <- attempt (closeSession i reason 0) failure ;;
          closeAllSessionsLoop turns' reason failure
      end
  end.

Definition closeAllSessions (reason : bytes) : act unit :=
  r <- own (fun r => r) ;;
  closeAllSessionsLoop (size (sessions_ r)) reason None.

(** ** Connecting, interests and forwarding *)

Definition readSocketError (f : Z) : act Z :=
  result <- call (t_socket_error f) ;;
  match result with
  | inl error => mret error
  | inr errno => mthrow (SessionFailure (bs "getsockopt SO_ERROR") errno)
  end.

(** The events to wait for on a side; 0 means that the side is removed. *)
Definition interestMask (draining : bool) (s : Session) (sd : nat) : Z :=
  let e := ends s sd in
  if draining then
    (if negb (size_ (pending s (1 - sd)) =? 0) then EPOLLOUT else 0)
  else if connecting s then
    (if bool_decide (sd = 1%nat) then EPOLLOUT else EPOLLRDHUP)
  else
    Z.lor (if negb (eof e) && negb (paused e) then Z.lor EPOLLIN EPOLLRDHUP else 0)
      (if negb (size_ (pending s (1 - sd)) =? 0) then EPOLLOUT else 0).

Definition updateSideInterest (i : Z) (sd : nat) : act unit :=
  s <- ses i ;;
  now <- call t_now ;;
  if now <? deferred (ends s sd) then removeEndpoint i sd
  else
    r <- own (fun r => r) ;;
    let mask := interestMask (draining_ r) s sd in
    mwhen (paused (ends s sd)) (reportObservation (bs "read-suspended") i (Z.of_nat sd) mask) ;;;
    if mask =? 0 then removeEndpoint i sd
    else
      let e := ends s sd in
      if registered e && (interest e =? mask) then mret tt
      else
        done <- call (t_epoll_ctl (if registered e then EPOLL_CTL_MOD else EPOLL_CTL_ADD)
                        (fd e) (token e) mask) ;;
        match done with
        | inr errno => mthrow (SessionFailure (bs "epoll_ctl session") errno)
        | inl _ =>
            upd_end i sd (set_registration true mask) ;;;
            reportObservation (bs "interest") i (Z.of_nat sd) mask
        end.

Definition updateSessionInterests (i : Z) : act unit :=
  updateSideInterest i 0 ;;; updateSideInterest i 1.

(** [session.ends[side].token = tokens_.registerEndpoint(id, side)] *)
Definition registerSide (i : Z) (sd : nat) : act unit :=
  r <- own (fun r => r) ;;
  let '(result, t) := registerEndpoint i sd (tokens_ r) in
  update (set_tokens t) ;;;
  fresh <- lift_outcome result ;;
  upd_end i sd (set_token fresh).

Definition connectSessionBackend (i : Z) : act unit :=
  sock <- call t_socket ;;
  match sock with
  | inr errno => mthrow (SessionFailure (bs "socket backend") errno)
  | inl f =>
      upd_end i 1 (set_fd f) ;;;
      mfor [0%nat; 1%nat] (registerSide i) ;;;
      s <- ses i ;;
      connected <- call (t_connect f (backend s)) ;;
      match connected with
      | inl _ =>
          upd i set_connected ;;;
          now <- call t_now ;;
          upd i (set_deadline (mkTcpIdleDeadline now)) ;;;
          reportObservation (bs "connect-immediate") i (-1) 0
      | inr errno =>
          if errno =? EINPROGRESS then reportObservation (bs "connect-inprogress") i (-1) 0
          else mthrow (SessionFailure (bs "connect") errno)
      end ;;;
      updateSessionInterests i
  end.

(** After send(2) took [sentBytes] of the [size] offered. *)
Definition recordSentBytes (i : Z) (source : nat) (size budget sentBytes : Z) : act (Z + Z) :=
  mwhen (sentBytes <? size)
    (reportObservation (bs "short-send") i (Z.of_nat source) sentBytes) ;;;
  s <- ses i ;;
  let '(consumed, buffer) := consumeReadableBytes sentBytes (pending s source) in
  upd i (set_pending source buffer) ;;;
  lift_outcome consumed ;;;
  upd i (add_sent source sentBytes) ;;;
  reportStatEvent (if bool_decide (source = 0%nat) then kBytesC2b else kBytesB2c) sentBytes ;;;
  now <- call t_now ;;
  upd i (fun s => set_deadline (recordIoProgress now sentBytes (deadline s)) s) ;;;
  mret (inl (budget - sentBytes)).

(** One turn of the send loop; [inl] carries the remaining budget. *)
Definition sendTurn (i : Z) (source : nat) (budget : Z) : act (Z + Z) :=
  s <- ses i ;;
  let buffer := pending s source in
  if (size_ buffer =? 0) || (budget =? 0) then mret (inr budget)
  else
    consumeStopSignals ;;;
    r <- own (fun r => r) ;;
    if stopRequested_ r then mret (inr budget)
    else
      let size := Z.min (readableBytes buffer) budget in
      result <- call (t_send (fd (ends s (1 - source))) (data buffer size)) ;;
      match result with
      | inr errno =>
          if errno =? EINTR then mret (inl budget)
          else if (errno =? EAGAIN) || (errno =? EWOULDBLOCK) then
            reportObservation (bs "send-eagain") i (Z.of_nat source) 0 ;;; mret (inr budget)
          else mthrow (SessionFailure (bs "send") errno)
      | inl sentBytes =>
          if sentBytes =? 0 then mthrow (SessionFailure (bs "send zero") EIO)
          else recordSentBytes i source size budget sentBytes
      end.

Definition writeBufferedDirection (i : Z) (source : nat) (budget : Z) : act Z :=
  budget <- mloop fuel (sendTurn i source) budget ;;
  r <- own (fun r => r) ;;
  s <- ses i ;;
  mwhen (negb (draining_ r) && paused (ends s source) && (size_ (pending s source) <=? kLowWater))
    (upd_end i source (set_paused false) ;;;
     reportObservation (bs "resume") i (Z.of_nat source) (size_ (pending s source))) ;;;
  mret budget.

(** After recv(2) stored [chunk], which is not empty, in the writable span. *)
Definition recordReceivedBytes (i : Z) (source : nat) (budget : Z) (chunk : bytes) : act (Z + unit) :=
  s <- ses i ;;
  let '(committed, buffer) :=
    commitWrittenBytes (len chunk) (storeWritable chunk (pending s source)) in
  upd i (set_pending source buffer) ;;;
  lift_outcome committed ;;;
  now <- call t_now ;;
  upd i (fun s => set_deadline (recordIoProgress now (len chunk) (deadline s)) s) ;;;
  s <- ses i ;;
  reportObservation (bs "buffer") i (Z.of_nat source) (size_ (pending s source)) ;;;
  mwhen (size_ (pending s source) =? kBufferLimit)
    (upd_end i source (set_paused true) ;;;
     reportObservation (bs "pause") i (Z.of_nat source) (size_ (pending s source))) ;;;
  mret (inl (budget - len chunk)).

(** One turn of the receive loop. *)
Definition receiveTurn (i : Z) (source : nat) (budget : Z) : act (Z + unit) :=
  s <- ses i ;;
  if eof (ends s source) || paused (ends s source) || (budget =? 0) then mret (inr tt)
  else
    stop <- consumeStopSignals ;;
    if stop : bool then mret (inr tt)
    else
      let size := Z.min (writableBytes (pending s source)) budget in
      if size =? 0 then mret (inr tt)
      else
        result <- call (t_recv (fd (ends s source)) size) ;;
        match result with
        | inr errno =>
            if errno =? EINTR then mret (inl budget)
            else if (errno =? EAGAIN) || (errno =? EWOULDBLOCK) then mret (inr tt)
            else mthrow (SessionFailure (bs "recv") errno)
        | inl [] =>
            upd_end i source set_eof ;;;
            reportObservation (bs "eof") i (Z.of_nat source) 0 ;;;
            mret (inr tt)
        | inl chunk => recordReceivedBytes i source budget chunk
        end.

Definition readSessionDirection (i : Z) (source : nat) : act unit :=
  mloop fuel (receiveTurn i source) kBufferLimit.

(** [errno] is read again after other calls. *)
Definition currentErrno : act Z := w <- world ;; mret (t_errno w).

(** [do shutdown while (EINTR && !consumeStopSignals())] *)
Definition shutdownTurn (target : EndpointState) (_ : unit) : act (unit + (unit + Z)) :=
  result <- call (t_shutdown (fd target)) ;;
  match result with
  | inl _ => mret (inr (inl tt))
  | inr errno =>
      if errno =? EINTR then
        stop <- consumeStopSignals ;;
        if stop : bool then errno <- currentErrno ;; mret (inr (inr errno)) else mret (inl tt)
      else mret (inr (inr errno))
  end.

Definition propagateEof (i : Z) (sd : nat) : act unit :=
  s <- ses i ;;
  let target := ends s (1 - sd) in
  if eof (ends s sd) && (size_ (pending s sd) =? 0) && negb (shutdown target) then
    result <- mloop fuel (shutdownTurn target) tt ;;
    match result with
    | inr errno => mthrow (SessionFailure (bs "shutdown SHUT_WR") errno)
    | inl _ =>
        upd_end i (1 - sd) set_shutdown ;;;
        reportObservation (bs "shutdown") i (1 - Z.of_nat sd) 0
    end
  else mret tt.

(** Whether the session is finished. *)
Definition advanceSessionIo (i : Z) : act bool :=
  budget0 <- writeBufferedDirection i 0 kBufferLimit ;;
  budget1 <- writeBufferedDirection i 1 kBufferLimit ;;
  readSessionDirection i 0 ;;;
  readSessionDirection i 1 ;;;
  writeBufferedDirection i 0 budget0 ;;;
  writeBufferedDirection i 1 budget1 ;;;
  r <- own (fun r => r) ;;
  if draining_ r then
    s <- ses i ;;
    mret ((size_ (pending s 0%nat) =? 0) && (size_ (pending s 1%nat) =? 0))
  else
    propagateEof i 0 ;;;
    propagateEof i 1 ;;;
    s <- ses i ;;
    mret (eof (ends s 0%nat) && eof (ends s 1%nat) &&
          shutdown (ends s 0%nat) && shutdown (ends s 1%nat)).

(** [catch (const SessionFailure&)] around the work on a session. *)
Definition closeOnFailure (i : Z) (m : act unit) : act unit :=
  mcatch m
    (fun e => match e with
              | SessionFailure operation error =>
                  reportStatEvent kError 1 ;;; closeSession i operation error
              | e => mthrow e
              end).

Definition finishReason (r : TcpReactor) : bytes :=
  if stopRequested_ r then stopReason_ r
  else if draining_ r then bs "service-stop-drained" else bs "drained".

(** ** Events *)

(** The socket error of a finishing connection or of EPOLLERR. *)
Definition checkEndpointError (i : Z) (sd : nat) (events : Z) : act unit :=
  s <- ses i ;;
  let connectingEvent :=
    connecting s && bool_decide (sd = 1%nat) &&
    has_any events (Z.lor EPOLLOUT (Z.lor EPOLLERR EPOLLHUP)) in
  if connectingEvent || has_any events EPOLLERR then
    reportObservation (bs "error-event") i (Z.of_nat sd) events ;;;
    error <- readSocketError (fd (ends s sd)) ;;
    reportObservation (bs "so-error") i (Z.of_nat sd) error ;;;
    if negb (error =? 0) then mthrow (SessionFailure (bs "SO_ERROR") error)
    else
      mwhen connectingEvent
        (upd i set_connected ;;;
         now <- call t_now ;;
         upd i (set_deadline (mkTcpIdleDeadline now)))
  else mret tt.

(** Without progress on a hang-up the endpoint is suspended for 100 ms. *)
Definition suspendHungUp (i : Z) (sd : nat) (events before : Z) : act unit :=
  s <- ses i ;;
  mwhen (has_any events (Z.lor EPOLLHUP EPOLLRDHUP) && (lastIoTime (deadline s) =? before))
    (now <- call t_now ;;
     upd_end i sd (set_deferred (now + ms 100)) ;;;
     reportObservation (bs "hup-defer") i (Z.of_nat sd) 0 ;;;
     removeEndpoint i sd).

Definition advanceIfConnected (i : Z) : act bool :=
  s <- ses i ;;
  if connecting s then mret false else advanceSessionIo i.

Definition dispatchEndpointEvent (t events : Z) : act unit :=
  r <- own (fun r => r) ;;
  match findEndpoint t (tokens_ r) with
  | None => reportObservation (bs "stale-token") 0 (-1) 0
  | Some target =>
      let i := sessionId target in
      let sd := side target in
      closeOnFailure i
        (s <- ses i ;;
         if draining_ r && connecting s then
           closeSession i (bs "service-stop-connecting") 0
         else
           checkEndpointError i sd events ;;;
           s <- ses i ;;
           let before := lastIoTime (deadline s) in
           finished <- advanceIfConnected i ;;
           if finished : bool then
             r <- own (fun r => r) ;;
             closeSession i (finishReason r) 0
           else
             suspendHungUp i sd events before ;;;
             updateSessionInterests i)
  end.

(** ** Deadlines *)

Definition clearDeferred (i : Z) (now : Z) (sd : nat) : act bool :=
  s <- ses i ;;
  if negb (deferred (ends s sd) =? 0) && (deferred (ends s sd) <=? now) then
    upd_end i sd (set_deferred 0) ;;; mret true
  else mret false.

(** The body of the loop over the session ids; [inr] returns. *)
Definition processSessionDeadline (now : Z) (i : Z) : act unit :=
  s <- ses i ;;
  if idleExpired (deadline s) now
       (if connecting s then connectTimeout options_ else idleTimeout options_)
  then
    reportStatEvent kTimeout 1 ;;;
    closeSession i (if connecting s then bs "connect-timeout" else bs "idle-timeout") ETIMEDOUT
  else
    retry0 <- clearDeferred i now 0 ;;
    retry1 <- clearDeferred i now 1 ;;
    mwhen (retry0 || retry1)
      (closeOnFailure i
         (reportObservation (bs "hup-retry") i (-1) 0 ;;;
          finished <- advanceIfConnected i ;;
          if finished : bool then
            r <- own (fun r => r) ;;
            closeSession i (finishReason r) 0
          else updateSessionInterests i)).

Fixpoint processSessionIds (now : Z) (ids : list Z) : act unit :=
  match ids with
  | [] => mret tt
  | i :: ids' =>
      r <- own (fun r => r) ;;
      if draining_ r || stopRequested_ r then mret tt
      else processSessionDeadline now i ;;; processSessionIds now ids'
  end.

Definition sessionIds : act (list Z) :=
  r <- own (fun r => r) ;;
  w <- world ;;
  mret (t_order (map_to_list (sessions_ r)).*1 w).

Definition processSessionDeadlines : act unit :=
  r <- own (fun r => r) ;;
  if draining_ r || stopRequested_ r then mret tt
  else
    now <- call t_now ;;
    (if listenerDeferred_ r && (listenerRetryTime_ r <=? now) then
       updateEpollRegistration EPOLL_CTL_ADD (listenerFd_ r) 1 EPOLLIN ;;;
       update (fun r => set_listener (listenerFd_ r) false (listenerRetryTime_ r) r)
     else mret tt) ;;;
    ids <- sessionIds ;;
    processSessionIds now ids.

(** ** The drain *)

Definition resumeDeferred (i : Z) (sd : nat) : act unit :=
  now <- call t_now ;;
  s <- ses i ;;
  mwhen (deferred (ends s sd) <=? now) (upd_end i sd (set_deferred 0)).

(** The sessions are visited in the map's order; a turn removes at most the
    session it visits, so the order of the others does not change. *)
Fixpoint advanceStopDrainIds (ids : list Z) : act unit :=
  match ids with
  | [] => mret tt
  | i :: ids' =>
      consumeStopSignals ;;;
      r <- own (fun r => r) ;;
      if stopRequested_ r then mret tt
      else
        s <- ses i ;;
        (if connecting s then closeSession i (bs "service-stop-connecting") 0
         else
           resumeDeferred i 0 ;;;
           resumeDeferred i 1 ;;;
           s <- ses i ;;
           dispatchEndpointEvent (token (ends s 0%nat)) 0) ;;;
        advanceStopDrainIds ids'
  end.

Definition advanceStopDrain : act unit :=
  ids <- sessionIds ;;
  advanceStopDrainIds ids.

(** ** Accepting *)

Definition isTransientAcceptError (errno : Z) : bool :=
  (errno =? ECONNABORTED) || (errno =? EPROTO) || (errno =? ENETDOWN) || (errno =? ENOPROTOOPT) ||
  (errno =? EHOSTDOWN) || (errno =? ENONET) || (errno =? EHOSTUNREACH) || (errno =? EOPNOTSUPP) ||
  (errno =? ENETUNREACH).

Definition isResourceError (errno : Z) : bool :=
  (errno =? EMFILE) || (errno =? ENFILE) || (errno =? ENOBUFS) || (errno =? ENOMEM).

Definition backOffListener : act unit :=
  reportStatEvent kError 1 ;;;
  r <- own (fun r => r) ;;
  (if negb (resourceWarning_ r) then
     match diagnosticCallback callbacks_ with
     | Some f => errno <- currentErrno ;; outside (f (bs "accept4 resource backoff") errno)
     | None => badFunctionCall
     end
   else mret tt) ;;;
  update (set_warning true) ;;;
  updateEpollRegistration EPOLL_CTL_DEL (listenerFd_ r) 1 0 ;;;
  now <- call t_now ;;
  update (fun r => set_listener (listenerFd_ r) true (now + ms 100) r) ;;;
  reportObservation (bs "listener-backoff") 0 (-1) 0.

(** [front] is an [Fd] on the stack: leaving the scope closes it, unless it was
    moved into the session. *)
Definition closingFront (front : Z) {A} (m : act A) : act A :=
  fun s => let '(o, (r, w)) := m s in (o, (r, t_close front w)).
Definition closingFrontOnThrow (front : Z) {A} (m : act A) : act A :=
  mcatch m (fun e => effect (t_close front) ;;; mthrow e).

Definition addSession (front : Z) (b : Endpoint) : act unit :=
  r <- own (fun r => r) ;;
  let i := nextSessionId_ r in
  now <- call t_now ;;
  update (set_nextSessionId (u64 (i + 1))) ;;;
  update (fun r => set_sessions
    (<[i := set_end 0 (set_fd front newEndpointState) (newSession i b now)]> (sessions_ r)) r) ;;;
  reportStatEvent kCreated 1 ;;;
  (match sessionCallback callbacks_ with
   | Some f => outside (f (mkSessionEvent i b true (bs "accepted") 0 (0, 0)))
   | None => badFunctionCall
   end) ;;;
  closeOnFailure i (connectSessionBackend i).

Definition admitClient (front : Z) : act unit :=
  update (set_warning false) ;;;
  r <- own (fun r => r) ;;
  if maxSessions options_ <=? Z.of_nat (size (sessions_ r)) then
    closingFront front
      (reportStatEvent kRejected 1 ;;; reportObservation (bs "capacity-reject") 0 (-1) 0)
  else
    choice <- closingFrontOnThrow front
      match backendSelector callbacks_ with
      | Some f => outside f
      | None => badFunctionCall
      end ;;
    match choice with
    | None => closingFront front (reportStatEvent kRejected 1)
    | Some b => addSession front b
    end.

(** One turn of the accept loop; the counter does not advance on EINTR. *)
Definition acceptTurn (sessionAttempt : Z) : act (Z + unit) :=
  if 64 <=? sessionAttempt then mret (inr tt)
  else
    stop <- consumeStopSignals ;;
    if stop : bool then mret (inr tt)
    else
      r <- own (fun r => r) ;;
      accepted <- call (t_accept (listenerFd_ r)) ;;
      match accepted with
      | inr errno =>
          if (errno =? EAGAIN) || (errno =? EWOULDBLOCK) then mret (inr tt)
          else if errno =? EINTR then mret (inl sessionAttempt)
          else if isTransientAcceptError errno then
            reportStatEvent kError 1 ;;; mret (inl (sessionAttempt + 1))
          else if isResourceError errno then
            backOffListener ;;; mret (inr tt)
          else mthrow (SystemError errno (bs "accept4"))
      | inl front => admitClient front ;;; mret (inl (sessionAttempt + 1))
      end.

Definition acceptClientSessions : act unit := mloop fuel acceptTurn 0.

(** ** The event loop *)

Fixpoint dispatchTcpReadyEvents (events : list (Z * Z)) : act unit :=
  match events with
  | [] => mret tt
  | (t, mask) :: events' =>
      consumeStopSignals ;;;
      r <- own (fun r => r) ;;
      if stopRequested_ r then mret tt
      else
        (if t =? 1 then
           if draining_ r then mret tt
           else if has_any mask (Z.lor EPOLLERR EPOLLHUP) then
             mthrow (SystemError EIO (bs "listener epoll"))
           else
             now <- call t_now ;;
             mwhen (listenerRetryTime_ r <=? now) acceptClientSessions
         else mwhen (negb (t =? 2)) (dispatchEndpointEvent t mask)) ;;;
        dispatchTcpReadyEvents events'
  end.

(** [ceil<milliseconds>(left)] clamped to [0, 100]. *)
Definition pollTimeout : act Z :=
  r <- own (fun r => r) ;;
  if draining_ r then
    now <- call t_now ;;
    mret (Z.max 0 (Z.min (- ((now - drainDeadline_ r) / 1000000)) 100))
  else mret 100.

Definition eventLoopTurn (_ : unit) : act (unit + Z) :=
  consumeStopSignals ;;;
  r <- own (fun r => r) ;;
  if stopRequested_ r then
    closeAllSessions (stopReason_ r) ;;; mret (inr 0)
  else
    (if draining_ r then advanceStopDrain else processSessionDeadlines) ;;;
    r' <- own (fun r => r) ;;
    if draining_ r && bool_decide (size (sessions_ r') = 0%nat) then mret (inr 0)
    else
      pollTimeoutMs <- pollTimeout ;;
      reportObservation (bs "poll") 0 (-1) pollTimeoutMs ;;;
      polled <- call (t_epoll_wait pollTimeoutMs) ;;
      match polled with
      | inr errno =>
          if errno =? EINTR then mret (inl tt)
          else mthrow (SystemError errno (bs "epoll_wait"))
      | inl events =>
          consumeStopSignals ;;;
          r <- own (fun r => r) ;;
          if stopRequested_ r then mret (inl tt)
          else
            (if draining_ r then mret tt
             else
               processSessionDeadlines ;;;
               r <- own (fun r => r) ;;
               match maintenanceCallback callbacks_ with
               | Some f => mwhen (negb (draining_ r)) (outside f)
               | None => mret tt
               end) ;;;
            dispatchTcpReadyEvents events ;;;
            mret (inl tt)
      end.

(** [turns] bounds the observed part of the endless loop. *)
Definition runTcpEventLoop (turns : nat) : act Z :=
  (match readyCallback callbacks_ with
   | Some f => outside f
   | None => badFunctionCall
   end) ;;;
  mloop turns eventLoopTurn tt.

Definition initialTcpReactor (listenerFd : Z) : TcpReactor :=
  mkTcpReactor listenerFd newEndpointTokens ∅ 1 0 0 (bs "service-stop-deadline")
    false false false false.
End reactor.

(** ** Construction and destruction *)

(** The calls of the constructor and of [SignalMask]. *)
Class TcpSetupOps (W : Type) := {
  ts_block_signals : W -> (unit + Z) * W;
  ts_restore_signals : W -> W;
  ts_signalfd : W -> (Z + Z) * W;
  ts_epoll_create : W -> (Z + Z) * W;
  ts_socket : W -> (Z + Z) * W;
  ts_reuse_address : Z -> W -> (unit + Z) * W;
  ts_bind : Z -> Endpoint -> W -> (unit + Z) * W;
  ts_listen : Z -> W -> (unit + Z) * W
}.

Section setup.
Context {W : Type} `{TcpOps W} `{TcpSetupOps W}.
Context (callbacks_ : TcpReactorCallbacks W) (options_ : TcpReactorOptions) (fuel : nat).

(** The descriptor of an [Fd] member: -1 after a failed call. *)
Definition member (result : Z + Z) : Z := match result with inl f => f | inr _ => -1 end.

Definition closeMember (f : Z) (w : W) : W := if 0 <=? f then t_close f w else w.

(** Members are destroyed in reverse order. *)
Definition destroyMembers (signalFd epollFd listenerFd : Z) (w : W) : W :=
  ts_restore_signals (closeMember signalFd (closeMember epollFd (closeMember listenerFd w))).

(** [errno] after the three member initialisers: the last failure's. *)
Definition lastErrno (s e l : Z + Z) : Z :=
  match l, e, s with
  | inr errno, _, _ => errno
  | _, inr errno, _ => errno
  | _, _, inr errno => errno
  | _, _, _ => 0
  end.

(** The body of the constructor. *)
Definition setUpListener (endpoint : Endpoint) (s e l : Z + Z) : M W unit :=
  if member s <? 0 then mthrow (SystemError (lastErrno s e l) (bs "signalfd"))
  else if member e <? 0 then mthrow (SystemError (lastErrno s e l) (bs "epoll_create1"))
  else if member l <? 0 then mthrow (SystemError (lastErrno s e l) (bs "socket listener"))
  else
    orThrow (bs "setsockopt SO_REUSEADDR") (ts_reuse_address (member l)) ;;;
    orThrow (bs "bind") (ts_bind (member l) endpoint) ;;;
    orThrow (bs "listen") (ts_listen (member l)) ;;;
    orThrow (bs "epoll_ctl") (t_epoll_ctl EPOLL_CTL_ADD (member l) 1 EPOLLIN) ;;;
    orThrow (bs "epoll_ctl") (t_epoll_ctl EPOLL_CTL_ADD (member s) 2 EPOLLIN).

(** The destructor closes what is left and swallows every exception. *)
Definition destroyTcpReactor : M (TcpReactor * W) unit :=
  mcatch (closeAllSessions callbacks_ (bs "service-error")) (fun _ => mret tt).

(** The constructed reactor runs until the loop ends, normally or not, and is
    then destroyed; [turns] bounds the observed part of the loop. *)
Definition runReactorObject (turns : nat) (listenerFd : Z) : M W Z :=
  fun w =>
    let '(o, s) := runTcpEventLoop callbacks_ options_ fuel turns (initialTcpReactor listenerFd, w) in
    match o with
    | Diverge => (Diverge, s.2)
    | o => let '(_, (r, w')) := destroyTcpReactor s in (o, closeMember (listenerFd_ r) w')
    end.

Definition INT_MAX : Z := 2147483647.

Definition runTcpReactor (turns : nat) (listen : Endpoint) : M W Z :=
  if (drainTimeout options_ <=? 0) || (ms INT_MAX <? drainTimeout options_) then
    mthrow (InvalidArgument (bs "invalid TCP drain timeout"))
  else
    orThrow (bs "sigprocmask") ts_block_signals ;;;
    s <- mworld ts_signalfd ;;
    e <- mworld ts_epoll_create ;;
    l <- mworld ts_socket ;;
    mcatch (setUpListener listen s e l)
      (fun x => mmodify (destroyMembers (member s) (member e) (member l)) ;;; mthrow x) ;;;
    mfinally (runReactorObject turns (member l)) (destroyMembers (member s) (member e) (-1)).
End setup.
