(* ===== verification/TcpReactorSafety.v ===== *)
(** * Safety of the TCP reactor

    The documented behaviour of the kernel and of the callbacks as classes of
    laws, the invariant of the reactor (byte streams, descriptors, tokens,
    capacity, session accounting, half-close), its preservation by every
    operation and the properties of the event loop. *)
From S2P Require Import Prelude Config Metrics TcpState TcpReactor.

(** ** The kernel

    Ghost state: [conn w] maps each descriptor that accept(2) or socket(2) gave
    to the reactor and that is not closed to the bytes received from it and the
    bytes sent to it; [eintr_left] bounds the interruptions by signals still to
    come, [accepts_left] the connections still to come; [live] is the number of
    sessions reported as created and not yet as closed; [clock] is the time that
    has passed, which no reading of the clock precedes; [owner_ok] is what the
    owner of the callbacks needs of the world, which the reactor's calls keep. *)
Class TcpGhost (W : Type) := {
  conn : W -> gmap Z (bytes * bytes);
  eintr_left : W -> nat;
  accepts_left : W -> nat;
  live : W -> Z;
  clock : W -> Z;
  owner_ok : W -> Prop
}.

Definition bounds_shrink {W} `{TcpGhost W} (w w' : W) : Prop :=
  (eintr_left w' <= eintr_left w)%nat /\ (accepts_left w' <= accepts_left w)%nat /\
  clock w <= clock w' /\ (owner_ok w -> owner_ok w').

(** Nothing but the outside of the reactor's descriptors changed. *)
Definition quiet {W} `{TcpGhost W} (w w' : W) : Prop :=
  conn w' = conn w /\ live w' = live w /\ bounds_shrink w w'.

(** An interrupted call, and any other failed call. *)
Definition failed {W} `{TcpGhost W} (errno : Z) (w w' : W) : Prop :=
  quiet w w' /\ (errno = EINTR -> (eintr_left w' < eintr_left w)%nat).

(** A new descriptor: not one that is still open. *)
Definition opened {W} `{TcpGhost W} (f : Z) (w w' : W) : Prop :=
  0 <= f /\ conn w !! f = None /\ conn w' = <[f := ([], [])]> (conn w) /\
  live w' = live w /\ bounds_shrink w w'.

Class TcpKernel (W : Type) `{TcpOps W} `{TcpGhost W} := {
  k_now : forall w, quiet w (t_now w).2;
  k_clock : forall w, clock w <= (t_now w).1;
  k_read_signal : forall w,
    match t_read_signal w with (inl _, w') => quiet w w' | (inr e, w') => failed e w w' end;
  k_epoll_wait : forall ms w, quiet w (t_epoll_wait ms w).2;
  k_epoll_ctl : forall op f t m w, quiet w (t_epoll_ctl op f t m w).2;
  k_accept : forall l w,
    match t_accept l w with
    | (inl f, w') => opened f w w' /\ (accepts_left w' < accepts_left w)%nat
    | (inr e, w') => failed e w w'
    end;
  k_socket : forall w,
    match t_socket w with (inl f, w') => opened f w w' | (inr e, w') => failed e w w' end;
  k_connect : forall f e w, quiet w (t_connect f e w).2;
  k_socket_error : forall f w, quiet w (t_socket_error f w).2;
  k_shutdown : forall f w,
    match t_shutdown f w with (inl _, w') => quiet w w' | (inr e, w') => failed e w w' end;
  k_send : forall f d w,
    match t_send f d w with
    | (inl n, w') =>
        is_Some (conn w !! f) /\ 0 <= n <= len d /\
        conn w' = alter (fun p => (p.1, p.2 ++ take (Z.to_nat n) d)) f (conn w) /\
        live w' = live w /\ bounds_shrink w w'
    | (inr e, w') => failed e w w'
    end;
  k_recv : forall f limit w,
    match t_recv f limit w with
    | (inl chunk, w') =>
        is_Some (conn w !! f) /\ len chunk <= limit /\
        conn w' = alter (fun p => (p.1 ++ chunk, p.2)) f (conn w) /\
        live w' = live w /\ bounds_shrink w w'
    | (inr e, w') => failed e w w'
    end;
  k_close : forall f w, is_Some (conn w !! f) ->
    conn (t_close f w) = delete f (conn w) /\ live (t_close f w) = live w /\
    bounds_shrink w (t_close f w);
  k_order : forall l w, t_order l w ≡ₚ l
}.

(** ** The callbacks: they return or throw, and leave the reactor's descriptors
    alone; the statistics callback counts every created and closed session, as
    long as the number of live sessions stays between 0 and [limit]. *)
Definition quiet_call {W A} `{TcpGhost W} (m : M W A) : Prop :=
  forall w, owner_ok w -> (m w).1 <> Diverge /\ quiet w (m w).2.

Record callbacks_ok {W} `{TcpGhost W} (limit : Z) (c : TcpReactorCallbacks W) : Prop := {
  cb_selector : optional quiet_call (backendSelector c);
  cb_maintenance : optional quiet_call (maintenanceCallback c);
  cb_statistics : optional
    (fun f => forall e w, owner_ok w -> countable_event limit e (live w) ->
       (f e w).1 <> Diverge /\ conn (f e w).2 = conn w /\
       live (f e w).2 = live w + live_change e /\ bounds_shrink w (f e w).2)
    (statisticsCallback c);
  cb_ready : optional quiet_call (readyCallback c);
  cb_stopping : optional (fun f => forall e, quiet_call (f e)) (stoppingCallback c);
  cb_session : optional (fun f => forall e, quiet_call (f e)) (sessionCallback c);
  cb_diagnostic : optional (fun f => forall o e, quiet_call (f o e)) (diagnosticCallback c);
  (** The internal observations do not throw (they are unset in the product). *)
  cb_observation : optional
    (fun f => forall o w, owner_ok w -> (f o w).1 = Ret tt /\ quiet w (f o w).2)
    (observationCallback c)
}.

(** ** The invariant *)

#[local] Set Default Proof Using "All".

Section invariant.
Context {W : Type} `{TcpKernel W}.
Context (callbacks_ : TcpReactorCallbacks W) (options_ : TcpReactorOptions) (fuel : nat).

Definition received_from (w : W) (f : Z) : bytes :=
  match conn w !! f with Some p => p.1 | None => [] end.
Definition sent_to (w : W) (f : Z) : bytes :=
  match conn w !! f with Some p => p.2 | None => [] end.

Definition side_ok (sd : nat) : Prop := (sd < 2)%nat.

Record session_ok (w : W) (i : Z) (s : Session) : Prop := {
  so_id : id s = i;
  so_buffer : forall sd, buffer_ok (pending s sd);
  so_fd : forall sd, side_ok sd ->
    fd (ends s sd) = -1 \/ 0 <= fd (ends s sd) /\ is_Some (conn w !! fd (ends s sd));
  (** The bytes received from a side are the bytes sent to the other side
      followed by the bytes still queued. *)
  so_stream : forall sd, side_ok sd ->
    received_from w (fd (ends s sd)) =
      sent_to w (fd (ends s (1 - sd)%nat)) ++ content (pending s sd);
  so_sent : forall sd, side_ok sd ->
    sent s sd = u64 (len (sent_to w (fd (ends s (1 - sd)%nat))));
  (** A side is shut down for writing only after the end of the other side's
      stream, when everything was forwarded. *)
  so_half_close : forall sd, side_ok sd -> shutdown (ends s sd) = true ->
    eof (ends s (1 - sd)%nat) = true /\ size_ (pending s (1 - sd)%nat) = 0
}.

(** [front] is an accepted descriptor that no session owns yet. *)
Definition owned (r : TcpReactor) (front : option Z) (f : Z) : Prop :=
  front = Some f \/ (0 <= f /\ listenerFd_ r = f) \/
  exists i s sd, sessions_ r !! i = Some s /\ side_ok sd /\ 0 <= f /\ fd (ends s sd) = f.

Record reactor_ok (front : option Z) (r : TcpReactor) (w : W) : Prop := {
  ro_tokens : tokens_ok (tokens_ r);
  ro_entries : forall t target, entries_ (tokens_ r) !! t = Some target ->
    side_ok (side target) /\
    exists s, sessions_ r !! sessionId target = Some s /\ token (ends s (side target)) = t;
  (** A registered endpoint's token leads back to it. *)
  ro_handles : forall i s sd, sessions_ r !! i = Some s -> side_ok sd ->
    token (ends s sd) = 0 \/ findEndpoint (token (ends s sd)) (tokens_ r) = Some (mkTarget i sd);
  ro_sessions : forall i s, sessions_ r !! i = Some s -> session_ok w i s;
  ro_distinct : forall i s sd i' s' sd',
    sessions_ r !! i = Some s -> sessions_ r !! i' = Some s' -> side_ok sd -> side_ok sd' ->
    0 <= fd (ends s sd) -> fd (ends s sd) = fd (ends s' sd') -> i = i' /\ sd = sd';
  ro_front : forall f, front = Some f ->
    conn w !! f = Some ([], []) /\ listenerFd_ r <> f /\
    forall i s sd, sessions_ r !! i = Some s -> side_ok sd -> fd (ends s sd) <> f;
  ro_listener : 0 <= listenerFd_ r ->
    is_Some (conn w !! listenerFd_ r) /\
    forall i s sd, sessions_ r !! i = Some s -> side_ok sd -> fd (ends s sd) <> listenerFd_ r;
  ro_owned : forall f, is_Some (conn w !! f) -> owned r front f;
  ro_ids : forall i, is_Some (sessions_ r !! i) -> 1 <= i < nextSessionId_ r;
  ro_nextId : 1 <= nextSessionId_ r;
  ro_accepts : nextSessionId_ r + Z.of_nat (accepts_left w) +
    match front with Some _ => 1 | None => 0 end < 2 ^ 64;
  ro_capacity : Z.of_nat (size (sessions_ r)) <= Z.max 0 (maxSessions options_);
  ro_live : statisticsCallback callbacks_ <> None -> live w = Z.of_nat (size (sessions_ r));
  ro_fuel : kBufferLimit + 70 + Z.of_nat (eintr_left w) < Z.of_nat fuel;
  ro_owner : owner_ok w
}.

Definition Inv (s : TcpReactor * W) : Prop := reactor_ok None s.1 s.2.
Definition ids (s : TcpReactor * W) : gset Z := dom (sessions_ s.1).

(** Postconditions, relative to the state [s] before: no loop runs out of fuel,
    the invariant holds in every outcome, and the reactor is untouched ([same]),
    the sessions are the same ([still]), or the set of sessions is ([keeps]), or it lacks at most session
    [i] ([may_close]). *)
Definition later (s s' : TcpReactor * W) : Prop :=
  Inv s' /\ (eintr_left s'.2 <= eintr_left s.2)%nat.
Definition same (s : TcpReactor * W) {A} (o : outcome A) (s' : TcpReactor * W) : Prop :=
  o <> Diverge /\ later s s' /\ s'.1 = s.1.
Definition still (s : TcpReactor * W) {A} (o : outcome A) (s' : TcpReactor * W) : Prop :=
  o <> Diverge /\ later s s' /\ sessions_ s'.1 = sessions_ s.1.
Definition keeps (s : TcpReactor * W) {A} (o : outcome A) (s' : TcpReactor * W) : Prop :=
  o <> Diverge /\ later s s' /\ ids s' = ids s.
Definition may_close (i : Z) (s : TcpReactor * W) {A} (o : outcome A) (s' : TcpReactor * W) : Prop :=
  o <> Diverge /\ later s s' /\ ids s ∖ {[i]} ⊆ ids s' /\ ids s' ⊆ ids s.

(** ** General steps *)

Context (Hcb : callbacks_ok (maxSessions options_) callbacks_).

Lemma quiet_refl w : quiet w w.
Proof. unfold quiet, bounds_shrink. split_and!; auto with lia. Qed.

Lemma bounds_trans (w w' w'' : W) : bounds_shrink w w' -> bounds_shrink w' w'' -> bounds_shrink w w''.
Proof. unfold bounds_shrink. intros (? & ? & ? & ?) (? & ? & ? & ?). split_and!; (lia || auto). Qed.

Lemma bounds_owner (w w' : W) : bounds_shrink w w' -> owner_ok w -> owner_ok w'.
Proof. by intros (_ & _ & _ & ?). Qed.

Lemma session_ok_conn w w' i s : session_ok w i s -> conn w' = conn w -> session_ok w' i s.
Proof.
  intros [Hid Hb Hf Hs Hn Hh] Hc. split; try done; unfold received_from, sent_to; rewrite Hc; done.
Qed.

Lemma ok_quiet front r w w' : reactor_ok front r w -> quiet w w' -> reactor_ok front r w'.
Proof.
  intros [Ht He Hha Hs Hd Hfr Hli Ho Hi Hn Ha Hcap Hl Hfu Hw] (Hc & Hlv & Hei & Hac).
  split; try done; rewrite ?Hc; try done.
  - intros i s Hi'. eapply session_ok_conn; eauto.
  - lia.
  - by rewrite Hlv.
  - lia.
  - by apply Hac.
Qed.

(** The invariant does not look at the listener, the flags and the times. *)
Definition same_core (r r' : TcpReactor) : Prop :=
  tokens_ r' = tokens_ r /\ sessions_ r' = sessions_ r /\ nextSessionId_ r' = nextSessionId_ r /\
  listenerFd_ r' = listenerFd_ r.

Lemma ok_same_core front r r' w : reactor_ok front r w -> same_core r r' -> reactor_ok front r' w.
Proof.
  intros [Ht He Hha Hs Hd Hfr Hli Ho Hi Hn Ha Hcap Hl Hfu Hw] (K1 & K2 & K3 & K4).
  split; unfold owned; rewrite ?K1, ?K2, ?K3, ?K4; done.
Qed.

(** An update of one session that keeps its descriptors and tokens, and a
    change of the streams of these descriptors only. *)
Lemma ok_session front r w w' i s s' :
  reactor_ok front r w -> sessions_ r !! i = Some s ->
  (forall sd, side_ok sd -> fd (ends s' sd) = fd (ends s sd) /\ token (ends s' sd) = token (ends s sd)) ->
  session_ok w' i s' ->
  (forall f, is_Some (conn w' !! f) <-> is_Some (conn w !! f)) ->
  (forall f, (forall sd, side_ok sd -> fd (ends s sd) <> f) -> conn w' !! f = conn w !! f) ->
  live w' = live w -> bounds_shrink w w' ->
  reactor_ok front (set_sessions (<[i := s']> (sessions_ r)) r) w'.
Proof.
  intros [Ht He Hha Hs Hd Hfr Hli Ho Hi Hn Ha Hcap Hl Hfu Hw] Hlk Hsame Hok' Hdom Hconn Hlv [Hei Hac].
  assert (Hlk' : forall j x, <[i := s']> (sessions_ r) !! j = Some x ->
            exists y, sessions_ r !! j = Some y /\
              forall sd, side_ok sd -> fd (ends x sd) = fd (ends y sd) /\
                         token (ends x sd) = token (ends y sd)).
  { intros j x [[<- <-]|[Hj Hx]]%lookup_insert_Some; [by exists s|by exists x]. }
  assert (Hback : forall j y, sessions_ r !! j = Some y ->
            exists x, <[i := s']> (sessions_ r) !! j = Some x /\
              forall sd, side_ok sd -> fd (ends x sd) = fd (ends y sd) /\
                         token (ends x sd) = token (ends y sd)).
  { intros j y Hy. destruct (decide (i = j)) as [->|Hj].
    - exists s'. rewrite lookup_insert_eq. split; [done|]. by simplify_eq.
    - exists y. rewrite lookup_insert_ne by done. done. }
  split; cbn [tokens_ sessions_ nextSessionId_ set_sessions]; try done.
  - intros t target Htt. destruct (He t target Htt) as (Hside & x & Hx & Htok).
    split; [done|]. destruct (Hback _ _ Hx) as (y & Hy & Hxy). exists y. split; [done|].
    rewrite <-Htok. by apply Hxy.
  - intros j x sd Hx K1. destruct (Hlk' _ _ Hx) as (y & Hy & Hxy).
    destruct (Hxy sd K1) as [_ ->]. by apply Hha.
  - intros j x [[<- <-]|[Hj Hx]]%lookup_insert_Some; [done|].
    pose proof (Hs j x Hx) as Hokx.
    assert (Hsep : forall sd sd', side_ok sd -> side_ok sd' -> 0 <= fd (ends x sd) ->
              fd (ends s sd') <> fd (ends x sd)).
    { intros sd sd' K1 K2 Hpos Heq.
      destruct (Hd j x sd i s sd' Hx Hlk K1 K2 Hpos (eq_sym Heq)) as [-> _]. done. }
    assert (Hc' : forall sd, side_ok sd -> conn w' !! fd (ends x sd) = conn w !! fd (ends x sd)).
    { intros sd K1. destruct (so_fd _ _ _ Hokx sd K1) as [Hneg|[Hpos _]].
      - destruct (conn w' !! fd (ends x sd)) eqn:E1, (conn w !! fd (ends x sd)) eqn:E2; try done.
        + pose proof (Ho (fd (ends x sd)) ltac:(by rewrite E2)) as Hown.
          destruct Hown as [Hf|[[? _]|(i2 & s2 & sd2 & _ & _ & Hp2 & _)]]; [|lia..].
          destruct (Hfr _ Hf) as (_ & _ & Hf2). by destruct (Hf2 j x sd Hx K1).
        + pose proof (proj1 (Hdom (fd (ends x sd))) ltac:(by rewrite E1)) as [? E3]. congruence.
        + pose proof (proj2 (Hdom (fd (ends x sd))) ltac:(by rewrite E2)) as [? E3]. congruence.
      - apply Hconn. intros sd' K2. by apply Hsep. }
    destruct Hokx as [Hid Hb Hf Hst Hsn Hh].
    assert (Hother : forall sd, side_ok sd -> side_ok (1 - sd)%nat) by (unfold side_ok; lia).
    split; try done; intros sd K1; unfold received_from, sent_to in *; rewrite ?Hc' by auto; auto.
  - intros j x sd j' x' sd' Hx Hx' K1 K2 Hpos Heq.
    destruct (Hlk' _ _ Hx) as (y & Hy & Hxy). destruct (Hlk' _ _ Hx') as (y' & Hy' & Hxy').
    destruct (Hxy sd K1) as [E1 _]. destruct (Hxy' sd' K2) as [E2 _].
    apply (Hd j y sd j' y' sd'); try done; congruence.
  - intros f Hf. destruct (Hfr f Hf) as (Hcf & Hlf & Hnf). split; [|split; [done|]].
    + rewrite Hconn; [done|]. intros sd K1. by eapply Hnf.
    + intros j x sd Hx K1. destruct (Hlk' _ _ Hx) as (y & Hy & Hxy).
      destruct (Hxy sd K1) as [-> _]. by eapply Hnf.
  - intros Hpos. destruct (Hli Hpos) as [Hc1 Hn1]. split; [by apply Hdom|].
    intros j x sd Hx K1. destruct (Hlk' _ _ Hx) as (y & Hy & Hxy).
    destruct (Hxy sd K1) as [-> _]. by eapply Hn1.
  - intros f Hf%Hdom. destruct (Ho f Hf) as [?|[?|(j & y & sd & Hy & K1 & Hp & Hfe)]]; [by left|by right; left|].
    right; right. destruct (Hback _ _ Hy) as (x & Hx & Hxy). exists j, x, sd. split_and!; try done.
    rewrite <-Hfe. by apply Hxy.
  - intros j Hj. apply Hi. destruct Hj as [x Hx]. destruct (Hlk' _ _ Hx) as (y & Hy & _). by eexists.
  - lia.
  - by rewrite map_size_insert_Some by (by eexists).
  - intros Hst. rewrite Hlv, Hl by done. by rewrite map_size_insert_Some by (by eexists).
  - lia.
  - by apply Hac.
Qed.

(** ** Composition *)

Lemma later_refl s : Inv s -> later s s.
Proof. by split. Qed.
Lemma later_trans s s' s'' : later s s' -> later s' s'' -> later s s''.
Proof. intros [_ ?] [? ?]. split; [done|lia]. Qed.

Lemma still_ret {A} (a : A) s s' : later s s' -> sessions_ s'.1 = sessions_ s.1 -> still s (Ret a) s'.
Proof. done. Qed.
Lemma same_still s {A} (o : outcome A) s' : same s o s' -> still s o s'.
Proof. intros (Hn & Hl & Hs). split_and!; try done. by rewrite Hs. Qed.
Lemma keeps_refl s {A} (a : A) : Inv s -> keeps s (Ret a) s.
Proof. by intros Hi. Qed.
Lemma still_keeps s {A} (o : outcome A) s' : still s o s' -> keeps s o s'.
Proof. intros (Hn & Hl & Hs). split_and!; try done. unfold ids. by rewrite Hs. Qed.
Lemma keeps_close i s {A} (o : outcome A) s' : keeps s o s' -> may_close i s o s'.
Proof. intros (Hn & Hl & Hd). split_and!; try done; rewrite Hd; set_solver. Qed.

Lemma same_composes : composes (@same).
Proof.
  split_and!.
  - intros s A B a o s' s'' (_ & K1 & K2) (K3 & K4 & K5). split_and!; [done| |congruence].
    by eapply later_trans.
  - by intros s A B e s' (_ & ? & ?).
  - by intros s A s' (? & _).
Qed.
Lemma still_composes : composes (@still).
Proof.
  split_and!.
  - intros s A B a o s' s'' (_ & K1 & K2) (K3 & K4 & K5). split_and!; [done| |congruence].
    by eapply later_trans.
  - by intros s A B e s' (_ & ? & ?).
  - by intros s A s' (? & _).
Qed.
Lemma keeps_composes : composes (@keeps).
Proof.
  split_and!.
  - intros s A B a o s' s'' (_ & K1 & K2) (K3 & K4 & K5). split_and!; [done| |congruence].
    by eapply later_trans.
  - by intros s A B e s' (_ & ? & ?).
  - by intros s A s' (? & _).
Qed.
Lemma keeps_rethrow s {A B} e s' : keeps s (Throw e : outcome A) s' -> keeps s (Throw e : outcome B) s'.
Proof. by intros (_ & ? & ?). Qed.
Lemma may_close_composes i : composes (@may_close i).
Proof.
  split_and!.
  - intros s A B a o s' s'' (_ & K1 & K2 & K3) (K4 & K5 & K6 & K7).
    split_and!; [done|by eapply later_trans| |set_solver].
    intros j Hj. apply K6. set_solver.
  - by intros s A B e s' (_ & ? & ?).
  - by intros s A s' (? & _).
Qed.

Lemma wp_weaken_still {A} (m : M (TcpReactor * W) A) s : wp m (same s) s -> wp m (still s) s.
Proof. intros Hm. eapply wp_mono; [exact Hm|]. intros. by apply same_still. Qed.
Lemma wp_weaken_keeps {A} (m : M (TcpReactor * W) A) s : wp m (still s) s -> wp m (keeps s) s.
Proof. intros Hm. eapply wp_mono; [exact Hm|]. intros. by apply still_keeps. Qed.
Lemma wp_weaken_close i {A} (m : M (TcpReactor * W) A) s : wp m (keeps s) s -> wp m (may_close i s) s.
Proof. intros Hm. eapply wp_mono; [exact Hm|]. intros. by apply keeps_close. Qed.

Lemma still_here s s' {A} (a : A) :
  Inv s' -> (eintr_left s'.2 <= eintr_left s.2)%nat -> sessions_ s'.1 = sessions_ s.1 ->
  still s (Ret a) s'.
Proof. by intros. Qed.

(** ** Reports *)

Lemma quiet_later s w' : Inv s -> quiet s.2 w' -> later s (s.1, w').
Proof. intros Hi Hq. split; [by eapply ok_quiet|]. by destruct Hq as (_ & _ & ? & _). Qed.

Lemma quiet_outside_same {A} (m : M W A) s : quiet_call m -> Inv s -> wp (outside m) (same s) s.
Proof.
  intros Hq Hi. apply wp_outside. destruct (Hq s.2 (ro_owner _ _ _ Hi)) as [Hnd Hqq].
  split; [done|]. split; [|done]. by apply quiet_later.
Qed.

(** A call of the kernel that leaves the descriptors alone. *)
Lemma quiet_call_same {A} (op : W -> A * W) s :
  quiet s.2 (op s.2).2 -> Inv s -> wp (call op) (same s) s.
Proof.
  intros Hq Hi. apply wp_call. split; [done|]. split; [|done]. by apply quiet_later.
Qed.

Lemma now_same s : Inv s -> wp (call t_now) (same s) s.
Proof. apply quiet_call_same, k_now. Qed.

Lemma reportStatEvent_same k n s :
  live_change (mkStatEvent k n) = 0 -> Inv s -> wp (reportStatEvent callbacks_ k n) (same s) s.
Proof.
  intros Hk Hi. unfold reportStatEvent.
  destruct (statisticsCallback callbacks_) as [f|] eqn:Hs; [|by apply wp_ret; split_and!; [|apply later_refl|]].
  apply wp_outside. pose proof (cb_statistics _ _ Hcb) as Hcs. rewrite Hs in Hcs.
  destruct (Hcs (mkStatEvent k n) s.2 (ro_owner _ _ _ Hi) ltac:(by intros ?)) as (Hnd & Hc & Hl & Hb). split; [done|]. split; [|done].
  apply quiet_later; [done|]. split; [exact Hc|split; [|exact Hb]].
  etrans; [exact Hl|]. rewrite Hk. lia.
Qed.

Lemma reportObservation_same k a b c s :
  Inv s -> wp (reportObservation callbacks_ k a b c) (same s) s.
Proof.
  intros Hi. unfold reportObservation.
  destruct (observationCallback callbacks_) as [f|] eqn:Hs; [|by apply wp_ret; split_and!; [|apply later_refl|]].
  wp_step. wp_step. apply quiet_outside_same; [|done].
  pose proof (cb_observation _ _ Hcb) as Hc. rewrite Hs in Hc. intros w Hw.
  destruct (Hc (mkObservation k a b c (Z.of_nat (size (sessions_ s.1)))
                  (Z.of_nat (size (entries_ (tokens_ s.1))))) w Hw) as [-> ?]. done.
Qed.

(** An observation returns and is quiet, also between the steps of an update. *)
Lemma reportObservation_quiet k a b c s :
  owner_ok s.2 ->
  wp (reportObservation callbacks_ k a b c)
    (fun o s' => o = Ret tt /\ s'.1 = s.1 /\ quiet s.2 s'.2) s.
Proof.
  intros Hw. unfold reportObservation.
  destruct (observationCallback callbacks_) as [f|] eqn:Hs.
  - wp_step. wp_step. apply wp_outside.
    pose proof (cb_observation _ _ Hcb) as Hc. rewrite Hs in Hc.
    by destruct (Hc (mkObservation k a b c (Z.of_nat (size (sessions_ s.1)))
                  (Z.of_nat (size (entries_ (tokens_ s.1))))) s.2 Hw) as [-> ?].
  - apply wp_ret. split_and!; [done..|]. apply quiet_refl.
Qed.

Lemma reportDiagnostic_same o e s :
  Inv s -> wp (reportDiagnostic callbacks_ o e) (same s) s.
Proof.
  intros Hi. unfold reportDiagnostic.
  destruct (diagnosticCallback callbacks_) as [f|] eqn:Hs; [|by apply wp_ret; split_and!; [|apply later_refl|]].
  apply quiet_outside_same; [|done].
  pose proof (cb_diagnostic _ _ Hcb) as Hc. rewrite Hs in Hc. apply Hc.
Qed.

(** Updates of flags, times and the listener's registration. *)
Lemma core_later f s : same_core s.1 (f s.1) -> Inv s -> later s (f s.1, s.2).
Proof. intros Hc Hi. split; [|done]. eapply ok_same_core; [exact Hi|exact Hc]. Qed.

Lemma core_still f s : same_core s.1 (f s.1) -> Inv s -> wp (update f) (still s) s.
Proof.
  intros Hc Hi. apply wp_update. split; [done|]. split; [by apply core_later|apply Hc].
Qed.

Definition is_Ret {A} (o : outcome A) : Prop := match o with Ret _ => True | _ => False end.

Ltac compose :=
  lazymatch goal with
  | |- wp (mbind _ _) (same _) _ => eapply wp_compose; [exact same_composes| |]
  | |- wp (mbind _ _) (still _) _ => eapply wp_compose; [exact still_composes| |]
  | |- wp (mbind _ _) (keeps _) _ => eapply wp_compose; [exact keeps_composes| |]
  | |- wp (mbind _ _) (may_close _ _) _ => eapply wp_compose; [exact (may_close_composes _)| |]
  end.
Ltac weaken :=
  lazymatch goal with
  | |- wp _ (still _) _ => apply wp_weaken_still
  | |- wp _ (keeps _) _ => apply wp_weaken_keeps
  | |- wp _ (may_close _ _) _ => apply wp_weaken_close
  end.

(** ** The stop signal *)

(** The listener is closed: its descriptor leaves the kernel's table. *)
Lemma ok_close_listener r w :
  reactor_ok None r w -> 0 <= listenerFd_ r ->
  forall d t, reactor_ok None (set_listener (-1) d t r) (t_close (listenerFd_ r) w).
Proof.
  intros [Ht He Hha Hs Hd Hfr Hli Ho Hi Hn Ha Hcap Hl Hfu Hw] Hpos d t.
  destruct (Hli Hpos) as [Hopen Hdis].
  destruct (k_close (listenerFd_ r) w Hopen) as (Hc & Hlv & Hei & Hac).
  split; cbn [tokens_ sessions_ nextSessionId_ listenerFd_ set_listener]; try done.
  - intros i s Hi'. pose proof (Hs i s Hi') as Hok.
    assert (Hsame : forall sd, side_ok sd ->
      conn (t_close (listenerFd_ r) w) !! fd (ends s sd) = conn w !! fd (ends s sd)).
    { intros sd Hsd. rewrite Hc, lookup_delete_ne; [done|]. intros Heq. by eapply Hdis. }
    assert (Hother : forall sd, side_ok sd -> side_ok (1 - sd)%nat) by (unfold side_ok; lia).
    destruct Hok as [Hid Hb Hf Hst Hsn Hh].
    split; try done; intros sd Hsd; unfold received_from, sent_to in *; rewrite ?Hsame by auto; auto.
  - intros f Hf. rewrite Hc in Hf. destruct (decide (f = listenerFd_ r)) as [->|Hne].
    + rewrite lookup_delete_eq in Hf. by destruct Hf.
    + rewrite lookup_delete_ne in Hf by done. destruct (Ho f Hf) as [?|[[_ ?]|?]]; [done|done|].
      right; right. done.
  - lia.
  - by rewrite Hlv.
  - lia.
  - by apply Hac.
Qed.

Lemma ok_no_listener r w :
  reactor_ok None r w -> listenerFd_ r < 0 ->
  forall d t, reactor_ok None (set_listener (-1) d t r) w.
Proof.
  intros [Ht He Hha Hs Hd Hfr Hli Ho Hi Hn Ha Hcap Hl Hfu Hw] Hneg d t. split; try done.
  intros f Hf. destruct (Ho f Hf) as [?|[[? ?]|?]]; [done|lia|]. right; right. done.
Qed.

(** Like [still], and the drain is not taken back. *)
Definition draining_on (s : TcpReactor * W) {A} (o : outcome A) (s' : TcpReactor * W) : Prop :=
  still s o s' /\ (draining_ s.1 = true -> draining_ s'.1 = true).

Lemma draining_on_composes : composes (@draining_on).
Proof.
  destruct still_composes as (K1 & K2 & K3). split_and!.
  - intros s A B a o s' s'' [? ?] [? ?]. split; [by eapply K1|auto].
  - intros s A B e s' [? ?]. split; [by eapply K2|done].
  - intros s A s' [? _]. by eapply K3.
Qed.

Lemma wp_weaken_draining {A} (m : M (TcpReactor * W) A) s :
  wp m (same s) s -> wp m (draining_on s) s.
Proof.
  intros Hm. eapply wp_mono; [exact Hm|]. intros o s' Hs. split; [by apply same_still|].
  destruct Hs as (_ & _ & ->). done.
Qed.

Lemma ret_same {A} (a : A) s : Inv s -> wp (mret a) (same s) s.
Proof. intros Hi. by split_and!; [|apply later_refl|]. Qed.

Ltac compose_drain := eapply wp_compose; [exact draining_on_composes| |].

Lemma closeListener_spec s : Inv s -> wp closeListener (draining_on s) s.
Proof.
  intros Hi. unfold closeListener. wp_step. wp_step. wp_step. wp_step.
  - wp_step. wp_step. split; [|done]. split; [done|]. split; [|done]. cbn [fst snd].
    split; [apply ok_close_listener; [exact Hi|lia]|].
    destruct (ro_listener _ _ _ Hi) as [Hopen _]; [lia|].
    destruct (k_close (listenerFd_ s.1) s.2 Hopen) as (_ & _ & ? & _). done.
  - wp_step. wp_step. split; [|done]. split; [done|]. split; [|done].
    split; [|done]. apply ok_no_listener; [exact Hi|lia].
Qed.

(** Closing the listener and noting the drain, then only reports. *)
Lemma startDraining_spec s :
  Inv s ->
  wp (startDraining callbacks_ options_)
    (fun o s' => still s o s' /\ (is_Ret o -> draining_ s'.1 = true)) s.
Proof.
  intros Hi. unfold startDraining.
  wp_step. eapply wp_mono; [by apply now_same|].
  intros [now|e|] s1 (Hn1 & [Hi1 He1] & Hs1); [|by split; [split_and!; [..|rewrite Hs1]|]|done].
  wp_step. wp_step.
  set (s2 := (set_draining (now + drainTimeout options_) s1.1, s1.2)).
  assert (Hl2 : later s1 s2) by (apply core_later; done).
  assert (Hrest : wp (r <- own (fun r => r) ;;
      deleted <- (if negb (listenerDeferred_ r)
                  then call (t_epoll_ctl EPOLL_CTL_DEL (listenerFd_ r) 0 0) else mret (inl tt)) ;;
      closeListener ;;;
      r <- own (fun r => r) ;;
      reportObservation callbacks_ (bs "draining") 0 (-1) 0 ;;;
      (match stoppingCallback callbacks_ with
       | Some f => outside (f (mkStopEvent (pendingTotal 0 (sessions_ r), pendingTotal 1 (sessions_ r))
                     (drainDeadline_ r)))
       | None => mret tt
       end) ;;;
      match deleted with
      | inl _ => mret tt
      | inr detachError => reportDiagnostic callbacks_ (bs "stop listener DEL") detachError
      end) (draining_on s2) s2).
  { wp_step. wp_step. compose_drain.
    { apply wp_weaken_draining. wp_step; [|apply ret_same, Hl2].
      apply quiet_call_same; [apply k_epoll_ctl|apply Hl2]. }
    intros deleted s3 [(_ & [Hi3 _] & _) _]. compose_drain; [by apply closeListener_spec|].
    intros _ s4 [(_ & [Hi4 _] & _) _]. wp_step. wp_step. compose_drain.
    { apply wp_weaken_draining, reportObservation_same, Hi4. }
    intros _ s5 [(_ & [Hi5 _] & _) _]. compose_drain.
    { apply wp_weaken_draining. destruct (stoppingCallback callbacks_) as [f|] eqn:Hf.
      - apply quiet_outside_same; [|done].
        pose proof (cb_stopping _ _ Hcb) as Hc. rewrite Hf in Hc. apply Hc.
      - by apply ret_same. }
    intros _ s6 [(_ & [Hi6 _] & _) _]. apply wp_weaken_draining. destruct deleted.
    - by apply ret_same.
    - by apply reportDiagnostic_same. }
  eapply wp_mono; [exact Hrest|]. intros o s' [(Hn & Hl & Hs) Hd].
  split; [|intros _; by apply Hd]. split; [done|].
  split; [|cbn in Hs; rewrite Hs; by rewrite Hs1].
  eapply later_trans; [|exact Hl]. eapply later_trans; [|exact Hl2]. done.
Qed.

Lemma readStopSignal_spec s :
  Inv s ->
  wp (readStopSignal callbacks_ options_ tt)
    (fun o s' => still s o s' /\
       (o = Ret (inl tt) ->
          (eintr_left s'.2 < eintr_left s.2)%nat /\ draining_ s'.1 = draining_ s.1 \/
          draining_ s.1 = false /\ draining_ s'.1 = true)) s.
Proof.
  intros Hi. unfold readStopSignal. wp_step. wp_step.
  pose proof (k_read_signal s.2) as Hk. destruct (t_read_signal s.2) as [[n|errno] w1]; cbn [fst snd].
  - pose proof (quiet_later s w1 Hi Hk) as Hl. pose proof Hl as [Hi1 He1].
    wp_step; [|wp_steps; by split].
    wp_step. wp_step. wp_step; cbn [fst].
    + wp_step. wp_step. wp_step.
      assert (Hl2 : later s (set_stop (bs "service-stop-forced") s.1, w1)).
      { eapply later_trans; [exact Hl|]. by apply (core_later (set_stop _) (s.1, w1)). }
      eapply wp_mono; [apply reportObservation_same, Hl2|].
      intros [a|e|] s' (Hn & Hl' & Hs'); [wp_step|..]; (split; [|done]); split_and!; try done;
        try (by eapply later_trans); by rewrite Hs'.
    + wp_step. eapply wp_mono; [by apply startDraining_spec|].
      intros [a|e|] s' ((Hn & Hl' & Hs') & Hd); [wp_step|..]; split; try done.
      * split_and!; try done. by eapply later_trans.
      * intros _. right. by split; [|apply Hd].
      * split_and!; try done. by eapply later_trans.
  - destruct Hk as [Hq Hlt]. pose proof (quiet_later s w1 Hi Hq) as Hl.
    wp_step; [wp_step; split; [done|]; intros _; left; split; [apply Hlt; lia|done]|].
    wp_step; wp_step; by split.
Qed.

Lemma consumeStopSignals_still s :
  Inv s -> wp (consumeStopSignals callbacks_ options_ fuel) (still s) s.
Proof.
  intros Hi. unfold consumeStopSignals. wp_step. wp_step.
  wp_step; [by apply wp_weaken_still, ret_same|].
  compose.
  - apply wp_loop_measure with
      (mu := fun _ s' => (eintr_left s'.2 + if draining_ s'.1 then 0 else 1)%nat)
      (I := fun _ s' => later s s' /\ sessions_ s'.1 = sessions_ s.1).
    + pose proof (ro_fuel _ _ _ Hi). unfold kBufferLimit in *. destruct (draining_ s.1); lia.
    + by split; [apply later_refl|].
    + intros [] s' [Hl Hs]. eapply wp_mono; [apply readStopSignal_spec, Hl|].
      intros [[[]|b]|e|] s'' ((Hn & Hl' & Hs') & Hmu);
        try (split_and!; [done|by eapply later_trans|congruence]).
      split; [split; [by eapply later_trans|congruence]|].
      destruct Hl' as [_ Hle]. destruct (Hmu eq_refl) as [[? ->]|[-> ->]]; lia.
  - intros forced s1 (_ & [Hi1 _] & Hs1). wp_step; [by apply wp_weaken_still, ret_same|].
    wp_step. wp_step. compose.
    + wp_step; [|by apply wp_weaken_still, ret_same].
      compose; [by apply wp_weaken_still, now_same|].
      intros now s2 (_ & [Hi2 _] & Hs2). wp_step. wp_step; [|by apply still_here].
      compose; [by apply core_still|].
      intros _ s3 (_ & [Hi3 _] & Hs3). by apply wp_weaken_still, reportObservation_same.
    + intros _ s2 (_ & [Hi2 _] & Hs2). wp_step. by apply still_here.
Qed.

(** ** Sessions in place *)

Lemma ids_lookup i s : i ∈ ids s -> exists x, sessions_ s.1 !! i = Some x.
Proof. unfold ids. intros Hi. apply elem_of_dom in Hi as [x Hx]. by exists x. Qed.

Lemma wp_ses_bind {A} i x (k : Session -> M (TcpReactor * W) A) Q s :
  sessions_ s.1 !! i = Some x -> wp (k x) Q s -> wp (mbind (ses i) k) Q s.
Proof.
  intros Hx Hk. unfold ses. wp_step. wp_step. by rewrite (lookup_total_correct _ _ _ Hx).
Qed.

Lemma alter_Some {A} (f : A -> A) i (m : gmap Z A) x :
  m !! i = Some x -> alter f i m = <[i := f x]> m.
Proof.
  intros Hx. apply map_eq. intros j. destruct (decide (i = j)) as [->|Hj].
  - by rewrite lookup_alter_eq, lookup_insert_eq, Hx.
  - by rewrite lookup_alter_ne, lookup_insert_ne.
Qed.

(** What [upd] may change: not the descriptors and tokens. *)
Definition same_ends (x x' : Session) : Prop :=
  forall sd, side_ok sd -> fd (ends x' sd) = fd (ends x sd) /\ token (ends x' sd) = token (ends x sd).

Lemma upd_spec i f s x (Q : outcome unit -> TcpReactor * W -> Prop) :
  Inv s -> sessions_ s.1 !! i = Some x -> same_ends x (f x) -> session_ok s.2 i (f x) ->
  (forall s', later s s' -> ids s' = ids s -> sessions_ s'.1 = <[i := f x]> (sessions_ s.1) ->
     Q (Ret tt) s') ->
  wp (upd i f) Q s.
Proof.
  intros Hi Hx Hsame Hok HQ. unfold upd. apply wp_update. rewrite (alter_Some _ _ _ _ Hx).
  apply HQ; [split; [|done]|unfold ids; cbn; apply dom_insert_lookup_L; by eexists|done].
  eapply ok_session; [exact Hi|exact Hx|exact Hsame|exact Hok|done..].
Qed.

Lemma upd_keeps i f s x :
  Inv s -> sessions_ s.1 !! i = Some x -> same_ends x (f x) -> session_ok s.2 i (f x) ->
  wp (upd i f)
    (fun o s' => keeps s o s' /\ o = Ret tt /\ sessions_ s'.1 !! i = Some (f x)) s.
Proof.
  intros Hi Hx Hsame Hok. eapply upd_spec; try done. intros s' Hl Hd Hs.
  split_and!; try done; try apply Hl. rewrite Hs. apply lookup_insert_eq.
Qed.

Lemma ok_lookup s i x : Inv s -> sessions_ s.1 !! i = Some x -> session_ok s.2 i x.
Proof. intros Hi Hx. by apply (ro_sessions _ _ _ Hi). Qed.

(** Changes of flags, interests and times. *)
Lemma session_ok_flags w i x x' :
  session_ok w i x -> id x' = id x -> pending x' = pending x -> sent x' = sent x ->
  same_ends x x' ->
  (forall sd, side_ok sd -> shutdown (ends x' sd) = true ->
     eof (ends x' (1 - sd)%nat) = true /\ size_ (pending x (1 - sd)%nat) = 0) ->
  session_ok w i x'.
Proof.
  intros [Hid Hb Hf Hst Hsn Hh] Eid Ep Es Hsame Hhalf.
  assert (Hother : forall sd, side_ok sd -> side_ok (1 - sd)%nat) by (unfold side_ok; lia).
  split; rewrite ?Eid, ?Ep, ?Es; try done; intros sd Hsd;
    rewrite ?(proj1 (Hsame sd Hsd)), ?(proj1 (Hsame _ (Hother sd Hsd))); auto.
Qed.

(** The tokens do not matter. *)
Lemma session_ok_flags_fd w i x x' :
  session_ok w i x -> id x' = id x -> pending x' = pending x -> sent x' = sent x ->
  (forall sd, side_ok sd -> fd (ends x' sd) = fd (ends x sd)) ->
  (forall sd, side_ok sd -> shutdown (ends x' sd) = true ->
     eof (ends x' (1 - sd)%nat) = true /\ size_ (pending x (1 - sd)%nat) = 0) ->
  session_ok w i x'.
Proof.
  intros [Hid Hb Hf Hst Hsn Hh] Eid Ep Es Hsame Hhalf.
  assert (Hother : forall sd, side_ok sd -> side_ok (1 - sd)%nat) by (unfold side_ok; lia).
  split; rewrite ?Eid, ?Ep, ?Es; try done; intros sd Hsd;
    rewrite ?(Hsame sd Hsd), ?(Hsame _ (Hother sd Hsd)); auto.
Qed.

Lemma array_set_eq {A} i (x : A) a : array_set i x a i = x.
Proof. unfold array_set. by rewrite decide_True. Qed.
Lemma array_set_ne {A} i j (x : A) a : j <> i -> array_set i x a j = a j.
Proof. intros. unfold array_set. by rewrite decide_False. Qed.

Lemma set_end_same_ends sd e x :
  fd e = fd (ends x sd) -> token e = token (ends x sd) -> same_ends x (set_end sd e x).
Proof.
  intros Hf Ht j _. cbn. unfold array_set. case_decide; [by subst|done].
Qed.

(** An update of the flags of one end that neither takes an end of stream back
    nor shuts anything down. *)
Lemma session_ok_set_end w i x sd e :
  session_ok w i x -> fd e = fd (ends x sd) -> token e = token (ends x sd) ->
  (eof (ends x sd) = true -> eof e = true) -> shutdown e = shutdown (ends x sd) ->
  session_ok w i (set_end sd e x).
Proof.
  intros Hok Hf Ht He Hsh. eapply session_ok_flags; try done; [by apply set_end_same_ends|].
  intros j Hj. cbn. intros Hs.
  assert (Hs' : shutdown (ends x j) = true).
  { unfold array_set in Hs. case_decide; [by subst; congruence|done]. }
  destruct (so_half_close _ _ _ Hok j Hj Hs') as [Heof Hsz]. split; [|done].
  unfold array_set. case_decide; [subst; auto|done].
Qed.

Lemma upd_end_keeps i sd f s x :
  Inv s -> sessions_ s.1 !! i = Some x ->
  fd (f (ends x sd)) = fd (ends x sd) -> token (f (ends x sd)) = token (ends x sd) ->
  (eof (ends x sd) = true -> eof (f (ends x sd)) = true) ->
  shutdown (f (ends x sd)) = shutdown (ends x sd) ->
  wp (upd_end i sd f) (keeps s) s.
Proof.
  intros Hi Hx Hf Ht He Hs. unfold upd_end.
  eapply wp_mono; [eapply upd_keeps; try done|].
  - by apply set_end_same_ends.
  - apply session_ok_set_end; try done. by eapply ok_lookup.
  - by intros o s' (Hk & _).
Qed.

(** ** Registration *)

Lemma detachEndpoint_same e s : Inv s -> wp (detachEndpointFromEpoll e) (same s) s.
Proof.
  intros Hi. unfold detachEndpointFromEpoll. wp_step; [|by apply ret_same].
  compose; [apply quiet_call_same; [apply k_epoll_ctl|done]|].
  intros [_|errno] s' (_ & [Hi' _] & _); by apply ret_same.
Qed.

Lemma same_lookup s s' {A} (o : outcome A) : same s o s' -> sessions_ s'.1 = sessions_ s.1.
Proof. by intros (_ & _ & ->). Qed.

Lemma keeps_elem s {A} (o : outcome A) s' i : keeps s o s' -> i ∈ ids s -> i ∈ ids s'.
Proof. by intros (_ & _ & ->). Qed.

Ltac weak := first [done | apply wp_weaken_still | apply wp_weaken_keeps | apply wp_weaken_close].

Lemma removeEndpoint_keeps i sd s :
  Inv s -> i ∈ ids s -> wp (removeEndpoint callbacks_ i sd) (keeps s) s.
Proof.
  intros Hi Hin. unfold removeEndpoint. destruct (ids_lookup i s Hin) as [x Hx].
  eapply wp_ses_bind; [exact Hx|].
  compose; [by apply wp_weaken_keeps, wp_weaken_still, detachEndpoint_same|].
  intros error s1 (_ & [Hi1 _] & Hd1). destruct (ids_lookup i s1) as [x1 Hx1]; [by rewrite Hd1|].
  compose; [by eapply upd_end_keeps|].
  intros _ s2 (_ & [Hi2 _] & Hd2). wp_step. wp_step; [|by apply keeps_refl].
  compose; [by apply wp_weaken_keeps, wp_weaken_still, reportStatEvent_same|].
  intros _ s3 (_ & [Hi3 _] & _). by apply wp_weaken_keeps, wp_weaken_still, reportDiagnostic_same.
Qed.

Lemma now_keeps s : Inv s -> wp (call t_now) (keeps s) s.
Proof. intros. by apply wp_weaken_keeps, wp_weaken_still, now_same. Qed.
Lemma ret_keeps {A} (a : A) s : Inv s -> wp (mret a) (keeps s) s.
Proof. intros. by apply wp_weaken_keeps, wp_weaken_still, ret_same. Qed.
Lemma observe_keeps k a b c s : Inv s -> wp (reportObservation callbacks_ k a b c) (keeps s) s.
Proof. intros. by apply wp_weaken_keeps, wp_weaken_still, reportObservation_same. Qed.
Lemma stat_keeps k n s :
  live_change (mkStatEvent k n) = 0 -> Inv s -> wp (reportStatEvent callbacks_ k n) (keeps s) s.
Proof. intros. by apply wp_weaken_keeps, wp_weaken_still, reportStatEvent_same. Qed.
Lemma signals_keeps s : Inv s -> wp (consumeStopSignals callbacks_ options_ fuel) (keeps s) s.
Proof. intros. by apply wp_weaken_keeps, consumeStopSignals_still. Qed.
Lemma quiet_call_keeps {A} (op : W -> A * W) s :
  quiet s.2 (op s.2).2 -> Inv s -> wp (call op) (keeps s) s.
Proof. intros. by apply wp_weaken_keeps, wp_weaken_still, quiet_call_same. Qed.
Lemma throw_keeps {A} e s : Inv s -> wp (mthrow e) (keeps s (A:=A)) s.
Proof. intros Hi. by split_and!; [|apply later_refl|]. Qed.

Lemma updateSideInterest_keeps i sd s :
  Inv s -> i ∈ ids s -> wp (updateSideInterest callbacks_ i sd) (keeps s) s.
Proof.
  intros Hi Hin. unfold updateSideInterest. destruct (ids_lookup i s Hin) as [x Hx].
  eapply wp_ses_bind; [exact Hx|].
  compose; [by apply now_keeps|]. intros now s1 (_ & [Hi1 _] & Hd1).
  wp_step; [apply removeEndpoint_keeps; [done|by rewrite Hd1]|].
  wp_step. wp_step. compose; [wp_step; wp_step; [by apply observe_keeps|by apply keeps_refl]|].
  intros _ s2 (_ & [Hi2 _] & Hd2). wp_step.
  { apply removeEndpoint_keeps; [done|]. by rewrite Hd2, Hd1. }
  wp_step; [by apply ret_keeps|]. compose; [by apply quiet_call_keeps; [apply k_epoll_ctl|]|].
  intros [_|errno] s3 (_ & [Hi3 _] & Hd3); [|by apply throw_keeps].
  destruct (ids_lookup i s3) as [x3 Hx3]; [by rewrite Hd3, Hd2, Hd1|].
  compose; [by eapply upd_end_keeps|].
  intros _ s4 (_ & [Hi4 _] & _). by apply observe_keeps.
Qed.

Lemma updateSessionInterests_keeps i s :
  Inv s -> i ∈ ids s -> wp (updateSessionInterests callbacks_ i) (keeps s) s.
Proof.
  intros Hi Hin. unfold updateSessionInterests.
  compose; [by apply updateSideInterest_keeps|].
  intros _ s1 (_ & [Hi1 _] & Hd1). apply updateSideInterest_keeps; [done|by rewrite Hd1].
Qed.

(** ** Forwarding *)

Lemma side_other sd : side_ok sd -> side_ok (1 - sd)%nat.
Proof. unfold side_ok. lia. Qed.
Lemma side_cases sd j : side_ok sd -> side_ok j -> j = sd \/ j = (1 - sd)%nat.
Proof. unfold side_ok. lia. Qed.
Lemma side_twice sd : side_ok sd -> (1 - (1 - sd))%nat = sd.
Proof. unfold side_ok. lia. Qed.
Lemma side_ne sd : side_ok sd -> (1 - sd)%nat <> sd.
Proof. unfold side_ok. lia. Qed.

Definition ends_distinct (x : Session) : Prop :=
  0 <= fd (ends x 0%nat) -> fd (ends x 0%nat) <> fd (ends x 1%nat).

Lemma ends_distinct_side x sd :
  ends_distinct x -> side_ok sd -> 0 <= fd (ends x (1 - sd)%nat) ->
  fd (ends x sd) <> fd (ends x (1 - sd)%nat).
Proof.
  unfold ends_distinct, side_ok. intros Hd Hs Hp. destruct sd as [|[|]]; [| |lia]; cbn in *.
  - intros He. apply Hd; lia.
  - intros He. apply Hd; lia.
Qed.

Lemma Inv_ends_distinct i s x : Inv s -> sessions_ s.1 !! i = Some x -> ends_distinct x.
Proof.
  intros Hi Hx Hp He.
  destruct (ro_distinct _ _ _ Hi i x 0%nat i x 1%nat Hx Hx ltac:(unfold side_ok; lia)
              ltac:(unfold side_ok; lia) Hp He) as [_ [=]].
Qed.

(** Bytes move from the queue of [src] to the descriptor of the other side. *)
Lemma session_ok_send w w' i x src d b' :
  session_ok w i x -> ends_distinct x -> side_ok src ->
  is_Some (conn w !! fd (ends x (1 - src)%nat)) -> 0 <= fd (ends x (1 - src)%nat) ->
  conn w' = alter (fun p => (p.1, p.2 ++ d)) (fd (ends x (1 - src)%nat)) (conn w) ->
  content (pending x src) = d ++ content b' -> buffer_ok b' ->
  (size_ (pending x src) = 0 -> size_ b' = 0) ->
  session_ok w' i (add_sent src (len d) (set_pending src b' x)).
Proof.
  intros Hok Hdis Hsrc [p Hp] Hpos Hc Hcon Hb' Hz.
  pose proof (ends_distinct_side x src Hdis Hsrc Hpos) as Hne.
  pose proof Hok as [Hid Hb Hf Hst Hsn Hh].
  assert (Ho : forall f, f <> fd (ends x (1 - src)%nat) -> conn w' !! f = conn w !! f).
  { intros f Hf'. by rewrite Hc, lookup_alter_ne. }
  assert (Hd : conn w' !! fd (ends x (1 - src)%nat) = Some (p.1, p.2 ++ d)).
  { by rewrite Hc, lookup_alter_eq, Hp. }
  split; cbn [id ends pending sent add_sent set_pending]; [done|..].
  - intros sd. unfold array_set. by case_decide.
  - intros sd Hsd. destruct (Hf sd Hsd) as [?|[? [q Hq]]]; [by left|]. right. split; [done|].
    destruct (decide (fd (ends x sd) = fd (ends x (1 - src)%nat))) as [->|Hn]; [by rewrite Hd|].
    by rewrite Ho.
  - intros sd Hsd. specialize (Hst sd Hsd). unfold received_from, sent_to in *.
    destruct (side_cases src sd Hsrc Hsd) as [->| ->].
    + rewrite array_set_eq, Hd, Ho by done. rewrite Hp in Hst. cbn. rewrite Hst, Hcon.
      by rewrite app_assoc.
    + rewrite array_set_ne by by apply side_ne. rewrite side_twice in * by done.
      rewrite Hd, Ho by done. by rewrite Hp in Hst.
  - intros sd Hsd. specialize (Hsn sd Hsd). unfold sent_to in *.
    destruct (side_cases src sd Hsrc Hsd) as [->| ->].
    + rewrite array_set_eq, Hd, Hsn, Hp. cbn. rewrite len_app. unfold u64.
      apply Zplus_mod_idemp_l.
    + rewrite array_set_ne by by apply side_ne. rewrite side_twice in * by done.
      by rewrite Ho.
  - intros sd Hsd Hshut. destruct (Hh sd Hsd Hshut) as [Heof Hsz]. split; [done|].
    unfold array_set. case_decide as Heq; [|done]. apply Hz. by rewrite <-Heq.
Qed.

(** Bytes received from [src] join its queue. *)
Lemma session_ok_recv w w' i x src d b' :
  session_ok w i x -> ends_distinct x -> side_ok src ->
  is_Some (conn w !! fd (ends x src)) -> 0 <= fd (ends x src) ->
  conn w' = alter (fun p => (p.1 ++ d, p.2)) (fd (ends x src)) (conn w) ->
  content b' = content (pending x src) ++ d -> buffer_ok b' ->
  eof (ends x src) = false ->
  session_ok w' i (set_pending src b' x).
Proof.
  intros Hok Hdis Hsrc [p Hp] Hpos Hc Hcon Hb' Heof.
  assert (Hne : fd (ends x (1 - src)%nat) <> fd (ends x src)).
  { intros He. apply (ends_distinct_side x src); [done|done|by rewrite He|done]. }
  pose proof Hok as [Hid Hb Hf Hst Hsn Hh].
  assert (Ho : forall f, f <> fd (ends x src) -> conn w' !! f = conn w !! f).
  { intros f Hf'. by rewrite Hc, lookup_alter_ne. }
  assert (Hd : conn w' !! fd (ends x src) = Some (p.1 ++ d, p.2)).
  { by rewrite Hc, lookup_alter_eq, Hp. }
  split; cbn [id ends pending sent set_pending]; [done|..].
  - intros sd. unfold array_set. by case_decide.
  - intros sd Hsd. destruct (Hf sd Hsd) as [?|[? [q Hq]]]; [by left|]. right. split; [done|].
    destruct (decide (fd (ends x sd) = fd (ends x src))) as [->|Hn]; [by rewrite Hd|].
    by rewrite Ho.
  - intros sd Hsd. specialize (Hst sd Hsd). unfold received_from, sent_to in *.
    destruct (side_cases src sd Hsrc Hsd) as [->| ->].
    + rewrite array_set_eq, Hd, Ho by done. rewrite Hp in Hst. cbn. rewrite Hst, Hcon.
      by rewrite app_assoc.
    + rewrite array_set_ne by by apply side_ne. rewrite side_twice in * by done.
      rewrite Hd, Ho by done. by rewrite Hp in Hst.
  - intros sd Hsd. specialize (Hsn sd Hsd). unfold sent_to in *. rewrite Hsn. f_equal.
    destruct (side_cases src sd Hsrc Hsd) as [->| ->].
    + by rewrite Ho.
    + rewrite side_twice in * by done. by rewrite Hd, Hp.
  - intros sd Hsd Hshut. destruct (Hh sd Hsd Hshut) as [He Hsz]. split; [done|].
    unfold array_set. case_decide as Heq; [congruence|done].
Qed.

(** A session whose record and streams changed consistently. *)
Lemma later_session s w' i x x' :
  Inv s -> sessions_ s.1 !! i = Some x -> same_ends x x' -> session_ok w' i x' ->
  (forall f, is_Some (conn w' !! f) <-> is_Some (conn s.2 !! f)) ->
  (forall f, (forall sd, side_ok sd -> fd (ends x sd) <> f) -> conn w' !! f = conn s.2 !! f) ->
  live w' = live s.2 -> bounds_shrink s.2 w' ->
  forall s', s' = (set_sessions (<[i := x']> (sessions_ s.1)) s.1, w') ->
  later s s' /\ ids s' = ids s /\ sessions_ s'.1 !! i = Some x'.
Proof.
  intros Hi Hx Hsame Hok Hdom Hconn Hl Hb s' ->. split; [split|].
  - by eapply ok_session.
  - apply Hb.
  - unfold ids. cbn. split; [apply dom_insert_lookup_L; by eexists|apply lookup_insert_eq].
Qed.

Lemma alter_dom {A} (f : A -> A) k (m : gmap Z A) j : is_Some (alter f k m !! j) <-> is_Some (m !! j).
Proof.
  destruct (decide (k = j)) as [->|Hj]; [|by rewrite lookup_alter_ne].
  rewrite lookup_alter_eq. by destruct (m !! j).
Qed.

(** What a turn of a transfer loop guarantees; the budget and the interruptions
    still to come bound the turns. *)
Definition turn_ok {B} (budget : Z) (s : TcpReactor * W) (o : outcome (Z + B)) (s' : TcpReactor * W) : Prop :=
  keeps s o s' /\
  match o with
  | Ret (inl budget') =>
      0 <= budget' <= budget /\ budget' + Z.of_nat (eintr_left s'.2) < budget + Z.of_nat (eintr_left s.2)
  | _ => True
  end.

Lemma turn_ok_weaken {B} budget s (m : M (TcpReactor * W) (Z + B)) :
  (forall o s', (m s) = (o, s') -> match o with Ret (inl _) => False | _ => True end) ->
  wp m (keeps s) s -> wp m (turn_ok budget s) s.
Proof.
  intros Hm Hk. unfold wp in *. destruct (m s) as [o s'] eqn:He. split; [done|].
  specialize (Hm o s' eq_refl). by destruct o as [[]| |].
Qed.

Lemma alter_nothing (f : Z) (m : gmap Z (bytes * bytes)) g :
  (forall p, g p = p) -> alter g f m = m.
Proof.
  intros Hg. apply map_eq. intros j. destruct (decide (f = j)) as [->|Hj].
  - rewrite lookup_alter_eq. destruct (m !! j); cbn; [by rewrite Hg|done].
  - by rewrite lookup_alter_ne.
Qed.

(** Refreshing the idle deadline, and going on. *)
Lemma deadline_spec {A} i n s x (k : M (TcpReactor * W) A) Q :
  Inv s -> sessions_ s.1 !! i = Some x ->
  (forall s' x', later s s' -> ids s' = ids s -> sessions_ s'.1 !! i = Some x' ->
     pending x' = pending x -> ends x' = ends x -> wp k Q s') ->
  wp (now <- call t_now ;;
      upd i (fun x => set_deadline (recordIoProgress now n (deadline x)) x) ;;; k) Q s.
Proof.
  intros Hi Hx Hk. wp_step. wp_step.
  assert (Hl1 : later s (s.1, (t_now s.2).2)) by (apply quiet_later; [done|apply k_now]).
  set (s1 := (s.1, (t_now s.2).2)) in *.
  wp_step. eapply (upd_spec i _ s1 x); [apply Hl1|done|done| |].
  - pose proof (ok_lookup s1 i x ltac:(apply Hl1) Hx) as Hok.
    eapply session_ok_flags; try done. intros sd Hsd Hsh. by apply (so_half_close _ _ _ Hok).
  - intros s2 Hl2 Hd2 Hs2.
    eapply (Hk s2); [by eapply later_trans|done|rewrite Hs2; apply lookup_insert_eq|done..].
Qed.

Lemma recordSentBytes_spec i src n budget m s w2 x :
  Inv s -> sessions_ s.1 !! i = Some x -> side_ok src ->
  is_Some (conn s.2 !! fd (ends x (1 - src)%nat)) ->
  0 < m <= n -> n <= budget -> n <= readableBytes (pending x src) ->
  conn w2 = alter (fun p => (p.1, p.2 ++ take (Z.to_nat m) (data (pending x src) n)))
              (fd (ends x (1 - src)%nat)) (conn s.2) ->
  live w2 = live s.2 -> bounds_shrink s.2 w2 ->
  wp (recordSentBytes callbacks_ i src n budget m)
    (fun o s' => turn_ok budget s o s' /\ match o with Ret (inr b) => False | _ => True end)
    (s.1, w2).
Proof.
  intros Hi Hx Hsrc Hopen Hm Hn Hread Hc Hl Hb. unfold recordSentBytes.
  pose proof (ok_lookup _ _ _ Hi Hx) as Hok. pose proof (so_buffer _ _ _ Hok src) as Hbuf.
  assert (Hpos : 0 <= fd (ends x (1 - src)%nat)).
  { destruct (so_fd _ _ _ Hok _ (side_other _ Hsrc)) as [Hneg|[? _]]; [|done].
    rewrite Hneg in Hopen. destruct (ro_owned _ _ _ Hi _ Hopen) as [?|[[? _]|(? & ? & ? & _ & _ & ? & _)]];
      [done|lia|lia]. }
  assert (Hw3 : forall (m' : M (TcpReactor * W) unit) (Q : outcome unit -> TcpReactor * W -> Prop),
    (forall w3, quiet w2 w3 -> Q (Ret tt) (s.1, w3)) ->
    wp (mwhen (m <? n) (reportObservation callbacks_ (bs "short-send") i (Z.of_nat src) m)) Q (s.1, w2)).
  { intros _ Q HQ. wp_step. wp_step; [|apply HQ, quiet_refl].
    eapply wp_mono; [apply reportObservation_quiet, (bounds_owner _ _ Hb), (ro_owner _ _ _ Hi)|].
    intros o [r3 w3] (-> & Hr & Hq).
    cbn in Hr. subst r3. by apply HQ. }
  wp_step. apply (Hw3 (mret tt)). intros w3 (Hc3 & Hl3 & Hb3).
  eapply wp_ses_bind; [exact Hx|].
  assert (Hle : m <= size_ (pending x src)) by (unfold readableBytes in Hread; lia).
  destruct (consume_content (pending x src) m Hbuf ltac:(lia)) as (b' & -> & Hb' & Hcb').
  assert (Hd : take (Z.to_nat m) (data (pending x src) n) = take (Z.to_nat m) (content (pending x src))).
  { rewrite data_content by (done || lia). rewrite take_take. f_equal. lia. }
  assert (Hlen : len (take (Z.to_nat m) (content (pending x src))) = m).
  { unfold len. rewrite length_take. pose proof (len_content _ Hbuf) as Hlc. unfold len in Hlc. lia. }
  rewrite Hd in Hc.
  unfold upd at 1 2. do 6 wp_step. cbn [fst snd].
  rewrite (alter_Some _ i (sessions_ s.1) _ Hx).
  cbn [sessions_ set_sessions]. rewrite (alter_Some _ i _ (set_pending src b' x)) by apply lookup_insert_eq.
  rewrite insert_insert_eq.
  assert (Hok3 : session_ok w3 i (add_sent src m (set_pending src b' x))).
  { rewrite <-Hlen. eapply session_ok_send; try done.
    - by eapply Inv_ends_distinct.
    - by rewrite Hc3, Hc.
    - rewrite Hcb'. by rewrite take_drop.
    - intros Hz. lia. }
  destruct (later_session s w3 i x (add_sent src m (set_pending src b' x)) Hi Hx ltac:(done) Hok3)
    with (s' := (set_sessions (<[i := add_sent src m (set_pending src b' x)]> (sessions_ s.1)) s.1, w3))
    as (Hlat & Hids & Hlk); [..|done|].
  { intros f. rewrite Hc3, Hc. apply alter_dom. }
  { intros f Hf. rewrite Hc3, Hc, lookup_alter_ne; [done|]. by apply Hf, side_other. }
  { congruence. }
  { by eapply bounds_trans. }
  match goal with |- wp _ _ ?st => change st with (st.1, st.2); set (s3 := st) in * end.
  change (later s s3) in Hlat. change (ids s3 = ids s) in Hids.
  change (sessions_ s3.1 !! i = Some (add_sent src m (set_pending src b' x))) in Hlk.
  clearbody s3. destruct s3 as [r3 w3']. cbn [fst snd].
  wp_step. eapply wp_mono; [apply stat_keeps; [by case_bool_decide|apply Hlat]|].
  assert (Hin3 : i ∈ ids (r3, w3')) by (apply elem_of_dom; by eexists).
  intros [a|e|] s4 (Hn4 & Hl4 & Hd4); [| |done].
  - destruct (ids_lookup i s4) as [x4 Hx4]; [by rewrite Hd4|].
    eapply deadline_spec; [apply Hl4|exact Hx4|]. intros s5 x5 Hl5 Hd5 _ _ _. wp_step.
    pose proof (later_trans _ _ _ Hlat (later_trans _ _ _ Hl4 Hl5)) as Hl6.
    split; [|done]. split; [split; [done|split; [done|congruence]]|].
    destruct Hl6 as [_ Hle6]. lia.
  - split; [|done]. split; [|done]. split; [done|]. split; [by eapply later_trans|congruence].
Qed.

Lemma sendTurn_spec i src budget s :
  Inv s -> i ∈ ids s -> side_ok src -> 0 <= budget ->
  wp (sendTurn callbacks_ options_ fuel i src budget)
    (fun o s' => turn_ok budget s o s' /\
       match o with Ret (inr b) => 0 <= b <= budget | _ => True end) s.
Proof.
  intros Hi Hin Hsrc Hbud. unfold sendTurn. destruct (ids_lookup i s Hin) as [x Hx].
  eapply wp_ses_bind; [exact Hx|].
  pose proof (ok_lookup _ _ _ Hi Hx) as Hok. pose proof (so_buffer _ _ _ Hok src) as Hbuf.
  wp_step; [wp_step; split; [split; [by apply keeps_refl|done]|lia]|].
  wp_step. eapply wp_mono; [by apply consumeStopSignals_still|].
  intros [a|e|] s1 (Hnd & [Hi1 He1] & Hs1); [|by split; [split; [apply still_keeps|]|]|done].
  assert (Hd1 : ids s1 = ids s) by (unfold ids; by rewrite Hs1).
  wp_step. wp_step. wp_step; [wp_step; split; [split; [done|done]|lia]|].
  rewrite <-Hs1 in Hx. pose proof (ok_lookup _ _ _ Hi1 Hx) as Hok1.
  destruct (spans_progress _ Hbuf) as [Hread _].
  assert (Hsize : 0 < size_ (pending x src)) by (destruct Hbuf as (_ & _ & ?); lia).
  specialize (Hread Hsize). set (n := Z.min (readableBytes (pending x src)) budget) in *.
  assert (Hn : 0 < n <= readableBytes (pending x src)) by lia.
  assert (Hdata : len (data (pending x src) n) = n).
  { rewrite data_content by (done || lia). unfold len. rewrite length_take.
    pose proof (len_content _ Hbuf) as Hlc. unfold len, readableBytes in *. lia. }
  wp_step. wp_step. pose proof (k_send (fd (ends x (1 - src)%nat)) (data (pending x src) n) s1.2) as Hk.
  destruct (t_send _ _ s1.2) as [[m|errno] w2]; cbn [fst snd].
  - destruct Hk as (Hopen & Hm & Hc & Hl & Hb). rewrite Hdata in Hm.
    wp_step.
    + wp_step. split; [|done]. split; [|done]. split; [done|].
      assert (m = 0) by lia. subst m. rewrite alter_nothing in Hc by (intros []; cbn; by rewrite app_nil_r).
      assert (Hl2 : later s1 (s1.1, w2)) by (by apply quiet_later).
      split; [by eapply later_trans|]. done.
    + eapply wp_mono; [by eapply (recordSentBytes_spec i src n budget m s1 w2 x); try done; lia|].
      intros o s' [[Hkp Hb'] Hinr]. split; [split|by destruct o as [[]| |]].
      * destruct Hkp as (? & ? & ?). split; [done|]. split; [by eapply later_trans|congruence].
      * destruct o as [[]| |]; try done. destruct Hb'. lia.
  - destruct Hk as [Hq Hlt]. pose proof (quiet_later s1 w2 Hi1 Hq) as Hl2.
    assert (Hl3 : later s (s1.1, w2)) by by eapply later_trans.
    wp_step; [wp_step; split; [split; [done|]|done]; cbn [snd]; specialize (Hlt ltac:(lia)); lia|].
    wp_step.
    + wp_step. eapply wp_mono; [apply observe_keeps, Hl2|].
      intros [b|e|] s' (Hn' & Hl' & Hd'); [wp_step|..]; try done;
        (split; [|by try lia]; split; [|done]; split; [done|]; split; [by eapply later_trans|]);
        rewrite Hd'; done.
    + wp_step. split; [|done]. by split.
Qed.

(** A transfer loop ends within its budget and keeps the invariant. *)
Lemma transfer_loop {B} (body : Z -> M (TcpReactor * W) (Z + B)) (R : B -> Prop) budget i s :
  Inv s -> i ∈ ids s -> 0 <= budget <= kBufferLimit ->
  (forall b s', Inv s' -> i ∈ ids s' -> 0 <= b <= budget ->
     wp (body b) (fun o s'' => turn_ok b s' o s'' /\
                    match o with Ret (inr r) => R r | _ => True end) s') ->
  wp (mloop fuel body budget)
    (fun o s' => keeps s o s' /\ match o with Ret r => R r | _ => True end) s.
Proof.
  intros Hi Hin Hb Hbody.
  apply wp_loop_measure with
    (mu := fun b s' => Z.to_nat (b + Z.of_nat (eintr_left s'.2)))
    (I := fun b s' => 0 <= b <= budget /\ later s s' /\ ids s' = ids s).
  - pose proof (ro_fuel _ _ _ Hi). lia.
  - split; [lia|]. split; [by apply later_refl|done].
  - intros b s' (Hb' & Hl & Hd).
    eapply wp_mono; [apply Hbody; [apply Hl|by rewrite Hd|done]|].
    intros [[b'|r]|e|] s'' [[(Hn & Hl' & Hd') Hturn] Hr]; try done.
    + split; [|lia]. split; [lia|]. split; [by eapply later_trans|congruence].
    + split; [|done]. split; [done|]. split; [by eapply later_trans|congruence].
    + split; [|done]. split; [done|]. split; [by eapply later_trans|congruence].
Qed.

Lemma writeBufferedDirection_spec i src budget s :
  Inv s -> i ∈ ids s -> side_ok src -> 0 <= budget <= kBufferLimit ->
  wp (writeBufferedDirection callbacks_ options_ fuel i src budget)
    (fun o s' => keeps s o s' /\ match o with Ret b => 0 <= b <= kBufferLimit | _ => True end) s.
Proof.
  intros Hi Hin Hsrc Hb. unfold writeBufferedDirection. wp_step.
  eapply wp_mono.
  { apply (transfer_loop _ (fun b => 0 <= b <= kBufferLimit) budget i s); try done.
    intros b s' Hi' Hin' Hb'.
    eapply wp_mono; [apply sendTurn_spec; [done..|lia]|].
    intros o s'' [Ht Hr]. split; [done|]. destruct o as [[|r]| |]; try done. lia. }
  intros [b|e|] s1 [(Hn1 & Hl1 & Hd1) Hb1]; [|done|done].
  pose proof Hl1 as [Hi1 _]. destruct (ids_lookup i s1) as [x1 Hx1]; [by rewrite Hd1|].
  wp_step. wp_step. eapply wp_ses_bind; [exact Hx1|].
  assert (Hfin : forall (o : outcome Z) s', keeps s1 o s' -> keeps s o s').
  { intros o s' (? & ? & ?). split; [done|]. split; [by eapply later_trans|congruence]. }
  wp_step. wp_step. wp_step; [|wp_step; split; [by apply Hfin, keeps_refl|done]].
  wp_step. eapply wp_mono; [by eapply upd_end_keeps|].
  intros [[]|e|] s2 (Hn2 & Hl2 & Hd2); [|split; [by apply Hfin|done]|done].
  eapply wp_mono; [apply observe_keeps, Hl2|].
  intros [[]|e|] s3 (Hn3 & Hl3 & Hd3); [wp_step| |done];
    (split; [apply Hfin; split; [done|]; split; [by eapply later_trans|congruence]|done]).
Qed.

Lemma recordReceivedBytes_spec i src budget chunk n s w2 x :
  Inv s -> sessions_ s.1 !! i = Some x -> side_ok src -> eof (ends x src) = false ->
  is_Some (conn s.2 !! fd (ends x src)) ->
  0 < len chunk <= n -> n <= budget -> n <= writableBytes (pending x src) ->
  conn w2 = alter (fun p => (p.1 ++ chunk, p.2)) (fd (ends x src)) (conn s.2) ->
  live w2 = live s.2 -> bounds_shrink s.2 w2 ->
  wp (recordReceivedBytes callbacks_ i src budget chunk)
    (fun o s' => turn_ok budget s o s' /\ match o with Ret (inr b) => False | _ => True end)
    (s.1, w2).
Proof.
  intros Hi Hx Hsrc Heof Hopen Hlen Hn Hwr Hc Hl Hb. unfold recordReceivedBytes.
  pose proof (ok_lookup _ _ _ Hi Hx) as Hok. pose proof (so_buffer _ _ _ Hok src) as Hbuf.
  assert (Hpos : 0 <= fd (ends x src)).
  { destruct (so_fd _ _ _ Hok _ Hsrc) as [Hneg|[? _]]; [|done].
    rewrite Hneg in Hopen. destruct (ro_owned _ _ _ Hi _ Hopen) as [?|[[? _]|(? & ? & ? & _ & _ & ? & _)]];
      [done|lia|lia]. }
  eapply wp_ses_bind; [exact Hx|].
  destruct (commit_content (pending x src) chunk Hbuf ltac:(lia)) as (b' & -> & Hb' & Hcb').
  unfold upd at 1. do 4 wp_step. cbn [fst snd]. rewrite (alter_Some _ i (sessions_ s.1) _ Hx).
  assert (Hok3 : session_ok w2 i (set_pending src b' x)).
  { eapply session_ok_recv; try done. by eapply Inv_ends_distinct. }
  destruct (later_session s w2 i x (set_pending src b' x) Hi Hx ltac:(done) Hok3)
    with (s' := (set_sessions (<[i := set_pending src b' x]> (sessions_ s.1)) s.1, w2))
    as (Hlat & Hids & Hlk); [..|done|].
  { intros f. rewrite Hc. apply alter_dom. }
  { intros f Hf. rewrite Hc, lookup_alter_ne; [done|]. by apply Hf. }
  { done. }
  { done. }
  match goal with |- wp _ _ ?st => set (s3 := st) in * end.
  clearbody s3. eapply deadline_spec; [apply Hlat|exact Hlk|].
  intros s4 x4 Hl4 Hd4 Hx4 _ _. eapply wp_ses_bind; [exact Hx4|].
  assert (Hfin : forall (o : outcome (Z + unit)) s', keeps s4 o s' -> keeps s o s').
  { intros o s' (? & ? & ?). split; [done|].
    split; [by eapply later_trans, later_trans|congruence]. }
  assert (Hret : forall s', keeps s4 (Ret (inl (budget - len chunk) : Z + unit)) s' ->
    turn_ok budget s (Ret (inl (budget - len chunk) : Z + unit)) s').
  { intros s' Hk. apply Hfin in Hk. split; [done|]. destruct Hk as (_ & [_ ?] & _). lia. }
  wp_step. eapply wp_mono; [apply observe_keeps, Hl4|].
  intros [[]|e|] s5 K5; [|split; [split; [by eapply Hfin, keeps_rethrow|done]|done]|by destruct K5].
  pose proof K5 as (_ & Hl5 & Hd5).
  wp_step. wp_step. wp_step; [|wp_step; split; [by apply Hret|done]].
  destruct (ids_lookup i s5) as [x5 Hx5]; [rewrite Hd5; apply elem_of_dom; by eexists|].
  wp_step. eapply wp_mono; [eapply upd_end_keeps; [apply Hl5|exact Hx5|done..]|].
  intros [[]|e|] s6 K6.
  - eapply wp_mono; [apply observe_keeps, K6|].
    destruct (keeps_composes) as (C1 & C2 & _).
    intros [[]|e|] s7 K7; [wp_step| |by destruct K7].
    + split; [|done]. apply Hret. eapply C1; [exact K5|]. eapply C1; [exact K6|].
      eapply C1; [exact K7|]. apply keeps_refl, K7.
    + split; [|done]. split; [|done]. apply Hfin. eapply C1; [exact K5|].
      eapply C1; [exact K6|]. by eapply C2.
  - split; [|done]. split; [|done]. apply Hfin. destruct (keeps_composes) as (C1 & C2 & _).
    eapply C1; [exact K5|]. by eapply C2.
  - by destruct K6.
Qed.

Lemma receiveTurn_spec i src budget s :
  Inv s -> i ∈ ids s -> side_ok src -> 0 <= budget ->
  wp (receiveTurn callbacks_ options_ fuel i src budget)
    (fun o s' => turn_ok budget s o s' /\ True) s.
Proof.
  intros Hi Hin Hsrc Hbud. unfold receiveTurn. destruct (ids_lookup i s Hin) as [x Hx].
  eapply wp_ses_bind; [exact Hx|].
  wp_step; [wp_step; split; [split; [by apply keeps_refl|done]|done]|].
  wp_step. eapply wp_mono; [by apply consumeStopSignals_still|].
  intros [a|e|] s1 (Hnd & [Hi1 He1] & Hs1); [|by split; [split; [apply still_keeps|]|]|done].
  assert (Hd1 : ids s1 = ids s) by (unfold ids; by rewrite Hs1).
  wp_step; [wp_step; split; [split; [done|done]|done]|].
  rewrite <-Hs1 in Hx.
  set (n := Z.min (writableBytes (pending x src)) budget) in *.
  wp_step; [wp_step; split; [split; [done|done]|done]|].
  assert (Hstep : forall (o : outcome (Z + unit)) s2, keeps s1 o s2 -> match o with Ret (inl _) => False | _ => True end ->
            turn_ok budget s o s2 /\ True).
  { intros o s2 (? & ? & ?) Ho. split; [|done]. split; [|by destruct o as [[]| |]].
    split; [done|]. split; [by eapply later_trans|congruence]. }
  wp_step. wp_step. pose proof (k_recv (fd (ends x src)) n s1.2) as Hk.
  destruct (t_recv _ n s1.2) as [[chunk|errno] w2]; cbn [fst snd].
  - destruct Hk as (Hopen & Hlen & Hc & Hl & Hb).
    destruct chunk as [|c chunk].
    + rewrite alter_nothing in Hc by (intros []; cbn; by rewrite app_nil_r).
      assert (Hl2 : later s1 (s1.1, w2)) by (by apply quiet_later).
      wp_step. eapply wp_mono; [eapply (upd_end_keeps i src _ (s1.1, w2) x); [apply Hl2|done..]|].
      destruct (keeps_composes) as (C1 & C2 & _).
      assert (K2 : keeps s1 (Ret tt) (s1.1, w2)) by by split.
      intros [[]|e|] s3 K3; [| |by destruct K3].
      2: { apply Hstep; [|done]. eapply C1; [exact K2|]. by eapply C2. }
      wp_step. eapply wp_mono; [apply observe_keeps, K3|].
      intros [[]|e|] s4 K4; [wp_step| |by destruct K4]; (apply Hstep; [|done]);
        (eapply C1; [exact K2|]); (eapply C1; [exact K3|]); [|by eapply C2].
      eapply C1; [exact K4|]. apply keeps_refl, K4.
    + assert (Hpos : 0 < len (c :: chunk)) by (rewrite len_cons; pose proof (len_nonneg chunk); lia).
      eapply wp_mono.
      { eapply (recordReceivedBytes_spec i src budget (c :: chunk) n s1 w2 x); try done; lia. }
      intros o s' [[Hkp Hb'] Hinr]. split; [split|done].
      * destruct Hkp as (? & ? & ?). split; [done|]. split; [by eapply later_trans|congruence].
      * destruct o as [[]| |]; try done. destruct Hb'. lia.
  - destruct Hk as [Hq Hlt]. pose proof (quiet_later s1 w2 Hi1 Hq) as Hl2.
    wp_step.
    + wp_step. split; [|done]. split; [split; [done|split; [by eapply later_trans|done]]|].
      cbn [snd]. specialize (Hlt ltac:(lia)). lia.
    + wp_step; wp_step; apply Hstep; done.
Qed.

Lemma readSessionDirection_keeps i src s :
  Inv s -> i ∈ ids s -> side_ok src ->
  wp (readSessionDirection callbacks_ options_ fuel i src) (keeps s) s.
Proof.
  intros Hi Hin Hsrc. unfold readSessionDirection.
  eapply wp_mono; [apply (transfer_loop _ (fun _ => True) kBufferLimit i s); try done|].
  - intros b s' Hi' Hin' Hb'. eapply wp_mono; [apply receiveTurn_spec; [done..|lia]|].
    intros o s'' [Ht _]. split; [done|]. by destruct o as [[]| |].
  - by intros o s' [? _].
Qed.

(** ** Half-close *)

Lemma shutdown_loop target s :
  Inv s ->
  wp (mloop fuel (shutdownTurn callbacks_ options_ fuel target) tt) (still s) s.
Proof.
  intros Hi. apply wp_loop_measure with
    (mu := fun _ s' => eintr_left s'.2)
    (I := fun _ s' => later s s' /\ sessions_ s'.1 = sessions_ s.1).
  - pose proof (ro_fuel _ _ _ Hi). unfold kBufferLimit in *. lia.
  - by split; [apply later_refl|].
  - intros [] s' [Hl Hs]. unfold shutdownTurn. wp_step. wp_step.
    pose proof (k_shutdown (fd target) s'.2) as Hk.
    destruct (t_shutdown (fd target) s'.2) as [[[]|errno] w2]; cbn [fst snd].
    + wp_step. split; [done|]. split; [|done]. eapply later_trans; [exact Hl|].
      apply quiet_later; [apply Hl|done].
    + destruct Hk as [Hq Hlt]. pose proof (quiet_later s' w2 (proj1 Hl) Hq) as Hl2.
      wp_step; [|wp_step; split; [done|]; split; [by eapply later_trans|done]].
      specialize (Hlt ltac:(lia)).
      wp_step. eapply wp_mono; [apply consumeStopSignals_still, Hl2|].
      intros [stop|e|] s3 (Hn3 & Hl3 & Hs3); [|split; [done|]|done].
      * destruct stop; [unfold currentErrno; wp_step; wp_step; wp_step; wp_step; wp_step|wp_step].
        -- split; [done|]. split; [by eapply later_trans, later_trans|by rewrite Hs3].
        -- split; [split; [by eapply later_trans, later_trans|by rewrite Hs3]|].
           destruct Hl3 as [_ Hle]. cbn in Hle. lia.
      * split; [by eapply later_trans, later_trans|by rewrite Hs3].
Qed.

Lemma propagateEof_keeps i sd s :
  Inv s -> i ∈ ids s -> side_ok sd -> wp (propagateEof callbacks_ options_ fuel i sd) (keeps s) s.
Proof.
  intros Hi Hin Hsd. unfold propagateEof. destruct (ids_lookup i s Hin) as [x Hx].
  eapply wp_ses_bind; [exact Hx|]. wp_step; [|by apply ret_keeps].
  wp_step. eapply wp_mono; [by apply shutdown_loop|].
  intros [r|e|] s1 (Hn1 & Hl1 & Hs1); [| |done].
  2: { apply still_keeps. by split. }
  assert (Hd1 : ids s1 = ids s) by (unfold ids; by rewrite Hs1).
  destruct r as [[]|errno]; [|wp_step; by split].
  rewrite <-Hs1 in Hx. pose proof (ok_lookup s1 i x (proj1 Hl1) Hx) as Hok.
  assert (Hflags : eof (ends x sd) = true /\ size_ (pending x sd) = 0).
  { destruct (eof (ends x sd)); [|done]. split; [done|]. lia. }
  destruct Hflags as [Heof Hsz]. unfold upd_end.
  wp_step. eapply upd_spec; [apply Hl1|exact Hx|by apply set_end_same_ends| |].
  - eapply session_ok_flags; try done; [by apply set_end_same_ends|].
    intros j Hj. cbn. destruct (side_cases sd j Hsd Hj) as [->| ->].
    + rewrite (array_set_ne (1 - sd)%nat sd) by (pose proof (side_ne sd Hsd); congruence).
      intros Hsh. destruct (so_half_close _ _ _ Hok sd Hsd Hsh) as [? ?].
      rewrite array_set_eq. done.
    + intros _. rewrite side_twice by done.
      rewrite array_set_ne by (pose proof (side_ne sd Hsd); congruence). done.
  - intros s2 Hl2 Hd2 _. eapply wp_mono; [apply observe_keeps, Hl2|].
    intros o s3 (Hn3 & Hl3 & Hd3). split; [done|].
    split; [by eapply later_trans, later_trans|congruence].
Qed.

Lemma wp_keeps_value {A B} (R : A -> Prop) (m : M (TcpReactor * W) A)
    (k : A -> M (TcpReactor * W) B) s :
  wp m (fun o s' => keeps s o s' /\ match o with Ret a => R a | _ => True end) s ->
  (forall a s', keeps s (Ret a) s' -> R a -> wp (k a) (keeps s') s') ->
  wp (mbind m k) (keeps s) s.
Proof.
  intros Hm Hk. destruct keeps_composes as (C1 & C2 & C3). apply wp_bind.
  eapply wp_mono; [exact Hm|]. intros [a|e|] s' [K Hr]; [|by eapply C2|by destruct K].
  eapply wp_mono; [by apply Hk|]. intros o s'' K'. by eapply C1.
Qed.

Lemma advanceSessionIo_keeps i s :
  Inv s -> i ∈ ids s -> wp (advanceSessionIo callbacks_ options_ fuel i) (keeps s) s.
Proof.
  intros Hi Hin. unfold advanceSessionIo.
  assert (K0 : side_ok 0) by (unfold side_ok; lia). assert (K1 : side_ok 1) by (unfold side_ok; lia).
  assert (Hlim : 0 <= kBufferLimit <= kBufferLimit) by (unfold kBufferLimit; lia).
  eapply wp_keeps_value; [by apply writeBufferedDirection_spec|].
  intros b0 s1 (_ & [Hi1 _] & Hd1) Hb0. eapply wp_keeps_value.
  { apply writeBufferedDirection_spec; [done|by rewrite Hd1|done|done]. }
  intros b1 s2 (_ & [Hi2 _] & Hd2) Hb1.
  assert (Hin2 : i ∈ ids s2) by by rewrite Hd2, Hd1.
  compose; [by apply readSessionDirection_keeps|]. intros _ s3 (_ & [Hi3 _] & Hd3).
  compose; [apply readSessionDirection_keeps; [done|by rewrite Hd3|done]|].
  intros _ s4 (_ & [Hi4 _] & Hd4).
  assert (Hin4 : i ∈ ids s4) by by rewrite Hd4, Hd3.
  eapply wp_keeps_value; [by apply writeBufferedDirection_spec|].
  intros _ s5 (_ & [Hi5 _] & Hd5) _. eapply wp_keeps_value.
  { apply writeBufferedDirection_spec; [done|by rewrite Hd5|done|done]. }
  intros _ s6 (_ & [Hi6 _] & Hd6) _.
  assert (Hin6 : i ∈ ids s6) by by rewrite Hd6, Hd5.
  wp_step. wp_step. wp_step.
  - destruct (ids_lookup i s6 Hin6) as [x Hx]. eapply wp_ses_bind; [exact Hx|]. by apply ret_keeps.
  - compose; [by apply propagateEof_keeps|]. intros _ s7 (_ & [Hi7 _] & Hd7).
    assert (Hin7 : i ∈ ids s7) by by rewrite Hd7.
    compose; [by apply propagateEof_keeps|]. intros _ s8 (_ & [Hi8 _] & Hd8).
    destruct (ids_lookup i s8) as [x Hx]; [by rewrite Hd8|].
    eapply wp_ses_bind; [exact Hx|]. by apply ret_keeps.
Qed.

(** ** Closing a session *)

(** A report between the steps of a change: it ends, and only the outside of the
    reactor changes. *)
Definition silent (s : TcpReactor * W) {A} (o : outcome A) (s' : TcpReactor * W) : Prop :=
  o <> Diverge /\ s'.1 = s.1 /\ quiet s.2 s'.2.

Lemma quiet_trans w w' w'' : quiet w w' -> quiet w' w'' -> quiet w w''.
Proof.
  intros (C1 & L1 & B1) (C2 & L2 & B2).
  split; [congruence|]. split; [congruence|]. by eapply bounds_trans.
Qed.

Lemma silent_outside {A} (m : M W A) s : owner_ok s.2 -> quiet_call m -> wp (outside m) (silent s) s.
Proof. intros Hw Hq. apply wp_outside. by destruct (Hq s.2 Hw). Qed.

Lemma silent_ret {A} (a : A) s : silent s (Ret a) s.
Proof. split_and!; [done..|]. apply quiet_refl. Qed.

Lemma silent_diagnostic op e s : owner_ok s.2 -> wp (reportDiagnostic callbacks_ op e) (silent s) s.
Proof.
  intros Hw. unfold reportDiagnostic. destruct (diagnosticCallback callbacks_) as [f|] eqn:Hs;
    [|apply silent_ret].
  apply silent_outside; [done|]. pose proof (cb_diagnostic _ _ Hcb) as Hc. rewrite Hs in Hc. apply Hc.
Qed.

Lemma silent_observation k a b c s :
  owner_ok s.2 -> wp (reportObservation callbacks_ k a b c) (silent s) s.
Proof.
  intros Hw. eapply wp_mono; [by apply reportObservation_quiet|]. by intros o s' (-> & ? & ?).
Qed.

Lemma silent_detach e s : wp (detachEndpointFromEpoll e) (silent s) s.
Proof.
  unfold detachEndpointFromEpoll. wp_step; [|apply silent_ret].
  wp_step. wp_step. destruct (t_epoll_ctl _ _ _ _ _).1; wp_step;
    (split; [done|split; [done|apply k_epoll_ctl]]).
Qed.

(** A report that ran to its end, or threw and was remembered. *)
Definition statistic (e : StatEvent) (s : TcpReactor * W) {A} (o : outcome A) (s' : TcpReactor * W)
    : Prop :=
  o <> Diverge /\ s'.1 = s.1 /\ conn s'.2 = conn s.2 /\ bounds_shrink s.2 s'.2 /\
  (statisticsCallback callbacks_ <> None -> live s'.2 = live s.2 + live_change e).

Lemma reportStatEvent_raw k n s :
  owner_ok s.2 ->
  (statisticsCallback callbacks_ <> None ->
     countable_event (maxSessions options_) (mkStatEvent k n) (live s.2)) ->
  wp (reportStatEvent callbacks_ k n) (statistic (mkStatEvent k n) s) s.
Proof.
  intros Hw Hcount. unfold reportStatEvent.
  destruct (statisticsCallback callbacks_) as [f|] eqn:Hs.
  - apply wp_outside. pose proof (cb_statistics _ _ Hcb) as Hc. rewrite Hs in Hc.
    by destruct (Hc (mkStatEvent k n) s.2 Hw (Hcount ltac:(done))) as (? & ? & ? & ?).
  - apply wp_ret. split_and!; done.
Qed.

(** Everything but the accounting is silent. *)
Definition nearly_silent (delta : Z) (s s' : TcpReactor * W) : Prop :=
  s'.1 = s.1 /\ conn s'.2 = conn s.2 /\ bounds_shrink s.2 s'.2 /\
  (statisticsCallback callbacks_ <> None -> live s'.2 = live s.2 + delta).

Lemma nearly_silent_trans a b s s' s'' :
  nearly_silent a s s' -> nearly_silent b s' s'' -> nearly_silent (a + b) s s''.
Proof.
  intros (R1 & C1 & B1 & L1) (R2 & C2 & B2 & L2).
  split; [congruence|]. split; [congruence|]. split; [by eapply bounds_trans|]. intros Hs. rewrite L2, L1 by done. lia.
Qed.

Lemma silent_nearly {A} (o : outcome A) s s' : silent s o s' -> nearly_silent 0 s s'.
Proof. intros (_ & R & C & L & B). split; [done|]. split; [done|]. split; [done|]. lia. Qed.

Lemma nearly_owner delta s s' : nearly_silent delta s s' -> owner_ok s.2 -> owner_ok s'.2.
Proof. intros (_ & _ & Hb & _). by apply bounds_owner. Qed.

Lemma attempt_spec delta (m : M (TcpReactor * W) unit) failure s :
  wp m (fun o s' => o <> Diverge /\ nearly_silent delta s s') s ->
  wp (attempt m failure)
    (fun o s' => (exists f, o = Ret f) /\ nearly_silent delta s s') s.
Proof.
  intros Hm. unfold attempt. wp_step. wp_step. eapply wp_mono; [exact Hm|].
  intros [a|e|] s' [Hn Hs]; [wp_step|wp_step|done]; split; eauto.
Qed.

(** Removing a session: its tokens, its descriptors and one live session go. *)
Lemma ok_removed r w w' i x :
  reactor_ok None r w -> sessions_ r !! i = Some x ->
  conn w' = delete (fd (ends x 1%nat)) (delete (fd (ends x 0%nat)) (conn w)) ->
  (statisticsCallback callbacks_ <> None -> live w' = live w - 1) -> bounds_shrink w w' ->
  reactor_ok None
    (set_tokens (unregisterEndpoint (token (ends x 1%nat))
                   (unregisterEndpoint (token (ends x 0%nat)) (tokens_ r)))
       (set_sessions (delete i (sessions_ r)) r)) w'.
Proof.
  intros [Ht He Hha Hs Hd Hfr Hli Ho Hi Hn Ha Hcap Hl Hfu Hw] Hx Hc Hlv [Hei Hac].
  assert (K0 : side_ok 0) by (unfold side_ok; lia). assert (K1 : side_ok 1) by (unfold side_ok; lia).
  assert (Hsides : forall sd, side_ok sd -> sd = 0%nat \/ sd = 1%nat) by (unfold side_ok; lia).
  assert (Hkeep : forall f, (forall sd, side_ok sd -> fd (ends x sd) <> f) -> conn w' !! f = conn w !! f).
  { intros f Hf. rewrite Hc, !lookup_delete_ne by auto. done. }
  assert (Hfd : forall j y sd, sessions_ r !! j = Some y -> side_ok sd -> j <> i ->
            conn w' !! fd (ends y sd) = conn w !! fd (ends y sd)).
  { intros j y sd Hy Hsd Hne. destruct (so_fd _ _ _ (Hs j y Hy) sd Hsd) as [Hneg|[Hpos _]].
    - destruct (conn w !! fd (ends y sd)) eqn:E.
      + destruct (Ho (fd (ends y sd)) ltac:(by rewrite E)) as [?|[[? _]|(? & ? & ? & _ & _ & ? & _)]];
          [done|lia|lia].
      + rewrite Hc. destruct (decide (fd (ends x 1%nat) = fd (ends y sd))) as [->|];
          [by rewrite lookup_delete_eq|rewrite lookup_delete_ne by done].
        destruct (decide (fd (ends x 0%nat) = fd (ends y sd))) as [->|];
          [by rewrite lookup_delete_eq|by rewrite lookup_delete_ne].
    - apply Hkeep. intros sd' Hsd' Heq.
      destruct (Hd j y sd i x sd' Hy Hx Hsd Hsd' Hpos (eq_sym Heq)) as [-> _]. done. }
  split; cbn [tokens_ sessions_ nextSessionId_ listenerFd_ set_tokens set_sessions]; try done.
  - by do 2 apply unregisterEndpoint_ok.
  - intros t target. cbn. intros [Ht1 [Ht0 Htt]%lookup_delete_Some]%lookup_delete_Some.
    destruct (He t target Htt) as (Hside & y & Hy & Htok). split; [done|]. exists y.
    split; [|done]. rewrite lookup_delete_ne; [done|]. intros ->. rewrite Hx in Hy.
    injection Hy as <-. by destruct (Hsides _ Hside) as [Hz|Hz]; rewrite Hz in Htok.
  - intros j y sd [Hj Hy]%lookup_delete_Some Hsd.
    destruct (Hha j y sd Hy Hsd) as [?|Hfe]; [by left|]. right. unfold findEndpoint in *. cbn.
    assert (Hne : forall sd', side_ok sd' -> token (ends x sd') <> token (ends y sd)).
    { intros sd' Hsd' Heq. destruct (Hha i x sd' Hx Hsd') as [Hz|Hfx].
      - rewrite <-Heq, Hz in Hfe. apply (proj2 Ht) in Hfe. lia.
      - rewrite <-Heq in Hfe. unfold findEndpoint in Hfx. congruence. }
    rewrite !lookup_delete_ne by auto. done.
  - intros j y [Hj Hy]%lookup_delete_Some. pose proof (Hs j y Hy) as Hok.
    destruct Hok as [Hid Hb Hf Hst Hsn Hh].
    split; try done; intros sd Hsd; unfold received_from, sent_to in *;
      rewrite ?(Hfd j y) by (auto using side_other); auto.
  - intros j y sd j' y' sd' [_ Hy]%lookup_delete_Some [_ Hy']%lookup_delete_Some. by apply Hd.
  - intros Hp. destruct (Hli Hp) as [Hcl Hnl]. split.
    + rewrite Hkeep; [done|]. intros sd Hsd. by eapply Hnl.
    + intros j y sd [_ Hy]%lookup_delete_Some. by eapply Hnl.
  - intros f Hf. assert (Hf' : is_Some (conn w !! f)).
    { rewrite Hc in Hf. destruct Hf as [p [_ [_ Hp]%lookup_delete_Some]%lookup_delete_Some]. by exists p. }
    destruct (Ho f Hf') as [?|[?|(j & y & sd & Hy & Hsd & Hp & Hfe)]]; [by left|by right; left|].
    destruct (decide (j = i)) as [->|Hj].
    + rewrite Hx in Hy. injection Hy as <-. exfalso. rewrite Hc in Hf. subst f.
      destruct (Hsides _ Hsd) as [->| ->].
      * destruct (decide (fd (ends x 1%nat) = fd (ends x 0%nat))) as [Heq|Hne].
        -- rewrite Heq, lookup_delete_eq in Hf. by destruct Hf.
        -- rewrite lookup_delete_ne, lookup_delete_eq in Hf by done. by destruct Hf.
      * rewrite lookup_delete_eq in Hf. by destruct Hf.
    + right; right. exists j, y, sd. split_and!; try done.
      cbn. by rewrite lookup_delete_ne.
  - intros j [y [_ Hy]%lookup_delete_Some]. apply Hi. by exists y.
  - lia.
  - rewrite map_size_delete_Some by (by eexists). lia.
  - intros Hst. rewrite Hlv, Hl by done. rewrite map_size_delete_Some by (by eexists).
    assert (size (sessions_ r) <> 0%nat); [|lia].
    intros Hz%map_size_empty_inv. rewrite Hz in Hx. by rewrite lookup_empty in Hx.
  - lia.
  - by apply Hac.
Qed.

Lemma detachAndClose_spec e s :
  (0 <= fd e -> is_Some (conn s.2 !! fd e)) ->
  wp (detachAndClose e)
    (fun o s' => (exists c, o = Ret c) /\ s'.1 = s.1 /\
       conn s'.2 = (if 0 <=? fd e then delete (fd e) (conn s.2) else conn s.2) /\
       live s'.2 = live s.2 /\ bounds_shrink s.2 s'.2) s.
Proof.
  intros Hopen. unfold detachAndClose. wp_step.
  assert (Hd : wp (detachEndpointFromEpoll e) (fun o s' => (exists c, o = Ret c) /\ silent s o s') s).
  { unfold detachEndpointFromEpoll. wp_step; [|split; [eauto|apply silent_ret]].
    wp_step. wp_step. destruct (t_epoll_ctl _ _ _ _ _).1; wp_step;
      (split; [eauto|]; split; [done|split; [done|apply k_epoll_ctl]]). }
  eapply wp_mono; [exact Hd|]. intros o s1 ([c ->] & _ & Hr & (Hc & Hl & Hb)).
  wp_step. wp_step; wp_step; wp_step; cbn [fst snd].
  - destruct (k_close (fd e) s1.2) as (Hc' & Hl' & Hb'); [rewrite Hc; apply Hopen; lia|].
    split; [eauto|]. split; [done|]. split; [by rewrite Hc', Hc|]. split; [congruence|].
    by eapply bounds_trans.
  - split; [eauto|]. by split_and!.
Qed.

Lemma ok_no_negative r w f : reactor_ok None r w -> f < 0 -> conn w !! f = None.
Proof.
  intros Hok Hf. destruct (conn w !! f) eqn:E; [|done].
  destruct (ro_owned _ _ _ Hok f ltac:(by rewrite E)) as [?|[[? _]|(? & ? & ? & _ & _ & ? & _)]];
    [done|lia|lia].
Qed.

Lemma reportCloseError_spec c failure s :
  owner_ok s.2 ->
  wp (reportCloseError callbacks_ c failure)
    (fun o s' => (exists f, o = Ret f) /\ nearly_silent 0 s s') s.
Proof.
  intros Hw. unfold reportCloseError. wp_step.
  { wp_step. split; [eauto|]. apply (silent_nearly (Ret tt)), silent_ret. }
  wp_step. eapply wp_mono; [apply (attempt_spec 0)|].
  { eapply wp_mono; [apply reportStatEvent_raw; [done|by intros _ ?]|]. intros o s' (? & ? & ? & ? & Hl).
    split; [done|]. by split. }
  intros o s1 ([f ->] & Hs1). eapply wp_mono; [apply (attempt_spec 0)|].
  { eapply wp_mono; [by eapply silent_diagnostic, nearly_owner|]. intros o s' Hs. split; [apply Hs|].
    by eapply silent_nearly. }
  intros o s2 (? & Hs2). split; [done|]. by apply (nearly_silent_trans 0 0 s s1).
Qed.

(** Both ends can be closed, one after the other. *)
Lemma session_ends_open s i x :
  Inv s -> sessions_ s.1 !! i = Some x ->
  (0 <= fd (ends x 0%nat) -> is_Some (conn s.2 !! fd (ends x 0%nat))) /\
  (0 <= fd (ends x 1%nat) ->
   is_Some ((if 0 <=? fd (ends x 0%nat) then delete (fd (ends x 0%nat)) (conn s.2) else conn s.2)
              !! fd (ends x 1%nat))).
Proof.
  intros Hi Hx. assert (K0 : side_ok 0) by (unfold side_ok; lia).
  assert (K1 : side_ok 1) by (unfold side_ok; lia). pose proof (ro_sessions _ _ _ Hi i x Hx) as Hok.
  destruct (so_fd _ _ _ Hok 0 K0) as [N0|[_ P0]], (so_fd _ _ _ Hok 1 K1) as [N1|[_ P1]];
    (split; intros Hp; [done || lia|]); try lia.
  - destruct (Z.leb_spec 0 (fd (ends x 0%nat))); [lia|done].
  - destruct (Z.leb_spec 0 (fd (ends x 0%nat))); [|done]. rewrite lookup_delete_ne; [done|].
    intros Heq. destruct (ro_distinct _ _ _ Hi i x 0%nat i x 1%nat Hx Hx K0 K1); [done|done|lia].
Qed.

(** Closing removes the session, its descriptors and its tokens in every outcome. *)
Definition session_gone (i : Z) (x : Session) (s s' : TcpReactor * W) : Prop :=
  sessions_ s'.1 = delete i (sessions_ s.1) /\
  tokens_ s'.1 = unregisterEndpoint (token (ends x 1%nat))
                   (unregisterEndpoint (token (ends x 0%nat)) (tokens_ s.1)) /\
  conn s'.2 = delete (fd (ends x 1%nat)) (delete (fd (ends x 0%nat)) (conn s.2)) /\
  (statisticsCallback callbacks_ <> None -> live s'.2 = live s.2 - 1).

Lemma closeSession_full i x reason error s :
  Inv s -> sessions_ s.1 !! i = Some x ->
  wp (closeSession callbacks_ i reason error)
    (fun o s' => o <> Diverge /\ later s s' /\ session_gone i x s s') s.
Proof.
  intros Hi Hx. unfold closeSession. wp_step. wp_step. rewrite Hx.
  wp_step. wp_step. wp_step. wp_step. cbn [fst snd].
  set (r2 := set_tokens _ _).
  destruct (session_ends_open s i x Hi Hx) as [Hopen0 Hopen1]. pose proof (ro_owner _ _ _ Hi) as Hw.
  wp_step. eapply wp_mono; [by apply detachAndClose_spec|].
  intros o s3 ([c0 ->] & Hr3 & Hc3 & Hl3 & Hb3). cbn [fst snd] in *.
  wp_step. eapply wp_mono; [apply detachAndClose_spec; rewrite Hc3; exact Hopen1|].
  intros o s4 ([c1 ->] & Hr4 & Hc4 & Hl4 & Hb4).
  pose proof (bounds_owner _ _ Hb4 (bounds_owner _ _ Hb3 Hw)) as Hw4.
  wp_step. eapply wp_mono; [by apply reportCloseError_spec|]. intros o s5 ([f5 ->] & Hs5).
  pose proof (nearly_owner _ _ _ Hs5 Hw4) as Hw5.
  wp_step. eapply wp_mono; [by apply reportCloseError_spec|]. intros o s6 ([f6 ->] & Hs6).
  pose proof (nearly_owner _ _ _ Hs6 Hw5) as Hw6.
  wp_step. eapply wp_mono.
  { apply (attempt_spec 0). destruct (sessionCallback callbacks_) as [f|] eqn:Hf.
    - eapply wp_mono; [apply silent_outside; [done|]|intros o' s' Hs; split; [apply Hs|by eapply silent_nearly]].
      pose proof (cb_session _ _ Hcb) as Hc. rewrite Hf in Hc. apply Hc.
    - wp_step. split; [done|]. apply (silent_nearly (Ret tt)), silent_ret. }
  intros o s7 ([f7 ->] & Hs7). pose proof (nearly_owner _ _ _ Hs7 Hw6) as Hw7.
  wp_step. eapply wp_mono.
  { apply (attempt_spec (-1)). eapply wp_mono; [apply reportStatEvent_raw; [done|]|].
    { intros Hst _. cbn [amount]. split; [done|]. unfold live_change. cbn [kind].
      destruct (nearly_silent_trans _ _ _ _ _ Hs5 (nearly_silent_trans _ _ _ _ _ Hs6 Hs7))
        as (_ & _ & _ & Hl7). rewrite (Hl7 Hst), Hl4, Hl3, (ro_live _ _ _ Hi Hst).
      pose proof (ro_capacity _ _ _ Hi).
      assert (size (sessions_ s.1) <> 0%nat) by (intros E%map_size_empty_inv; by rewrite E in Hx). lia. }
    intros o' s' (? & ? & ? & ? & Hl). split; [done|]. by split. }
  intros o s8 ([f8 ->] & Hs8). pose proof (nearly_owner _ _ _ Hs8 Hw7) as Hw8.
  wp_step. eapply wp_mono.
  { apply (attempt_spec 0). eapply wp_mono; [by apply silent_observation|].
    intros o' s' Hs. split; [apply Hs|by eapply silent_nearly]. }
  intros o s9 ([f9 ->] & Hs9).
  pose proof (nearly_silent_trans _ _ _ _ _ Hs5 (nearly_silent_trans _ _ _ _ _ Hs6
    (nearly_silent_trans _ _ _ _ _ Hs7 (nearly_silent_trans _ _ _ _ _ Hs8 Hs9)))) as (Hr9 & Hc9 & Hb9 & Hl9).
  assert (Hconn : conn s9.2 = delete (fd (ends x 1%nat)) (delete (fd (ends x 0%nat)) (conn s.2))).
  { rewrite Hc9, Hc4, Hc3.
    pose proof (ok_no_negative _ _ (fd (ends x 0%nat)) Hi) as N0.
    pose proof (ok_no_negative _ _ (fd (ends x 1%nat)) Hi) as N1.
    destruct (Z.leb_spec 0 (fd (ends x 0%nat))), (Z.leb_spec 0 (fd (ends x 1%nat)));
      rewrite ?(delete_id (conn s.2) (fd (ends x 0%nat))) by auto;
      rewrite ?(delete_id (conn s.2) (fd (ends x 1%nat))) by auto; try done.
    rewrite (delete_id (delete _ _) (fd (ends x 1%nat))); [done|].
    rewrite lookup_delete_None. right. by apply N1. }
  assert (Hlive : statisticsCallback callbacks_ <> None -> live s9.2 = live s.2 - 1).
  { intros Hst. rewrite Hl9 by done. rewrite Hl4, Hl3. lia. }
  assert (Hr : s9.1 = r2) by congruence.
  assert (Hfin : later s s9 /\ session_gone i x s s9).
  { split; [split|].
    - unfold Inv. rewrite Hr. unfold r2. apply (ok_removed s.1 s.2); [exact Hi|exact Hx|exact Hconn|exact Hlive|].
      exact (bounds_trans _ _ _ Hb3 (bounds_trans _ _ _ Hb4 Hb9)).
    - destruct Hb3, Hb4, Hb9. lia.
    - split_and!; [by rewrite Hr|by rewrite Hr|exact Hconn|exact Hlive]. }
  destruct f9 as [e|]; [wp_step|wp_step]; (split; [done|exact Hfin]).
Qed.

Lemma closeSession_spec i reason error s :
  Inv s ->
  wp (closeSession callbacks_ i reason error)
    (fun o s' => o <> Diverge /\ later s s' /\ ids s' = ids s ∖ {[i]}) s.
Proof.
  intros Hi. destruct (sessions_ s.1 !! i) as [x|] eqn:Hx.
  - eapply wp_mono; [by eapply closeSession_full|]. intros o s' (Hn & Hl & Hs & _).
    split; [done|]. split; [done|]. unfold ids. rewrite Hs. apply dom_delete_L.
  - unfold closeSession. wp_step. wp_step. rewrite Hx. wp_step. split; [done|].
    split; [by apply later_refl|].
    assert (i ∉ ids s) by (by apply not_elem_of_dom). set_solver.
Qed.

(** ** Work on a session that may end with its closing *)

Definition fine (s : TcpReactor * W) {A} (o : outcome A) (s' : TcpReactor * W) : Prop :=
  o <> Diverge /\ later s s'.

Lemma fine_composes : composes (@fine).
Proof.
  split_and!.
  - intros s A B a o s' s'' (_ & L1) (K1 & L2). split; [done|by eapply later_trans].
  - by intros s A B e s' (_ & ?).
  - by intros s A s' (? & _).
Qed.
Lemma keeps_fine s {A} (o : outcome A) s' : keeps s o s' -> fine s o s'.
Proof. by intros (? & ? & _). Qed.
Lemma close_fine i s {A} (o : outcome A) s' : may_close i s o s' -> fine s o s'.
Proof. by intros (? & ? & _). Qed.
Lemma wp_fine_keeps {A} (m : M (TcpReactor * W) A) s : wp m (keeps s) s -> wp m (fine s) s.
Proof. intros Hm. eapply wp_mono; [exact Hm|]. intros. by apply keeps_fine. Qed.
Lemma wp_fine_close i {A} (m : M (TcpReactor * W) A) s : wp m (may_close i s) s -> wp m (fine s) s.
Proof. intros Hm. eapply wp_mono; [exact Hm|]. intros. by eapply close_fine. Qed.
Lemma wp_close_keeps i {A} (m : M (TcpReactor * W) A) s : wp m (keeps s) s -> wp m (may_close i s) s.
Proof. apply wp_weaken_close. Qed.
Ltac compose_fine := eapply wp_compose; [exact fine_composes| |].

(** A step that keeps the sessions, within weaker postconditions. *)
Lemma wp_keeps_then P {A B} (m : M (TcpReactor * W) A) (k : A -> M (TcpReactor * W) B) s :
  composes P -> (forall s C (o : outcome C) s', keeps s o s' -> P s C o s') ->
  wp m (keeps s) s ->
  (forall a s', Inv s' -> ids s' = ids s -> wp (k a) (P s' B) s') ->
  wp (mbind m k) (P s B) s.
Proof.
  intros (C1 & C2 & C3) Hw Hm Hk. apply wp_bind. eapply wp_mono; [exact Hm|].
  intros [a|e|] s' K; [|by eapply C2, Hw|by destruct K].
  eapply wp_mono; [apply Hk; [apply K|apply K]|]. intros o s'' K'. eapply C1; [|exact K'].
  by apply (Hw s A).
Qed.

Lemma keeps_is_close i s C (o : outcome C) s' : keeps s o s' -> may_close i s o s'.
Proof. apply keeps_close. Qed.
Lemma keeps_is_fine s C (o : outcome C) s' : keeps s o s' -> fine s o s'.
Proof. apply keeps_fine. Qed.
Ltac compose_keeps :=
  lazymatch goal with
  | |- wp (mbind _ _) (may_close ?i _) _ =>
      eapply (wp_keeps_then (@may_close i)); [exact (may_close_composes i)|exact (keeps_is_close i)| |]
  | |- wp (mbind _ _) (fine _) _ =>
      eapply (wp_keeps_then (@fine)); [exact fine_composes|exact keeps_is_fine| |]
  end.

Lemma closeSession_close i reason error s :
  Inv s -> wp (closeSession callbacks_ i reason error) (may_close i s) s.
Proof.
  intros Hi. eapply wp_mono; [by apply closeSession_spec|].
  intros o s' (? & ? & Hd). split_and!; try done; rewrite Hd; set_solver.
Qed.

Lemma closeOnFailure_close i m s :
  wp m (may_close i s) s -> wp (closeOnFailure callbacks_ i m) (may_close i s) s.
Proof.
  intros Hm. unfold closeOnFailure. destruct (may_close_composes i) as (C1 & C2 & C3).
  wp_step. eapply wp_mono; [exact Hm|].
  intros [a|e|] s1 K1; [done| |by destruct K1].
  destruct e; try (wp_step; by eapply C2).
  pose proof K1 as (_ & [Hi1 _] & _).
  assert (K2 : wp (reportStatEvent callbacks_ kError 1 ;;; closeSession callbacks_ i operation error)
                 (may_close i s1) s1).
  { compose; [by apply wp_close_keeps, stat_keeps|].
    intros _ s2 (_ & [Hi2 _] & _). by apply closeSession_close. }
  eapply wp_mono; [exact K2|]. intros o s2 K. eapply (C1 s unit unit tt); [|exact K].
  destruct K1 as (_ & ? & ?). by split.
Qed.

Lemma wp_ses_elem {A} i (k : Session -> M (TcpReactor * W) A) Q s :
  i ∈ ids s -> (forall x, sessions_ s.1 !! i = Some x -> wp (k x) Q s) ->
  wp (mbind (ses i) k) Q s.
Proof.
  intros Hin Hk. destruct (ids_lookup i s Hin) as [x Hx]. eapply wp_ses_bind; [exact Hx|]. by apply Hk.
Qed.

Lemma readSocketError_keeps f s : Inv s -> wp (readSocketError f) (keeps s) s.
Proof.
  intros Hi. unfold readSocketError.
  compose; [by apply quiet_call_keeps; [apply k_socket_error|]|].
  intros [e|e] s1 (_ & [Hi1 _] & _); [by apply ret_keeps|by apply throw_keeps].
Qed.

(** Recording that the connection is established. *)
Lemma connected_keeps {A} i s (k : M (TcpReactor * W) A) :
  Inv s -> i ∈ ids s ->
  (forall s', Inv s' -> i ∈ ids s' -> wp k (keeps s') s') ->
  wp (upd i set_connected ;;;
      now <- call t_now ;;
      upd i (set_deadline (mkTcpIdleDeadline now)) ;;; k) (keeps s) s.
Proof.
  intros Hi Hin Hk. destruct (ids_lookup i s Hin) as [x Hx]. destruct keeps_composes as (C1 & C2 & _).
  pose proof (ok_lookup _ _ _ Hi Hx) as Hok.
  assert (Hflags : forall x x', session_ok s.2 i x -> id x' = id x -> pending x' = pending x ->
    sent x' = sent x -> ends x' = ends x -> session_ok s.2 i x').
  { intros y y' Hy E1 E2 E3 E4. eapply session_ok_flags; try done.
    - intros sd Hsd. by rewrite E4.
    - intros sd Hsd. rewrite E4. by apply (so_half_close _ _ _ Hy). }
  compose.
  { eapply wp_mono; [eapply upd_keeps; try done|by intros ? ? (? & _)]. by eapply Hflags. }
  intros _ s1 (_ & [Hi1 _] & Hd1). compose; [by apply now_keeps|].
  intros now s2 (_ & [Hi2 _] & Hd2). destruct (ids_lookup i s2) as [x2 Hx2]; [by rewrite Hd2, Hd1|].
  pose proof (ok_lookup _ _ _ Hi2 Hx2) as Hok2.
  compose.
  { eapply wp_mono; [eapply upd_keeps; try done|by intros ? ? (? & _)].
    eapply session_ok_flags; try done. intros sd Hsd. by apply (so_half_close _ _ _ Hok2). }
  intros _ s3 (_ & [Hi3 _] & Hd3). apply Hk; [done|]. by rewrite Hd3, Hd2, Hd1.
Qed.

Lemma checkEndpointError_keeps i sd events s :
  Inv s -> i ∈ ids s -> wp (checkEndpointError callbacks_ i sd events) (keeps s) s.
Proof.
  intros Hi Hin. unfold checkEndpointError. apply wp_ses_elem; [done|]. intros x Hx.
  wp_step; [|by apply ret_keeps].
  compose; [by apply observe_keeps|]. intros _ s1 (_ & [Hi1 _] & Hd1).
  compose; [by apply readSocketError_keeps|]. intros error s2 (_ & [Hi2 _] & Hd2).
  compose; [by apply observe_keeps|]. intros _ s3 (_ & [Hi3 _] & Hd3).
  wp_step; [by apply throw_keeps|]. wp_step. wp_step; [|by apply keeps_refl].
  assert (Hin3 : i ∈ ids s3) by by rewrite Hd3, Hd2, Hd1.
  pose proof (connected_keeps i s3 (mret tt) Hi3 Hin3 ltac:(intros; by apply ret_keeps)) as Hc.
  unfold wp in *. cbn in Hc |- *. unfold mbind in *. cbn in *.
  destruct (call t_now _) as [[]]; exact Hc.
Qed.

Lemma suspendHungUp_keeps i sd events before s :
  Inv s -> i ∈ ids s -> wp (suspendHungUp callbacks_ i sd events before) (keeps s) s.
Proof.
  intros Hi Hin. unfold suspendHungUp. apply wp_ses_elem; [done|]. intros x Hx.
  wp_step. wp_step; [|by apply keeps_refl].
  compose; [by apply now_keeps|]. intros now s1 (_ & [Hi1 _] & Hd1).
  destruct (ids_lookup i s1) as [x1 Hx1]; [by rewrite Hd1|].
  compose; [by eapply upd_end_keeps|]. intros _ s2 (_ & [Hi2 _] & Hd2).
  compose; [by apply observe_keeps|]. intros _ s3 (_ & [Hi3 _] & Hd3).
  apply removeEndpoint_keeps; [done|]. by rewrite Hd3, Hd2, Hd1.
Qed.

Lemma advanceIfConnected_keeps i s :
  Inv s -> i ∈ ids s -> wp (advanceIfConnected callbacks_ options_ fuel i) (keeps s) s.
Proof.
  intros Hi Hin. unfold advanceIfConnected. apply wp_ses_elem; [done|]. intros x Hx.
  wp_step; [by apply ret_keeps|by apply advanceSessionIo_keeps].
Qed.

(** The last step of a session's work: close it, or go on. *)
Lemma finishing i (k : M (TcpReactor * W) unit) s (finished : bool) :
  Inv s -> wp k (may_close i s) s ->
  wp (if finished then r <- own (fun r => r) ;; closeSession callbacks_ i (finishReason r) 0 else k)
    (may_close i s) s.
Proof.
  intros Hi Hk. destruct finished; [|done]. wp_step. wp_step. by apply closeSession_close.
Qed.

Lemma dispatchEndpointEvent_spec t events s :
  Inv s ->
  wp (dispatchEndpointEvent callbacks_ options_ fuel t events)
    (fun o s' => fine s o s' /\ ids s' ⊆ ids s /\
       forall i, match findEndpoint t (tokens_ s.1) with
                 | Some target => sessionId target = i
                 | None => False end \/ (i ∈ ids s -> i ∈ ids s')) s.
Proof.
  intros Hi. unfold dispatchEndpointEvent. wp_step. wp_step.
  destruct (findEndpoint t (tokens_ s.1)) as [target|] eqn:Ht.
  2: { eapply wp_mono; [by apply observe_keeps|]. intros o s' (? & ? & Hd).
       split; [done|]. rewrite Hd. split; [done|]. intros i. by right. }
  destruct (ro_entries _ _ _ Hi t target Ht) as (Hside & x & Hx & _).
  assert (Hin : sessionId target ∈ ids s) by (apply elem_of_dom; by eexists).
  eapply wp_mono.
  { apply (closeOnFailure_close (sessionId target)). apply wp_ses_elem; [done|]. intros x' Hx'.
    wp_step; [by apply closeSession_close|].
    compose_keeps; [by apply checkEndpointError_keeps|]. intros _ s1 Hi1 Hd1.
    apply wp_ses_elem; [by rewrite Hd1|]. intros x1 Hx1.
    compose_keeps; [apply advanceIfConnected_keeps; [done|by rewrite Hd1]|].
    intros finished s2 Hi2 Hd2. apply finishing; [done|].
    compose_keeps; [apply suspendHungUp_keeps; [done|by rewrite Hd2, Hd1]|].
    intros _ s3 Hi3 Hd3. apply wp_close_keeps, updateSessionInterests_keeps; [done|].
    by rewrite Hd3, Hd2, Hd1. }
  intros o s' (Hn & Hl & K1 & K2). split; [done|]. split; [done|].
  intros i. destruct (decide (sessionId target = i)); [by left|]. right. intros Hin'.
  apply K1. set_solver.
Qed.

(** ** Deadlines and the drain *)

Lemma clearDeferred_keeps i now sd s :
  Inv s -> i ∈ ids s -> wp (clearDeferred i now sd) (keeps s) s.
Proof.
  intros Hi Hin. unfold clearDeferred. apply wp_ses_elem; [done|]. intros x Hx.
  wp_step; [|by apply ret_keeps].
  compose; [by eapply upd_end_keeps|]. intros _ s1 (_ & [Hi1 _] & _). by apply ret_keeps.
Qed.

Lemma processSessionDeadline_close now i s :
  Inv s -> i ∈ ids s ->
  wp (processSessionDeadline callbacks_ options_ fuel now i) (may_close i s) s.
Proof.
  intros Hi Hin. unfold processSessionDeadline. apply wp_ses_elem; [done|]. intros x Hx.
  wp_step.
  - compose_keeps; [by apply stat_keeps|]. intros _ s1 Hi1 Hd1. by apply closeSession_close.
  - compose_keeps; [by apply clearDeferred_keeps|]. intros r0 s1 Hi1 Hd1.
    compose_keeps; [apply clearDeferred_keeps; [done|by rewrite Hd1]|]. intros r1 s2 Hi2 Hd2.
    wp_step. wp_step; [|by apply keeps_close, keeps_refl].
    apply closeOnFailure_close. compose_keeps; [by apply observe_keeps|]. intros _ s3 Hi3 Hd3.
    assert (Hin3 : i ∈ ids s3) by by rewrite Hd3, Hd2, Hd1.
    compose_keeps; [by apply advanceIfConnected_keeps|]. intros finished s4 Hi4 Hd4.
    apply finishing; [done|]. apply wp_close_keeps, updateSessionInterests_keeps; [done|].
    by rewrite Hd4.
Qed.

Lemma processSessionIds_fine now l s :
  Inv s -> NoDup l -> (forall i, i ∈ l -> i ∈ ids s) ->
  wp (processSessionIds callbacks_ options_ fuel now l) (fine s) s.
Proof.
  intros Hi Hnd. revert s Hi. induction Hnd as [|i l Hni Hnd IH]; intros s Hi Hin; cbn.
  - apply wp_fine_keeps. by apply ret_keeps.
  - wp_step. wp_step. wp_step; [by apply wp_fine_keeps, ret_keeps|].
    destruct fine_composes as (C1 & C2 & C3). wp_step.
    eapply wp_mono; [apply processSessionDeadline_close; [done|set_solver]|].
    intros [a|e|] s1 K; [|by eapply C2, close_fine|by destruct K].
    eapply wp_mono.
    { apply IH; [apply K|]. intros j Hj. destruct K as (_ & _ & K & _). apply K.
      assert (j <> i) by by intros ->. set_solver. }
    intros o s2 K2. eapply (C1 s unit unit a); [by eapply close_fine|exact K2].
Qed.

Lemma order_ids s :
  NoDup (t_order (map_to_list (sessions_ s.1)).*1 s.2) /\
  forall i, i ∈ t_order (map_to_list (sessions_ s.1)).*1 s.2 -> i ∈ ids s.
Proof.
  split.
  - rewrite k_order. apply NoDup_fst_map_to_list.
  - intros i. rewrite k_order. intros (y & Hy & Hi)%list_elem_of_fmap. destruct y as [j x].
    cbn in Hy. subst j. apply elem_of_map_to_list in Hi. apply elem_of_dom. by eexists.
Qed.

Lemma processSessionDeadlines_fine s :
  Inv s -> wp (processSessionDeadlines callbacks_ options_ fuel) (fine s) s.
Proof.
  intros Hi. unfold processSessionDeadlines. wp_step. wp_step.
  wp_step; [by apply wp_fine_keeps, ret_keeps|].
  compose_keeps; [by apply now_keeps|]. intros now s1 Hi1 Hd1.
  compose_keeps.
  { wp_step; [|by apply ret_keeps]. unfold updateEpollRegistration.
    compose.
    - compose; [by apply quiet_call_keeps; [apply k_epoll_ctl|]|].
      intros [[]|e] s2 (_ & [Hi2 _] & _); [by apply ret_keeps|by apply throw_keeps].
    - intros _ s2 (_ & [Hi2 _] & _). by apply wp_weaken_keeps, core_still. }
  intros _ s2 Hi2 Hd2. unfold sessionIds. wp_steps. cbn [fst snd].
  destruct (order_ids s2) as [Hnd Hin]. by apply processSessionIds_fine.
Qed.

Lemma resumeDeferred_keeps i sd s :
  Inv s -> i ∈ ids s -> wp (resumeDeferred i sd) (keeps s) s.
Proof.
  intros Hi Hin. unfold resumeDeferred. compose; [by apply now_keeps|].
  intros now s1 (_ & [Hi1 _] & Hd1). apply wp_ses_elem; [by rewrite Hd1|]. intros x Hx.
  wp_step. wp_step; [by eapply upd_end_keeps|by apply keeps_refl].
Qed.

Lemma advanceStopDrainIds_fine l s :
  Inv s -> NoDup l -> (forall i, i ∈ l -> i ∈ ids s) ->
  wp (advanceStopDrainIds callbacks_ options_ fuel l) (fine s) s.
Proof.
  intros Hi Hnd. revert s Hi. induction Hnd as [|i l Hni Hnd IH]; intros s Hi Hin; cbn.
  - apply wp_fine_keeps. by apply ret_keeps.
  - compose_keeps; [by apply signals_keeps|]. intros _ s1 Hi1 Hd1.
    wp_step. wp_step. wp_step; [by apply wp_fine_keeps, ret_keeps|].
    assert (Hin1 : i ∈ ids s1) by (rewrite Hd1; set_solver).
    destruct fine_composes as (C1 & C2 & C3).
    apply wp_ses_elem; [done|]. intros x Hx. wp_step. apply (wp_mono _ (may_close i s1)).
    { wp_step; [by apply closeSession_close|].
      compose_keeps; [by apply resumeDeferred_keeps|]. intros _ s2 Hi2 Hd2.
      compose_keeps; [apply resumeDeferred_keeps; [done|by rewrite Hd2]|]. intros _ s3 Hi3 Hd3.
      apply wp_ses_elem; [by rewrite Hd3, Hd2|]. intros x3 Hx3.
      eapply wp_mono; [by apply dispatchEndpointEvent_spec|].
      intros o s4 ([Hn4 Hl4] & Hsub & Hkeep). split; [done|]. split; [done|]. split; [|done].
      intros j Hj. destruct (Hkeep j) as [Hj'|Hj']; [|apply Hj'; set_solver].
      assert (Hs0 : side_ok 0) by (unfold side_ok; lia).
      destruct (ro_handles _ _ _ Hi3 i x3 0%nat Hx3 Hs0) as [Hz|Hf].
      - rewrite Hz in Hj'. destruct (findEndpoint 0 (tokens_ s3.1)) eqn:E; [|done].
        apply (proj2 (ro_tokens _ _ _ Hi3)) in E. lia.
      - rewrite Hf in Hj'. cbn in Hj'. set_solver. }
    intros [a|e|] s2 K; [|by eapply C2, close_fine|by destruct K].
    eapply wp_mono.
    { apply IH; [apply K|]. intros j Hj. destruct K as (_ & _ & K & _). apply K.
      assert (j <> i) by by intros ->. rewrite Hd1. set_solver. }
    intros o s3 K2. eapply (C1 s1 unit unit a); [by eapply close_fine|exact K2].
Qed.

Lemma advanceStopDrain_fine s :
  Inv s -> wp (advanceStopDrain callbacks_ options_ fuel) (fine s) s.
Proof.
  intros Hi. unfold advanceStopDrain, sessionIds. wp_steps. cbn [fst snd].
  destruct (order_ids s) as [Hnd Hin]. by apply advanceStopDrainIds_fine.
Qed.

(** ** Connecting *)

(** The new backend socket becomes the second end of the session. *)
Lemma ok_backend_socket s w' i x f :
  Inv s -> sessions_ s.1 !! i = Some x -> fd (ends x 1%nat) = -1 -> opened f s.2 w' ->
  let x' := set_end 1 (set_fd f (ends x 1%nat)) x in
  later s (set_sessions (<[i := x']> (sessions_ s.1)) s.1, w').
Proof.
  intros Hi Hx Hfd1 (Hpos & Hfree & Hc & Hl & [Hei Hac]) x'.
  pose proof Hi as [Ht He Hha Hs Hd Hfr Hli Ho Hids Hn Ha Hcap Hlv Hfu Hwo].
  split; [|done].
  assert (K1 : side_ok 1) by (unfold side_ok; lia). assert (K0 : side_ok 0) by (unfold side_ok; lia).
  assert (Hends0 : ends x' 0%nat = ends x 0%nat) by done.
  assert (Hends1 : ends x' 1%nat = set_fd f (ends x 1%nat)) by done.
  assert (Hsides : forall sd, side_ok sd -> sd = 0%nat \/ sd = 1%nat) by (unfold side_ok; lia).
  assert (Htok : forall sd, side_ok sd -> token (ends x' sd) = token (ends x sd)).
  { intros sd Hsd. by destruct (Hsides sd Hsd) as [->| ->]. }
  assert (Hold : forall j y sd, sessions_ s.1 !! j = Some y -> side_ok sd -> fd (ends y sd) <> f).
  { intros j y sd Hy Hsd Heq. destruct (so_fd _ _ _ (Hs j y Hy) sd Hsd) as [?|[_ Hsome]]; [lia|].
    rewrite Heq, Hfree in Hsome. by destruct Hsome. }
  assert (Hlook : forall g, g <> f -> conn w' !! g = conn s.2 !! g)
    by (intros; by rewrite Hc, lookup_insert_ne).
  assert (Hnew : conn w' !! f = Some ([], [])) by (rewrite Hc; apply lookup_insert_eq).
  assert (Hneg : conn s.2 !! (-1) = None) by (by apply (ok_no_negative s.1 s.2)).
  split; cbn [tokens_ sessions_ nextSessionId_ listenerFd_ set_sessions fst snd]; try done.
  - intros t target Htt. destruct (He t target Htt) as (Hside & y & Hy & Hty). split; [done|].
    destruct (decide (i = sessionId target)) as [->|Hne].
    + exists x'. rewrite lookup_insert_eq. split; [done|]. rewrite Hx in Hy. injection Hy as <-.
      by rewrite Htok.
    + exists y. by rewrite lookup_insert_ne.
  - intros j y sd [[<- <-]|[Hj Hy]]%lookup_insert_Some Hsd; [|by apply Hha].
    rewrite Htok by done. by apply Hha.
  - intros j y [[<- <-]|[Hj Hy]]%lookup_insert_Some.
    + pose proof (Hs i x Hx) as [Hid Hb Hf Hst Hsn Hh].
      assert (Hc0 : conn w' !! fd (ends x 0%nat) = conn s.2 !! fd (ends x 0%nat))
        by (apply Hlook; by apply (Hold i x)).
      pose proof (Hst 0%nat K0) as Hst0. pose proof (Hst 1%nat K1) as Hst1.
      pose proof (Hsn 0%nat K0) as Hsn0. pose proof (Hsn 1%nat K1) as Hsn1.
      unfold received_from, sent_to in *. cbn [Nat.sub] in *. rewrite Hfd1, Hneg in *.
      split; try done.
      * intros sd Hsd. destruct (Hsides sd Hsd) as [->| ->].
        -- rewrite Hends0, Hc0. by apply Hf.
        -- rewrite Hends1. right. cbn. by rewrite Hnew.
      * intros sd Hsd. unfold received_from, sent_to.
        destruct (Hsides sd Hsd) as [->| ->]; cbn [Nat.sub]; rewrite Hends0, Hends1; cbn [fd set_fd];
          rewrite Hnew, Hc0; done.
      * intros sd Hsd. unfold sent_to.
        destruct (Hsides sd Hsd) as [->| ->]; cbn [Nat.sub]; rewrite ?Hends0, ?Hends1; cbn [fd set_fd];
          rewrite ?Hnew, ?Hc0; done.
      * intros sd Hsd Hsh.
        destruct (Hsides sd Hsd) as [->| ->]; cbn [Nat.sub] in *.
        -- by apply (Hh 0%nat K0).
        -- by apply (Hh 1%nat K1).
    + pose proof (Hs j y Hy) as [Hid Hb Hf Hst Hsn Hh].
      assert (Hcy : forall sd, side_ok sd -> conn w' !! fd (ends y sd) = conn s.2 !! fd (ends y sd))
        by (intros sd Hsd; apply Hlook; by apply (Hold j y)).
      split; try done; intros sd Hsd; unfold received_from, sent_to in *;
        rewrite ?Hcy by auto using side_other; auto.
  - assert (Hfdx : forall j y sd, <[i := x']> (sessions_ s.1) !! j = Some y -> side_ok sd ->
              (j = i /\ sd = 1%nat /\ fd (ends y sd) = f) \/
              exists z, sessions_ s.1 !! j = Some z /\ fd (ends y sd) = fd (ends z sd)).
    { intros j y sd [[<- <-]|[Hj Hy]]%lookup_insert_Some Hsd.
      - destruct (Hsides sd Hsd) as [->| ->]; [right; by exists x|by left].
      - right. by exists y. }
    intros j y sd j' y' sd' Hy Hy' Hsd Hsd' Hp Heq.
    destruct (Hfdx j y sd Hy Hsd) as [(-> & -> & E)|(z & Hz & E)],
      (Hfdx j' y' sd' Hy' Hsd') as [(-> & -> & E')|(z' & Hz' & E')]; try done.
    + exfalso. apply (Hold j' z' sd' Hz' Hsd'). congruence.
    + exfalso. apply (Hold j z sd Hz Hsd). congruence.
    + apply (Hd j z sd j' z' sd'); try done; congruence.
  - intros Hp. destruct (Hli Hp) as [Hcl Hnl].
    assert (Hlf : listenerFd_ s.1 <> f) by (intros Heq; rewrite Heq, Hfree in Hcl; by destruct Hcl).
    split; [by rewrite Hlook|].
    intros j y sd [[<- <-]|[Hj Hy]]%lookup_insert_Some Hsd; [|by eapply Hnl].
    destruct (Hsides sd Hsd) as [->| ->]; [by apply (Hnl i x 0%nat)|]. rewrite Hends1. cbn. congruence.
  - intros g Hg. destruct (decide (g = f)) as [->|Hgf].
    + right; right. exists i, x', 1%nat. cbn. rewrite lookup_insert_eq. done.
    + rewrite Hlook in Hg by done. destruct (Ho g Hg) as [?|[?|(j & y & sd & Hy & Hsd & Hp & Hfe)]];
        [by left|by right; left|]. right; right.
      destruct (decide (i = j)) as [<-|Hne].
      * rewrite Hx in Hy. injection Hy as <-. destruct (Hsides sd Hsd) as [->| ->]; [|lia].
        exists i, x', 0%nat. cbn. by rewrite lookup_insert_eq.
      * exists j, y, sd. cbn. by rewrite lookup_insert_ne.
  - intros j [y [[<- _]|[_ Hy]]%lookup_insert_Some]; apply Hids; by eexists.
  - lia.
  - by rewrite map_size_insert_Some by (by eexists).
  - intros Hst. rewrite Hl, Hlv by done. by rewrite map_size_insert_Some by (by eexists).
  - lia.
  - by apply Hac.
Qed.

Lemma registerSide_spec i sd s x :
  Inv s -> sessions_ s.1 !! i = Some x -> side_ok sd -> token (ends x sd) = 0 ->
  wp (registerSide i sd)
    (fun o s' => keeps s o s' /\
       match o with
       | Ret _ => exists fresh, sessions_ s'.1 !! i = Some (set_end sd (set_token fresh (ends x sd)) x)
       | _ => True
       end) s.
Proof.
  intros Hi Hx Hsd Hz. unfold registerSide. wp_step. wp_step.
  pose proof (registerEndpoint_spec i sd (tokens_ s.1) (ro_tokens _ _ _ Hi)) as Hreg.
  destruct (registerEndpoint i sd (tokens_ s.1)) as [[fresh|e|] t'].
  3: by destruct Hreg as (_ & _ & []).
  2: { destruct Hreg as (_ & _ & _ & _ & ->). wp_steps. cbn [fst].
       replace (set_tokens (tokens_ s.1) s.1, s.2) with s by (by destruct s as [[] ?]).
       split; [|done]. by split_and!; [|apply later_refl|]. }
  destruct Hreg as (Ht' & Hmono & -> & Hnext & Hnone & Hent).
  unfold upd_end, upd. wp_steps. cbn [fst snd].
  set (fresh := nextToken_ (tokens_ s.1)) in *. set (x' := set_end sd (set_token fresh (ends x sd)) x).
  cbn [sessions_ set_tokens]. rewrite (alter_Some _ _ _ _ Hx). fold x'.
  split; [|exists fresh; cbn; apply lookup_insert_eq].
  split; [done|]. split; [split; [|done]|unfold ids; cbn; apply dom_insert_lookup_L; by eexists].
  pose proof Hi as [Ht He Hha Hs Hd Hfr Hli Ho Hids Hn Ha Hcap Hlv Hfu Hwo].
  assert (Hfresh : forall t target, entries_ (tokens_ s.1) !! t = Some target -> t <> fresh).
  { intros t target Htt. apply (proj2 Ht) in Htt. lia. }
  assert (Hfd : forall j, side_ok j -> fd (ends x' j) = fd (ends x j)).
  { intros j _. unfold x'. cbn. unfold array_set. by case_decide; subst. }
  assert (Htok : forall j, j <> sd -> token (ends x' j) = token (ends x j)).
  { intros j Hj. unfold x'. cbn. by rewrite array_set_ne. }
  assert (Htok' : token (ends x' sd) = fresh) by (unfold x'; cbn; by rewrite array_set_eq).
  (* the same session with its old token, for the parts that ignore tokens *)
  assert (Hbase : reactor_ok None (set_sessions (<[i := x]> (sessions_ s.1)) s.1) s.2).
  { rewrite insert_id by done. by destruct s as [[] ?]. }
  split; cbn [tokens_ sessions_ nextSessionId_ listenerFd_ set_sessions set_tokens fst snd]; try done.
  - intros t target. rewrite Hent. intros [[<- <-]|[Hne Htt]]%lookup_insert_Some.
    + cbn. split; [done|]. exists x'. by rewrite lookup_insert_eq.
    + destruct (He t target Htt) as (Hside & y & Hy & Hty). split; [done|].
      destruct (decide (i = sessionId target)) as [Heq|Hneq].
      * exists x'. rewrite Heq, lookup_insert_eq. split; [done|].
        rewrite <-Heq, Hx in Hy. injection Hy as <-.
        destruct (decide (side target = sd)) as [Hs'|]; [|by rewrite Htok].
        rewrite Hs', Hz in Hty. subst t. apply (proj2 Ht) in Htt. lia.
      * exists y. by rewrite lookup_insert_ne.
  - intros j y sd' Hy Hsd'. unfold findEndpoint. rewrite Hent.
    apply lookup_insert_Some in Hy as [[<- <-]|[Hj Hy]].
    + destruct (decide (sd' = sd)) as [->|Hne].
      * right. by rewrite Htok', lookup_insert_eq.
      * rewrite Htok by done. destruct (Hha i x sd' Hx Hsd') as [?|Hf]; [by left|]. right.
        rewrite lookup_insert_ne; [done|]. intros Heq. unfold findEndpoint in Hf.
        by apply (Hfresh _ _ Hf).
    + destruct (Hha j y sd' Hy Hsd') as [?|Hf]; [by left|]. right.
      rewrite lookup_insert_ne; [done|]. intros Heq. by apply (Hfresh _ _ Hf).
  - intros j y [[<- <-]|[Hj Hy]]%lookup_insert_Some; [|by apply Hs].
    pose proof (Hs i x Hx) as Hok. eapply session_ok_flags_fd; try done.
    intros sd' Hsd' Hsh. unfold x' in *. cbn in *. unfold array_set in *.
    pose proof (so_half_close _ _ _ Hok sd' Hsd') as Hh.
    assert (Heof : forall j, eof (if decide (j = sd) then set_token fresh (ends x sd) else ends x j) =
                     eof (ends x j)) by (intros j; by destruct (decide (j = sd)) as [->|]).
    assert (Hshut : shutdown (ends x sd') = true) by (destruct (decide (sd' = sd)); [by subst|done]).
    rewrite Heof. by apply Hh.
  - intros j y sd1 j' y' sd2 Hy Hy' K1 K2.
    assert (Hback : forall j y sd, <[i := x']> (sessions_ s.1) !! j = Some y -> side_ok sd ->
              exists z, sessions_ s.1 !! j = Some z /\ fd (ends y sd) = fd (ends z sd)).
    { intros a b c [[<- <-]|[? ?]]%lookup_insert_Some Hc; [exists x; auto|by exists b]. }
    destruct (Hback j y sd1 Hy K1) as (z & Hz1 & ->). destruct (Hback j' y' sd2 Hy' K2) as (z' & Hz2 & ->).
    by apply Hd.
  - intros Hp. destruct (Hli Hp) as [Hcl Hnl]. split; [done|].
    intros j y sd' [[<- <-]|[? ?]]%lookup_insert_Some Hsd'; [rewrite Hfd by done|]; by eapply Hnl.
  - intros g Hg. destruct (Ho g Hg) as [?|[?|(j & y & sd' & Hy & Hsd' & Hp & Hfe)]];
      [by left|by right; left|]. right; right. destruct (decide (i = j)) as [<-|Hne].
    + rewrite Hx in Hy. injection Hy as <-. exists i, x', sd'.
      rewrite Hfd by done. split_and!; try done. cbn [sessions_ set_sessions]. by rewrite lookup_insert_eq.
    + exists j, y, sd'. cbn. by rewrite lookup_insert_ne.
  - intros j [y [[<- _]|[_ Hy]]%lookup_insert_Some]; apply Hids; by eexists.
  - by rewrite map_size_insert_Some by (by eexists).
  - intros Hst. rewrite Hlv by done. by rewrite map_size_insert_Some by (by eexists).
Qed.

Lemma connectSessionBackend_keeps i s x :
  Inv s -> sessions_ s.1 !! i = Some x -> fd (ends x 1%nat) = -1 ->
  (forall sd, side_ok sd -> token (ends x sd) = 0) ->
  wp (connectSessionBackend callbacks_ i) (keeps s) s.
Proof.
  intros Hi Hx Hfd Htok. unfold connectSessionBackend. destruct keeps_composes as (C1 & C2 & C3).
  wp_step. wp_step. pose proof (k_socket s.2) as Hk. destruct (t_socket s.2) as [[f|errno] w1]; cbn [fst snd].
  2: { wp_step. split; [done|]. split; [apply quiet_later; [done|apply Hk]|done]. }
  pose proof (ok_backend_socket s w1 i x f Hi Hx Hfd Hk) as Hl1.
  unfold upd_end at 1, upd at 1. wp_step. wp_step. cbn [fst snd]. rewrite (alter_Some _ _ _ _ Hx).
  set (x1 := set_end 1 (set_fd f (ends x 1%nat)) x) in *.
  match goal with |- wp _ _ ?st => set (s1 := st) in * end.
  assert (Hk1 : keeps s (Ret tt) s1).
  { split; [done|]. split; [exact Hl1|]. apply dom_insert_lookup_L. by eexists. }
  assert (Hx1 : sessions_ s1.1 !! i = Some x1) by apply lookup_insert_eq.
  clearbody s1. eapply wp_mono with (Q := keeps s1).
  2: { intros o s' K. eapply (C1 s unit unit tt); [exact Hk1|exact K]. }
  pose proof Hk1 as (_ & [Hi1 _] & Hd1).
  assert (K0 : side_ok 0) by (unfold side_ok; lia). assert (K1 : side_ok 1) by (unfold side_ok; lia).
  cbn [mfor]. compose.
  { wp_step. eapply wp_mono; [by apply (registerSide_spec i 0 s1 x1 Hi1 Hx1 K0), (Htok 0%nat)|].
    intros [[]|e|] s2 [K2 Hs2]; [|done|by destruct K2]. destruct Hs2 as [fresh Hx2].
    eapply wp_mono with (Q := keeps s2); [|intros o s' K; by eapply C1].
    compose; [|intros _ s3 (_ & [Hi3 _] & _); by apply ret_keeps].
    eapply wp_mono.
    - eapply (registerSide_spec i 1 s2); [apply K2|exact Hx2|done|]. by apply (Htok 1%nat).
    - by intros o s' [K _]. }
  intros _ s2 (_ & [Hi2 _] & Hd2).
  assert (Hin2 : i ∈ ids s2) by (rewrite Hd2; apply elem_of_dom; by eexists).
  apply wp_ses_elem; [done|]. intros x2 Hx2.
  compose; [by apply quiet_call_keeps; [apply k_connect|]|].
  intros connected s3 (_ & [Hi3 _] & Hd3). assert (Hin3 : i ∈ ids s3) by by rewrite Hd3.
  compose; [|intros _ s4 (_ & [Hi4 _] & Hd4); apply updateSessionInterests_keeps; [done|by rewrite Hd4]].
  destruct connected as [[]|errno].
  - apply connected_keeps; [done|done|]. intros s' Hi' _. by apply observe_keeps.
  - wp_step; [by apply observe_keeps|by apply throw_keeps].
Qed.

(** ** Accepting *)

Lemma ok_accepted r w w' f :
  reactor_ok None r w -> opened f w w' -> (accepts_left w' < accepts_left w)%nat ->
  reactor_ok (Some f) r w'.
Proof.
  intros [Ht He Hha Hs Hd Hfr Hli Ho Hids Hn Ha Hcap Hl Hfu Hw] (Hpos & Hfree & Hc & Hlv & [Hei Hb]) Hac.
  assert (Hold : forall j y sd, sessions_ r !! j = Some y -> side_ok sd -> fd (ends y sd) <> f).
  { intros j y sd Hy Hsd Heq. destruct (so_fd _ _ _ (Hs j y Hy) sd Hsd) as [?|[_ Hsome]]; [lia|].
    rewrite Heq, Hfree in Hsome. by destruct Hsome. }
  assert (Hlook : forall g, g <> f -> conn w' !! g = conn w !! g)
    by (intros; by rewrite Hc, lookup_insert_ne).
  assert (Hlist : listenerFd_ r <> f).
  { intros Heq. destruct Hli as [Hsome _]; [lia|]. rewrite Heq, Hfree in Hsome. by destruct Hsome. }
  split; try done.
  - intros j y Hy. pose proof (Hs j y Hy) as [Hid Hbf Hf Hst Hsn Hh].
    assert (Hcy : forall sd, side_ok sd -> conn w' !! fd (ends y sd) = conn w !! fd (ends y sd))
      by (intros sd Hsd; apply Hlook; by apply (Hold j y)).
    split; try done; intros sd Hsd; unfold received_from, sent_to in *;
      rewrite ?Hcy by auto using side_other; auto.
  - intros g [= <-]. split_and!; [by rewrite Hc, lookup_insert_eq|done|exact Hold].
  - intros Hp. destruct (Hli Hp) as [Hcl Hnl]. split; [by rewrite Hlook|done].
  - intros g Hg. destruct (decide (g = f)) as [->|Hgf]; [by left|].
    rewrite Hlook in Hg by done. destruct (Ho g Hg) as [?|[?|?]]; [done|by right; left|by right; right].
  - lia.
  - by rewrite Hlv.
  - lia.
  - by apply Hb.
Qed.

Lemma front_open r w f : reactor_ok (Some f) r w -> is_Some (conn w !! f).
Proof. intros Hi. destruct (ro_front _ _ _ Hi f eq_refl) as [Hf _]. by eexists. Qed.

(** The descriptor of a refused client is closed. *)
Lemma ok_refused r w f : reactor_ok (Some f) r w -> reactor_ok None r (t_close f w).
Proof.
  intros Hi. destruct (k_close f w (front_open _ _ _ Hi)) as (Hc & Hlv & Hei & Hac).
  destruct Hi as [Ht He Hha Hs Hd Hfr Hli Ho Hids Hn Ha Hcap Hl Hfu Hw].
  destruct (Hfr f eq_refl) as (Hcf & Hlf & Hnf).
  assert (Hlook : forall g, g <> f -> conn (t_close f w) !! g = conn w !! g)
    by (intros; by rewrite Hc, lookup_delete_ne).
  split; try done.
  - intros j y Hy. pose proof (Hs j y Hy) as [Hid Hb Hf Hst Hsn Hh].
    assert (Hcy : forall sd, side_ok sd -> conn (t_close f w) !! fd (ends y sd) = conn w !! fd (ends y sd))
      by (intros sd Hsd; apply Hlook; by apply (Hnf j y)).
    split; try done; intros sd Hsd; unfold received_from, sent_to in *;
      rewrite ?Hcy by auto using side_other; auto.
  - intros Hp. destruct (Hli Hp) as [Hcl Hnl]. split; [by rewrite Hlook|done].
  - intros g Hg. destruct (decide (g = f)) as [->|Hgf].
    { rewrite Hc, lookup_delete_eq in Hg. by destruct Hg. }
    rewrite Hlook in Hg by done. destruct (Ho g Hg) as [[=]|[?|?]]; [by subst|by right; left|by right; right].
  - lia.
  - by rewrite Hlv.
  - lia.
  - by apply Hac.
Qed.

(** The client of the new session: its descriptor moves into the session. *)
Definition clientSession (i front : Z) (b : Endpoint) (now : Z) : Session :=
  set_end 0 (set_fd front newEndpointState) (newSession i b now).

Lemma session_ok_client w i front b now :
  0 <= front -> conn w !! front = Some ([], []) -> conn w !! (-1) = None ->
  session_ok w i (clientSession i front b now).
Proof.
  intros Hpos Hf Hneg.
  assert (K0 : ends (clientSession i front b now) 0%nat = set_fd front newEndpointState) by done.
  assert (K1 : ends (clientSession i front b now) 1%nat = newEndpointState) by done.
  assert (Hsides : forall sd, side_ok sd -> sd = 0%nat \/ sd = 1%nat) by (unfold side_ok; lia).
  split; [done|intros sd; exact (proj1 newBuffer_ok)|..].
  - intros sd Hsd. destruct (Hsides sd Hsd) as [->| ->]; [rewrite K0|rewrite K1; by left].
    right. cbn. by rewrite Hf.
  - intros sd Hsd. unfold received_from, sent_to.
    destruct (Hsides sd Hsd) as [->| ->]; cbn [Nat.sub]; rewrite K0, K1; cbn [fd set_fd newEndpointState];
      by rewrite Hf, Hneg.
  - intros sd Hsd. unfold sent_to.
    destruct (Hsides sd Hsd) as [->| ->]; cbn [Nat.sub]; rewrite ?K0, ?K1; cbn [fd set_fd newEndpointState];
      by rewrite ?Hf, ?Hneg.
  - intros sd Hsd. by destruct (Hsides sd Hsd) as [->| ->].
Qed.

Lemma ok_insert r w w' f b now :
  reactor_ok (Some f) r w -> 0 <= f -> Z.of_nat (size (sessions_ r)) < maxSessions options_ ->
  nearly_silent 1 (r, w) (r, w') ->
  let i := nextSessionId_ r in
  reactor_ok None
    (set_sessions (<[i := clientSession i f b now]> (sessions_ r)) (set_nextSessionId (u64 (i + 1)) r)) w'.
Proof.
  intros [Ht He Hha Hs Hd Hfr Hli Ho Hids Hn Ha Hcap Hl Hfu Hw] Hpos Hroom
    (_ & Hc & [Hei Hac] & Hlv) i. cbn [fst snd] in *.
  destruct (Hfr f eq_refl) as (Hcf & Hlf & Hnf).
  assert (Hfresh : sessions_ r !! i = None).
  { destruct (sessions_ r !! i) eqn:E; [|done]. pose proof (Hids i ltac:(by rewrite E)). lia. }
  assert (Hnext : u64 (i + 1) = i + 1) by (apply u64_small; lia).
  assert (Hneg : conn w !! (-1) = None).
  { destruct (conn w !! (-1)) eqn:E; [|done].
    destruct (Ho (-1) ltac:(by rewrite E)) as [[=]|[[? _]|(? & ? & ? & _ & _ & ? & _)]]; lia. }
  assert (Hsides : forall sd, side_ok sd -> sd = 0%nat \/ sd = 1%nat) by (unfold side_ok; lia).
  assert (Hin : forall j y, <[i := clientSession i f b now]> (sessions_ r) !! j = Some y ->
            j = i /\ y = clientSession i f b now \/ j <> i /\ sessions_ r !! j = Some y).
  { intros j y [[<- <-]|[? ?]]%lookup_insert_Some; auto. }
  assert (Hfds : forall sd, side_ok sd -> 0 <= fd (ends (clientSession i f b now) sd) ->
            sd = 0%nat /\ fd (ends (clientSession i f b now) sd) = f).
  { intros sd Hsd. destruct (Hsides sd Hsd) as [->| ->]; [done|].
    intros Hp. exfalso. change (0 <= -1) in Hp. lia. }
  split; cbn [tokens_ sessions_ nextSessionId_ listenerFd_ set_sessions set_nextSessionId]; try done.
  - intros t target Htt. destruct (He t target Htt) as (Hside & y & Hy & Hty). split; [done|].
    exists y. rewrite lookup_insert_ne; [done|]. intros Heq. congruence.
  - intros j y sd Hy Hsd. destruct (Hin j y Hy) as [[-> ->]|[_ Hy']]; [|by apply Hha].
    left. by destruct (Hsides sd Hsd) as [->| ->].
  - intros j y Hy. destruct (Hin j y Hy) as [[-> ->]|[_ Hy']].
    + apply session_ok_client; by rewrite ?Hc.
    + eapply session_ok_conn; eauto.
  - intros j y sd j' y' sd' Hy Hy' Hsd Hsd' Hp Heq.
    destruct (Hin j y Hy) as [[-> ->]|[_ Hz]], (Hin j' y' Hy') as [[-> ->]|[_ Hz']].
    + split; [done|]. destruct (Hfds sd Hsd Hp) as [-> _].
      by destruct (Hfds sd' Hsd' ltac:(by rewrite <-Heq)) as [-> _].
    + destruct (Hfds sd Hsd Hp) as [_ E]. exfalso. apply (Hnf j' y' sd' Hz' Hsd'). congruence.
    + destruct (Hfds sd' Hsd' ltac:(by rewrite <-Heq)) as [_ E]. exfalso.
      apply (Hnf j y sd Hz Hsd). congruence.
    + by apply (Hd j y sd j' y' sd').
  - intros Hp. destruct (Hli Hp) as [Hcl Hnl]. split; [by rewrite Hc|].
    intros j y sd Hy Hsd Heq. destruct (Hin j y Hy) as [[-> ->]|[_ Hz]]; [|by eapply Hnl].
    destruct (Hfds sd Hsd ltac:(by rewrite Heq)) as [_ E]. congruence.
  - intros g Hg. rewrite Hc in Hg. destruct (Ho g Hg) as [[= <-]|[?|(j & y & sd & Hy & Hsd & Hp & Hfe)]].
    + right; right. exists i, (clientSession i f b now), 0%nat.
      split_and!; [apply lookup_insert_eq|by unfold side_ok; lia|done|done].
    + by right; left.
    + right; right. exists j, y, sd. split_and!; try done. cbn [sessions_ set_sessions].
      rewrite lookup_insert_ne; [done|]. intros Heq. congruence.
  - intros j [y Hy]. rewrite Hnext. destruct (Hin j y Hy) as [[-> _]|[_ Hz]]; [lia|].
    pose proof (Hids j ltac:(by eexists)). lia.
  - lia.
  - rewrite Hnext. lia.
  - rewrite map_size_insert_None by done. lia.
  - intros Hst. rewrite Hlv, Hl by done. rewrite map_size_insert_None by done. lia.
  - lia.
  - by apply Hac.
Qed.

Lemma addSession_fine f b s :
  reactor_ok (Some f) s.1 s.2 -> 0 <= f -> Z.of_nat (size (sessions_ s.1)) < maxSessions options_ ->
  wp (addSession callbacks_ f b)
    (fun o s' => o <> Diverge /\ Inv s' /\ (eintr_left s'.2 <= eintr_left s.2)%nat) s.
Proof.
  intros Hi Hpos Hroom. unfold addSession. wp_step. wp_step. wp_step. wp_step.
  pose proof (k_now s.2) as Hq. set (now := (t_now s.2).1) in *. set (w1 := (t_now s.2).2) in *.
  wp_step. wp_step. wp_step. wp_step. cbn [fst snd].
  set (i := nextSessionId_ s.1). cbn [sessions_ set_nextSessionId].
  change (set_end 0 (set_fd f newEndpointState) (newSession i b now)) with (clientSession i f b now).
  set (r2 := set_sessions _ _).
  wp_step. eapply wp_mono; [apply reportStatEvent_raw|].
  { destruct Hq as (_ & _ & Hb). by apply (bounds_owner _ _ Hb), (ro_owner _ _ _ Hi). }
  { intros Hst _. cbn [amount fst snd]. split; [done|]. unfold live_change. cbn [kind].
    destruct Hq as (_ & Hl & _). rewrite Hl, (ro_live _ _ _ Hi Hst). lia. }
  intros o s3 (Hn3 & Hr3 & Hc3 & Hb3 & Hl3).
  cbn [fst snd] in *.
  assert (Hi3 : Inv s3).
  { unfold Inv. rewrite Hr3. apply (ok_insert s.1 s.2); [done|done|done|].
    destruct Hq as (Hc & Hl & Hb). split; [done|]. split; [cbn [fst snd]; congruence|]. split.
    - by eapply bounds_trans.
    - intros Hst. cbn [fst snd]. rewrite Hl3 by done. by rewrite Hl. }
  assert (He3 : (eintr_left s3.2 <= eintr_left s.2)%nat).
  { destruct Hq as (_ & _ & Hb & _), Hb3. lia. }
  destruct o as [[]|e|]; [|done|done].
  assert (Hlk : sessions_ s3.1 !! i = Some (clientSession i f b now)) by (rewrite Hr3; apply lookup_insert_eq).
  enough (Hk : wp ((match sessionCallback callbacks_ with
     | Some g => outside (g (mkSessionEvent i b true (bs "accepted") 0 (0, 0)))
     | None => badFunctionCall
     end) ;;; closeOnFailure callbacks_ i (connectSessionBackend callbacks_ i)) (fine s3) s3).
  { eapply wp_mono; [exact Hk|]. intros o s4 (Hn4 & Hi4 & He4). split; [done|]. split; [done|lia]. }
  destruct (sessionCallback callbacks_) as [g|] eqn:Hg.
  2: { by split; [|apply later_refl]. }
  wp_step. wp_step. pose proof (cb_session _ _ Hcb) as Hcs. rewrite Hg in Hcs.
  destruct (Hcs (mkSessionEvent i b true (bs "accepted") 0 (0, 0)) s3.2 (ro_owner _ _ _ Hi3)) as [Hnd Hq4].
  pose proof (quiet_later s3 _ Hi3 Hq4) as Hl4.
  destruct (g _ s3.2) as [[[]|e|] w4]; cbn [fst snd] in *; [|by split|done].
  eapply wp_mono.
  - apply (wp_fine_close i), closeOnFailure_close, wp_close_keeps.
    eapply (connectSessionBackend_keeps i (s3.1, w4)); [apply Hl4|exact Hlk|done|].
    intros sd Hsd. by destruct sd as [|[|]].
  - intros o s5 [Hn5 Hl5]. split; [done|]. by eapply later_trans.
Qed.

(** Steps before the client's descriptor is closed. *)
Definition before_close (f : Z) (s : TcpReactor * W) {A} (o : outcome A) (s' : TcpReactor * W) : Prop :=
  o <> Diverge /\ nearly_silent 0 s s'.

Lemma wp_closingFront f s (m : M (TcpReactor * W) unit) :
  reactor_ok (Some f) s.1 s.2 ->
  wp m (fun o s' => o <> Diverge /\ nearly_silent 0 s s') s ->
  wp (closingFront f m)
    (fun o s' => o <> Diverge /\ Inv s' /\ (eintr_left s'.2 <= eintr_left s.2)%nat) s.
Proof.
  intros Hi Hm. unfold wp, closingFront in *. destruct (m s) as [o [r w]]. cbn [fst snd] in *.
  destruct Hm as [Hn (Hr & Hc & Hb & Hl)]. cbn [fst snd] in *. subst r.
  split; [done|].
  destruct (k_close f w) as (_ & _ & Hei & _); [rewrite Hc; by eapply front_open|].
  split; [|destruct Hb; lia].
  unfold Inv. cbn [fst snd]. apply ok_refused.
  destruct Hi as [Ht He Hha Hs Hd Hfr Hli Ho Hids Hnx Ha Hcap Hlv Hfu Hwo].
  destruct Hb as [Hb1 Hb2]. split; rewrite ?Hc; try done.
  - intros i x Hx. eapply session_ok_conn; eauto.
  - lia.
  - intros Hst. rewrite Hl, Hlv by done. lia.
  - lia.
  - by apply Hb2.
Qed.

Lemma rejected_silent s :
  owner_ok s.2 ->
  wp (reportStatEvent callbacks_ kRejected 1) (fun o s' => o <> Diverge /\ nearly_silent 0 s s') s.
Proof.
  intros Hw. eapply wp_mono; [apply reportStatEvent_raw; [done|by intros _ ?]|].
  intros o s' (? & ? & ? & ? & Hl). split; [done|]. by split.
Qed.

Lemma admitClient_fine f s :
  reactor_ok (Some f) s.1 s.2 -> 0 <= f ->
  wp (admitClient callbacks_ options_ f)
    (fun o s' => o <> Diverge /\ Inv s' /\ (eintr_left s'.2 <= eintr_left s.2)%nat) s.
Proof.
  intros Hi Hpos. unfold admitClient. wp_step. wp_step.
  assert (Hi1 : reactor_ok (Some f) (set_warning false s.1) s.2) by (eapply ok_same_core; [exact Hi|done]).
  set (s1 := (set_warning false s.1, s.2)). change (eintr_left s.2) with (eintr_left s1.2).
  change (reactor_ok (Some f) s1.1 s1.2) in Hi1. clearbody s1.
  pose proof (ro_owner _ _ _ Hi1) as Hw1. wp_step. wp_step. wp_step.
  { apply wp_closingFront; [done|]. wp_step. eapply wp_mono; [by apply rejected_silent|].
    intros [a|e|] s2 [Hn Hs2]; [|done|done].
    eapply wp_mono; [by eapply silent_observation, nearly_owner|].
    intros o s3 Hs3. split; [apply Hs3|].
    apply (nearly_silent_trans 0 0 s1 s2); [done|by eapply silent_nearly]. }
  wp_step. unfold closingFrontOnThrow. wp_step. destruct (backendSelector callbacks_) as [g|] eqn:Hg.
  - wp_step. pose proof (cb_selector _ _ Hcb) as Hc. rewrite Hg in Hc.
    destruct (Hc s1.2 Hw1) as [Hnd Hq]. destruct (g s1.2) as [[choice|e|] w2]; cbn [fst snd] in *; [| |done].
    + pose proof (ok_quiet _ _ _ _ Hi1 Hq) as Hi2. destruct Hq as (_ & _ & Hb & _).
      destruct choice as [b|].
      * eapply wp_mono; [apply (addSession_fine f b (s1.1, w2)); [done|done|cbn [fst]; lia]|].
        intros o s3 (? & ? & ?). split; [done|]. split; [done|]. cbn [snd] in *. lia.
      * eapply wp_mono; [apply (wp_closingFront f (s1.1, w2)); [done|by apply rejected_silent, Hi2]|].
        intros o s3 (? & ? & ?). split; [done|]. split; [done|]. cbn [snd] in *. lia.
    + pose proof (ok_quiet _ _ _ _ Hi1 Hq) as Hi2. destruct Hq as (_ & _ & Hb & _).
      wp_step. wp_step. wp_step. split; [done|]. split; [by apply ok_refused|].
      destruct (k_close f w2 (front_open _ _ _ Hi2)) as (_ & _ & ? & _). cbn [snd]. lia.
  - unfold badFunctionCall. wp_step. wp_step. wp_step. wp_step. split; [done|].
    split; [by apply ok_refused|]. destruct (k_close f s1.2 (front_open _ _ _ Hi1)) as (_ & _ & ? & _). done.
Qed.

Lemma fine_throw {A} e s : Inv s -> wp (mthrow e) (fine s (A:=A)) s.
Proof. intros Hi. by split; [|apply later_refl]. Qed.

Lemma updateEpollRegistration_keeps op f t m s :
  Inv s -> wp (updateEpollRegistration op f t m) (keeps s) s.
Proof.
  intros Hi. unfold updateEpollRegistration.
  compose; [by apply quiet_call_keeps; [apply k_epoll_ctl|]|].
  intros [[]|e] s2 (_ & [Hi2 _] & _); [by apply ret_keeps|by apply throw_keeps].
Qed.

Lemma core_keeps f s : same_core s.1 (f s.1) -> Inv s -> wp (update f) (keeps s) s.
Proof. intros. by apply wp_weaken_keeps, core_still. Qed.

Lemma backOffListener_keeps s :
  Inv s -> wp (backOffListener callbacks_) (keeps s) s.
Proof.
  intros Hi. unfold backOffListener. compose; [by apply stat_keeps|]. intros _ s1 (_ & [Hi1 _] & _).
  wp_step. wp_step. compose.
  { wp_step; [|by apply ret_keeps]. destruct (diagnosticCallback callbacks_) as [g|] eqn:Hg.
    - unfold currentErrno. wp_step. wp_step. wp_step. wp_step.
      apply wp_weaken_keeps, wp_weaken_still, quiet_outside_same; [|done].
      pose proof (cb_diagnostic _ _ Hcb) as Hc. rewrite Hg in Hc. apply Hc.
    - by apply throw_keeps. }
  intros _ s2 (_ & [Hi2 _] & _). compose; [by apply core_keeps|]. intros _ s3 (_ & [Hi3 _] & _).
  compose; [by apply updateEpollRegistration_keeps|]. intros _ s4 (_ & [Hi4 _] & _).
  compose; [by apply now_keeps|]. intros now s5 (_ & [Hi5 _] & _).
  compose; [by apply core_keeps|]. intros _ s6 (_ & [Hi6 _] & _). by apply observe_keeps.
Qed.

(** The accept loop: at most 64 attempts and the interruptions still to come. *)
Lemma acceptClientSessions_fine s :
  Inv s -> wp (acceptClientSessions callbacks_ options_ fuel) (fine s) s.
Proof.
  intros Hi. unfold acceptClientSessions.
  apply wp_loop_measure with
    (mu := fun n s' => Z.to_nat (64 - n + Z.of_nat (eintr_left s'.2)))
    (I := fun n s' => 0 <= n <= 64 /\ later s s').
  - pose proof (ro_fuel _ _ _ Hi). unfold kBufferLimit in *. lia.
  - split; [lia|by apply later_refl].
  - intros n s1 [Hn Hl]. unfold acceptTurn. wp_step; [wp_step; by split|].
    wp_step. eapply wp_mono; [apply consumeStopSignals_still, Hl|].
    intros [stop|e|] s2 (Hnd2 & Hl2 & _); [|split; [done|by eapply later_trans]|done].
    assert (Hls2 : later s s2) by by eapply later_trans.
    destruct Hl2 as [Hi2 He2].
    wp_step; [wp_step; by split|]. wp_step. wp_step. wp_step. wp_step.
    pose proof (k_accept (listenerFd_ s2.1) s2.2) as Hk.
    destruct (t_accept (listenerFd_ s2.1) s2.2) as [[f|errno] w3]; cbn [fst snd].
    + destruct Hk as [Hop Hac].
      pose proof (ok_accepted s2.1 s2.2 w3 f Hi2 Hop Hac) as Hi3.
      destruct Hop as (Hpos & _ & _ & _ & [He3 _]).
      wp_step. eapply wp_mono; [by apply (admitClient_fine f (s2.1, w3))|].
      cbn [fst snd]. destruct Hls2 as [_ Hes].
      intros [[]|e|] s4 (Hn4 & Hi4 & He4); [wp_step| |done].
      * split; [split; [lia|split; [done|lia]]|lia].
      * split; [done|]. split; [done|lia].
    + destruct Hk as [Hq Hlt]. pose proof (quiet_later s2 w3 Hi2 Hq) as Hl3.
      assert (Hls3 : later s (s2.1, w3)) by by eapply later_trans.
      destruct Hl3 as [Hi3 He3]. cbn [snd] in He3.
      wp_step; [wp_step; by split|]. wp_step.
      { wp_step. specialize (Hlt ltac:(lia)). split; [by split|]. cbn [snd]. lia. }
      wp_step.
      { wp_step. eapply wp_mono; [by apply reportStatEvent_same|].
        intros [[]|e|] s4 (Hn4 & Hl4 & _); [wp_step| |done].
        - split; [split; [lia|by eapply later_trans]|]. destruct Hl4 as [_ He4]. cbn [snd] in He4. lia.
        - split; [done|by eapply later_trans]. }
      wp_step; [|wp_step; by split].
      wp_step. eapply wp_mono; [by apply backOffListener_keeps|].
      intros [[]|e|] s4 (Hn4 & Hl4 & _); [wp_step| |done]; (split; [done|by eapply later_trans]).
Qed.

Lemma dispatchTcpReadyEvents_fine events s :
  Inv s -> wp (dispatchTcpReadyEvents callbacks_ options_ fuel events) (fine s) s.
Proof.
  revert s. induction events as [|[t mask] events IH]; intros s Hi; cbn.
  - by apply wp_fine_keeps, ret_keeps.
  - compose_keeps; [by apply signals_keeps|]. intros _ s1 Hi1 _.
    wp_step. wp_step. wp_step; [by apply wp_fine_keeps, ret_keeps|].
    compose_fine; [|intros _ s2 [_ [Hi2 _]]; by apply IH].
    wp_step.
    + wp_step; [by apply wp_fine_keeps, ret_keeps|]. wp_step; [by apply fine_throw|].
      compose_keeps; [by apply now_keeps|]. intros now s2 Hi2 _.
      wp_step. wp_step; [by apply acceptClientSessions_fine|]. by apply keeps_fine, keeps_refl.
    + wp_step. wp_step; [|by apply keeps_fine, keeps_refl].
      eapply wp_mono; [by apply dispatchEndpointEvent_spec|]. by intros o s2 [? _].
Qed.

(** Closing everything empties the session table, also when callbacks throw. *)
Lemma closeAllSessionsLoop_empties turns reason failure s :
  Inv s -> (size (sessions_ s.1) <= turns)%nat ->
  wp (closeAllSessionsLoop callbacks_ turns reason failure)
    (fun o s' => fine s o s' /\ sessions_ s'.1 = ∅) s.
Proof.
  revert failure s. induction turns as [|turns IH]; intros failure s Hi Hsz; cbn;
    wp_step; wp_step; wp_step; wp_step; destruct (order_ids s) as [_ Hin];
    pose proof (k_order (map_to_list (sessions_ s.1)).*1 s.2) as Hperm;
    destruct (t_order (map_to_list (sessions_ s.1)).*1 s.2) as [|i l].
  1,3: assert (Hempty : sessions_ s.1 = ∅)
         by (apply map_to_list_empty_iff, (fmap_nil_inv fst), Permutation_nil; by rewrite Hperm);
       destruct failure; wp_step; (split; [split; [done|by apply later_refl]|done]).
  - exfalso. assert (Hz : size (sessions_ s.1) = 0%nat) by lia.
    apply map_size_empty_inv in Hz. rewrite Hz, map_to_list_empty in Hperm.
    symmetry in Hperm. by apply Permutation_nil_cons in Hperm.
  - assert (Hi' : i ∈ ids s) by (apply Hin; set_solver).
    unfold attempt. wp_step. wp_step. wp_step. eapply wp_mono; [by apply closeSession_spec|].
    intros o s1 (Hn1 & Hl1 & Hd1).
    assert (Hsz1 : (size (sessions_ s1.1) <= turns)%nat).
    { unfold ids in *. rewrite <-size_dom, Hd1 in *. rewrite size_difference by set_solver.
      rewrite size_singleton. lia. }
    destruct o as [[]|e|]; [wp_step|wp_step|done];
      (eapply wp_mono; [by apply IH; [apply Hl1|]|]);
      intros o s2 [[Hn2 Hl2] Hs2]; (split; [|done]); (split; [done|by eapply later_trans]).
Qed.

Lemma closeAllSessions_empties reason s :
  Inv s ->
  wp (closeAllSessions callbacks_ reason) (fun o s' => fine s o s' /\ sessions_ s'.1 = ∅) s.
Proof.
  intros Hi. unfold closeAllSessions. wp_step. wp_step. by apply closeAllSessionsLoop_empties.
Qed.

(** ** The event loop *)

Lemma pollTimeout_keeps s : Inv s -> wp (pollTimeout (W:=W)) (keeps s) s.
Proof.
  intros Hi. unfold pollTimeout. wp_step. wp_step. wp_step; [|by apply ret_keeps].
  compose; [by apply now_keeps|]. intros now s1 (_ & [Hi1 _] & _). by apply ret_keeps.
Qed.

(** A turn of the loop ends, keeps the invariant and, when it leaves the loop,
    leaves no session behind. *)
Lemma eventLoopTurn_spec s :
  Inv s ->
  wp (eventLoopTurn callbacks_ options_ fuel tt)
    (fun o s' => fine s o s' /\
       match o with Ret (inr code) => code = 0 /\ sessions_ s'.1 = ∅ | _ => True end) s.
Proof.
  intros Hi. unfold eventLoopTurn. destruct fine_composes as (C1 & C2 & C3).
  assert (Hseq : forall {A} s1 (a : A) (m : M (TcpReactor * W) (unit + Z)) s2,
    fine s1 (Ret a) s2 ->
    wp m (fun o s' => fine s2 o s' /\
       match o with Ret (inr code) => code = 0 /\ sessions_ s'.1 = ∅ | _ => True end) s2 ->
    wp m (fun o s' => fine s1 o s' /\
       match o with Ret (inr code) => code = 0 /\ sessions_ s'.1 = ∅ | _ => True end) s2).
  { intros A s1 a m s2 Hf Hm. eapply wp_mono; [exact Hm|]. intros o s' [K ?].
    split; [by eapply C1|done]. }
  assert (Hbind : forall {A} (m : M (TcpReactor * W) A) (k : A -> M (TcpReactor * W) (unit + Z)) s1,
    wp m (fine s1) s1 ->
    (forall a s2, Inv s2 -> wp (k a) (fun o s' => fine s2 o s' /\
       match o with Ret (inr code) => code = 0 /\ sessions_ s'.1 = ∅ | _ => True end) s2) ->
    wp (mbind m k) (fun o s' => fine s1 o s' /\
       match o with Ret (inr code) => code = 0 /\ sessions_ s'.1 = ∅ | _ => True end) s1).
  { intros A m k s1 Hm Hk. wp_step. eapply wp_mono; [exact Hm|].
    intros [a|e|] s2 K; [|split; [by eapply C2|done]|by destruct K].
    eapply Hseq; [exact K|]. apply Hk, K. }
  apply Hbind; [by apply wp_fine_keeps, signals_keeps|]. intros _ s1 Hi1.
  wp_step. wp_step. wp_step.
  { wp_step. eapply wp_mono; [by apply closeAllSessions_empties|].
    intros [[]|e|] s2 [K2 Hs2]; [wp_step|split; [by eapply C2|done]|by destruct K2].
    split; [by split; [|apply K2]|done]. }
  apply Hbind; [wp_step; [by apply advanceStopDrain_fine|by apply processSessionDeadlines_fine]|].
  intros _ s2 Hi2. wp_step. wp_step. wp_step.
  { wp_step. split; [by split; [|apply later_refl]|]. split; [done|].
    apply map_size_empty_inv. bool_to_prop. done. }
  apply Hbind; [by apply wp_fine_keeps, pollTimeout_keeps|]. intros timeout s3 Hi3.
  apply Hbind; [by apply wp_fine_keeps, observe_keeps|]. intros _ s4 Hi4.
  apply Hbind; [by apply wp_fine_keeps, quiet_call_keeps; [apply k_epoll_wait|]|].
  intros [events|errno] s5 Hi5.
  2: { wp_step; wp_step; (split; [by split; [|apply later_refl]|done]). }
  apply Hbind; [by apply wp_fine_keeps, signals_keeps|]. intros _ s6 Hi6.
  wp_step. wp_step. wp_step; [wp_step; by split; [split; [|apply later_refl]|]|].
  apply Hbind.
  { wp_step; [by apply wp_fine_keeps, ret_keeps|].
    compose_fine; [by apply processSessionDeadlines_fine|]. intros _ s7 [_ [Hi7 _]].
    wp_step. wp_step. destruct (maintenanceCallback callbacks_) as [g|] eqn:Hg.
    - wp_step. wp_step; [|by apply keeps_fine, keeps_refl].
      apply wp_fine_keeps, wp_weaken_keeps, wp_weaken_still, quiet_outside_same; [|done].
      pose proof (cb_maintenance _ _ Hcb) as Hc. by rewrite Hg in Hc.
    - by apply wp_fine_keeps, ret_keeps. }
  intros _ s7 Hi7. apply Hbind; [by apply dispatchTcpReadyEvents_fine|].
  intros _ s8 Hi8. wp_step. by split; [split; [|apply later_refl]|].
Qed.

(** The listening socket is the only descriptor before the first turn. *)
Record fresh_start (listener : Z) (w : W) : Prop := {
  fs_listener : 0 <= listener;
  fs_conn : conn w = {[listener := ([], [])]};
  fs_live : live w = 0;
  fs_accepts : 1 + Z.of_nat (accepts_left w) < 2 ^ 64;
  fs_fuel : kBufferLimit + 70 + Z.of_nat (eintr_left w) < Z.of_nat fuel;
  fs_owner : owner_ok w
}.

Lemma fresh_Inv listener w : fresh_start listener w -> Inv (initialTcpReactor listener, w).
Proof.
  intros [Hl Hc Hlv Ha Hf Hw].
  split; cbn [tokens_ sessions_ nextSessionId_ listenerFd_ initialTcpReactor fst snd]; try done.
  - intros _. rewrite Hc, lookup_singleton_eq. split; [done|]. intros i s sd. by rewrite lookup_empty.
  - intros f. rewrite Hc. intros [p [<- _]%lookup_singleton_Some]. right; left. done.
  - intros i. rewrite lookup_empty. by intros [? ?].
  - lia.
  - rewrite map_size_empty. lia.
Qed.

Lemma eventLoop_spec turns s :
  Inv s ->
  wp (mloop turns (eventLoopTurn callbacks_ options_ fuel) tt)
    (fun o s' => Inv s' /\ match o with Ret code => code = 0 /\ sessions_ s'.1 = ∅ | _ => True end) s.
Proof.
  intros Hi. apply wp_loop with (I := fun _ s' => Inv s'); [done| |done].
  intros [] s' Hi'. eapply wp_mono; [by apply eventLoopTurn_spec|].
  intros [[[]|code]|e|] s'' [[Hn [Hi'' _]] Hr]; try done.
Qed.

Lemma runTcpEventLoop_spec turns listener w :
  fresh_start listener w ->
  wp (runTcpEventLoop callbacks_ options_ fuel turns)
    (fun o s' => Inv s' /\ match o with Ret code => code = 0 /\ sessions_ s'.1 = ∅ | _ => True end)
    (initialTcpReactor listener, w).
Proof.
  intros Hw. pose proof (fresh_Inv _ _ Hw) as Hi. unfold runTcpEventLoop.
  wp_step. destruct (readyCallback callbacks_) as [g|] eqn:Hg.
  - pose proof (cb_ready _ _ Hcb) as Hc. rewrite Hg in Hc.
    wp_step. destruct (Hc w (ro_owner _ _ _ Hi)) as [Hnd Hq]. pose proof (quiet_later _ _ Hi Hq) as [Hi1 _].
    cbn [fst snd] in *. destruct (g w) as [[[]|e|] w1]; cbn [fst snd] in *; [|done|done].
    by apply eventLoop_spec.
  - by split.
Qed.

Lemma destroyed s :
  Inv s ->
  wp (destroyTcpReactor callbacks_) (fun o s' => o = Ret tt /\ Inv s' /\ sessions_ s'.1 = ∅) s.
Proof.
  intros Hi. unfold destroyTcpReactor. wp_step. eapply wp_mono; [by apply closeAllSessions_empties|].
  intros [[]|e|] s1 [[Hn1 [Hi1 _]] Hs1]; [done|wp_step; done|done].
Qed.

Lemma runReactorObject_releases turns listener w o w' :
  fresh_start listener w -> runReactorObject callbacks_ options_ fuel turns listener w = (o, w') ->
  o <> Diverge ->
  conn w' = ∅ /\ (statisticsCallback callbacks_ <> None -> live w' = 0) /\ owner_ok w'.
Proof.
  intros Hw Hrun Hnd. unfold runReactorObject in Hrun.
  pose proof (runTcpEventLoop_spec turns listener w Hw) as [Hi _].
  destruct (runTcpEventLoop callbacks_ options_ fuel turns (initialTcpReactor listener, w)) as [o1 s1].
  cbn [fst snd] in Hi.
  pose proof (destroyed s1 Hi) as (_ & Hi2 & Hs2).
  destruct (destroyTcpReactor callbacks_ s1) as [o2 [r2 w2]]. cbn [fst snd] in *.
  assert (Hw' : w' = closeMember (listenerFd_ r2) w2) by (destruct o1; simplify_eq; done).
  subst w'. unfold closeMember.
  assert (Hown : forall f, is_Some (conn w2 !! f) -> 0 <= listenerFd_ r2 /\ listenerFd_ r2 = f).
  { intros f Hf. destruct (ro_owned _ _ _ Hi2 f Hf) as [?|[[K <-]|(i & x & sd & Hx & _)]]; [done|exact (conj K eq_refl)|].
    cbn [fst] in Hx. by rewrite Hs2, lookup_empty in Hx. }
  pose proof (ro_live _ _ _ Hi2) as Hlive. cbn [fst snd] in Hlive. rewrite Hs2, map_size_empty in Hlive.
  destruct (Z.leb_spec 0 (listenerFd_ r2)) as [Hp|Hp].
  - destruct (k_close (listenerFd_ r2) w2) as (Hc & Hl & Hb); [by apply (ro_listener _ _ _ Hi2)|].
    split; [|split; [intros Hst; rewrite Hl; by apply Hlive|]].
    2: { by apply (bounds_owner _ _ Hb), (ro_owner _ _ _ Hi2). }
    apply map_empty. intros f. rewrite Hc. destruct (decide (f = listenerFd_ r2)) as [->|Hne].
    + apply lookup_delete_eq.
    + rewrite lookup_delete_ne by done. destruct (conn w2 !! f) eqn:E; [|done].
      destruct (Hown f ltac:(by rewrite E)) as [_ ?]. congruence.
  - split; [|split; [done|apply (ro_owner _ _ _ Hi2)]].
    apply map_empty. intros f. destruct (conn w2 !! f) eqn:E; [|done].
    destruct (Hown f ltac:(by rewrite E)) as [? _]. lia.
Qed.

(** ** What a finished session has done *)

Lemma drained_streams w i x :
  session_ok w i x -> (forall sd, side_ok sd -> size_ (pending x sd) = 0) ->
  forall sd, side_ok sd -> received_from w (fd (ends x sd)) = sent_to w (fd (ends x (1 - sd)%nat)).
Proof.
  intros Hok Hz sd Hsd. rewrite (so_stream _ _ _ Hok sd Hsd).
  unfold content. rewrite (Hz sd Hsd). cbn. by rewrite app_nil_r.
Qed.

Definition everything_forwarded (i : Z) (s : TcpReactor * W) : Prop :=
  exists x, sessions_ s.1 !! i = Some x /\ forall sd, side_ok sd ->
    size_ (pending x sd) = 0 /\
    received_from s.2 (fd (ends x sd)) = sent_to s.2 (fd (ends x (1 - sd)%nat)).

Lemma advanceSessionIo_complete i s :
  Inv s -> i ∈ ids s ->
  wp (advanceSessionIo callbacks_ options_ fuel i)
    (fun o s' => match o with Ret true => everything_forwarded i s' | _ => True end) s.
Proof.
  intros Hi Hin. unfold advanceSessionIo.
  assert (K0 : side_ok 0) by (unfold side_ok; lia). assert (K1 : side_ok 1) by (unfold side_ok; lia).
  assert (Hsides : forall sd, side_ok sd -> sd = 0%nat \/ sd = 1%nat) by (unfold side_ok; lia).
  assert (Hlim : 0 <= kBufferLimit <= kBufferLimit) by (unfold kBufferLimit; lia).
  assert (Hstep : forall A (R : A -> Prop) (m : M (TcpReactor * W) A) (k : A -> M (TcpReactor * W) bool) s1 Q,
    wp m (fun o s' => keeps s1 o s' /\ match o with Ret a => R a | _ => True end) s1 -> i ∈ ids s1 ->
    (forall a s2, Inv s2 -> i ∈ ids s2 -> R a -> wp (k a) (fun o s' => match o with Ret true => Q s' | _ => True end) s2) ->
    wp (mbind m k) (fun o s' => match o with Ret true => Q s' | _ => True end) s1).
  { intros A R m k s1 Q Hm Hin1 Hk. wp_step. eapply wp_mono; [exact Hm|].
    intros [a|e|] s2 [K Hr]; [|done|done]. apply Hk; [apply K|by eapply keeps_elem|done]. }
  assert (Hplain : forall A (m : M (TcpReactor * W) A) s1,
    wp m (keeps s1) s1 -> wp m (fun o s' => keeps s1 o s' /\ match o with Ret a => True | _ => True end) s1).
  { intros A m s1 Hm. eapply wp_mono; [exact Hm|]. intros o s2 K. split; [done|by destruct o]. }
  eapply Hstep; [by apply writeBufferedDirection_spec|done|]. intros b0 s1 Hi1 Hin1 Hb0.
  eapply Hstep; [by apply writeBufferedDirection_spec|done|]. intros b1 s2 Hi2 Hin2 Hb1.
  eapply Hstep; [by apply Hplain, readSessionDirection_keeps|done|]. intros _ s3 Hi3 Hin3 _.
  eapply Hstep; [by apply Hplain, readSessionDirection_keeps|done|]. intros _ s4 Hi4 Hin4 _.
  eapply Hstep; [by apply writeBufferedDirection_spec|done|]. intros _ s5 Hi5 Hin5 _.
  eapply Hstep; [by apply writeBufferedDirection_spec|done|]. intros _ s6 Hi6 Hin6 _.
  wp_step. wp_step. wp_step.
  - apply wp_ses_elem; [done|]. intros x Hx. wp_step. destruct (_ && _) eqn:E; [|done].
    bool_to_prop. assert (Hz : forall sd, side_ok sd -> size_ (pending x sd) = 0)
      by (intros sd Hsd; by destruct (Hsides sd Hsd) as [->| ->]).
    exists x. split; [done|]. intros sd Hsd. split; [by apply Hz|].
    eapply drained_streams; [by eapply ok_lookup|done|done].
  - eapply Hstep; [by apply Hplain, propagateEof_keeps|done|]. intros _ s7 Hi7 Hin7 _.
    eapply Hstep; [by apply Hplain, propagateEof_keeps|done|]. intros _ s8 Hi8 Hin8 _.
    apply wp_ses_elem; [done|]. intros x Hx. wp_step. destruct (_ && _) eqn:E; [|done].
    bool_to_prop. pose proof (ok_lookup _ _ _ Hi8 Hx) as Hok.
    assert (Hz : forall sd, side_ok sd -> size_ (pending x sd) = 0).
    { intros sd Hsd. rewrite <-(side_twice sd Hsd).
      apply (so_half_close _ _ _ Hok (1 - sd)%nat (side_other _ Hsd)).
      by destruct (Hsides sd Hsd) as [->| ->]. }
    exists x. split; [done|]. intros sd Hsd. split; [by apply Hz|].
    by eapply drained_streams.
Qed.

(** ** The drain deadline *)

Definition past_deadline (s : TcpReactor * W) : Prop := drainDeadline_ s.1 <= clock s.2.

Lemma readStopSignal_drain s :
  owner_ok s.2 -> draining_ s.1 = true ->
  wp (readStopSignal callbacks_ options_ tt)
    (fun o s' => draining_ s'.1 = true /\ drainDeadline_ s'.1 = drainDeadline_ s.1 /\
       bounds_shrink s.2 s'.2 /\
       match o with Ret (inr true) => stopRequested_ s'.1 = true | _ => True end) s.
Proof.
  intros Hw Hd. unfold readStopSignal. wp_step. wp_step.
  pose proof (k_read_signal s.2) as Hk. destruct (t_read_signal s.2) as [[n|e] w1]; cbn [fst snd].
  - destruct Hk as (_ & _ & Hb). wp_step; [|by wp_step].
    wp_step. wp_step. cbn [fst]. rewrite Hd. wp_step. wp_step. wp_step.
    eapply wp_mono; [by apply reportObservation_quiet, (bounds_owner _ _ Hb)|].
    intros o s2 (-> & Hr & _ & _ & Hb'). wp_step. cbn [snd] in Hb'. rewrite Hr.
    split; [done|]. split; [done|]. split; [by eapply bounds_trans|done].
  - destruct Hk as [(_ & _ & Hb) _]. wp_step; [by wp_step|]. wp_step; by wp_step.
Qed.

Lemma consumeStopSignals_deadline s :
  owner_ok s.2 -> draining_ s.1 = true -> past_deadline s ->
  wp (consumeStopSignals callbacks_ options_ fuel)
    (fun o s' => match o with Ret _ => stopRequested_ s'.1 = true | _ => True end) s.
Proof.
  intros Hw Hd Hp. unfold consumeStopSignals. wp_step. wp_step. wp_step; [by wp_step|].
  wp_step. apply wp_loop with
    (I := fun _ s' => owner_ok s'.2 /\ draining_ s'.1 = true /\ past_deadline s'); [done| |done].
  intros [] s1 (Hw1 & Hd1 & Hp1). eapply wp_mono; [by apply readStopSignal_drain|].
  intros [[[]|forced]|e|] s2 (Hd2 & Hdl2 & Hb2 & Hs2); try done.
  { split; [by apply (bounds_owner _ _ Hb2)|]. split; [done|].
    unfold past_deadline in *. rewrite Hdl2. destruct Hb2 as (_ & _ & ? & _). lia. }
  pose proof (bounds_owner _ _ Hb2 Hw1) as Hw2.
  wp_step; [by wp_step|]. wp_step. wp_step. rewrite Hd2. wp_step. wp_step. wp_step. wp_step.
  pose proof (k_now s2.2) as (_ & _ & Hb3).
  wp_step; [|exfalso; pose proof (k_clock s2.2); unfold past_deadline in *; destruct Hb2; lia].
  wp_step. wp_step.
  eapply wp_mono; [by apply reportObservation_quiet, (bounds_owner _ _ Hb3)|]. intros o s3 (-> & Hr & _).
  wp_step. by rewrite Hr.
Qed.
End invariant.
