(* ===== verification/TcpReactorTheorems.v ===== *)
(** * What the TCP reactor guarantees

    The properties of the event loop that follow from the invariant of
    [TcpReactorSafety], for every kernel that behaves as documented and every set
    of callbacks, and a scripted kernel on which they are instantiated. *)
From S2P Require Import Prelude Config Metrics TcpState TcpReactor TcpReactorSafety.

#[local] Set Default Proof Using "All".

Section theorems.
Context {W : Type} `{TcpKernel W}.

(** The states between two turns of the event loop. *)
Inductive tcp_reachable (callbacks_ : TcpReactorCallbacks W) (options_ : TcpReactorOptions)
    (fuel : nat) : TcpReactor * W -> Prop :=
| reach_start listener w :
    fresh_start fuel listener w ->
    tcp_reachable callbacks_ options_ fuel (initialTcpReactor listener, w)
| reach_turn s s' :
    tcp_reachable callbacks_ options_ fuel s ->
    eventLoopTurn callbacks_ options_ fuel tt s = (Ret (inl tt), s') ->
    tcp_reachable callbacks_ options_ fuel s'.

Lemma reachable_Inv callbacks_ options_ fuel s :
  callbacks_ok (maxSessions options_) callbacks_ -> tcp_reachable callbacks_ options_ fuel s ->
  Inv callbacks_ options_ fuel s.
Proof.
  intros Hcb Hr. induction Hr as [listener w Hw|s s' Hr IH Ht].
  - by apply fresh_Inv.
  - pose proof (eventLoopTurn_spec callbacks_ options_ fuel Hcb s IH) as Hs.
    unfold wp in Hs. rewrite Ht in Hs. apply Hs.
Qed.

(** C1: no byte is lost, reordered, duplicated or invented.  After any number of
    turns of the event loop, on every kernel and with every callbacks, the bytes
    received from each side of each session are exactly the bytes sent to the
    other side followed by the bytes still queued; the queue never exceeds
    64 KiB; the byte counter reported for the session is the number of bytes
    sent modulo 2^64; and a side was shut down for writing only after the end of
    the other side's stream with nothing left to forward. *)
Theorem tcp_stream_integrity callbacks_ options_ fuel turns listener w o r w' :
  callbacks_ok (maxSessions options_) callbacks_ -> fresh_start fuel listener w ->
  runTcpEventLoop callbacks_ options_ fuel turns (initialTcpReactor listener, w) = (o, (r, w')) ->
  forall i s sd, sessions_ r !! i = Some s -> side_ok sd ->
    received_from w' (fd (ends s sd)) =
      sent_to w' (fd (ends s (1 - sd)%nat)) ++ content (pending s sd) /\
    len (content (pending s sd)) <= kBufferLimit /\
    sent s sd = u64 (len (sent_to w' (fd (ends s (1 - sd)%nat)))) /\
    (shutdown (ends s sd) = true ->
       eof (ends s (1 - sd)%nat) = true /\ content (pending s (1 - sd)%nat) = []).
Proof.
  intros Hcb Hw Hrun i s sd Hs Hsd.
  destruct (runTcpEventLoop_spec callbacks_ options_ fuel Hcb turns listener w Hw) as [Hi _].
  rewrite Hrun in Hi. cbn [fst snd] in Hi. pose proof (ro_sessions _ _ _ _ _ _ Hi i s Hs) as Hok.
  pose proof (so_buffer _ _ _ Hok sd) as Hb.
  split_and!; [by apply (so_stream _ _ _ Hok)| |by apply (so_sent _ _ _ Hok)|].
  - rewrite len_content by done. apply Hb.
  - intros Hsh. destruct (so_half_close _ _ _ Hok sd Hsd Hsh) as [? Hz].
    split; [done|]. unfold content. by rewrite Hz.
Qed.

(** C10: every turn of the event loop ends: the receive, send, shutdown, accept
    and signal loops all stop within their budgets and the interruptions still
    to come, whatever the kernel answers, and the loop returns (with 0) only
    when no session is left. *)
Theorem tcp_event_loop_turn_terminates callbacks_ options_ fuel s :
  callbacks_ok (maxSessions options_) callbacks_ -> tcp_reachable callbacks_ options_ fuel s ->
  match eventLoopTurn callbacks_ options_ fuel tt s with
  | (Ret (inl _), s') => tcp_reachable callbacks_ options_ fuel s'
  | (Ret (inr code), s') => code = 0 /\ sessions_ s'.1 = ∅
  | (Throw _, _) => True
  | (Diverge, _) => False
  end.
Proof.
  intros Hcb Hr. pose proof (reachable_Inv _ _ _ _ Hcb Hr) as Hi.
  pose proof (eventLoopTurn_spec callbacks_ options_ fuel Hcb s Hi) as [[Hn _] Hs].
  destruct (eventLoopTurn callbacks_ options_ fuel tt s) as [[[[]|code]|e|] s'] eqn:Ht; try done.
  by eapply reach_turn.
Qed.

(** C9: no descriptor leaks.  However the event loop ends, by a stop signal, a
    drained stop or any exception out of a callback or the kernel, when the
    reactor object is destroyed every accepted, connected and listening
    descriptor is closed, and every session reported as created was reported as
    closed. *)
Theorem tcp_reactor_releases_descriptors callbacks_ options_ fuel turns listener w o w' :
  callbacks_ok (maxSessions options_) callbacks_ -> fresh_start fuel listener w ->
  runReactorObject callbacks_ options_ fuel turns listener w = (o, w') -> o <> Diverge ->
  conn w' = ∅ /\ (statisticsCallback callbacks_ <> None -> live w' = 0).
Proof.
  intros Hcb Hw Hrun Hn.
  by destruct (runReactorObject_releases callbacks_ options_ fuel Hcb turns listener w o w' Hw Hrun Hn)
    as (? & ? & _).
Qed.

(** C32: session accounting.  In every reachable state at most [maxSessions]
    sessions exist, session ids are distinct from every future id, the sessions
    reported as created and not as closed are exactly the sessions in the table,
    every registered token leads to a side of an existing session that carries
    that token, every open descriptor is the listener or an end of a session,
    and no two ends share one. *)
Theorem tcp_session_accounting callbacks_ options_ fuel s :
  callbacks_ok (maxSessions options_) callbacks_ -> tcp_reachable callbacks_ options_ fuel s ->
  Z.of_nat (size (sessions_ s.1)) <= Z.max 0 (maxSessions options_) /\
  (statisticsCallback callbacks_ <> None -> live s.2 = Z.of_nat (size (sessions_ s.1))) /\
  (forall i, is_Some (sessions_ s.1 !! i) -> 1 <= i < nextSessionId_ s.1) /\
  (forall t target, findEndpoint t (tokens_ s.1) = Some target ->
     exists x, sessions_ s.1 !! sessionId target = Some x /\ token (ends x (side target)) = t) /\
  (forall f, is_Some (conn s.2 !! f) -> owned s.1 None f) /\
  (forall i x sd i' x' sd', sessions_ s.1 !! i = Some x -> sessions_ s.1 !! i' = Some x' ->
     side_ok sd -> side_ok sd' -> 0 <= fd (ends x sd) -> fd (ends x sd) = fd (ends x' sd') ->
     i = i' /\ sd = sd').
Proof.
  intros Hcb Hr. destruct (reachable_Inv _ _ _ _ Hcb Hr) as [Ht He _ _ Hd _ _ Ho Hids _ _ Hcap Hlv _ _].
  split; [done|]. split; [done|]. split; [done|]. split; [|done].
  intros t target Hf. by destruct (He t target Hf) as (_ & Hf').
Qed.

(** C15: closing a session is exception safe.  In every outcome, also when the
    reports throw, the session leaves the table, both its descriptors are
    closed, its tokens no longer resolve, it is counted as closed once, and
    nothing of any other session changes. *)
Theorem closeSession_exception_safe callbacks_ options_ fuel i x reason error s :
  callbacks_ok (maxSessions options_) callbacks_ -> tcp_reachable callbacks_ options_ fuel s ->
  sessions_ s.1 !! i = Some x ->
  let '(o, s') := closeSession callbacks_ i reason error s in
  o <> Diverge /\ sessions_ s'.1 = delete i (sessions_ s.1) /\
  conn s'.2 = delete (fd (ends x 1%nat)) (delete (fd (ends x 0%nat)) (conn s.2)) /\
  (forall sd, side_ok sd -> findEndpoint (token (ends x sd)) (tokens_ s'.1) = None) /\
  (statisticsCallback callbacks_ <> None -> live s'.2 = live s.2 - 1).
Proof.
  intros Hcb Hr Hx. pose proof (reachable_Inv _ _ _ _ Hcb Hr) as Hi.
  pose proof (closeSession_full callbacks_ options_ fuel Hcb i x reason error s Hi Hx) as Hc.
  unfold wp in Hc. destruct (closeSession callbacks_ i reason error s) as [o s']. cbn [fst snd] in Hc.
  destruct Hc as (Hn & _ & Hs & Ht & Hcn & Hl). split_and!; try done.
  intros sd Hsd. rewrite Ht. unfold findEndpoint, unregisterEndpoint. cbn.
  destruct sd as [|[|]]; [| |by unfold side_ok in Hsd; lia].
  - destruct (decide (token (ends x 1%nat) = token (ends x 0%nat))) as [->|Hne].
    + apply lookup_delete_eq.
    + rewrite lookup_delete_ne by done. apply lookup_delete_eq.
  - apply lookup_delete_eq.
Qed.

(** A session that finishes has forwarded everything: when the work on a
    session reports that it is finished, outside a drain because both sides
    reached their end of stream and were shut down, or in a drain because its
    queues are empty, every byte received from either side has been sent to the
    other. *)
Theorem finished_session_forwarded callbacks_ options_ fuel i s s' :
  callbacks_ok (maxSessions options_) callbacks_ -> tcp_reachable callbacks_ options_ fuel s ->
  is_Some (sessions_ s.1 !! i) ->
  advanceSessionIo callbacks_ options_ fuel i s = (Ret true, s') ->
  exists x, sessions_ s'.1 !! i = Some x /\
    forall sd, side_ok sd ->
      received_from s'.2 (fd (ends x sd)) = sent_to s'.2 (fd (ends x (1 - sd)%nat)).
Proof.
  intros Hcb Hr Hx Hrun. pose proof (reachable_Inv _ _ _ _ Hcb Hr) as Hi.
  assert (Hin : i ∈ ids s) by by apply elem_of_dom.
  pose proof (advanceSessionIo_complete callbacks_ options_ fuel Hcb i s Hi Hin) as Hc.
  unfold wp in Hc. rewrite Hrun in Hc. destruct Hc as (x & Hlk & Hz).
  exists x. split; [done|]. intros sd Hsd. by apply Hz.
Qed.

(** C14: the drain is bounded.  A turn of the event loop in a draining reactor
    whose clock reads at or past the drain deadline does not continue the loop:
    it returns with no session left, or throws. *)
Theorem drain_deadline_enforced callbacks_ options_ fuel s :
  callbacks_ok (maxSessions options_) callbacks_ -> tcp_reachable callbacks_ options_ fuel s ->
  draining_ s.1 = true -> past_deadline s ->
  match eventLoopTurn callbacks_ options_ fuel tt s with
  | (Ret (inr code), s') => code = 0 /\ sessions_ s'.1 = ∅
  | (Throw _, _) => True
  | _ => False
  end.
Proof.
  intros Hcb Hr Hd Hp. pose proof (reachable_Inv _ _ _ _ Hcb Hr) as Hi.
  pose proof (eventLoopTurn_spec callbacks_ options_ fuel Hcb s Hi) as [[Hn _] Hs].
  assert (Hstop : wp (eventLoopTurn callbacks_ options_ fuel tt)
                    (fun o _ => match o with Ret (inl _) => False | _ => True end) s).
  { unfold eventLoopTurn. wp_step.
    eapply wp_mono; [by apply (consumeStopSignals_deadline callbacks_ options_ fuel Hcb); [apply Hi|..]|].
    intros [b|e|] s1 Hs1; [|done|done]. wp_step. wp_step. rewrite Hs1. wp_step.
    unfold wp. by destruct (closeAllSessions _ _ s1) as [[]]. }
  unfold wp in Hstop.
  destruct (eventLoopTurn callbacks_ options_ fuel tt s) as [[[[]|code]|e|] s']; done.
Qed.
End theorems.

(** ** A scripted kernel

    Descriptors are handed out from a counter, receives take their chunks from a
    list, sends take what fits into a remaining room, the clock advances by the
    timeout of each wait, the first endpoint is ready after 50 ms and the signals
    of a list arrive after 250 ms. *)
Module ScriptedKernel.
Record Kernel := mkKernel {
  k_conn : gmap Z (bytes * bytes);
  k_live : Z;
  k_time : Z;
  k_clients : nat;
  k_inbox : list bytes;
  k_room : nat;
  k_signals : list Z;
  k_next : Z
}.

Definition with_conn (c : gmap Z (bytes * bytes)) (w : Kernel) : Kernel :=
  mkKernel c (k_live w) (k_time w) (k_clients w) (k_inbox w) (k_room w) (k_signals w) (k_next w).

(** A new descriptor, when the counter's is free. *)
Definition k_open (w : Kernel) : (Z + Z) * Kernel :=
  if decide (0 <= k_next w /\ k_conn w !! k_next w = None) then
    (inl (k_next w),
     mkKernel (<[k_next w := ([], [])]> (k_conn w)) (k_live w) (k_time w) (k_clients w)
       (k_inbox w) (k_room w) (k_signals w) (k_next w + 1))
  else (inr EMFILE, w).

Definition k_take_client (w : Kernel) : Kernel :=
  mkKernel (k_conn w) (k_live w) (k_time w) (pred (k_clients w)) (k_inbox w) (k_room w)
    (k_signals w) (k_next w).

#[export] Instance kernel_ops : TcpOps Kernel := {
  t_now w := (k_time w, w);
  t_read_signal w :=
    match bool_decide (ms 250 <= k_time w), k_signals w with
    | true, n :: rest => (inl n, mkKernel (k_conn w) (k_live w) (k_time w) (k_clients w) (k_inbox w)
                             (k_room w) rest (k_next w))
    | _, _ => (inr EAGAIN, w)
    end;
  t_epoll_wait timeout w :=
    (inl (if bool_decide (ms 50 <= k_time w) then [(1, EPOLLIN); (3, EPOLLIN)] else [(1, EPOLLIN)]),
     mkKernel (k_conn w) (k_live w) (k_time w + ms (Z.max 0 timeout)) (k_clients w) (k_inbox w)
       (k_room w) (k_signals w) (k_next w));
  t_epoll_ctl _ _ _ _ w := (inl tt, w);
  t_accept _ w :=
    match k_clients w with
    | O => (inr EAGAIN, w)
    | S _ => match k_open w with
             | (inl f, w') => (inl f, k_take_client w')
             | r => r
             end
    end;
  t_socket := k_open;
  t_connect _ _ w := (inl tt, w);
  t_socket_error _ w := (inl 0, w);
  t_send f d w :=
    match k_room w, k_conn w !! f with
    | S _ as room, Some _ =>
        let n := Nat.min room (length d) in
        (inl (Z.of_nat n),
         mkKernel (alter (fun p => (p.1, p.2 ++ take (Z.to_nat (Z.of_nat n)) d)) f (k_conn w))
           (k_live w) (k_time w) (k_clients w) (k_inbox w) (room - n) (k_signals w) (k_next w))
    | _, _ => (inr EAGAIN, w)
    end;
  t_recv f limit w :=
    match k_inbox w, k_conn w !! f with
    | chunk :: rest, Some _ =>
        if len chunk <=? limit then
          (inl chunk,
           mkKernel (alter (fun p => (p.1 ++ chunk, p.2)) f (k_conn w)) (k_live w) (k_time w)
             (k_clients w) rest (k_room w) (k_signals w) (k_next w))
        else (inr EAGAIN, w)
    | _, _ => (inr EAGAIN, w)
    end;
  t_shutdown _ w := (inl tt, w);
  t_close f w := with_conn (delete f (k_conn w)) w;
  t_errno _ := EAGAIN;
  t_order l _ := l
}.

#[export] Instance kernel_ghost : TcpGhost Kernel := {
  conn := k_conn;
  eintr_left _ := 0%nat;
  accepts_left := k_clients;
  live := k_live;
  clock := k_time;
  owner_ok _ := True
}.

Lemma kernel_quiet (w : Kernel) : quiet w w.
Proof. unfold quiet, bounds_shrink. split_and!; auto with lia. Qed.

Lemma kernel_open w :
  match k_open w with
  | (inl f, w') => opened f w w' /\ k_clients w' = k_clients w
  | (inr e, w') => failed e w w'
  end.
Proof.
  unfold k_open. case_decide as Hd; cbn.
  - split; [|done]. destruct Hd as [Hp Hf]. split_and!; cbn; auto with lia.
    unfold bounds_shrink. cbn. split_and!; (done || lia).
  - split; [apply kernel_quiet|done].
Qed.

#[export] Instance scripted_kernel : TcpKernel Kernel.
Proof.
  split; intros; cbn.
  - apply kernel_quiet.
  - done.
  - destruct (bool_decide _); [|split; [apply kernel_quiet|done]].
    destruct (k_signals w); [split; [apply kernel_quiet|done]|].
    unfold quiet, bounds_shrink. cbn. split_and!; try done; lia.
  - unfold quiet, bounds_shrink, Prelude.ms. cbn. split_and!; try done; lia.
  - apply kernel_quiet.
  - destruct (k_clients w) eqn:Hc; [split; [apply kernel_quiet|done]|].
    pose proof (kernel_open w) as Ho. destruct (k_open w) as [[f|e] w'].
    + destruct Ho as [(Hp & Hf & Hcn & Hl & _ & _ & Hck & _) Hcl]. cbn in *.
      split; [|lia]. unfold opened, bounds_shrink. cbn. split_and!; auto with lia.
    + done.
  - pose proof (kernel_open w) as Ho. destruct (k_open w) as [[f|e] w']; [|done]. by destruct Ho.
  - apply kernel_quiet.
  - apply kernel_quiet.
  - apply kernel_quiet.
  - destruct (k_room w) eqn:Hr; [split; [apply kernel_quiet|done]|].
    destruct (k_conn w !! f) eqn:Hf; [|split; [apply kernel_quiet|done]].
    cbn. unfold bounds_shrink, len. cbn. split_and!; try done; try lia. destruct (length d); lia.
  - destruct (k_inbox w) as [|chunk rest]; [split; [apply kernel_quiet|done]|].
    destruct (k_conn w !! f) eqn:Hf; [|split; [apply kernel_quiet|done]].
    destruct (Z.leb_spec (len chunk) limit); [|split; [apply kernel_quiet|done]].
    cbn. unfold bounds_shrink. cbn. split_and!; try done; try lia.
  - unfold bounds_shrink. cbn. split_and!; try done; lia.
  - done.
Qed.

(** Every client goes to one backend; the statistics callback counts. *)
Definition callbacks : TcpReactorCallbacks Kernel := {|
  backendSelector := Some (mret (Some (mkEndpoint [1; 0; 0; 10] 80)));
  maintenanceCallback := None;
  statisticsCallback := Some (fun e => mmodify (fun w =>
    mkKernel (k_conn w) (k_live w + live_change e) (k_time w) (k_clients w) (k_inbox w) (k_room w)
      (k_signals w) (k_next w)));
  readyCallback := Some (mret tt);
  stoppingCallback := None;
  sessionCallback := Some (fun _ => mret tt);
  diagnosticCallback := Some (fun _ _ => mret tt);
  observationCallback := None
|}.

Lemma scripted_callbacks_ok limit : callbacks_ok limit callbacks.
Proof.
  split; cbn; try done; try (intros w _; split; [done|apply kernel_quiet]);
    try (intros e w _; split; [done|apply kernel_quiet]);
    try (intros o e w _; split; [done|apply kernel_quiet]).
Qed.

Definition fuel : nat := Z.to_nat 66000.
Definition options : TcpReactorOptions := mkTcpReactorOptions 2 (ms 5000) (ms 60000) (ms 100).

Definition start (inbox : list bytes) (room : nat) (signals : list Z) : Kernel :=
  mkKernel {[9 := ([], [])]} 0 0 1 inbox room signals 10.

Lemma start_fresh inbox room signals : fresh_start fuel 9 (start inbox room signals).
Proof. split; cbn; try done; lia. Qed.

Definition turn (s : TcpReactor * Kernel) : TcpReactor * Kernel :=
  (eventLoopTurn callbacks options fuel tt s).2.
Definition goes_on (s : TcpReactor * Kernel) : bool :=
  bool_decide ((eventLoopTurn callbacks options fuel tt s).1 = Ret (inl tt)).

Lemma turn_reachable s :
  tcp_reachable callbacks options fuel s -> goes_on s = true ->
  tcp_reachable callbacks options fuel (turn s).
Proof.
  intros Hs Hg. eapply reach_turn; [exact Hs|]. unfold goes_on in Hg.
  apply bool_decide_eq_true_1 in Hg. unfold turn. rewrite <-Hg. by destruct (eventLoopTurn _ _ _ _ s).
Qed.

Definition has_value {A} (o : option A) : bool := match o with Some _ => true | None => false end.
Lemma lookup_has_value (m : gmap Z Session) i : has_value (m !! i) = true -> m !! i = Some (m !!! i).
Proof. intros Hs. rewrite lookup_total_alt. by destruct (m !! i). Qed.

(** One client, whose five bytes meet a backend that takes three; it is accepted
    in the first turn and served in the second, the stop signal arrives in the
    third and the drain deadline passes in the fourth. *)
Definition slow : Kernel := start [bs "hel"; bs "lo"] 3 [128].
Definition initial : TcpReactor * Kernel := (initialTcpReactor 9, slow).
Definition forwarding : TcpReactor * Kernel := turn (turn initial).
Definition draining : TcpReactor * Kernel := turn (turn forwarding).

Lemma initial_reachable : tcp_reachable callbacks options fuel initial.
Proof. apply reach_start, start_fresh. Qed.

Lemma forwarding_reachable : tcp_reachable callbacks options fuel forwarding.
Proof. do 2 (apply turn_reachable; [|vm_compute; reflexivity]). exact initial_reachable. Qed.

Lemma draining_reachable : tcp_reachable callbacks options fuel draining.
Proof. do 2 (apply turn_reachable; [|vm_compute; reflexivity]). exact forwarding_reachable. Qed.

Definition forwarding_session : Session := sessions_ forwarding.1 !!! 1.

Lemma forwarding_lookup : sessions_ forwarding.1 !! 1 = Some forwarding_session.
Proof. apply lookup_has_value. vm_compute. reflexivity. Qed.

(** A client whose data and both ends of stream wait for an accepted session. *)
Definition ready : TcpReactor * Kernel :=
  turn (initialTcpReactor 9, start [bs "hel"; bs "lo"; []; []] 5 []).

Lemma ready_reachable : tcp_reachable callbacks options fuel ready.
Proof. apply turn_reachable; [apply reach_start, start_fresh|]. vm_compute. reflexivity. Qed.
End ScriptedKernel.

Import ScriptedKernel.

(** After two turns the client's five bytes were received, three were sent to
    the backend and two are queued. *)
Lemma tcp_stream_integrity_witness :
  let w := (runTcpEventLoop callbacks options fuel 2 initial).2.2 in
  exists x, sessions_ (runTcpEventLoop callbacks options fuel 2 initial).2.1 !! 1 = Some x /\
    received_from w (fd (ends x 0%nat)) = bs "hello" /\
    sent_to w (fd (ends x 1%nat)) = bs "hel" /\
    received_from w (fd (ends x 0%nat)) = sent_to w (fd (ends x 1%nat)) ++ content (pending x 0%nat).
Proof.
  cbv zeta. exists (sessions_ (runTcpEventLoop callbacks options fuel 2 initial).2.1 !!! 1).
  assert (Hx : sessions_ (runTcpEventLoop callbacks options fuel 2 initial).2.1 !! 1 =
            Some (sessions_ (runTcpEventLoop callbacks options fuel 2 initial).2.1 !!! 1)).
  { apply lookup_has_value. vm_compute. reflexivity. }
  split; [exact Hx|]. split; [vm_compute; reflexivity|]. split; [vm_compute; reflexivity|].
  refine (proj1 (tcp_stream_integrity callbacks options fuel 2 9 slow
    (runTcpEventLoop callbacks options fuel 2 initial).1
    (runTcpEventLoop callbacks options fuel 2 initial).2.1
    (runTcpEventLoop callbacks options fuel 2 initial).2.2
    (scripted_callbacks_ok _) (start_fresh _ _ _) _ 1 _ 0%nat Hx ltac:(unfold side_ok; lia))).
  change (initialTcpReactor 9, slow) with initial.
  by destruct (runTcpEventLoop _ _ _ _ initial) as [? [? ?]].
Defined.

Lemma tcp_event_loop_turn_terminates_witness :
  match eventLoopTurn callbacks options fuel tt forwarding with
  | (Ret (inl _), s') => tcp_reachable callbacks options fuel s'
  | (Ret (inr code), s') => code = 0 /\ sessions_ s'.1 = ∅
  | (Throw _, _) => True
  | (Diverge, _) => False
  end.
Proof.
  exact (tcp_event_loop_turn_terminates callbacks options fuel forwarding
           (scripted_callbacks_ok _) forwarding_reachable).
Defined.

(** The run of five turns ends with the deadline of the drain, and closes everything. *)
Lemma tcp_reactor_releases_descriptors_witness :
  (runReactorObject callbacks options fuel 5 9 slow).1 = Ret 0 /\
  conn (runReactorObject callbacks options fuel 5 9 slow).2 = ∅.
Proof.
  assert (Hret : (runReactorObject callbacks options fuel 5 9 slow).1 = Ret 0)
    by (vm_compute; reflexivity).
  split; [exact Hret|].
  refine (proj1 (tcp_reactor_releases_descriptors callbacks options fuel 5 9 slow
    (runReactorObject callbacks options fuel 5 9 slow).1
    (runReactorObject callbacks options fuel 5 9 slow).2
    (scripted_callbacks_ok _) (start_fresh _ _ _) _ _)).
  - by destruct (runReactorObject _ _ _ _ _ _).
  - rewrite Hret. discriminate.
Defined.

Lemma tcp_session_accounting_witness :
  is_Some (sessions_ forwarding.1 !! 1) /\
  live forwarding.2 = Z.of_nat (size (sessions_ forwarding.1)).
Proof.
  split; [rewrite forwarding_lookup; eauto|].
  refine (proj1 (proj2 (tcp_session_accounting callbacks options fuel forwarding
    (scripted_callbacks_ok _) forwarding_reachable)) _). discriminate.
Defined.

Lemma closeSession_exception_safe_witness :
  let '(o, s') := closeSession callbacks 1 (bs "test") 0 forwarding in
  o <> Diverge /\ sessions_ s'.1 = delete 1 (sessions_ forwarding.1) /\
  conn s'.2 = delete (fd (ends forwarding_session 1%nat))
                (delete (fd (ends forwarding_session 0%nat)) (conn forwarding.2)) /\
  (forall sd, side_ok sd ->
     findEndpoint (token (ends forwarding_session sd)) (tokens_ s'.1) = None) /\
  (statisticsCallback callbacks <> None -> live s'.2 = live forwarding.2 - 1).
Proof.
  exact (closeSession_exception_safe callbacks options fuel 1 forwarding_session (bs "test") 0
           forwarding (scripted_callbacks_ok _) forwarding_reachable forwarding_lookup).
Defined.

Lemma finished_session_forwarded_witness :
  exists x, sessions_ (advanceSessionIo callbacks options fuel 1 ready).2.1 !! 1 = Some x /\
    forall sd, side_ok sd ->
      received_from (advanceSessionIo callbacks options fuel 1 ready).2.2 (fd (ends x sd)) =
      sent_to (advanceSessionIo callbacks options fuel 1 ready).2.2 (fd (ends x (1 - sd)%nat)).
Proof.
  assert (Hret : bool_decide ((advanceSessionIo callbacks options fuel 1 ready).1 = Ret true) = true)
    by (vm_compute; reflexivity).
  refine (finished_session_forwarded callbacks options fuel 1 ready
            (advanceSessionIo callbacks options fuel 1 ready).2
            (scripted_callbacks_ok _) ready_reachable _ _).
  - eexists. apply lookup_has_value. vm_compute. reflexivity.
  - apply bool_decide_eq_true_1 in Hret. rewrite <-Hret.
    by destruct (advanceSessionIo callbacks options fuel 1 ready).
Defined.

Lemma drain_deadline_enforced_witness :
  match eventLoopTurn callbacks options fuel tt draining with
  | (Ret (inr code), s') => code = 0 /\ sessions_ s'.1 = ∅
  | (Throw _, _) => True
  | _ => False
  end.
Proof.
  refine (drain_deadline_enforced callbacks options fuel draining
            (scripted_callbacks_ok _) draining_reachable _ _).
  - vm_compute. reflexivity.
  - apply Z.leb_le. vm_compute. reflexivity.
Defined.
