(* ===== verification/UdpReactor.v ===== *)
(** * The UDP reactor (src/src/net/UdpReactor.h, UdpReactor.cpp)

    A listener with packet information, one connected socket per flow, the two
    indexes of the flows, creation of a flow as a transaction, idle expiry and
    the relay of datagrams in both directions.  The operating system is the
    class [UdpOps]; the test injections of the options are unset, as in the
    product.  A report between a failed call and the use of its errno does not
    change the errno. *)
From S2P Require Import Prelude Config Core Metrics.

(** ** Data *)

Definition kUdpPayloadLimit : Z := 65507.

Record UdpFlow := mkUdpFlow {
  key : UdpFlowKey;
  backend : Endpoint;
  fd : Z;
  token : Z;
  deadline : UdpIdleDeadline
}.

Definition set_deadline (d : UdpIdleDeadline) (f : UdpFlow) : UdpFlow :=
  mkUdpFlow (key f) (backend f) (fd f) (token f) d.

Record UdpFlowEvent := mkUdpFlowEvent {
  fe_id : Z;
  fe_backend : Endpoint;
  fe_reason : bytes;
  fe_error : Z
}.

Record UdpObservation := mkUdpObservation {
  uo_kind : bytes;
  uo_token : Z;
  uo_fd : Z;
  uo_flows : Z;
  uo_tokens : Z
}.

Record UdpReactorOptions := mkUdpReactorOptions {
  maxFlows : Z;
  idleTimeout : Z;
  pollInterval : Z;    (* milliseconds *)
  receiveSize : Z
}.

Definition defaultUdpReactorOptions : UdpReactorOptions :=
  mkUdpReactorOptions 1024 (ms 60000) 100 kUdpPayloadLimit.

Record UdpReactorCallbacks (W : Type) := mkUdpReactorCallbacks {
  backendSelector : option (M W (option Endpoint));
  maintenanceCallback : option (M W unit);
  statisticsCallback : option (StatEvent -> M W unit);
  readyCallback : option (M W unit);
  flowCallback : option (UdpFlowEvent -> M W unit);
  diagnosticCallback : option (bytes -> Z -> M W unit);
  observationCallback : option (UdpObservation -> M W unit)
}.
Arguments mkUdpReactorCallbacks {W}.
Arguments backendSelector {W}. Arguments maintenanceCallback {W}.
Arguments statisticsCallback {W}. Arguments readyCallback {W}.
Arguments flowCallback {W}. Arguments diagnosticCallback {W}.
Arguments observationCallback {W}.

(** The listening endpoint and socket do not change after the construction. *)
Record UdpReactor := mkUdpReactor {
  listenEndpoint_ : Endpoint;
  listenerFd_ : Z;
  receiveBuffer_ : bytes;
  nextFlowToken_ : Z;
  flowTokensByKey_ : gmap UdpFlowKey Z;
  flows_ : gmap Z UdpFlow;
  lastDiagnosticTimes_ : gmap bytes Z
}.

Definition set_receiveBuffer (b : bytes) (r : UdpReactor) : UdpReactor :=
  mkUdpReactor (listenEndpoint_ r) (listenerFd_ r) b (nextFlowToken_ r) (flowTokensByKey_ r)
    (flows_ r) (lastDiagnosticTimes_ r).
Definition set_nextFlowToken (n : Z) (r : UdpReactor) : UdpReactor :=
  mkUdpReactor (listenEndpoint_ r) (listenerFd_ r) (receiveBuffer_ r) n (flowTokensByKey_ r)
    (flows_ r) (lastDiagnosticTimes_ r).
Definition set_flowTokensByKey (m : gmap UdpFlowKey Z) (r : UdpReactor) : UdpReactor :=
  mkUdpReactor (listenEndpoint_ r) (listenerFd_ r) (receiveBuffer_ r) (nextFlowToken_ r) m
    (flows_ r) (lastDiagnosticTimes_ r).
Definition set_flows (m : gmap Z UdpFlow) (r : UdpReactor) : UdpReactor :=
  mkUdpReactor (listenEndpoint_ r) (listenerFd_ r) (receiveBuffer_ r) (nextFlowToken_ r)
    (flowTokensByKey_ r) m (lastDiagnosticTimes_ r).
Definition set_lastDiagnosticTimes (m : gmap bytes Z) (r : UdpReactor) : UdpReactor :=
  mkUdpReactor (listenEndpoint_ r) (listenerFd_ r) (receiveBuffer_ r) (nextFlowToken_ r)
    (flowTokensByKey_ r) (flows_ r) m.

(** What recvmsg(2) filled in: the payload (cut to the buffer), the flags, the
    sender's address and the control buffer. *)
Record Datagram := mkDatagram {
  dg_data : bytes;
  dg_trunc : bool;      (* MSG_TRUNC *)
  dg_ctrunc : bool;     (* MSG_CTRUNC *)
  dg_namelen : Z;
  dg_family : Z;
  dg_port : Z;
  dg_address : list Z;
  dg_control : bytes    (* msg_control, msg_controllen bytes *)
}.

Class UdpOps (W : Type) := {
  u_now : W -> Z * W;
  u_read_signal : W -> (Z + Z) * W;
  u_epoll_wait : Z -> W -> (list (Z * Z) + Z) * W;
  u_epoll_add : Z -> Z -> W -> (unit + Z) * W;
  u_epoll_del : Z -> W -> (unit + Z) * W;
  u_alloc : W -> bool * W;           (* whether an allocation succeeds *)
  u_socket : W -> (Z + Z) * W;
  u_bind : Z -> Endpoint -> W -> (unit + Z) * W;
  u_connect : Z -> Endpoint -> W -> (unit + Z) * W;
  u_recvmsg : Z -> Z -> W -> (Datagram + Z) * W;
  u_send : Z -> bytes -> W -> (Z + Z) * W;
  u_sendmsg : Z -> bytes -> Endpoint -> bytes -> W -> (Z + Z) * W;
  u_socket_error : Z -> W -> (Z + Z) * W;
  u_close : Z -> W -> W;
  u_order : list Z -> W -> list Z
}.

(** ** Packet metadata *)

Definition AF_INET : Z := 2.
Definition IPPROTO_IP : Z := 0.
Definition IP_PKTINFO : Z := 8.
Definition sizeof_sockaddr_in : Z := 16.
Definition sizeof_cmsghdr : Z := 16.
Definition sizeof_in_pktinfo : Z := 12.
Definition CMSG_LEN (n : Z) : Z := sizeof_cmsghdr + n.
Definition CMSG_ALIGN (n : Z) : Z := (n + 7) / 8 * 8.

Definition anyAddress : list Z := [0; 0; 0; 0].

Definition isUnicastAddress (addressBytes : list Z) : bool :=
  bool_decide (addressBytes <> anyAddress) && bool_decide (addressBytes <> [255; 255; 255; 255]) &&
  negb ((224 <=? addressBytes !!! 0%nat) && (addressBytes !!! 0%nat <=? 239)).

(** A little-endian integer of [n] bytes at [off]. *)
Fixpoint littleEndian (b : bytes) : Z :=
  match b with
  | [] => 0
  | x :: b' => code x + 256 * littleEndian b'
  end.
Definition readInt (n off : Z) (b : bytes) : Z :=
  littleEndian (take (Z.to_nat n) (drop (Z.to_nat off) b)).
Definition readAddress (off : Z) (b : bytes) : list Z :=
  code <$> take 4 (drop (Z.to_nat off) b).

(** [struct cmsghdr { size_t cmsg_len; int cmsg_level; int cmsg_type; }] *)
Definition cmsg_len (off : Z) (control : bytes) : Z := readInt 8 off control.
Definition cmsg_level (off : Z) (control : bytes) : Z := readInt 4 (off + 8) control.
Definition cmsg_type (off : Z) (control : bytes) : Z := readInt 4 (off + 12) control.

(** [CMSG_FIRSTHDR] and [CMSG_NXTHDR] as offsets. *)
Definition cmsgFirst (control : bytes) : option Z :=
  if sizeof_cmsghdr <=? len control then Some 0 else None.
Definition cmsgNext (off : Z) (control : bytes) : option Z :=
  if cmsg_len off control <? sizeof_cmsghdr then None
  else
    let next := off + CMSG_ALIGN (cmsg_len off control) in
    if len control <? next + sizeof_cmsghdr then None
    else if len control <? next + CMSG_ALIGN (cmsg_len next control) then None
    else Some next.

(** The loop over the control messages: [None] returns false, otherwise the
    local address of the only packet information, if any.  A step advances by
    at least a header, so the length bounds the steps. *)
Fixpoint scanControl (fuel : nat) (control : bytes) (off : option Z) (found : option (list Z))
    : option (option (list Z)) :=
  match off, fuel with
  | None, _ => Some found
  | Some _, O => None
  | Some c, S fuel' =>
      if negb (cmsg_level c control =? IPPROTO_IP) || negb (cmsg_type c control =? IP_PKTINFO) then
        scanControl fuel' control (cmsgNext c control) found
      else if (len control <? c + CMSG_LEN sizeof_in_pktinfo) ||
              negb (cmsg_len c control =? CMSG_LEN sizeof_in_pktinfo) then None
      else
        (* struct in_pktinfo { int ipi_ifindex; in_addr ipi_spec_dst, ipi_addr; } *)
        let ipi_spec_dst := readAddress (c + 20) control in
        let ipi_addr := readAddress (c + 24) control in
        if bool_decide (found <> None) || negb (isUnicastAddress ipi_addr) ||
           bool_decide (ipi_addr <> ipi_spec_dst)
        then None
        else scanControl fuel' control (cmsgNext c control) (Some ipi_addr)
  end.

Definition parsePacketMetadata (listenEndpoint : Endpoint) (msg : Datagram) : option UdpFlowKey :=
  if (dg_namelen msg <? sizeof_sockaddr_in) || negb (dg_family msg =? AF_INET) ||
     (dg_port msg =? 0) || dg_ctrunc msg
  then None
  else if negb (isUnicastAddress (dg_address msg)) then None
  else
    match scanControl (S (length (dg_control msg))) (dg_control msg) (cmsgFirst (dg_control msg)) None with
    | Some (Some localAddress) =>
        if bool_decide (address listenEndpoint = anyAddress) ||
           bool_decide (address listenEndpoint = localAddress)
        then Some (mkUdpFlowKey (mkEndpoint (dg_address msg) (dg_port msg)) localAddress)
        else None
    | _ => None
    end.

(** The bytes of an integer, least significant first. *)
Fixpoint littleEndianBytes (n : nat) (x : Z) : bytes :=
  match n with
  | O => []
  | S n' => chr (x mod 256) :: littleEndianBytes n' (x / 256)
  end.

(** The control buffer of a reply: one packet information with the source. *)
Definition replyControl (localAddress : list Z) : bytes :=
  littleEndianBytes 8 (CMSG_LEN sizeof_in_pktinfo) ++ littleEndianBytes 4 IPPROTO_IP ++
  littleEndianBytes 4 IP_PKTINFO ++ littleEndianBytes 4 0 ++ (chr <$> localAddress) ++
  littleEndianBytes 4 0 ++ littleEndianBytes 4 0.

(** ** Error classes *)

Definition isResourcePressure (socketError : Z) : bool :=
  (socketError =? EAGAIN) || (socketError =? EWOULDBLOCK) || (socketError =? ENOBUFS) ||
  (socketError =? ENOMEM) || (socketError =? EMSGSIZE).

Definition isSharedSocketError (socketError : Z) : bool :=
  isResourcePressure socketError || (socketError =? ECONNREFUSED) || (socketError =? ECONNRESET) ||
  (socketError =? ENETUNREACH) || (socketError =? EHOSTUNREACH) || (socketError =? EACCES).

(** Errors that are not counted. *)
Definition isSilentError (code : Z) : bool :=
  (code =? EAGAIN) || (code =? EWOULDBLOCK) || (code =? EINTR).

(** ** Operations *)

Section reactor.
Context {W : Type} `{UdpOps W}.
Context (callbacks_ : UdpReactorCallbacks W) (options_ : UdpReactorOptions).

Abbreviation act := (M (UdpReactor * W)).

Definition reportStatEvent (k : StatKind) (n : Z) : act unit :=
  match statisticsCallback callbacks_ with
  | Some f => outside (f (mkStatEvent k n))
  | None => mret tt
  end.

Definition reportObservation (kind : bytes) (token fd : Z) : act unit :=
  match observationCallback callbacks_ with
  | Some f =>
      r <- own (fun r => r) ;;
      outside (f (mkUdpObservation kind token fd (Z.of_nat (size (flows_ r)))
                    (Z.of_nat (size (flowTokensByKey_ r)))))
  | None => mret tt
  end.

(** At most one diagnostic of a kind per second. *)
Definition reportDiagnostic (kind : bytes) (error : Z) : act unit :=
  reportObservation kind 0 (-1) ;;;
  time <- call u_now ;;
  r <- own (fun r => r) ;;
  let recent :=
    match lastDiagnosticTimes_ r !! kind with
    | Some last => time - last <? seconds 1
    | None => false
    end in
  if recent then mret tt
  else
    update (fun r => set_lastDiagnosticTimes (<[kind := time]> (lastDiagnosticTimes_ r)) r) ;;;
    match diagnosticCallback callbacks_ with
    | Some f => outside (f kind error)
    | None => mret tt
    end.

Definition registerFlowSocket (f t : Z) : act unit :=
  added <- call (u_epoll_add f t) ;;
  match added with
  | inl _ => mret tt
  | inr errno => mthrow (SystemError errno (bs "UDP epoll add"))
  end.

Definition kSignalInfoSize : Z := 128.

Definition consumeStopSignals : act bool :=
  count <- call u_read_signal ;;
  match count with
  | inl n =>
      if n =? kSignalInfoSize then mret true
      else mthrow (SystemError EIO (bs "UDP signalfd read"))
  | inr errno =>
      if (errno =? EAGAIN) || (errno =? EINTR) then mret false
      else mthrow (SystemError errno (bs "UDP signalfd read"))
  end.

(** ** Closing *)

Definition attemptCloseErrorReport : option exn -> act (option exn) :=
  attempt (reportStatEvent kError 1).
Definition attemptCloseDiagnosticReport (detachError : Z) : option exn -> act (option exn) :=
  attempt
    match diagnosticCallback callbacks_ with
    | Some f => outside (f (bs "UDP epoll DEL") detachError)
    | None => mret tt
    end.
Definition attemptClosedStatReport : option exn -> act (option exn) :=
  attempt (reportStatEvent kClosed 1).
Definition attemptClosedObservationReport (reason : bytes) (t f : Z)
    : option exn -> act (option exn) :=
  attempt (reportObservation reason t f).
Definition attemptFlowEventReport (t : Z) (b : Endpoint) (reason : bytes) (error : Z)
    : option exn -> act (option exn) :=
  attempt
    match flowCallback callbacks_ with
    | Some f => outside (f (mkUdpFlowEvent t b reason error))
    | None => mret tt
    end.

Definition reportDetachError (detachError : Z) (failure : option exn) : act (option exn) :=
  if detachError =? 0 then mret failure
  else
    failure <- attemptCloseErrorReport failure ;;
    attemptCloseDiagnosticReport detachError failure.

Definition closeFlow (t : Z) (reason : bytes) (error : Z) : act unit :=
  r <- own (fun r => r) ;;
  match flows_ r !! t with
  | None => mret tt
  | Some flow =>
      update (fun r => set_flowTokensByKey (delete (key flow) (flowTokensByKey_ r)) r) ;;;
      update (fun r => set_flows (delete t (flows_ r)) r) ;;;
      deleted <- call (u_epoll_del (fd flow)) ;;
      let detachError :=
        match deleted with
        | inl _ => 0
        | inr errno => if negb (errno =? ENOENT) && negb (errno =? EBADF) then errno else 0
        end in
      effect (u_close (fd flow)) ;;;
      failure <- reportDetachError detachError None ;;
      failure <- attemptClosedStatReport failure ;;
      failure <- attemptClosedObservationReport reason t (fd flow) failure ;;
      failure <- attemptFlowEventReport t (backend flow) reason error failure ;;
      match failure with
      | Some e => mthrow e
      | None => mret tt
      end
  end.

(** The flows are visited in the map's order; only the visited one is erased. *)
Fixpoint expireFlows (time : Z) (tokens : list Z) : act unit :=
  match tokens with
  | [] => mret tt
  | t :: tokens' =>
      r <- own (fun r => r) ;;
      let due :=
        match flows_ r !! t with
        | Some flow => udpExpired (deadline flow) time (idleTimeout options_)
        | None => false
        end in
      mwhen due (reportStatEvent kTimeout 1 ;;; closeFlow t (bs "idle-timeout") 0) ;;;
      expireFlows time tokens'
  end.

Definition expireIdleFlows : act unit :=
  time <- call u_now ;;
  r <- own (fun r => r) ;;
  w <- world ;;
  expireFlows time (u_order (map_to_list (flows_ r)).*1 w).

(** [while (!flows_.empty())]: every turn removes a flow, so the number of flows
    at the start bounds the turns. *)
Fixpoint closeAllFlowsLoop (turns : nat) (failure : option exn) : act unit :=
  r <- own (fun r => r) ;;
  w <- world ;;
  match u_order (map_to_list (flows_ r)).*1 w with
  | [] => match failure with Some e => mthrow e | None => mret tt end
  | t :: _ =>
      match turns with
      | O => mdiverge
      | S turns' =>
          failure <- attempt (closeFlow t (bs "service-stop") 0) failure ;;
          closeAllFlowsLoop turns' failure
      end
  end.

Definition closeAllFlows : act unit :=
  r <- own (fun r => r) ;;
  closeAllFlowsLoop (size (flows_ r)) None.

(** ** Creating a flow *)

(** An [Fd] on the stack is closed when its scope is left. *)
Definition closingFd (f : Z) {A} (m : act A) : act A :=
  fun s => let '(o, (r, w)) := m s in (o, (r, u_close f w)).

Definition dropSetup (error : Z) : act unit :=
  reportStatEvent kError 1 ;;; reportDiagnostic (bs "setup-drop") error.

Definition eraseFlow (flow : UdpFlow) : act unit :=
  update (fun r => set_flowTokensByKey (delete (key flow) (flowTokensByKey_ r)) r) ;;;
  update (fun r => set_flows (delete (token flow) (flows_ r)) r).

(** Both indexes and the epoll registration, or none of them.  A flow that did
    not reach the table is closed when its owner leaves the scope, after the
    reports. *)
Definition registerFlowIndexesAndSocket (flow : UdpFlow) : act bool :=
  indexed <- call u_alloc ;;
  if negb indexed then closingFd (fd flow) (dropSetup ENOMEM ;;; mret false)
  else
    update (fun r =>
      set_flowTokensByKey
        (match flowTokensByKey_ r !! key flow with
         | Some _ => flowTokensByKey_ r
         | None => <[key flow := token flow]> (flowTokensByKey_ r)
         end) r) ;;;
    stored <- call u_alloc ;;
    if negb stored then
      eraseFlow flow ;;; closingFd (fd flow) (dropSetup ENOMEM ;;; mret false)
    else
      update (fun r => set_flows (<[token flow := flow]> (flows_ r)) r) ;;;
      mcatch (registerFlowSocket (fd flow) (token flow) ;;; mret true)
        (fun e =>
           match e with
           | SystemError code _ =>
               eraseFlow flow ;;;
               effect (u_close (fd flow)) ;;;
               if (code =? EBADF) || (code =? EINVAL) then mthrow e
               else dropSetup code ;;; mret false
           | e => mthrow e
           end).

Definition flowCreated (flow : UdpFlow) : act unit :=
  reportStatEvent kCreated 1 ;;;
  reportObservation (bs "created") (token flow) (fd flow) ;;;
  match flowCallback callbacks_ with
  | Some f => outside (f (mkUdpFlowEvent (token flow) (backend flow) (bs "created") 0))
  | None => mret tt
  end.

(** The socket is open, bound and connected. *)
Definition addFlow (k : UdpFlowKey) (b : Endpoint) (f : Z) : act Z :=
  r <- own (fun r => r) ;;
  if nextFlowToken_ r =? UINT64_MAX then
    closingFd f (mthrow (OverflowError (bs "UDP token exhausted")))
  else
    let t := nextFlowToken_ r in
    update (set_nextFlowToken (t + 1)) ;;;
    now <- call u_now ;;
    allocated <- call u_alloc ;;
    if negb allocated then effect (u_close f) ;;; dropSetup ENOMEM ;;; mret 0
    else
      let flow := mkUdpFlow k b f t (mkUdpIdleDeadline now) in
      registered <- registerFlowIndexesAndSocket flow ;;
      if registered : bool then flowCreated flow ;;; mret t else mret 0.

Definition openFlow (k : UdpFlowKey) (b : Endpoint) : act Z :=
  sock <- call u_socket ;;
  match sock with
  | inr errno => dropSetup errno ;;; mret 0
  | inl f =>
      bound <- call (u_bind f emptyEndpoint) ;;
      match bound with
      | inr errno => closingFd f (dropSetup errno ;;; mret 0)
      | inl _ =>
          connected <- call (u_connect f b) ;;
          match connected with
          | inr errno => closingFd f (dropSetup errno ;;; mret 0)
          | inl _ => addFlow k b f
          end
      end
  end.

(** The token of the new flow, or 0. *)
Definition createFlow (k : UdpFlowKey) : act Z :=
  expireIdleFlows ;;;
  r <- own (fun r => r) ;;
  if maxFlows options_ <=? Z.of_nat (size (flows_ r)) then
    reportStatEvent kRejected 1 ;;; reportDiagnostic (bs "capacity-drop") 0 ;;; mret 0
  else
    selected <- match backendSelector callbacks_ with
                | Some f => outside f
                | None => badFunctionCall
                end ;;
    match selected with
    | None => reportStatEvent kRejected 1 ;;; mret 0
    | Some b => openFlow k b
    end.

(** ** Relaying datagrams *)

(** Whether the flow or the listener can go on. *)
Definition handleSocketError (code : Z) (listener : bool) (t : Z) (kind : bytes) : act bool :=
  if (code =? EBADF) || (code =? ENOTSOCK) || (code =? EINVAL) then mthrow (SystemError code kind)
  else if listener then
    if negb (isSharedSocketError code) then mthrow (SystemError code kind)
    else
      mwhen (negb (isSilentError code)) (reportStatEvent kError 1) ;;;
      reportDiagnostic kind code ;;;
      mret true
  else if isResourcePressure code then
    mwhen (negb (isSilentError code)) (reportStatEvent kError 1) ;;;
    reportDiagnostic kind code ;;;
    mret true
  else
    mwhen (negb (isSilentError code)) (reportStatEvent kError 1) ;;;
    closeFlow t kind code ;;;
    mret false.

(** The submission of a whole datagram refreshes the flow. *)
Definition datagramSent (flow : UdpFlow) (f size : Z) (reply : bool) : act unit :=
  reportStatEvent (if reply then kBytesB2c else kBytesC2b) size ;;;
  reportStatEvent (if reply then kDatagramB2c else kDatagramC2b) 1 ;;;
  now <- call u_now ;;
  update (fun r => set_flows
    (alter (fun x => set_deadline (recordSubmission now (deadline x)) x) (token flow) (flows_ r)) r) ;;;
  reportObservation (if reply then bs "sent-reply" else bs "sent-request") (token flow) f.

(** A reply leaves through the listener, to the flow's client and from the
    flow's local address. *)
Definition submitDatagram (flow : UdpFlow) (f : Z) (payload : bytes) (reply : bool)
    : act (Z + Z) :=
  if reply then call (u_sendmsg f payload (client (key flow)) (replyControl (localAddress (key flow))))
  else call (u_send f payload).

Fixpoint sendAttempts (attempts : nat) (flow : UdpFlow) (f size : Z) (reply : bool) : act unit :=
  match attempts with
  | O => reportStatEvent kDropped 1 ;;; reportDiagnostic (bs "send-budget-drop") 0
  | S attempts' =>
      r <- own (fun r => r) ;;
      result <- submitDatagram flow f (take (Z.to_nat size) (receiveBuffer_ r)) reply ;;
      match result with
      | inl sentBytes =>
          if sentBytes =? size then datagramSent flow f size reply
          else
            reportStatEvent kError 1 ;;;
            reportStatEvent kDropped 1 ;;;
            reportDiagnostic (bs "short-send-drop") 0
      | inr errno =>
          if errno =? EINTR then sendAttempts attempts' flow f size reply
          else
            reportStatEvent kDropped 1 ;;;
            handleSocketError errno reply (token flow)
              (if reply then bs "listener-send-drop" else bs "backend-send-error") ;;;
            mret tt
      end
  end.

Definition sendFlowDatagram (flow : UdpFlow) (size : Z) (reply : bool) : act unit :=
  r <- own (fun r => r) ;;
  sendAttempts 4 flow (if reply then listenerFd_ r else fd flow) size reply.

(** [flows_.at(token)] *)
Definition flowAt (t : Z) : act UdpFlow :=
  r <- own (fun r => r) ;;
  match flows_ r !! t with
  | Some flow => mret flow
  | None => mthrow (OutOfRange (bs "unordered_map::at"))
  end.

Definition flowExpired (flow : UdpFlow) : act bool :=
  now <- call u_now ;;
  mret (udpExpired (deadline flow) now (idleTimeout options_)).

(** The flow's token if it has not expired, otherwise 0. *)
Definition liveToken (t : Z) : act Z :=
  if t =? 0 then mret 0
  else
    flow <- flowAt t ;;
    expired <- flowExpired flow ;;
    if expired : bool then
      reportStatEvent kTimeout 1 ;;; closeFlow t (bs "idle-timeout") 0 ;;; mret 0
    else mret t.

Definition resolveFlowTokenForDatagram (k : UdpFlowKey) : act Z :=
  r <- own (fun r => r) ;;
  t <- liveToken (match flowTokensByKey_ r !! k with Some t => t | None => 0 end) ;;
  if t =? 0 then
    mcatch (createFlow k) (fun e => reportStatEvent kDropped 1 ;;; mthrow e)
  else mret t.

(** recvmsg(2) fills the start of the buffer. *)
Definition storeDatagram (msg : Datagram) : act unit :=
  update (fun r => set_receiveBuffer
    (dg_data msg ++ drop (length (dg_data msg)) (receiveBuffer_ r)) r).

Definition isTruncated (msg : Datagram) : bool :=
  dg_trunc msg || (kUdpPayloadLimit <? len (dg_data msg)).

(** A datagram of a client: forwarded on its flow, or dropped. *)
Definition forwardDatagram (msg : Datagram) : act unit :=
  r <- own (fun r => r) ;;
  if isTruncated msg then
    reportStatEvent kDropped 1 ;;; reportDiagnostic (bs "listener-truncated") 0
  else
    match parsePacketMetadata (listenEndpoint_ r) msg with
    | None => reportStatEvent kDropped 1 ;;; reportDiagnostic (bs "metadata-drop") 0
    | Some k =>
        t <- resolveFlowTokenForDatagram k ;;
        if t =? 0 then reportStatEvent kDropped 1
        else flow <- flowAt t ;; sendFlowDatagram flow (len (dg_data msg)) false
    end.

(** One attempt to read the listener; [false] returns from the handler. *)
Definition listenerAttempt : act bool :=
  r <- own (fun r => r) ;;
  received <- call (u_recvmsg (listenerFd_ r) (receiveSize options_)) ;;
  match received with
  | inr errno =>
      if errno =? EINTR then mret true
      else if (errno =? EAGAIN) || (errno =? EWOULDBLOCK) then mret false
      else handleSocketError errno true 0 (bs "listener-recv-error") ;;; mret false
  | inl msg => storeDatagram msg ;;; forwardDatagram msg ;;; mret true
  end.

Fixpoint handleListenerReadLoop (attempts : nat) : act unit :=
  match attempts with
  | O => reportObservation (bs "listener-budget") 0 (-1)
  | S attempts' =>
      more <- listenerAttempt ;;
      if more : bool then handleListenerReadLoop attempts' else mret tt
  end.
Definition handleListenerRead : act unit := handleListenerReadLoop 64.

Definition backendAttempt (t : Z) : act bool :=
  r <- own (fun r => r) ;;
  match flows_ r !! t with
  | None => mret false
  | Some flow =>
      expired <- flowExpired flow ;;
      if expired : bool then
        reportStatEvent kTimeout 1 ;;; closeFlow t (bs "idle-timeout") 0 ;;; mret false
      else
        received <- call (u_recvmsg (fd flow) (receiveSize options_)) ;;
        match received with
        | inr errno =>
            if errno =? EINTR then mret true
            else if (errno =? EAGAIN) || (errno =? EWOULDBLOCK) then mret false
            else handleSocketError errno false t (bs "backend-recv-error") ;;; mret false
        | inl msg =>
            storeDatagram msg ;;;
            (if isTruncated msg then
               reportStatEvent kDropped 1 ;;; reportDiagnostic (bs "backend-truncated") 0
             else sendFlowDatagram flow (len (dg_data msg)) true) ;;;
            mret true
        end
  end.

Fixpoint handleBackendReadLoop (attempts : nat) (t : Z) : act unit :=
  match attempts with
  | O => reportObservation (bs "backend-budget") t (-1)
  | S attempts' =>
      more <- backendAttempt t ;;
      if more : bool then handleBackendReadLoop attempts' t else mret tt
  end.
Definition handleBackendRead (t : Z) : act unit := handleBackendReadLoop 64 t.

(** ** Events *)

(** EPOLLERR: whether the event is handled further. *)
Definition checkSocketError (t f : Z) (listener : bool) : act bool :=
  result <- call (u_socket_error f) ;;
  match result with
  | inr errno =>
      if listener then mthrow (SystemError errno (bs "listener SO_ERROR"))
      else if (errno =? EBADF) || (errno =? ENOTSOCK) then
        mthrow (SystemError errno (bs "backend SO_ERROR"))
      else
        mwhen (negb (isSilentError errno)) (reportStatEvent kError 1) ;;;
        closeFlow t (bs "socket-error-read") errno ;;;
        mret false
  | inl code =>
      reportObservation (bs "epoll-error") t f ;;;
      if code =? 0 then mret true
      else
        handleSocketError code listener t
          (if listener then bs "listener-async-error" else bs "backend-async-error")
  end.

(** An event on the listener or on a live flow's socket [f]. *)
Definition handleReadyEvent (t f events : Z) (listener : bool) : act unit :=
  go <- (if has_any events EPOLLERR then checkSocketError t f listener else mret true) ;;
  if negb go then mret tt
  else if has_any events EPOLLHUP then
    if listener then mthrow (SystemError EIO (bs "UDP listener HUP"))
    else reportStatEvent kError 1 ;;; closeFlow t (bs "backend-hup") 0
  else mwhen (has_any events EPOLLIN)
         (if listener then handleListenerRead else handleBackendRead t).

Definition dispatchFlowEvent (t events : Z) : act unit :=
  if t =? 2 then mret tt
  else
    r <- own (fun r => r) ;;
    if t =? 1 then handleReadyEvent t (listenerFd_ r) events true
    else
      match flows_ r !! t with
      | None => reportObservation (bs "stale-token") t (-1)
      | Some flow =>
          expired <- flowExpired flow ;;
          if expired : bool then
            reportStatEvent kTimeout 1 ;;; closeFlow t (bs "idle-timeout") 0
          else handleReadyEvent t (fd flow) events false
      end.

(** Whether a stop signal ended the batch. *)
Fixpoint dispatchEvents (events : list (Z * Z)) : act bool :=
  match events with
  | [] => mret false
  | (t, mask) :: events' =>
      stop <- consumeStopSignals ;;
      if stop : bool then mret true
      else dispatchFlowEvent t mask ;;; dispatchEvents events'
  end.

Definition udpLoopTurn (_ : unit) : act (unit + unit) :=
  stop <- consumeStopSignals ;;
  if stop : bool then mret (inr tt)
  else
    expireIdleFlows ;;;
    polled <- call (u_epoll_wait (pollInterval options_)) ;;
    match polled with
    | inr errno =>
        if errno =? EINTR then mret (inl tt)
        else mthrow (SystemError errno (bs "UDP epoll_wait"))
    | inl events =>
        stop <- consumeStopSignals ;;
        if stop : bool then mret (inr tt)
        else
          expireIdleFlows ;;;
          (match maintenanceCallback callbacks_ with Some f => outside f | None => mret tt end) ;;;
          stopped <- dispatchEvents events ;;
          mret (if stopped : bool then inr tt else inl tt)
    end.

(** [turns] bounds the observed part of the loop. *)
Definition runUdpEventLoop (turns : nat) : act Z :=
  (match readyCallback callbacks_ with Some f => outside f | None => mret tt end) ;;;
  mloop turns udpLoopTurn tt ;;;
  mret 0.

Definition initialUdpReactor (endpoint : Endpoint) (listenerFd : Z) : UdpReactor :=
  mkUdpReactor endpoint listenerFd (replicate (Z.to_nat kUdpPayloadLimit) zero) 3 ∅ ∅ ∅.

Definition destroyUdpReactor : act unit := mcatch closeAllFlows (fun _ => mret tt).
End reactor.

(** ** Construction and destruction *)

Class UdpSetupOps (W : Type) := {
  us_block_signals : W -> (unit + Z) * W;
  us_restore_signals : W -> W;
  us_signalfd : W -> (Z + Z) * W;
  us_epoll_create : W -> (Z + Z) * W;
  us_socket : W -> (Z + Z) * W;
  us_pktinfo : Z -> W -> (unit + Z) * W;
  us_bind : Z -> Endpoint -> W -> (unit + Z) * W
}.

Section setup.
Context {W : Type} `{UdpOps W} `{UdpSetupOps W}.
Context (callbacks_ : UdpReactorCallbacks W) (options_ : UdpReactorOptions).

Definition member (result : Z + Z) : Z := match result with inl f => f | inr _ => -1 end.
Definition closeMember (f : Z) (w : W) : W := if 0 <=? f then u_close f w else w.

Definition destroyMembers (signalFd epollFd listenerFd : Z) (w : W) : W :=
  us_restore_signals (closeMember signalFd (closeMember epollFd (closeMember listenerFd w))).

(** [errno] after the three member initialisers: the last failure's. *)
Definition lastErrno (s e l : Z + Z) : Z :=
  match l, e, s with
  | inr errno, _, _ => errno
  | _, inr errno, _ => errno
  | _, _, inr errno => errno
  | _, _, _ => 0
  end.

Definition setUpListener (endpoint : Endpoint) (s e l : Z + Z) : M W unit :=
  if member s <? 0 then mthrow (SystemError (lastErrno s e l) (bs "signalfd"))
  else if member e <? 0 then mthrow (SystemError (lastErrno s e l) (bs "epoll_create1"))
  else if member l <? 0 then mthrow (SystemError (lastErrno s e l) (bs "UDP listener socket"))
  else
    orThrow (bs "IP_PKTINFO") (us_pktinfo (member l)) ;;;
    orThrow (bs "UDP bind") (us_bind (member l) endpoint) ;;;
    orThrow (bs "UDP epoll add") (u_epoll_add (member l) 1) ;;;
    orThrow (bs "UDP epoll add") (u_epoll_add (member s) 2).

(** The loop, then [closeAllFlows] on a normal end, then the destructor. *)
Definition runReactorObject (turns : nat) (endpoint : Endpoint) (listenerFd : Z) : M W Z :=
  fun w =>
    let '(o, s) :=
      (result <- runUdpEventLoop callbacks_ options_ turns ;;
       closeAllFlows callbacks_ ;;;
       mret result) (initialUdpReactor endpoint listenerFd, w) in
    match o with
    | Diverge => (Diverge, s.2)
    | o => let '(_, (r, w')) := destroyUdpReactor callbacks_ s in (o, closeMember (listenerFd_ r) w')
    end.

Definition INT_MAX : Z := 2147483647.

Definition validOptions : bool :=
  negb ((maxFlows options_ =? 0) || (idleTimeout options_ <=? 0) || (pollInterval options_ <=? 0) ||
        (INT_MAX <? pollInterval options_) || (receiveSize options_ =? 0) ||
        (kUdpPayloadLimit <? receiveSize options_) ||
        match backendSelector callbacks_ with Some _ => false | None => true end).

Definition runUdpReactor (turns : nat) (listen : Endpoint) : M W Z :=
  if negb validOptions then mthrow (InvalidArgument (bs "invalid UDP options/callbacks"))
  else
    orThrow (bs "sigprocmask") us_block_signals ;;;
    s <- mworld us_signalfd ;;
    e <- mworld us_epoll_create ;;
    l <- mworld us_socket ;;
    mcatch (setUpListener listen s e l)
      (fun x => mmodify (destroyMembers (member s) (member e) (member l)) ;;; mthrow x) ;;;
    mfinally (runReactorObject turns listen (member l)) (destroyMembers (member s) (member e) (-1)).
End setup.
