(* ===== verification/UdpReactorSafety.v ===== *)
(** * Safety of the UDP reactor

    The documented behaviour of the kernel and of the callbacks, the invariant of
    the reactor (the two indexes, descriptor ownership, capacity, accounting, the
    relay of datagrams) and its preservation by every operation. *)
From S2P Require Import Prelude Config Core Metrics UdpReactor.

(** ** The kernel

    Ghost state: the open descriptors that socket(2) gave to the reactor, what
    went through them, the number of flows reported as created and not yet as
    closed, and what the owner of the callbacks needs of the world, which the
    reactor's calls keep. *)
Inductive UdpLog :=
| LOpen (f : Z)
| LRecv (f : Z) (msg : Datagram)
| LSend (f : Z) (data : bytes)
| LSendTo (f : Z) (to : Endpoint) (control data : bytes).

Class UdpGhost (W : Type) := {
  u_opened : W -> gset Z;
  u_log : W -> list UdpLog;
  u_live : W -> Z;
  u_owner_ok : W -> Prop
}.

Definition keeps_owner {W} `{UdpGhost W} (w w' : W) : Prop := u_owner_ok w -> u_owner_ok w'.

Definition quiet {W} `{UdpGhost W} (w w' : W) : Prop :=
  u_opened w' = u_opened w /\ u_log w' = u_log w /\ u_live w' = u_live w /\ keeps_owner w w'.

Definition logged {W} `{UdpGhost W} (e : UdpLog) (w w' : W) : Prop :=
  u_opened w' = u_opened w /\ u_log w' = u_log w ++ [e] /\ u_live w' = u_live w /\
  keeps_owner w w'.

Class UdpKernel (W : Type) `{UdpOps W} `{UdpGhost W} := {
  uk_now : forall w, quiet w (u_now w).2;
  uk_read_signal : forall w, quiet w (u_read_signal w).2;
  uk_epoll_wait : forall timeout w, quiet w (u_epoll_wait timeout w).2;
  uk_epoll_add : forall f t w, quiet w (u_epoll_add f t w).2;
  uk_epoll_del : forall f w, quiet w (u_epoll_del f w).2;
  uk_alloc : forall w, quiet w (u_alloc w).2;
  uk_socket : forall w,
    match u_socket w with
    | (inl f, w') =>
        (f ∉ u_opened w) /\ u_opened w' = ({[f]} ∪ u_opened w) /\
        u_log w' = u_log w ++ [LOpen f] /\ u_live w' = u_live w /\ keeps_owner w w'
    | (inr _, w') => quiet w w'
    end;
  uk_bind : forall f e w, quiet w (u_bind f e w).2;
  uk_connect : forall f e w, quiet w (u_connect f e w).2;
  uk_recvmsg : forall f limit w,
    match u_recvmsg f limit w with
    | (inl msg, w') => logged (LRecv f msg) w w'
    | (inr _, w') => quiet w w'
    end;
  uk_send : forall f d w,
    match u_send f d w with
    | (inl _, w') => logged (LSend f d) w w'
    | (inr _, w') => quiet w w'
    end;
  uk_sendmsg : forall f d to control w,
    match u_sendmsg f d to control w with
    | (inl _, w') => logged (LSendTo f to control d) w w'
    | (inr _, w') => quiet w w'
    end;
  uk_socket_error : forall f w, quiet w (u_socket_error f w).2;
  uk_close : forall f w, f ∈ u_opened w ->
    u_opened (u_close f w) = u_opened w ∖ {[f]} /\ u_log (u_close f w) = u_log w /\
    u_live (u_close f w) = u_live w /\ keeps_owner w (u_close f w);
  uk_order : forall l w, u_order l w ≡ₚ l
}.

(** ** The callbacks return or throw, and leave the reactor's sockets alone; the
    statistics callback counts every created and closed flow, as long as the
    number of live flows stays between 0 and [limit]. *)
Definition quiet_call {W A} `{UdpGhost W} (m : M W A) : Prop :=
  forall w, u_owner_ok w -> (m w).1 <> Diverge /\ quiet w (m w).2.

Record udp_callbacks_ok {W} `{UdpGhost W} (limit : Z) (c : UdpReactorCallbacks W) : Prop := {
  uc_selector : optional quiet_call (backendSelector c);
  uc_maintenance : optional quiet_call (maintenanceCallback c);
  uc_statistics : optional
    (fun f => forall e w, u_owner_ok w -> countable_event limit e (u_live w) ->
       (f e w).1 <> Diverge /\ u_opened (f e w).2 = u_opened w /\
       u_log (f e w).2 = u_log w /\ u_live (f e w).2 = u_live w + live_change e /\
       keeps_owner w (f e w).2)
    (statisticsCallback c);
  uc_ready : optional quiet_call (readyCallback c);
  uc_flow : optional (fun f => forall e, quiet_call (f e)) (flowCallback c);
  uc_diagnostic : optional (fun f => forall k e, quiet_call (f k e)) (diagnosticCallback c);
  uc_observation : optional (fun f => forall o, quiet_call (f o)) (observationCallback c)
}.

(** ** The relay

    [relayed ep l log owner waiting]: in [log] every datagram sent to a backend
    socket is the last datagram received by the listener [l], whole and
    unchanged, and sent once; every reply sent to a client is the last datagram
    received from a backend socket; and all datagrams through a backend socket,
    in both directions and as long as it is open, belong to one client and one
    local address, which [owner] records.  [waiting] is the last datagram
    received that was not sent on. *)
Inductive relayed (ep : Endpoint) (l : Z)
    : list UdpLog -> gmap Z UdpFlowKey -> option (Z * Datagram) -> Prop :=
| relayed_start : relayed ep l [] ∅ None
| relayed_open log owner waiting f :
    relayed ep l log owner waiting ->
    relayed ep l (log ++ [LOpen f]) (delete f owner) waiting
| relayed_receive log owner waiting f msg :
    relayed ep l log owner waiting ->
    relayed ep l (log ++ [LRecv f msg]) owner (Some (f, msg))
| relayed_forward log owner f msg k :
    relayed ep l log owner (Some (l, msg)) ->
    isTruncated msg = false -> parsePacketMetadata ep msg = Some k ->
    f <> l -> owner !! f = None \/ owner !! f = Some k ->
    relayed ep l (log ++ [LSend f (dg_data msg)]) (<[f := k]> owner) None
| relayed_reply log owner f msg k :
    relayed ep l log owner (Some (f, msg)) ->
    isTruncated msg = false -> f <> l -> owner !! f = None \/ owner !! f = Some k ->
    relayed ep l
      (log ++ [LSendTo l (client k) (replyControl (localAddress k)) (dg_data msg)])
      (<[f := k]> owner) None.

#[local] Set Default Proof Using "All".

Section invariant.
Context {W : Type} `{UdpKernel W}.
Context (callbacks_ : UdpReactorCallbacks W) (options_ : UdpReactorOptions).
(** The listening endpoint and descriptor. *)
Context (ep : Endpoint) (l : Z).

(** [front] is a socket that no flow owns yet. *)
Record reactor_ok (front : option Z) (waiting : option (Z * Datagram)) (r : UdpReactor) (w : W)
    : Prop := {
  uo_listener : listenerFd_ r = l /\ listenEndpoint_ r = ep /\ l ∈ u_opened w;
  uo_next : 3 <= nextFlowToken_ r <= UINT64_MAX;
  uo_flow : forall t x, flows_ r !! t = Some x ->
    UdpReactor.token x = t /\ 3 <= t < nextFlowToken_ r /\
    flowTokensByKey_ r !! key x = Some t /\ fd x ∈ u_opened w /\ fd x <> l;
  uo_key : forall k t, flowTokensByKey_ r !! k = Some t ->
    exists x, flows_ r !! t = Some x /\ key x = k;
  uo_distinct : forall t x t' x', flows_ r !! t = Some x -> flows_ r !! t' = Some x' ->
    fd x = fd x' -> t = t';
  uo_opened : forall f, f ∈ u_opened w ->
    f = l \/ front = Some f \/ exists t x, flows_ r !! t = Some x /\ fd x = f;
  uo_front : forall f, front = Some f ->
    f ∈ u_opened w /\ f <> l /\ forall t x, flows_ r !! t = Some x -> fd x <> f;
  uo_capacity : Z.of_nat (size (flows_ r)) <= Z.max 0 (maxFlows options_);
  uo_live : statisticsCallback callbacks_ <> None -> u_live w = Z.of_nat (size (flows_ r));
  (** The waiting datagram is in the buffer. *)
  uo_buffer : forall f msg, waiting = Some (f, msg) ->
    take (length (dg_data msg)) (receiveBuffer_ r) = dg_data msg;
  uo_relay : exists owner, relayed ep l (u_log w) owner waiting /\
    (forall t x, flows_ r !! t = Some x -> owner !! fd x = None \/ owner !! fd x = Some (key x)) /\
    forall f, front = Some f -> owner !! f = None;
  uo_owner : u_owner_ok w
}.

Definition Inv (front : option Z) (waiting : option (Z * Datagram)) (s : UdpReactor * W) : Prop :=
  reactor_ok front waiting s.1 s.2.

(** Postconditions: the invariant holds in every outcome, and the flows are the
    same ([same]), or no flow was added ([shrinks]). *)
Definition fine (front : option Z) (waiting : option (Z * Datagram))
    (s : UdpReactor * W) A (o : outcome A) (s' : UdpReactor * W) : Prop :=
  o <> Diverge /\ Inv front waiting s'.
Definition shrinks (front : option Z) (waiting : option (Z * Datagram))
    (s : UdpReactor * W) A (o : outcome A) (s' : UdpReactor * W) : Prop :=
  o <> Diverge /\ Inv front waiting s' /\ flowTokensByKey_ s'.1 ⊆ flowTokensByKey_ s.1.
Definition same (front : option Z) (waiting : option (Z * Datagram))
    (s : UdpReactor * W) A (o : outcome A) (s' : UdpReactor * W) : Prop :=
  o <> Diverge /\ Inv front waiting s' /\
  flowTokensByKey_ s'.1 = flowTokensByKey_ s.1 /\ flows_ s'.1 = flows_ s.1.

Lemma udp_fine_composes x p : composes (fine x p).
Proof.
  split_and!.
  - by intros s A B a o s' s'' _ ?.
  - by intros s A B e s' [_ ?].
  - by intros s A s' [? _].
Qed.
Lemma shrinks_composes x p : composes (shrinks x p).
Proof.
  split_and!.
  - intros s A B a o s' s'' (_ & _ & K1) (K2 & K3 & K4). split_and!; [done|done|by etrans].
  - by intros s A B e s' (_ & ? & ?).
  - by intros s A s' (? & _).
Qed.
Lemma udp_same_composes x p : composes (same x p).
Proof.
  split_and!.
  - intros s A B a o s' s'' (_ & _ & K1 & K2) (K3 & K4 & K5 & K6). split_and!; try done; congruence.
  - by intros s A B e s' (_ & ? & ?).
  - by intros s A s' (? & _).
Qed.

Lemma same_shrinks x p s A (o : outcome A) s' : same x p s A o s' -> shrinks x p s A o s'.
Proof. intros (? & ? & E & _). split_and!; try done. by rewrite E. Qed.
Lemma shrinks_fine x p s A (o : outcome A) s' : shrinks x p s A o s' -> fine x p s A o s'.
Proof. by intros (? & ? & _). Qed.

Lemma wp_same_shrinks x p {A} (m : M (UdpReactor * W) A) s :
  wp m (same x p s A) s -> wp m (shrinks x p s A) s.
Proof. intros Hm. eapply wp_mono; [exact Hm|]. intros. by apply same_shrinks. Qed.
Lemma wp_shrinks_fine x p {A} (m : M (UdpReactor * W) A) s :
  wp m (shrinks x p s A) s -> wp m (fine x p s A) s.
Proof. intros Hm. eapply wp_mono; [exact Hm|]. intros. by eapply shrinks_fine. Qed.
Lemma wp_same_fine x p {A} (m : M (UdpReactor * W) A) s :
  wp m (same x p s A) s -> wp m (fine x p s A) s.
Proof. intros. by apply wp_shrinks_fine, wp_same_shrinks. Qed.

Ltac compose :=
  lazymatch goal with
  | |- wp (mbind _ _) (same _ _ _ _) _ => eapply wp_compose; [exact (udp_same_composes _ _)| |]
  | |- wp (mbind _ _) (shrinks _ _ _ _) _ => eapply wp_compose; [exact (shrinks_composes _ _)| |]
  | |- wp (mbind _ _) (fine _ _ _ _) _ => eapply wp_compose; [exact (udp_fine_composes _ _)| |]
  end.

(** ** General steps *)

Context (Hcb : udp_callbacks_ok (maxFlows options_) callbacks_).

Lemma udp_quiet_refl w : quiet w w.
Proof. by do 3 (split; [done|]); intros ?. Qed.
Lemma udp_quiet_trans w w' w'' : quiet w w' -> quiet w' w'' -> quiet w w''.
Proof.
  intros (? & ? & ? & K1) (? & ? & ? & K2).
  do 3 (split; [congruence|]). intros ?. by apply K2, K1.
Qed.

Lemma udp_ok_quiet x p r w w' : reactor_ok x p r w -> quiet w w' -> reactor_ok x p r w'.
Proof.
  intros [] (Ho & Hg & Hl & Hw). split; rewrite ?Ho, ?Hg, ?Hl; try done. by apply Hw.
Qed.

Lemma Inv_quiet x p s w' : Inv x p s -> quiet s.2 w' -> Inv x p (s.1, w').
Proof. apply udp_ok_quiet. Qed.

(** The invariant does not look at the diagnostic times. *)
Lemma udp_ok_same_core x p r r' w :
  reactor_ok x p r w -> listenerFd_ r' = listenerFd_ r -> listenEndpoint_ r' = listenEndpoint_ r ->
  nextFlowToken_ r' = nextFlowToken_ r -> flowTokensByKey_ r' = flowTokensByKey_ r ->
  flows_ r' = flows_ r -> receiveBuffer_ r' = receiveBuffer_ r -> reactor_ok x p r' w.
Proof. intros [] E1 E2 E3 E4 E5 E6. split; rewrite ?E1, ?E2, ?E3, ?E4, ?E5, ?E6; done. Qed.

Lemma udp_ret_same x p {A} (a : A) s : Inv x p s -> wp (mret a) (same x p s A) s.
Proof. by intros. Qed.
Lemma throw_same x p {A} e s : Inv x p s -> wp (mthrow e) (same x p s A) s.
Proof. by intros. Qed.

Lemma call_same x p {A} (op : W -> A * W) s :
  quiet s.2 (op s.2).2 -> Inv x p s -> wp (call op) (same x p s A) s.
Proof. intros Hq Hi. apply wp_call. split; [done|]. split; [by apply Inv_quiet|done]. Qed.

Lemma outside_same x p {A} (m : M W A) s :
  quiet_call m -> Inv x p s -> wp (outside m) (same x p s A) s.
Proof.
  intros Hm Hi. apply wp_outside. destruct (Hm s.2 (uo_owner _ _ _ _ Hi)) as [Hn Hq]. split; [done|].
  split; [by apply Inv_quiet|done].
Qed.

Lemma stat_same x p k n s :
  live_change (mkStatEvent k n) = 0 -> Inv x p s ->
  wp (reportStatEvent callbacks_ k n) (same x p s unit) s.
Proof.
  intros Hk Hi. unfold reportStatEvent.
  destruct (statisticsCallback callbacks_) as [f|] eqn:Hs; [|by apply udp_ret_same].
  apply wp_outside. pose proof (uc_statistics _ _ Hcb) as Hc. rewrite Hs in Hc.
  destruct (Hc (mkStatEvent k n) s.2 (uo_owner _ _ _ _ Hi) ltac:(by intros ?))
    as (Hn & Ho & Hg & Hl & Hw). split; [done|]. split; [|done].
  apply Inv_quiet; [done|]. split; [exact Ho|split; [exact Hg|split; [|exact Hw]]].
  etrans; [exact Hl|]. rewrite Hk. lia.
Qed.

Lemma observation_same x p k t f s :
  Inv x p s -> wp (reportObservation callbacks_ k t f) (same x p s unit) s.
Proof.
  intros Hi. unfold reportObservation. pose proof (uc_observation _ _ Hcb) as Hc.
  destruct (observationCallback callbacks_) as [g|]; [|by apply udp_ret_same].
  wp_step. wp_step. by apply outside_same.
Qed.

Lemma udp_now_same x p s : Inv x p s -> wp (call u_now) (same x p s Z) s.
Proof. apply call_same, uk_now. Qed.

Lemma core_same x p f s :
  (forall r, listenerFd_ (f r) = listenerFd_ r /\ listenEndpoint_ (f r) = listenEndpoint_ r /\
     nextFlowToken_ (f r) = nextFlowToken_ r /\ flowTokensByKey_ (f r) = flowTokensByKey_ r /\
     flows_ (f r) = flows_ r /\ receiveBuffer_ (f r) = receiveBuffer_ r) ->
  Inv x p s -> wp (update f) (same x p s unit) s.
Proof.
  intros Hf Hi. destruct (Hf s.1) as (? & ? & ? & ? & ? & ?). apply wp_update. split; [done|].
  split; [|done]. by eapply udp_ok_same_core.
Qed.

Lemma diagnostic_same x p k e s :
  Inv x p s -> wp (reportDiagnostic callbacks_ k e) (same x p s unit) s.
Proof.
  intros Hi. unfold reportDiagnostic. compose; [by apply observation_same|].
  intros _ s1 (_ & Hi1 & _). compose; [by apply udp_now_same|]. intros time s2 (_ & Hi2 & _).
  wp_step. wp_step. wp_step; [by apply udp_ret_same|].
  compose; [by apply core_same|]. intros _ s3 (_ & Hi3 & _).
  pose proof (uc_diagnostic _ _ Hcb) as Hc.
  destruct (diagnosticCallback callbacks_) as [g|]; [|by apply udp_ret_same].
  by apply outside_same.
Qed.

(** ** Closing *)

(** Reports between the steps of a change: only the accounting may move. *)
Definition drift (d : Z) (s s' : UdpReactor * W) : Prop :=
  s'.1 = s.1 /\ u_opened s'.2 = u_opened s.2 /\ u_log s'.2 = u_log s.2 /\
  (statisticsCallback callbacks_ <> None -> u_live s'.2 = u_live s.2 + d) /\ u_owner_ok s'.2.

Lemma drift_refl s : u_owner_ok s.2 -> drift 0 s s.
Proof. split; [done|]. split; [done|]. split; [done|]. split; [lia|done]. Qed.
Lemma drift_owner d s s' : drift d s s' -> u_owner_ok s'.2.
Proof. by intros (_ & _ & _ & _ & ?). Qed.
Lemma drift_trans a b s s' s'' : drift a s s' -> drift b s' s'' -> drift (a + b) s s''.
Proof.
  intros (? & ? & ? & K1 & _) (? & ? & ? & K2 & ?). do 3 (split; [congruence|]). split; [|done].
  intros Hs. rewrite K2, K1 by done. lia.
Qed.

Lemma quiet_call_drift {A} (m : M W A) s :
  quiet_call m -> u_owner_ok s.2 ->
  wp (outside m) (fun o s' => o <> Diverge /\ drift 0 s s') s.
Proof.
  intros Hm Hw. apply wp_outside. destruct (Hm s.2 Hw) as [Hn (Ho & Hg & Hl & Hw')]. split; [done|].
  do 3 (split; [done|]). split; [cbn; lia|by apply Hw'].
Qed.

Lemma stat_drift k n s :
  u_owner_ok s.2 ->
  (statisticsCallback callbacks_ <> None ->
     countable_event (maxFlows options_) (mkStatEvent k n) (u_live s.2)) ->
  wp (reportStatEvent callbacks_ k n)
    (fun o s' => o <> Diverge /\ drift (live_change (mkStatEvent k n)) s s') s.
Proof.
  intros Hw Hcount. unfold reportStatEvent. destruct (statisticsCallback callbacks_) as [f|] eqn:Hs.
  - apply wp_outside. pose proof (uc_statistics _ _ Hcb) as Hc. rewrite Hs in Hc.
    destruct (Hc (mkStatEvent k n) s.2 Hw (Hcount ltac:(done))) as (Hn & ? & ? & ? & Hw').
    split; [done|]. do 4 (split; [done|]). by apply Hw'.
  - apply wp_ret. split; [done|]. by do 4 (split; [done|]).
Qed.

Lemma observation_drift k t f s :
  u_owner_ok s.2 ->
  wp (reportObservation callbacks_ k t f) (fun o s' => o <> Diverge /\ drift 0 s s') s.
Proof.
  intros Hw. unfold reportObservation. pose proof (uc_observation _ _ Hcb) as Hc.
  destruct (observationCallback callbacks_) as [g|]; [|apply wp_ret; split; [done|by apply drift_refl]].
  wp_step. wp_step. by apply quiet_call_drift.
Qed.

Lemma attempt_drift d (m : M (UdpReactor * W) unit) failure s :
  wp m (fun o s' => o <> Diverge /\ drift d s s') s ->
  wp (attempt m failure) (fun o s' => (exists f, o = Ret f) /\ drift d s s') s.
Proof.
  intros Hm. unfold attempt. wp_step. wp_step. eapply wp_mono; [exact Hm|].
  intros [a|e|] s' [Hn Hs]; [wp_step|wp_step|done]; split; eauto.
Qed.

Lemma reportDetachError_drift e failure s :
  u_owner_ok s.2 ->
  wp (reportDetachError callbacks_ e failure) (fun o s' => (exists f, o = Ret f) /\ drift 0 s s') s.
Proof.
  intros Hw. unfold reportDetachError. wp_step; [wp_step; split; [eauto|by apply drift_refl]|].
  wp_step. eapply wp_mono; [apply (attempt_drift 0), stat_drift; [done|by intros _ ?]|].
  intros o s1 ([f ->] & Hs1). pose proof (drift_owner _ _ _ Hs1) as Hw1.
  eapply wp_mono.
  { apply (attempt_drift 0). pose proof (uc_diagnostic _ _ Hcb) as Hc.
    destruct (diagnosticCallback callbacks_) as [g|]; [by apply quiet_call_drift|].
    apply wp_ret. split; [done|by apply drift_refl]. }
  intros o s2 (? & Hs2). split; [done|]. by apply (drift_trans 0 0 s s1).
Qed.

(** The flow leaves both indexes and its descriptor the kernel's table. *)
Lemma udp_ok_removed x p r w w' t flow :
  reactor_ok x p r w -> flows_ r !! t = Some flow ->
  u_opened w' = u_opened w ∖ {[fd flow]} -> u_log w' = u_log w ->
  (statisticsCallback callbacks_ <> None -> u_live w' = u_live w - 1) -> u_owner_ok w' ->
  reactor_ok x p (set_flows (delete t (flows_ r))
                    (set_flowTokensByKey (delete (key flow) (flowTokensByKey_ r)) r)) w'.
Proof.
  intros [(Hl1 & Hl2 & Hl3) Hn Hf Hk Hd Ho Hx Hc Hlv Hbf (owner & Hr & Hown & Hfree) Hw] Hlk Hop Hlog Hlive Hw'.
  destruct (Hf t flow Hlk) as (Htok & Hrange & Hkey & Hfo & Hfl).
  assert (Hne : forall t' x', delete t (flows_ r) !! t' = Some x' ->
            flows_ r !! t' = Some x' /\ t' <> t /\ fd x' <> fd flow /\ key x' <> key flow).
  { intros t' x' [Ht' Hx']%lookup_delete_Some. split_and!; [done|done| |].
    - intros He. by pose proof (Hd _ _ _ _ Hx' Hlk He).
    - intros He. destruct (Hf _ _ Hx') as (_ & _ & Hk' & _). congruence. }
  split; cbn [listenerFd_ listenEndpoint_ nextFlowToken_ flowTokensByKey_ flows_ set_flows set_flowTokensByKey];
    rewrite ?Hlog; try done.
  - split_and!; try done. rewrite Hop. set_solver.
  - intros t' x' Hx'. destruct (Hne _ _ Hx') as (Hx1 & Ht1 & Hfd1 & Hk1).
    destruct (Hf _ _ Hx1) as (? & ? & ? & ? & ?). split_and!; try done; try lia.
    + by rewrite lookup_delete_ne.
    + rewrite Hop. set_solver.
  - intros k t' [Hk' Hx']%lookup_delete_Some. destruct (Hk _ _ Hx') as (x' & Hx1 & Hkk).
    exists x'. split; [|done]. rewrite lookup_delete_ne; [done|]. intros <-. congruence.
  - intros t1 x1 t2 x2 Hx1 Hx2. destruct (Hne _ _ Hx1) as (? & _). destruct (Hne _ _ Hx2) as (? & _).
    by apply Hd.
  - intros f. rewrite Hop. intros [Hfo' Hnf]%elem_of_difference.
    destruct (Ho f Hfo') as [?|[?|(t' & x' & Hx' & Hff)]]; [by left|by right; left|].
    right; right. exists t', x'. split; [|done]. rewrite lookup_delete_ne; [done|].
    intros <-. rewrite Hlk in Hx'. injection Hx' as <-. set_solver.
  - intros f Hfx. destruct (Hx f Hfx) as (? & ? & Hnf). split_and!; [|done|].
    + rewrite Hop. pose proof (Hnf _ _ Hlk). set_solver.
    + intros t' x' Hx'. destruct (Hne _ _ Hx') as (? & _). by eapply Hnf.
  - rewrite map_size_delete_Some by (by eexists). lia.
  - intros Hs. rewrite Hlive, Hlv by done. rewrite map_size_delete_Some by (by eexists).
    assert (size (flows_ r) <> 0%nat); [|lia].
    intros Hz%map_size_empty_inv. by rewrite Hz, lookup_empty in Hlk.
  - exists owner. split_and!; try done. intros t' x' Hx'. destruct (Hne _ _ Hx') as (? & _).
    by eapply Hown.
Qed.

Lemma closeFlow_full x p t flow reason error s :
  Inv x p s -> flows_ s.1 !! t = Some flow ->
  wp (closeFlow callbacks_ t reason error)
    (fun o s' => o <> Diverge /\ Inv x p s' /\ flows_ s'.1 = delete t (flows_ s.1) /\
       flowTokensByKey_ s'.1 = delete (key flow) (flowTokensByKey_ s.1) /\
       u_opened s'.2 = u_opened s.2 ∖ {[fd flow]} /\
       (statisticsCallback callbacks_ <> None -> u_live s'.2 = u_live s.2 - 1)) s.
Proof.
  intros Hi Hlk. unfold closeFlow. wp_step. wp_step. rewrite Hlk.
  wp_step. wp_step. wp_step. wp_step. cbn [fst snd].
  set (r2 := set_flows _ _).
  wp_step. wp_step. pose proof (uk_epoll_del (fd flow) s.2) as (Hd1 & Hd2 & Hd3 & Hd4).
  set (w1 := (u_epoll_del (fd flow) s.2).2) in *. set (deleted := (u_epoll_del (fd flow) s.2).1).
  wp_step. wp_step. cbn [fst snd].
  destruct (uk_close (fd flow) w1) as (Hc1 & Hc2 & Hc3 & Hc4).
  { rewrite Hd1. by apply (uo_flow _ _ _ _ Hi t). }
  set (s3 := (r2, u_close (fd flow) w1)).
  assert (Hw3 : u_owner_ok s3.2) by apply Hc4, Hd4, (uo_owner _ _ _ _ Hi).
  wp_step. eapply wp_mono; [by apply reportDetachError_drift|]. intros o s4 ([f4 ->] & Hs4).
  pose proof (drift_owner _ _ _ Hs4) as Hw4.
  wp_step. eapply wp_mono; [apply (attempt_drift (-1)), stat_drift; [done|]|].
  { intros Hst _. cbn [amount]. split; [done|]. unfold live_change. cbn [kind].
    destruct Hs4 as (_ & _ & _ & Hl4 & _). rewrite (Hl4 Hst). cbn [fst snd]. fold w1.
    rewrite Hc3, Hd3, (uo_live _ _ _ _ Hi Hst). pose proof (uo_capacity _ _ _ _ Hi).
    assert (size (flows_ s.1) <> 0%nat) by (intros E%map_size_empty_inv; by rewrite E in Hlk). lia. }
  intros o s5 ([f5 ->] & Hs5). pose proof (drift_owner _ _ _ Hs5) as Hw5.
  wp_step. eapply wp_mono; [by apply (attempt_drift 0), observation_drift|].
  intros o s6 ([f6 ->] & Hs6). pose proof (drift_owner _ _ _ Hs6) as Hw6.
  wp_step. eapply wp_mono.
  { apply (attempt_drift 0). pose proof (uc_flow _ _ Hcb) as Hc.
    destruct (flowCallback callbacks_) as [g|]; [by apply quiet_call_drift|].
    apply wp_ret. split; [done|by apply drift_refl]. }
  intros o s7 ([f7 ->] & Hs7).
  pose proof (drift_trans _ _ _ _ _ Hs4 (drift_trans _ _ _ _ _ Hs5 (drift_trans _ _ _ _ _ Hs6 Hs7)))
    as (Hr & Hop & Hlog & Hlive & Hw7).
  change (s7.1 = r2) in Hr. change (u_opened s7.2 = u_opened (u_close (fd flow) w1)) in Hop.
  change (u_log s7.2 = u_log (u_close (fd flow) w1)) in Hlog.
  assert (Hop' : u_opened s7.2 = u_opened s.2 ∖ {[fd flow]}) by (by rewrite Hop, Hc1, Hd1).
  assert (Hlive' : statisticsCallback callbacks_ <> None -> u_live s7.2 = u_live s.2 - 1).
  { intros Hs. rewrite Hlive by done. etrans; [apply (f_equal (fun z => z + _)); etrans; [exact Hc3|exact Hd3]|]. lia. }
  assert (Hfin : Inv x p s7).
  { unfold Inv. rewrite Hr. unfold r2.
    apply (udp_ok_removed x p s.1 s.2); [exact Hi|exact Hlk|exact Hop'| |exact Hlive'|exact Hw7].
    by rewrite Hlog, Hc2, Hd2. }
  destruct f7 as [e|]; wp_step; rewrite Hr; split_and!; done.
Qed.

Lemma closeFlow_shrinks x p t reason error s :
  Inv x p s -> wp (closeFlow callbacks_ t reason error) (shrinks x p s unit) s.
Proof.
  intros Hi. destruct (flows_ s.1 !! t) as [flow|] eqn:Hlk.
  - eapply wp_mono; [by eapply closeFlow_full|]. intros o s' (Hn & Hi' & _ & Hk & _).
    split_and!; try done. rewrite Hk. apply delete_subseteq.
  - unfold closeFlow. wp_step. wp_step. rewrite Hlk. wp_step. by split_and!.
Qed.

Lemma expireFlows_shrinks x p time tokens s :
  Inv x p s -> wp (expireFlows callbacks_ options_ time tokens) (shrinks x p s unit) s.
Proof.
  revert s. induction tokens as [|t tokens IH]; intros s Hi; cbn.
  - by apply wp_same_shrinks, udp_ret_same.
  - wp_step. wp_step. compose; [|intros _ s1 (_ & Hi1 & _); by apply IH].
    wp_step. wp_step; [|by split_and!].
    compose; [by apply wp_same_shrinks, stat_same|]. intros _ s1 (_ & Hi1 & _).
    by apply closeFlow_shrinks.
Qed.

Lemma expireIdleFlows_shrinks x p s :
  Inv x p s -> wp (expireIdleFlows callbacks_ options_) (shrinks x p s unit) s.
Proof.
  intros Hi. unfold expireIdleFlows. compose; [by apply wp_same_shrinks, udp_now_same|].
  intros time s1 (_ & Hi1 & _). wp_steps. by apply expireFlows_shrinks.
Qed.

Lemma closeAllFlowsLoop_empties x p turns failure s :
  Inv x p s -> (size (flows_ s.1) <= turns)%nat ->
  wp (closeAllFlowsLoop callbacks_ turns failure)
    (fun o s' => fine x p s unit o s' /\ flows_ s'.1 = ∅) s.
Proof.
  revert failure s. induction turns as [|turns IH]; intros failure s Hi Hsz; cbn;
    wp_step; wp_step; wp_step; wp_step;
    pose proof (uk_order (map_to_list (flows_ s.1)).*1 s.2) as Hperm;
    destruct (u_order (map_to_list (flows_ s.1)).*1 s.2) as [|t tokens].
  1,3: assert (Hempty : flows_ s.1 = ∅)
         by (apply map_to_list_empty_iff, (fmap_nil_inv fst), Permutation_nil; by rewrite Hperm);
       destruct failure; wp_step; (split; [by split|done]).
  - exfalso. assert (Hz : size (flows_ s.1) = 0%nat) by lia.
    apply map_size_empty_inv in Hz. rewrite Hz, map_to_list_empty in Hperm.
    symmetry in Hperm. by apply Permutation_nil_cons in Hperm.
  - assert (Hin : t ∈ (map_to_list (flows_ s.1)).*1) by (rewrite <-Hperm; set_solver).
    apply list_elem_of_fmap in Hin as ([t' flow] & -> & Hlk). apply elem_of_map_to_list in Hlk.
    unfold attempt. wp_step. wp_step. wp_step. eapply wp_mono; [by eapply closeFlow_full|].
    intros o s1 (Hn1 & Hi1 & Hd1 & _).
    assert (Hsz1 : (size (flows_ s1.1) <= turns)%nat).
    { rewrite Hd1. rewrite map_size_delete_Some by (by eexists). cbn in *. lia. }
    destruct o as [[]|e|]; [wp_step|wp_step|done];
      (eapply wp_mono; [by apply IH|done]).
Qed.

Lemma closeAllFlows_empties x p s :
  Inv x p s -> wp (closeAllFlows callbacks_) (fun o s' => fine x p s unit o s' /\ flows_ s'.1 = ∅) s.
Proof.
  intros Hi. unfold closeAllFlows. wp_step. wp_step. by apply closeAllFlowsLoop_empties.
Qed.

(** ** Creating a flow *)

Lemma ok_front_opened p r w w' f :
  reactor_ok None p r w ->
  (f ∉ u_opened w) -> u_opened w' = ({[f]} ∪ u_opened w) -> u_log w' = u_log w ++ [LOpen f] ->
  u_live w' = u_live w -> keeps_owner w w' -> reactor_ok (Some f) p r w'.
Proof.
  intros [(Hl1 & Hl2 & Hl3) Hn Hf Hk Hd Ho Hx Hc Hlv Hbf (owner & Hr & Hown & Hfree) Hw] Hnew Hop Hlog Hlive Hkw.
  assert (Hold : forall t x, flows_ r !! t = Some x -> fd x <> f).
  { intros t x Hx' He. destruct (Hf t x Hx') as (_ & _ & _ & Hin & _). congruence. }
  split; rewrite ?Hop, ?Hlog, ?Hlive; try done.
  - split_and!; try done. set_solver.
  - intros t x Hx'. destruct (Hf t x Hx') as (? & ? & ? & ? & ?). split_and!; try done; [lia|lia|set_solver].
  - intros g [->%elem_of_singleton|Hg]%elem_of_union; [by right; left|].
    destruct (Ho g Hg) as [?|[?|?]]; [by left|done|by right; right].
  - intros g [= <-]. split_and!; [set_solver|set_solver|done].
  - exists (delete f owner). split_and!; [by constructor| |].
    + intros t x Hx'. rewrite lookup_delete_ne by (symmetry; by eapply Hold). by eapply Hown.
    + intros g [= <-]. apply lookup_delete_eq.
  - by apply Hkw.
Qed.

Lemma ok_front_closed p r w f : reactor_ok (Some f) p r w -> reactor_ok None p r (u_close f w).
Proof.
  intros [(Hl1 & Hl2 & Hl3) Hn Hf Hk Hd Ho Hx Hc Hlv Hbf (owner & Hr & Hown & Hfree) Hw].
  destruct (Hx f eq_refl) as (Hopen & Hfl & Hnf).
  destruct (uk_close f w Hopen) as (Hop & Hlog & Hlive & Hkw).
  split; rewrite ?Hop, ?Hlog, ?Hlive; try done.
  - split_and!; try done. set_solver.
  - intros t x Hx'. destruct (Hf t x Hx') as (? & ? & ? & ? & ?). pose proof (Hnf t x Hx').
    split_and!; try done; [lia|lia|set_solver].
  - intros g [Hg Hne]%elem_of_difference. destruct (Ho g Hg) as [?|[[=]|?]]; [by left|set_solver|by right; right].
  - exists owner. by split_and!.
  - by apply Hkw.
Qed.

Lemma Inv_front_closed p s f : Inv (Some f) p s -> Inv None p (s.1, u_close f s.2).
Proof. apply ok_front_closed. Qed.

Lemma closingFd_shrinks p f {A} (m : M (UdpReactor * W) A) s :
  wp m (shrinks (Some f) p s A) s -> wp (closingFd f m) (shrinks None p s A) s.
Proof.
  intros Hm. unfold wp, closingFd in *. destruct (m s) as [o [r w]]. cbn [fst snd] in *.
  destruct Hm as (Hn & Hi & Hk). split_and!; [done|by apply (Inv_front_closed p (r, w))|done].
Qed.

Lemma dropSetup_same x p e s : Inv x p s -> wp (dropSetup callbacks_ e) (same x p s unit) s.
Proof.
  intros Hi. unfold dropSetup. compose; [by apply stat_same|]. intros _ s1 (_ & Hi1 & _).
  by apply diagnostic_same.
Qed.

Lemma dropSetup_then x p e {A} (a : A) s :
  Inv x p s -> wp (dropSetup callbacks_ e ;;; mret a) (same x p s A) s.
Proof.
  intros Hi. compose; [by apply dropSetup_same|]. intros _ s1 (_ & Hi1 & _). by apply udp_ret_same.
Qed.

Lemma ok_next x p r w n :
  reactor_ok x p r w -> nextFlowToken_ r <= n <= UINT64_MAX -> reactor_ok x p (set_nextFlowToken n r) w.
Proof.
  intros [Hl Hn Hf Hk Hd Ho Hx Hc Hlv Hbf Hr Hw] Hle.
  split; cbn [nextFlowToken_ set_nextFlowToken]; try done; [lia|].
  intros t y Hy. destruct (Hf t y Hy) as (? & ? & ? & ? & ?). split_and!; try done; cbn in *; lia.
Qed.

(** The flow [fl] in both indexes. *)
Definition with_flow (fl : UdpFlow) (r : UdpReactor) : UdpReactor :=
  set_flows (<[UdpReactor.token fl := fl]> (flows_ r))
    (set_flowTokensByKey (<[key fl := UdpReactor.token fl]> (flowTokensByKey_ r)) r).

Lemma ok_added p r w w' fl :
  reactor_ok (Some (fd fl)) p r w -> flowTokensByKey_ r !! key fl = None ->
  (forall t x, flows_ r !! t = Some x -> t < UdpReactor.token fl) ->
  3 <= UdpReactor.token fl < nextFlowToken_ r -> Z.of_nat (size (flows_ r)) < maxFlows options_ ->
  u_opened w' = u_opened w -> u_log w' = u_log w ->
  (statisticsCallback callbacks_ <> None -> u_live w' = u_live w + 1) -> u_owner_ok w' ->
  reactor_ok None p (with_flow fl r) w'.
Proof.
  intros [(Hl1 & Hl2 & Hl3) Hn Hf Hk Hd Ho Hx Hc Hlv Hbf (owner & Hr & Hown & Hfree) Hw]
    Hkey Hlt Hrange Hroom Hop Hlog Hlive Hw'.
  destruct (Hx _ eq_refl) as (Hfo & Hfl & Hnf).
  assert (Hnone : flows_ r !! UdpReactor.token fl = None).
  { destruct (flows_ r !! UdpReactor.token fl) eqn:E; [|done]. apply Hlt in E. lia. }
  assert (Hin : forall t x, flows_ (with_flow fl r) !! t = Some x ->
            t = UdpReactor.token fl /\ x = fl \/ t <> UdpReactor.token fl /\ flows_ r !! t = Some x).
  { intros t x. unfold with_flow. cbn [flows_ set_flows].
    intros [[<- <-]|[? ?]]%lookup_insert_Some; auto. }
  split; rewrite ?Hop, ?Hlog; try done; unfold with_flow;
    cbn [nextFlowToken_ flowTokensByKey_ flows_ set_flows set_flowTokensByKey].
  - intros t x Hx'. destruct (Hin t x Hx') as [[-> ->]|[Hne Hx1]].
    + split_and!; try done; [lia|lia|]. apply lookup_insert_eq.
    + destruct (Hf t x Hx1) as (? & ? & Hkx & ? & ?). split_and!; try done; [lia|lia|].
      rewrite lookup_insert_ne; [done|]. congruence.
  - intros k t [[<- <-]|[Hne Hk']]%lookup_insert_Some.
    + exists fl. split; [apply lookup_insert_eq|done].
    + destruct (Hk k t Hk') as (x & Hx1 & Hkx). exists x. split; [|done].
      rewrite lookup_insert_ne; [done|]. intros <-. congruence.
  - intros t x t' x' Hx1 Hx2 He.
    destruct (Hin t x Hx1) as [[-> ->]|[_ H1']], (Hin t' x' Hx2) as [[-> ->]|[_ H2']]; try done.
    + by destruct (Hnf _ _ H2').
    + by destruct (Hnf _ _ H1').
    + by eapply Hd.
  - intros f Hf'. destruct (Ho f Hf') as [?|[[= <-]|(t & x & Hx1 & Hfx)]]; [by left| |].
    + right; right. exists (UdpReactor.token fl), fl. by rewrite lookup_insert_eq.
    + right; right. exists t, x. split; [|done]. rewrite lookup_insert_ne; [done|]. congruence.
  - rewrite map_size_insert_None by done. lia.
  - intros Hs. rewrite map_size_insert_None by done. rewrite Hlive, Hlv by done. lia.
  - exists owner. split_and!; try done. intros t x Hx'. destruct (Hin t x Hx') as [[-> ->]|[_ Hx1]].
    + left. by apply Hfree.
    + by eapply Hown.
Qed.

(** Erasing a flow that was not there before undoes its insertion. *)
Lemma erase_undo fl r m :
  flowTokensByKey_ r !! key fl = None -> flows_ r !! UdpReactor.token fl = None ->
  m = flows_ r \/ m = <[UdpReactor.token fl := fl]> (flows_ r) ->
  set_flows (delete (UdpReactor.token fl) m)
    (set_flowTokensByKey (delete (key fl) (<[key fl := UdpReactor.token fl]> (flowTokensByKey_ r))) r) = r.
Proof.
  intros Hk Hf Hm. rewrite delete_insert_id by done.
  assert (Hd : delete (UdpReactor.token fl) m = flows_ r).
  { destruct Hm as [->| ->]; [by apply delete_id|by apply delete_insert_id]. }
  rewrite Hd. by destruct r.
Qed.

(** What creating a flow for [k] gives: 0 and no new flow, or the token of a
    flow for [k]. *)
Definition created (k : UdpFlowKey) (p : option (Z * Datagram)) (s : UdpReactor * W)
    (o : outcome Z) (s' : UdpReactor * W) : Prop :=
  o <> Diverge /\ Inv None p s' /\
  match o with
  | Ret t => if t =? 0 then flowTokensByKey_ s'.1 ⊆ flowTokensByKey_ s.1
             else flowTokensByKey_ s'.1 !! k = Some t /\
                  delete k (flowTokensByKey_ s'.1) ⊆ flowTokensByKey_ s.1
  | _ => True
  end.

Lemma shrinks_created k p s o s' :
  shrinks None p s Z o s' -> (forall t, o = Ret t -> t = 0) -> created k p s o s'.
Proof.
  intros (Hn & Hi & Hk) Ho. split_and!; try done. destruct o as [t|e|]; try done.
  by rewrite (Ho t eq_refl).
Qed.

(** A flow is refused: whatever the reports do, 0 is the only value. *)
Lemma refused_created k p s s1 (m : M (UdpReactor * W) unit) :
  flowTokensByKey_ s1.1 ⊆ flowTokensByKey_ s.1 ->
  wp m (shrinks None p s1 unit) s1 -> wp (m ;;; mret 0) (created k p s) s1.
Proof.
  intros Hk Hm. wp_step. eapply wp_mono; [exact Hm|].
  intros [[]|e|] s2 (Hn & Hi & Hk2); [wp_step|..]; try done; split_and!; try done. cbn. by etrans.
Qed.

Lemma flowCreated_fine p r w fl :
  reactor_ok (Some (fd fl)) p r w -> flowTokensByKey_ r !! key fl = None ->
  (forall t x, flows_ r !! t = Some x -> t < UdpReactor.token fl) ->
  3 <= UdpReactor.token fl < nextFlowToken_ r -> Z.of_nat (size (flows_ r)) < maxFlows options_ ->
  wp (flowCreated callbacks_ fl ;;; mret (UdpReactor.token fl))
    (fun o s' => o <> Diverge /\ Inv None p s' /\
       flowTokensByKey_ s'.1 = <[key fl := UdpReactor.token fl]> (flowTokensByKey_ r) /\
       forall t, o = Ret t -> t = UdpReactor.token fl) (with_flow fl r, w).
Proof.
  intros Hi Hkey Hlt Hrange Hroom. unfold flowCreated.
  set (P := fun (o : outcome unit) (s' : UdpReactor * W) => o <> Diverge /\ Inv None p s' /\
       flowTokensByKey_ s'.1 = <[key fl := UdpReactor.token fl]> (flowTokensByKey_ r)).
  assert (HP : wp (reportStatEvent callbacks_ kCreated 1 ;;;
      reportObservation callbacks_ (bs "created") (UdpReactor.token fl) (fd fl) ;;;
      match flowCallback callbacks_ with
      | Some f => outside (f (mkUdpFlowEvent (UdpReactor.token fl) (backend fl) (bs "created") 0))
      | None => mret tt
      end) P (with_flow fl r, w)).
  { wp_step. eapply wp_mono; [apply stat_drift; [apply (uo_owner _ _ _ _ Hi)|]|].
    { intros Hst _. cbn [amount fst snd]. split; [done|]. unfold live_change. cbn [kind].
      rewrite (uo_live _ _ _ _ Hi Hst). lia. }
    intros o s1 (Hn & Hr1 & Ho1 & Hg1 & Hl1 & Hw1).
    assert (Hi1 : Inv None p s1).
    { unfold Inv. rewrite Hr1. by eapply ok_added. }
    assert (Hk1 : flowTokensByKey_ s1.1 = <[key fl := UdpReactor.token fl]> (flowTokensByKey_ r))
      by (by rewrite Hr1).
    destruct o as [[]|e|]; [|by split_and!|done].
    apply (wp_mono _ (same None p s1 unit)).
    - compose; [by apply observation_same|]. intros _ s2 (_ & Hi2 & _).
      pose proof (uc_flow _ _ Hcb) as Hc. destruct (flowCallback callbacks_) as [g|]; [|by apply udp_ret_same].
      by apply outside_same.
    - intros o s2 (Hn2 & Hi2 & Hk2 & _). split_and!; [done|done|by rewrite Hk2]. }
  wp_step. eapply wp_mono; [exact HP|]. intros [[]|e|] s1 (Hn & Hi1 & Hk1); [wp_step|..]; try done;
    split_and!; try done. by intros t [= <-].
Qed.

Lemma addFlow_created k p b f s :
  Inv (Some f) p s -> flowTokensByKey_ s.1 !! k = None ->
  Z.of_nat (size (flows_ s.1)) < maxFlows options_ ->
  wp (addFlow callbacks_ k b f) (created k p s) s.
Proof.
  intros Hi Hkey Hroom. unfold addFlow. wp_step. wp_step. wp_step.
  { unfold wp, closingFd, mthrow. cbn [fst snd]. destruct s as [r w].
    split_and!; [done|by apply (Inv_front_closed p (r, w))|done]. }
  pose proof (uo_next _ _ _ _ Hi) as Hnx. set (t := nextFlowToken_ s.1) in *.
  assert (Hlt : forall t' x, flows_ s.1 !! t' = Some x -> t' < t).
  { intros t' x Hx. by destruct (uo_flow _ _ _ _ Hi t' x Hx) as (_ & [_ ?] & _). }
  assert (Ht : t < UINT64_MAX) by lia.
  assert (Hne : (t =? 0) = false) by lia.
  assert (Hnone : flows_ s.1 !! t = None).
  { destruct (flows_ s.1 !! t) eqn:E; [|done]. apply Hlt in E. lia. }
  wp_step. wp_step.
  assert (Hi1 : reactor_ok (Some f) p (set_nextFlowToken (t + 1) s.1) s.2) by (apply ok_next; [done|lia]).
  set (r1 := set_nextFlowToken (t + 1) s.1) in *.
  wp_step. wp_step. cbn [fst snd]. pose proof (uk_now s.2) as Hq1.
  set (now := (u_now s.2).1). set (w1 := (u_now s.2).2) in *.
  wp_step. wp_step. cbn [fst snd]. pose proof (uk_alloc w1) as Hq2. set (w2 := (u_alloc w1).2) in *.
  pose proof (udp_ok_quiet _ _ _ _ _ Hi1 (udp_quiet_trans _ _ _ Hq1 Hq2)) as Hi2.
  wp_step.
  { wp_step. wp_step. cbn [fst snd]. apply refused_created; [done|].
    apply wp_same_shrinks, dropSetup_same. by apply (Inv_front_closed p (r1, w2)). }
  set (fl := mkUdpFlow k b f t (mkUdpIdleDeadline now)).
  unfold registerFlowIndexesAndSocket. wp_step. wp_step. wp_step. cbn [fst snd].
  pose proof (uk_alloc w2) as Hq3. set (w3 := (u_alloc w2).2) in *.
  pose proof (udp_ok_quiet _ _ _ _ _ Hi2 Hq3) as Hi3.
  (* a refusal before the flow is in the table *)
  assert (Hrefuse : forall w, reactor_ok (Some f) p r1 w ->
    wp (closingFd f (dropSetup callbacks_ ENOMEM ;;; mret false))
      (fun o s' => match o with
        | Ret registered =>
            wp (if registered : bool then flowCreated callbacks_ fl ;;; mret t else mret 0)
              (created k p s) s'
        | o => created k p s (match o with Throw e => Throw e | _ => Diverge end) s'
        end) (r1, w)).
  { intros w Hw. eapply wp_mono.
    - apply (wp_conj _ (shrinks None p (r1, w) bool) (fun o _ => forall v, o = Ret v -> v = false)).
      + by apply closingFd_shrinks, wp_same_shrinks, dropSetup_then.
      + unfold wp, closingFd, mbind, mret. destruct (dropSetup callbacks_ ENOMEM (r1, w)) as [[] []]; cbn;
          intros v Hv; by simplify_eq.
    - intros o s' [(Hn & Hi' & Hk) Hv]. destruct o as [v|e|]; [|by split_and!|done].
      rewrite (Hv v eq_refl). wp_step. by split_and!. }
  wp_step; [eapply wp_mono; [by apply Hrefuse|by intros [|e|]]|].
  wp_step. wp_step. cbn [fst snd].
  change (flowTokensByKey_ r1) with (flowTokensByKey_ s.1). cbn [key fl]. rewrite Hkey.
  set (r3 := set_flowTokensByKey _ r1).
  wp_step. wp_step. cbn [fst snd]. pose proof (uk_alloc w3) as Hq4. set (w4 := (u_alloc w3).2) in *.
  pose proof (udp_ok_quiet _ _ _ _ _ Hi3 Hq4) as Hi4.
  wp_step.
  { unfold eraseFlow. do 4 wp_step. cbn [fst snd].
    replace (set_flows _ _) with r1 by
      (symmetry; apply (erase_undo fl r1 (flows_ r1)); [done|done|by left]).
    eapply wp_mono; [by apply Hrefuse|by intros [|e|]]. }
  wp_step. wp_step. cbn [fst snd].
  change (set_flows _ _) with (with_flow fl r1).
  wp_step. wp_step. unfold registerFlowSocket. wp_step. wp_step. cbn [fst snd].
  pose proof (uk_epoll_add (fd fl) (UdpReactor.token fl) w4) as Hq5.
  set (w5 := (u_epoll_add (fd fl) (UdpReactor.token fl) w4).2) in *.
  pose proof (udp_ok_quiet _ _ _ _ _ Hi4 Hq5) as Hi5.
  destruct (u_epoll_add (fd fl) (UdpReactor.token fl) w4).1 as [[]|code].
  - wp_step. wp_step. eapply wp_mono.
    + apply (flowCreated_fine p r1 w5 fl); [done|done|done|cbn; lia|done].
    + intros o s' (Hn & Hi' & Hk & Hv). split_and!; [done|done|].
      destruct o as [v|e|]; [|done|done]. rewrite (Hv v eq_refl). cbn [UdpReactor.token fl]. rewrite Hne.
      rewrite Hk. cbn [key fl UdpReactor.token]. split; [apply lookup_insert_eq|].
      rewrite delete_insert_id by done. done.
  - wp_step. unfold eraseFlow. do 4 wp_step. cbn [fst snd].
    replace (set_flows (delete (UdpReactor.token fl) (flows_ (with_flow fl r1))) _) with r1 by
      (symmetry; apply (erase_undo fl r1 (<[UdpReactor.token fl := fl]> (flows_ r1))); [done|done|by right]).
    wp_step. wp_step. cbn [fst snd].
    pose proof (Inv_front_closed p (r1, w5) f Hi5) as Hi6. cbn [fst snd] in Hi6.
    change (fd fl) with f.
    wp_step; [wp_step; by split_and!|].
    wp_step. eapply wp_mono; [by apply (dropSetup_same None p)|].
    intros [[]|e|] s' (Hn & Hi' & Hk & _); [|by split_and!|done].
    wp_step. wp_step. split_and!; [done|done|]. cbn. by rewrite Hk.
Qed.

Lemma openFlow_created k p b s :
  Inv None p s -> flowTokensByKey_ s.1 !! k = None ->
  Z.of_nat (size (flows_ s.1)) < maxFlows options_ ->
  wp (openFlow callbacks_ k b) (created k p s) s.
Proof.
  intros Hi Hkey Hroom. unfold openFlow. wp_step. wp_step.
  pose proof (uk_socket s.2) as Hk. destruct (u_socket s.2) as [[f|errno] w1]; cbn [fst snd].
  2: { apply refused_created; [done|]. apply wp_same_shrinks, dropSetup_same. by apply Inv_quiet. }
  destruct Hk as (Hnew & Hop & Hlog & Hlive & Hkw).
  assert (Hi1 : reactor_ok (Some f) p s.1 w1) by (by eapply ok_front_opened).
  assert (Hrefuse : forall e w, reactor_ok (Some f) p s.1 w ->
    wp (closingFd f (dropSetup callbacks_ e ;;; mret 0)) (created k p s) (s.1, w)).
  { intros e w Hw. eapply wp_mono.
    - apply (wp_conj _ (shrinks None p (s.1, w) Z) (fun o _ => forall t, o = Ret t -> t = 0)).
      + by apply closingFd_shrinks, wp_same_shrinks, dropSetup_then.
      + unfold wp, closingFd, mbind, mret. destruct (dropSetup callbacks_ e (s.1, w)) as [[] []]; cbn;
          intros t Ht; by simplify_eq.
    - intros o s' [Hs Ht]. by apply shrinks_created. }
  wp_step. wp_step. cbn [fst snd]. pose proof (uk_bind f emptyEndpoint w1) as Hq2.
  set (w2 := (u_bind f emptyEndpoint w1).2) in *. pose proof (udp_ok_quiet _ _ _ _ _ Hi1 Hq2) as Hi2.
  destruct (u_bind f emptyEndpoint w1).1 as [[]|e]; [|by apply Hrefuse].
  wp_step. wp_step. cbn [fst snd]. pose proof (uk_connect f b w2) as Hq3.
  set (w3 := (u_connect f b w2).2) in *. pose proof (udp_ok_quiet _ _ _ _ _ Hi2 Hq3) as Hi3.
  destruct (u_connect f b w2).1 as [[]|e]; [|by apply Hrefuse].
  by apply (addFlow_created k p b f (s.1, w3)).
Qed.

Lemma created_mono k p s s1 o s' :
  flowTokensByKey_ s1.1 ⊆ flowTokensByKey_ s.1 -> created k p s1 o s' -> created k p s o s'.
Proof.
  intros Hk (Hn & Hi & Ho). split_and!; try done. destruct o as [t|e|]; try done.
  destruct (t =? 0); [by etrans|]. destruct Ho as [? ?]. split; [done|by etrans].
Qed.

Lemma createFlow_created k p s :
  Inv None p s -> flowTokensByKey_ s.1 !! k = None ->
  wp (createFlow callbacks_ options_ k) (created k p s) s.
Proof.
  intros Hi Hkey. unfold createFlow. wp_step.
  eapply wp_mono; [by apply expireIdleFlows_shrinks|].
  intros [[]|e|] s1 (Hn1 & Hi1 & Hk1); [|by split_and!|done].
  apply (wp_mono _ (created k p s1)); [|intros o s'; by apply created_mono].
  assert (Hkey1 : flowTokensByKey_ s1.1 !! k = None) by (by eapply lookup_weaken_None).
  wp_step. wp_step. wp_step.
  { wp_step. eapply wp_mono; [by apply (stat_same None p)|].
    intros [[]|e|] s2 (Hn2 & Hi2 & Hk2 & _); [|by split_and!|done].
    apply refused_created; [by rewrite Hk2|]. by apply wp_same_shrinks, diagnostic_same. }
  wp_step. pose proof (uc_selector _ _ Hcb) as Hc.
  destruct (backendSelector callbacks_) as [g|]; [|by split_and!].
  wp_step. destruct (Hc s1.2 (uo_owner _ _ _ _ Hi1)) as [Hn2 Hq2]. pose proof (udp_ok_quiet _ _ _ _ _ Hi1 Hq2) as Hi2.
  destruct (g s1.2) as [[[b|]|e|] w2]; cbn [fst snd] in *; [| |by split_and!|done].
  - apply (openFlow_created k p b (s1.1, w2)); [done|done|cbn [fst]; lia].
  - apply refused_created; [done|]. by apply wp_same_shrinks, stat_same.
Qed.

(** ** Relaying *)

Lemma ok_received p r w w' f msg :
  reactor_ok None p r w -> logged (LRecv f msg) w w' ->
  reactor_ok None (Some (f, msg))
    (set_receiveBuffer (dg_data msg ++ drop (length (dg_data msg)) (receiveBuffer_ r)) r) w'.
Proof.
  intros [Hl Hn Hf Hk Hd Ho Hx Hc Hlv Hbf (owner & Hr & Hown & Hfree) Hw] (Eo & Eg & El & Ew).
  split; rewrite ?Eo, ?Eg, ?El; try done.
  - intros g m [= <- <-]. cbn. by rewrite take_app_length.
  - exists owner. split_and!; try done. by eapply relayed_receive.
  - by apply Ew.
Qed.

Lemma owner_insert r (owner : gmap Z UdpFlowKey) t x :
  (forall t x t' x', flows_ r !! t = Some x -> flows_ r !! t' = Some x' -> fd x = fd x' -> t = t') ->
  (forall t x, flows_ r !! t = Some x -> owner !! fd x = None \/ owner !! fd x = Some (key x)) ->
  flows_ r !! t = Some x ->
  forall t' x', flows_ r !! t' = Some x' ->
    <[fd x := key x]> owner !! fd x' = None \/ <[fd x := key x]> owner !! fd x' = Some (key x').
Proof.
  intros Hd Hown Hlk t' x' Hx'. destruct (decide (fd x = fd x')) as [He|Hne].
  - right. pose proof (Hd _ _ _ _ Hlk Hx' He) as ->. rewrite Hlk in Hx'. injection Hx' as <-.
    by rewrite lookup_insert_eq.
  - rewrite lookup_insert_ne by done. by eapply Hown.
Qed.

Lemma ok_forwarded r w w' t x msg :
  reactor_ok None (Some (l, msg)) r w -> flows_ r !! t = Some x -> isTruncated msg = false ->
  parsePacketMetadata ep msg = Some (key x) -> logged (LSend (fd x) (dg_data msg)) w w' ->
  reactor_ok None None r w'.
Proof.
  intros [Hl Hn Hf Hk Hd Ho Hx Hc Hlv Hbf (owner & Hr & Hown & Hfree) Hw] Hlk Htr Hparse (Eo & Eg & El & Ew).
  destruct (Hf t x Hlk) as (_ & _ & _ & _ & Hne).
  split; rewrite ?Eo, ?Eg, ?El; try done.
  - exists (<[fd x := key x]> owner). split_and!; [|by eapply owner_insert|done].
    eapply relayed_forward; [exact Hr|done|exact Hparse|exact Hne|by eapply Hown].
  - by apply Ew.
Qed.

Lemma ok_replied r w w' t x msg :
  reactor_ok None (Some (fd x, msg)) r w -> flows_ r !! t = Some x -> isTruncated msg = false ->
  logged (LSendTo l (client (key x)) (replyControl (localAddress (key x))) (dg_data msg)) w w' ->
  reactor_ok None None r w'.
Proof.
  intros [Hl Hn Hf Hk Hd Ho Hx Hc Hlv Hbf (owner & Hr & Hown & Hfree) Hw] Hlk Htr (Eo & Eg & El & Ew).
  destruct (Hf t x Hlk) as (_ & _ & _ & _ & Hne).
  split; rewrite ?Eo, ?Eg, ?El; try done.
  - exists (<[fd x := key x]> owner). split_and!; [|by eapply owner_insert|done].
    eapply relayed_reply; [exact Hr|done|exact Hne|by eapply Hown].
  - by apply Ew.
Qed.

Lemma ok_deadline x p r w t d :
  reactor_ok x p r w ->
  reactor_ok x p (set_flows (alter (fun y => set_deadline d y) t (flows_ r)) r) w.
Proof.
  intros [Hl Hn Hf Hk Hd Ho Hx Hc Hlv Hbf (owner & Hr & Hown & Hfree) Hw].
  assert (Hin : forall t' y, alter (fun y => set_deadline d y) t (flows_ r) !! t' = Some y ->
            exists z, flows_ r !! t' = Some z /\ fd y = fd z /\ key y = key z /\
                      UdpReactor.token y = UdpReactor.token z).
  { intros t' y. rewrite lookup_alter. case_decide as He; [|intros ?; by exists y].
    intros (z & Hz & ->)%fmap_Some. exists z. by subst. }
  assert (Hout : forall t' z, flows_ r !! t' = Some z ->
            exists y, alter (fun y => set_deadline d y) t (flows_ r) !! t' = Some y /\
                      fd y = fd z /\ key y = key z).
  { intros t' z Hz. rewrite lookup_alter. case_decide as He; [|by exists z].
    exists (set_deadline d z). by rewrite He, Hz. }
  split; cbn [listenerFd_ listenEndpoint_ nextFlowToken_ flowTokensByKey_ flows_ set_flows]; try done.
  - intros t' y Hy. destruct (Hin t' y Hy) as (z & Hz & -> & -> & ->). by apply Hf.
  - intros k t' Hk'. destruct (Hk k t' Hk') as (z & Hz & <-). destruct (Hout t' z Hz) as (y & Hy & _ & E).
    by exists y.
  - intros t1 y1 t2 y2 Hy1 Hy2. destruct (Hin t1 y1 Hy1) as (z1 & Hz1 & -> & _).
    destruct (Hin t2 y2 Hy2) as (z2 & Hz2 & -> & _). by eapply Hd.
  - intros f Hf'. destruct (Ho f Hf') as [?|[?|(t' & z & Hz & <-)]]; [by left|by right; left|].
    destruct (Hout t' z Hz) as (y & Hy & E & _). right; right. by exists t', y.
  - intros f Hf'. destruct (Hx f Hf') as (? & ? & Hnf). split_and!; [done|done|].
    intros t' y Hy. destruct (Hin t' y Hy) as (z & Hz & -> & _). by eapply Hnf.
  - by rewrite <-size_dom, dom_alter_L, size_dom.
  - by rewrite <-size_dom, dom_alter_L, size_dom.
  - exists owner. split_and!; [done| |done]. intros t' y Hy.
    destruct (Hin t' y Hy) as (z & Hz & -> & -> & _). by eapply Hown.
Qed.

Lemma handleSocketError_shrinks p code listener t kind s :
  Inv None p s -> wp (handleSocketError callbacks_ code listener t kind) (shrinks None p s bool) s.
Proof.
  intros Hi. unfold handleSocketError.
  assert (Hsilent : forall s, Inv None p s ->
    wp (mwhen (negb (isSilentError code)) (reportStatEvent callbacks_ kError 1)) (shrinks None p s unit) s).
  { intros s0 Hi0. wp_step. wp_step; [by apply wp_same_shrinks, stat_same|by split_and!]. }
  assert (Hreport : forall s, Inv None p s ->
    wp (mwhen (negb (isSilentError code)) (reportStatEvent callbacks_ kError 1) ;;;
        reportDiagnostic callbacks_ kind code ;;; mret true) (shrinks None p s bool) s).
  { intros s0 Hi0. compose; [by apply Hsilent|]. intros _ s1 (_ & Hi1 & _).
    compose; [by apply wp_same_shrinks, diagnostic_same|]. intros _ s2 (_ & Hi2 & _).
    by apply wp_same_shrinks, udp_ret_same. }
  wp_step; [by apply wp_same_shrinks, throw_same|]. wp_step.
  - wp_step; [by apply wp_same_shrinks, throw_same|]. by apply Hreport.
  - wp_step; [by apply Hreport|]. compose; [by apply Hsilent|]. intros _ s1 (_ & Hi1 & _).
    compose; [by apply closeFlow_shrinks|]. intros _ s2 (_ & Hi2 & _). by apply wp_same_shrinks, udp_ret_same.
Qed.

Lemma datagramSent_fine p fl f size reply s :
  Inv None p s -> wp (datagramSent callbacks_ fl f size reply) (fine None p s unit) s.
Proof.
  intros Hi. unfold datagramSent.
  compose; [apply wp_same_fine, stat_same; [by destruct reply|done]|]. intros _ s1 [_ Hi1].
  compose; [apply wp_same_fine, stat_same; [by destruct reply|done]|]. intros _ s2 [_ Hi2].
  compose; [by apply wp_same_fine, udp_now_same|]. intros now s3 [_ Hi3].
  compose; [|intros _ s4 [_ Hi4]; by apply wp_same_fine, observation_same].
  wp_step. split; [done|]. unfold Inv. cbn [fst snd].
  replace (alter _ _ _) with
    (alter (fun y => set_deadline (recordSubmission now (mkUdpIdleDeadline 0)) y) (UdpReactor.token fl) (flows_ s3.1))
    by (apply alter_ext; intros; done).
  by apply ok_deadline.
Qed.

(** ** What a completed expiry and an error report leave *)

Lemma expireFlows_exact x p time tokens s :
  Inv x p s ->
  wp (expireFlows callbacks_ options_ time tokens)
    (fun o s' => o = Ret tt -> forall t fl, flows_ s'.1 !! t = Some fl <->
       flows_ s.1 !! t = Some fl /\
       ~ (t ∈ tokens /\ udpExpired (deadline fl) time (idleTimeout options_) = true)) s.
Proof.
  revert s. induction tokens as [|t tokens IH]; intros s Hi; cbn.
  { intros _ t fl. set_solver. }
  wp_step. wp_step. wp_step. wp_step. destruct (flows_ s.1 !! t) as [fl|] eqn:Hlk.
  2: { eapply wp_mono; [by apply IH|]. intros o s' HIH Ho t' fl'. rewrite (HIH Ho t' fl').
       rewrite elem_of_cons. split; [|tauto]. intros [Hf Hn]. split; [done|].
       intros [[->|?] ?]; [congruence|tauto]. }
  destruct (udpExpired (deadline fl) time (idleTimeout options_)) eqn:Hdue.
  - wp_step. eapply wp_mono; [by apply (stat_same x p)|].
    intros [[]|e|] s1 (Hn1 & Hi1 & _ & Hf1); [|done|done].
    assert (Hlk1 : flows_ s1.1 !! t = Some fl) by (by rewrite Hf1).
    eapply wp_mono; [by eapply closeFlow_full|]. intros [[]|e|] s2 (Hn2 & Hi2 & Hf2 & _); [|done|done].
    eapply wp_mono; [by apply IH|]. intros o s' HIH Ho t' fl'. rewrite (HIH Ho t' fl'), Hf2, Hf1.
    rewrite lookup_delete_Some, elem_of_cons. split.
    + intros [[Hne Hf] Hn]. split; [done|]. intros [[?|?] ?]; [congruence|tauto].
    + intros [Hf Hn]. split; [split; [|done]|tauto]. intros <-. simplify_eq. tauto.
  - eapply wp_mono; [by apply IH|]. intros o s' HIH Ho t' fl'. rewrite (HIH Ho t' fl').
    rewrite elem_of_cons. split; [|tauto]. intros [Hf Hn]. split; [done|].
    intros [[->|?] ?]; [simplify_eq; congruence|tauto].
Qed.

Lemma expireIdleFlows_exact x p s :
  Inv x p s ->
  wp (expireIdleFlows callbacks_ options_)
    (fun o s' => o = Ret tt -> forall t fl, flows_ s'.1 !! t = Some fl <->
       flows_ s.1 !! t = Some fl /\
       udpExpired (deadline fl) (u_now s.2).1 (idleTimeout options_) = false) s.
Proof.
  intros Hi. unfold expireIdleFlows. wp_step. wp_step. wp_step. wp_step. wp_step. wp_step.
  cbn [fst snd]. eapply wp_mono.
  { eapply expireFlows_exact, (Inv_quiet x p s); [done|]. apply uk_now. }
  intros o s' He Ho t fl. rewrite (He Ho t fl), uk_order. cbn [fst].
  split; intros [Hf Hn]; (split; [done|]).
  - destruct (udpExpired _ _ _) eqn:Hx; [|done]. destruct Hn. split; [|done].
    apply list_elem_of_fmap. exists (t, fl). split; [done|]. by apply elem_of_map_to_list.
  - intros [_ ?]. congruence.
Qed.

(** Errors that no event loop survives. *)
Definition fatalError (code : Z) (listener : bool) : bool :=
  (code =? EBADF) || (code =? ENOTSOCK) || (code =? EINVAL) ||
  (listener && negb (isSharedSocketError code)).

Lemma reported_same code p s :
  Inv None p s ->
  wp (mwhen (negb (isSilentError code)) (reportStatEvent callbacks_ kError 1)) (same None p s unit) s.
Proof. intros Hi. wp_step. wp_step; [by apply stat_same|by split_and!]. Qed.

Lemma handleSocketError_class p code listener t kind s :
  Inv None p s ->
  wp (handleSocketError callbacks_ code listener t kind)
    (fun o s' =>
       if fatalError code listener then o = Throw (SystemError code kind) /\ s' = s
       else if listener || isResourcePressure code then
         flows_ s'.1 = flows_ s.1 /\ forall go, o = Ret go -> go = true
       else
         (flows_ s'.1 = flows_ s.1 \/ flows_ s'.1 = delete t (flows_ s.1)) /\
         forall go, o = Ret go -> go = false /\ flows_ s'.1 = delete t (flows_ s.1)) s.
Proof.
  intros Hi. unfold handleSocketError, fatalError.
  assert (Hreport : wp (mwhen (negb (isSilentError code)) (reportStatEvent callbacks_ kError 1) ;;;
        reportDiagnostic callbacks_ kind code ;;; mret true)
        (fun o s' => flows_ s'.1 = flows_ s.1 /\ forall go, o = Ret go -> go = true) s).
  { wp_step. eapply wp_mono; [by apply (reported_same code p)|].
    intros [[]|e|] s1 (_ & Hi1 & _ & Hf1); [|done|done].
    wp_step. eapply wp_mono; [by apply (diagnostic_same None p)|].
    intros [[]|e|] s2 (_ & _ & _ & Hf2); [wp_step|..]; (split; [congruence|]); naive_solver. }
  destruct ((code =? EBADF) || (code =? ENOTSOCK) || (code =? EINVAL)); [by wp_step|].
  cbn [orb]. destruct listener; cbn [andb orb].
  { destruct (isSharedSocketError code); [exact Hreport|by wp_step]. }
  destruct (isResourcePressure code); [exact Hreport|].
  wp_step. eapply wp_mono; [by apply (reported_same code p)|].
  intros [[]|e|] s1 (Hn1 & Hi1 & _ & Hf1); [|split; [by left|done]|done].
  destruct (flows_ s1.1 !! t) as [flow|] eqn:Hlk.
  - wp_step. eapply wp_mono; [by eapply closeFlow_full|].
    intros [[]|e|] s2 (Hn2 & _ & Hf2 & _); [wp_step| |done]; rewrite Hf2, Hf1; (split; [by right|]).
    + by intros go [= <-].
    + done.
  - wp_step. unfold closeFlow. wp_step. wp_step. rewrite Hlk. wp_step. wp_step. rewrite Hf1 in Hlk.
    split; [by left|]. intros go [= <-]. split; [done|]. by rewrite Hf1, (delete_id _ _ Hlk).
Qed.

(** Any datagram may be waiting afterwards. *)
Definition settled (s : UdpReactor * W) A (o : outcome A) (s' : UdpReactor * W) : Prop :=
  o <> Diverge /\ exists p, Inv None p s'.

Lemma settled_composes : composes settled.
Proof.
  split_and!.
  - by intros s A B a o s' s'' _ ?.
  - by intros s A B e s' [_ ?].
  - by intros s A s' [? _].
Qed.
Lemma fine_settled p {A} (m : M (UdpReactor * W) A) s :
  wp m (fine None p s A) s -> wp m (settled s A) s.
Proof. intros Hm. eapply wp_mono; [exact Hm|]. intros o s' [? ?]. split; [done|by eexists]. Qed.
Ltac compose_settled := eapply wp_compose; [exact settled_composes| |].

(** One datagram [msg], read from [src], goes out on the flow [fl]. *)
Definition sendable (msg : Datagram) (fl : UdpFlow) (reply : bool) : Prop :=
  isTruncated msg = false /\ (reply = false -> parsePacketMetadata ep msg = Some (key fl)).
Definition source (fl : UdpFlow) (reply : bool) : Z := if reply then fd fl else l.
Definition target (fl : UdpFlow) (reply : bool) : Z := if reply then l else fd fl.

Lemma sendAttempts_settled attempts msg fl t reply s :
  Inv None (Some (source fl reply, msg)) s -> flows_ s.1 !! t = Some fl -> sendable msg fl reply ->
  wp (sendAttempts callbacks_ attempts fl (target fl reply) (len (dg_data msg)) reply) (settled s unit) s.
Proof.
  revert s. induction attempts as [|attempts IH]; intros s Hi Hlk Hsend; cbn [sendAttempts].
  { compose_settled; [by eapply fine_settled, wp_same_fine, stat_same|]. intros _ s1 [_ [p1 Hi1]].
    by eapply fine_settled, wp_same_fine, diagnostic_same. }
  wp_step. wp_step. unfold submitDatagram.
  assert (Hdata : take (Z.to_nat (len (dg_data msg))) (receiveBuffer_ s.1) = dg_data msg).
  { unfold len. rewrite Nat2Z.id. by eapply (uo_buffer _ _ _ _ Hi). }
  rewrite Hdata. destruct Hsend as [Htr Hparse].
  assert (Hcont : forall (result : Z + Z) w', match result with
      | inl _ => Inv None None (s.1, w')
      | inr _ => quiet s.2 w' end ->
    wp (match result with
        | inl sentBytes =>
            if sentBytes =? len (dg_data msg) then datagramSent callbacks_ fl (target fl reply) (len (dg_data msg)) reply
            else reportStatEvent callbacks_ kError 1 ;;; reportStatEvent callbacks_ kDropped 1 ;;;
                 reportDiagnostic callbacks_ (bs "short-send-drop") 0
        | inr errno =>
            if errno =? EINTR then sendAttempts callbacks_ attempts fl (target fl reply) (len (dg_data msg)) reply
            else reportStatEvent callbacks_ kDropped 1 ;;;
                 handleSocketError callbacks_ errno reply (UdpReactor.token fl)
                   (if reply then bs "listener-send-drop" else bs "backend-send-error") ;;; mret tt
        end) (settled (s.1, w') unit) (s.1, w')).
  { intros [n|errno] w' Hw.
    - wp_step; [by eapply fine_settled, datagramSent_fine|].
      compose_settled; [by eapply fine_settled, wp_same_fine, stat_same|]. intros _ s1 [_ [p1 Hi1]].
      compose_settled; [by eapply fine_settled, wp_same_fine, stat_same|]. intros _ s2 [_ [p2 Hi2]].
      by eapply fine_settled, wp_same_fine, diagnostic_same.
    - pose proof (Inv_quiet _ _ _ _ Hi Hw) as Hi1. wp_step; [by apply (IH (s.1, w'))|].
      compose_settled; [by eapply fine_settled, wp_same_fine, stat_same|]. intros _ s1 [_ [p1 Hi1']].
      compose_settled; [by eapply fine_settled, wp_shrinks_fine, handleSocketError_shrinks|].
      intros _ s2 [_ [p2 Hi2]]. by eapply fine_settled, wp_same_fine, udp_ret_same. }
  destruct (uo_listener _ _ _ _ Hi) as (Hl & _ & _).
  destruct reply; cbn [source target] in *; wp_step; wp_step.
  - pose proof (uk_sendmsg l (dg_data msg) (client (key fl)) (replyControl (localAddress (key fl))) s.2) as Hk.
    destruct (u_sendmsg _ _ _ _ s.2) as [result w']. cbn [fst snd].
    eapply wp_mono; [apply Hcont|done].
    destruct result; [|done]. by eapply (ok_replied s.1 s.2).
  - pose proof (uk_send (fd fl) (dg_data msg) s.2) as Hk.
    destruct (u_send _ _ s.2) as [result w']. cbn [fst snd].
    eapply wp_mono; [apply Hcont|done].
    destruct result; [|done]. eapply (ok_forwarded s.1 s.2); eauto.
Qed.

Lemma sendFlowDatagram_settled msg fl t reply s :
  Inv None (Some (source fl reply, msg)) s -> flows_ s.1 !! t = Some fl -> sendable msg fl reply ->
  wp (sendFlowDatagram callbacks_ fl (len (dg_data msg)) reply) (settled s unit) s.
Proof.
  intros Hi Hlk Hsend. unfold sendFlowDatagram. wp_step. wp_step.
  destruct (uo_listener _ _ _ _ Hi) as (Hl & _ & _). rewrite Hl.
  by eapply sendAttempts_settled.
Qed.

(** What resolving gives: 0, or the token of a flow for the key. *)
Definition resolved (k : UdpFlowKey) (p : option (Z * Datagram)) (o : outcome Z) (s' : UdpReactor * W)
    : Prop :=
  o <> Diverge /\ Inv None p s' /\
  match o with Ret t => t = 0 \/ flowTokensByKey_ s'.1 !! k = Some t | _ => True end.

Lemma flowExpired_same p fl s :
  Inv None p s -> wp (flowExpired options_ fl) (same None p s bool) s.
Proof.
  intros Hi. unfold flowExpired. compose; [by apply udp_now_same|].
  intros now s1 (_ & Hi1 & _). by apply udp_ret_same.
Qed.

Lemma liveToken_spec k p s :
  Inv None p s ->
  wp (liveToken callbacks_ options_ (match flowTokensByKey_ s.1 !! k with Some t => t | None => 0 end))
    (fun o s' => o <> Diverge /\ Inv None p s' /\
       match o with
       | Ret t => t = 0 /\ flowTokensByKey_ s'.1 !! k = None \/
                  t <> 0 /\ flowTokensByKey_ s'.1 !! k = Some t
       | _ => True
       end) s.
Proof.
  intros Hi. unfold liveToken. destruct (flowTokensByKey_ s.1 !! k) as [t|] eqn:Hk.
  2: { wp_step; [|lia]. wp_step. split_and!; try done. by left. }
  destruct (uo_key _ _ _ _ Hi k t Hk) as (fl & Hfl & Hkey).
  destruct (uo_flow _ _ _ _ Hi t fl Hfl) as (_ & Hrange & _).
  wp_step; [lia|]. unfold flowAt. wp_step. wp_step. wp_step. rewrite Hfl. wp_step.
  wp_step. eapply wp_mono; [by apply flowExpired_same|].
  intros [expired|e|] s1 (Hn1 & Hi1 & Hk1 & Hf1); [|by split_and!|done].
  wp_step.
  - wp_step. eapply wp_mono; [by apply (stat_same None p)|].
    intros [[]|e|] s2 (Hn2 & Hi2 & Hk2 & Hf2); [|by split_and!|done].
    wp_step. eapply wp_mono.
    { apply (closeFlow_full None p t fl); [done|]. by rewrite Hf2, Hf1. }
    intros [[]|e|] s3 (Hn3 & Hi3 & _ & Hk3 & _); [|by split_and!|done].
    wp_step. split_and!; try done. left. split; [done|]. rewrite Hk3, Hkey. apply lookup_delete_eq.
  - wp_step. split_and!; try done. right. split; [lia|by rewrite Hk1].
Qed.

Lemma resolveFlowTokenForDatagram_resolved k p s :
  Inv None p s -> wp (resolveFlowTokenForDatagram callbacks_ options_ k) (resolved k p) s.
Proof.
  intros Hi. unfold resolveFlowTokenForDatagram. wp_step. wp_step. wp_step.
  eapply wp_mono; [by apply liveToken_spec|].
  intros [t|e|] s1 (Hn1 & Hi1 & Ht1); [|by split_and!|done].
  wp_step.
  - destruct Ht1 as [[_ Hnone]|[? _]]; [|lia].
    wp_step. eapply wp_mono; [by apply createFlow_created|].
    intros [t'|e|] s2 (Hn2 & Hi2 & Ht2); [| |done].
    + split_and!; try done. destruct (Z.eqb_spec t' 0); [by left|right; apply Ht2].
    + wp_step. eapply wp_mono; [by apply (stat_same None p)|].
      intros [[]|e'|] s3 (Hn3 & Hi3 & _); [wp_step|..]; by split_and!.
  - destruct Ht1 as [[? _]|[_ Hsome]]; [lia|]. wp_step. split_and!; try done. by right.
Qed.

Lemma forwardDatagram_settled msg s :
  Inv None (Some (l, msg)) s -> wp (forwardDatagram callbacks_ options_ msg) (settled s unit) s.
Proof.
  intros Hi. unfold forwardDatagram. wp_step. wp_step.
  assert (Hdrop : forall kind, wp (reportStatEvent callbacks_ kDropped 1 ;;; reportDiagnostic callbacks_ kind 0)
                    (settled s unit) s).
  { intros kind. compose_settled; [by eapply fine_settled, wp_same_fine, stat_same|].
    intros _ s1 [_ [p1 Hi1]]. by eapply fine_settled, wp_same_fine, diagnostic_same. }
  wp_step; [apply Hdrop|]. destruct (uo_listener _ _ _ _ Hi) as (_ & -> & _).
  destruct (parsePacketMetadata ep msg) as [k|] eqn:Hk; [|apply Hdrop].
  wp_step. eapply wp_mono; [by apply resolveFlowTokenForDatagram_resolved|].
  intros [t|e|] s1 (Hn1 & Hi1 & Ht1); [|split; [done|by eexists]|done].
  wp_step.
  - eapply wp_mono; [by eapply (fine_settled (Some (l, msg))), wp_same_fine, stat_same|done].
  - destruct Ht1 as [?|Hkt]; [lia|]. destruct (uo_key _ _ _ _ Hi1 k t Hkt) as (fl & Hfl & <-).
    unfold flowAt. wp_step. wp_step. wp_step. rewrite Hfl. wp_step.
    eapply wp_mono; [by apply (sendFlowDatagram_settled msg fl t false)|done].
Qed.

Lemma listenerAttempt_settled p s :
  Inv None p s -> wp (listenerAttempt callbacks_ options_) (settled s bool) s.
Proof.
  intros Hi. unfold listenerAttempt. wp_step. wp_step. wp_step. wp_step.
  destruct (uo_listener _ _ _ _ Hi) as (-> & _ & _).
  pose proof (uk_recvmsg l (receiveSize options_) s.2) as Hk.
  destruct (u_recvmsg l (receiveSize options_) s.2) as [[msg|errno] w1]; cbn [fst snd].
  - unfold storeDatagram. wp_step. wp_step. cbn [fst snd].
    assert (Hi1 : Inv None (Some (l, msg))
      (set_receiveBuffer (dg_data msg ++ drop (length (dg_data msg)) (receiveBuffer_ s.1)) s.1, w1))
      by (by eapply ok_received).
    wp_step. eapply wp_mono; [by apply forwardDatagram_settled|].
    intros [[]|e|] s2 [Hn2 Hi2]; [wp_step|..]; by split.
  - pose proof (Inv_quiet _ _ _ _ Hi Hk) as Hi1.
    wp_step; [wp_step; split; [done|by eexists]|].
    wp_step; [wp_step; split; [done|by eexists]|].
    wp_step. eapply wp_mono; [by apply (handleSocketError_shrinks p)|].
    intros [b|e|] s2 (Hn2 & Hi2 & _); [wp_step|..]; (split; [done|by eexists]).
Qed.

Lemma handleListenerReadLoop_settled attempts s :
  (exists p, Inv None p s) ->
  wp (handleListenerReadLoop callbacks_ options_ attempts) (settled s unit) s.
Proof.
  revert s. induction attempts as [|attempts IH]; intros s [p Hi]; cbn [handleListenerReadLoop].
  - by eapply fine_settled, wp_same_fine, observation_same.
  - compose_settled; [by eapply listenerAttempt_settled|]. intros more s1 [_ Hi1].
    wp_step; [by apply IH|]. destruct Hi1 as [p1 Hi1]. by eapply fine_settled, wp_same_fine, udp_ret_same.
Qed.

Lemma backendAttempt_settled p t s :
  Inv None p s -> wp (backendAttempt callbacks_ options_ t) (settled s bool) s.
Proof.
  intros Hi. unfold backendAttempt. wp_step. wp_step.
  destruct (flows_ s.1 !! t) as [fl|] eqn:Hfl; [|by eapply fine_settled, wp_same_fine, udp_ret_same].
  wp_step. eapply wp_mono; [by apply flowExpired_same|].
  intros [expired|e|] s1 (Hn1 & Hi1 & Hk1 & Hf1); [|split; [done|by eexists]|done].
  apply (wp_mono _ (settled s1 bool)); [|done].
  wp_step.
  { compose_settled; [by eapply fine_settled, wp_same_fine, stat_same|]. intros _ s2 [_ [p2 Hi2]].
    compose_settled; [by eapply fine_settled, wp_shrinks_fine, closeFlow_shrinks|].
    intros _ s3 [_ [p3 Hi3]]. by eapply fine_settled, wp_same_fine, udp_ret_same. }
  wp_step. wp_step. pose proof (uk_recvmsg (fd fl) (receiveSize options_) s1.2) as Hk.
  destruct (u_recvmsg (fd fl) (receiveSize options_) s1.2) as [[msg|errno] w2]; cbn [fst snd].
  - unfold storeDatagram. wp_step. wp_step. cbn [fst snd].
    set (r2 := set_receiveBuffer _ _).
    assert (Hi2 : Inv None (Some (fd fl, msg)) (r2, w2)) by (by eapply ok_received).
    wp_step. apply (wp_mono _ (settled (r2, w2) unit)).
    + wp_step.
      * compose_settled; [by eapply fine_settled, wp_same_fine, stat_same|]. intros _ s3 [_ [p3 Hi3]].
        by eapply fine_settled, wp_same_fine, diagnostic_same.
      * apply (sendFlowDatagram_settled msg fl t true (r2, w2)); [exact Hi2| |by split].
        change (flows_ s1.1 !! t = Some fl). by rewrite Hf1.
    + intros [[]|e|] s3 [Hn3 Hi3]; [wp_step|..]; by split.
  - pose proof (Inv_quiet _ _ _ _ Hi1 Hk) as Hi2.
    wp_step; [wp_step; split; [done|by eexists]|].
    wp_step; [wp_step; split; [done|by eexists]|].
    wp_step. eapply wp_mono; [by apply (handleSocketError_shrinks p)|].
    intros [b|e|] s3 (Hn3 & Hi3 & _); [wp_step|..]; (split; [done|by eexists]).
Qed.

Lemma handleBackendReadLoop_settled attempts t s :
  (exists p, Inv None p s) ->
  wp (handleBackendReadLoop callbacks_ options_ attempts t) (settled s unit) s.
Proof.
  revert s. induction attempts as [|attempts IH]; intros s [p Hi]; cbn [handleBackendReadLoop].
  - by eapply fine_settled, wp_same_fine, observation_same.
  - compose_settled; [by eapply backendAttempt_settled|]. intros more s1 [_ Hi1].
    wp_step; [by apply IH|]. destruct Hi1 as [p1 Hi1]. by eapply fine_settled, wp_same_fine, udp_ret_same.
Qed.

(** ** Events and the loop *)

Lemma stat_settled k n s :
  live_change (mkStatEvent k n) = 0 -> (exists p, Inv None p s) ->
  wp (reportStatEvent callbacks_ k n) (settled s unit) s.
Proof. intros Hk [p Hi]. by eapply (fine_settled p), wp_same_fine, stat_same. Qed.
Lemma observation_settled k t f s :
  (exists p, Inv None p s) -> wp (reportObservation callbacks_ k t f) (settled s unit) s.
Proof. intros [p Hi]. by eapply (fine_settled p), wp_same_fine, observation_same. Qed.
Lemma ret_settled {A} (a : A) s : (exists p, Inv None p s) -> wp (mret a) (settled s A) s.
Proof. by intros. Qed.
Lemma throw_settled {A} e s : (exists p, Inv None p s) -> wp (mthrow e) (settled s A) s.
Proof. by intros. Qed.
Lemma closeFlow_settled t reason e s :
  (exists p, Inv None p s) -> wp (closeFlow callbacks_ t reason e) (settled s unit) s.
Proof. intros [p Hi]. by eapply (fine_settled p), wp_shrinks_fine, closeFlow_shrinks. Qed.
Lemma call_settled {A} (op : W -> A * W) s :
  quiet s.2 (op s.2).2 -> (exists p, Inv None p s) -> wp (call op) (settled s A) s.
Proof. intros Hq [p Hi]. by eapply (fine_settled p), wp_same_fine, call_same. Qed.
Lemma outside_settled {A} (m : M W A) s :
  quiet_call m -> (exists p, Inv None p s) -> wp (outside m) (settled s A) s.
Proof. intros Hq [p Hi]. by eapply (fine_settled p), wp_same_fine, outside_same. Qed.
Lemma expire_settled s :
  (exists p, Inv None p s) -> wp (expireIdleFlows callbacks_ options_) (settled s unit) s.
Proof. intros [p Hi]. by eapply (fine_settled p), wp_shrinks_fine, expireIdleFlows_shrinks. Qed.
Lemma handleSocketError_settled code listener t kind s :
  (exists p, Inv None p s) ->
  wp (handleSocketError callbacks_ code listener t kind) (settled s bool) s.
Proof. intros [p Hi]. by eapply (fine_settled p), wp_shrinks_fine, handleSocketError_shrinks. Qed.

Lemma checkSocketError_settled t f listener s :
  (exists p, Inv None p s) -> wp (checkSocketError callbacks_ t f listener) (settled s bool) s.
Proof.
  intros Hi. unfold checkSocketError. compose_settled; [by apply call_settled; [apply uk_socket_error|]|].
  intros [code|errno] s1 [_ Hi1].
  - compose_settled; [by apply observation_settled|]. intros _ s2 [_ Hi2].
    wp_step; [by apply ret_settled|by apply handleSocketError_settled].
  - wp_step; [by apply throw_settled|]. wp_step; [by apply throw_settled|].
    compose_settled; [wp_step; wp_step; [by apply stat_settled|by split]|]. intros _ s2 [_ Hi2].
    compose_settled; [by apply closeFlow_settled|]. intros _ s3 [_ Hi3]. by apply ret_settled.
Qed.

Lemma handleReadyEvent_settled t f events listener s :
  (exists p, Inv None p s) ->
  wp (handleReadyEvent callbacks_ options_ t f events listener) (settled s unit) s.
Proof.
  intros Hi. unfold handleReadyEvent.
  compose_settled; [wp_step; [by apply checkSocketError_settled|by apply ret_settled]|].
  intros go s1 [_ Hi1]. wp_step; [by apply ret_settled|]. wp_step.
  - wp_step; [by apply throw_settled|]. compose_settled; [by apply stat_settled|].
    intros _ s2 [_ Hi2]. by apply closeFlow_settled.
  - wp_step. wp_step; [|by split]. wp_step; [by apply handleListenerReadLoop_settled|].
    by apply handleBackendReadLoop_settled.
Qed.

Lemma consumeStopSignals_settled s :
  (exists p, Inv None p s) -> wp consumeStopSignals (settled s bool) s.
Proof.
  intros Hi. unfold consumeStopSignals. compose_settled; [by apply call_settled; [apply uk_read_signal|]|].
  intros [n|errno] s1 [_ Hi1]; wp_step; by (apply ret_settled || apply throw_settled).
Qed.

Lemma dispatchFlowEvent_settled t events s :
  (exists p, Inv None p s) -> wp (dispatchFlowEvent callbacks_ options_ t events) (settled s unit) s.
Proof.
  intros Hi. unfold dispatchFlowEvent. wp_step; [by apply ret_settled|]. wp_step. wp_step.
  wp_step; [by apply handleReadyEvent_settled|].
  destruct (flows_ s.1 !! t) as [fl|]; [|by apply observation_settled].
  compose_settled; [destruct Hi as [p Hi]; by eapply (fine_settled p), wp_same_fine, flowExpired_same|].
  intros expired s1 [_ Hi1]. wp_step; [|by apply handleReadyEvent_settled].
  compose_settled; [by apply stat_settled|]. intros _ s2 [_ Hi2]. by apply closeFlow_settled.
Qed.

Lemma dispatchEvents_settled events s :
  (exists p, Inv None p s) -> wp (dispatchEvents callbacks_ options_ events) (settled s bool) s.
Proof.
  revert s. induction events as [|[t mask] events IH]; intros s Hi; cbn; [by apply ret_settled|].
  compose_settled; [by apply consumeStopSignals_settled|]. intros stop s1 [_ Hi1].
  wp_step; [by apply ret_settled|]. compose_settled; [by apply dispatchFlowEvent_settled|].
  intros _ s2 [_ Hi2]. by apply IH.
Qed.

Lemma udpLoopTurn_settled s :
  (exists p, Inv None p s) -> wp (udpLoopTurn callbacks_ options_ tt) (settled s (unit + unit)) s.
Proof.
  intros Hi. unfold udpLoopTurn.
  compose_settled; [by apply consumeStopSignals_settled|]. intros stop s1 [_ Hi1].
  wp_step; [by apply ret_settled|]. compose_settled; [by apply expire_settled|]. intros _ s2 [_ Hi2].
  compose_settled; [by apply call_settled; [apply uk_epoll_wait|]|]. intros [events|errno] s3 [_ Hi3].
  2: { wp_step; by (apply ret_settled || apply throw_settled). }
  compose_settled; [by apply consumeStopSignals_settled|]. intros stop' s4 [_ Hi4].
  wp_step; [by apply ret_settled|]. compose_settled; [by apply expire_settled|]. intros _ s5 [_ Hi5].
  compose_settled.
  { pose proof (uc_maintenance _ _ Hcb) as Hc.
    destruct (maintenanceCallback callbacks_) as [g|]; [by apply outside_settled|by apply ret_settled]. }
  intros _ s6 [_ Hi6]. compose_settled; [by apply dispatchEvents_settled|].
  intros stopped s7 [_ Hi7]. by apply ret_settled.
Qed.

(** The listening socket is the only descriptor before the first turn. *)
Record udp_fresh_start (w : W) : Prop := {
  fs_opened : u_opened w = {[l]};
  fs_log : u_log w = [];
  fs_live : u_live w = 0;
  fs_owner : u_owner_ok w
}.

Lemma udp_fresh_Inv w : udp_fresh_start w -> Inv None None (initialUdpReactor ep l, w).
Proof.
  intros [Ho Hg Hl Hw].
  split; cbn [listenerFd_ listenEndpoint_ nextFlowToken_ flowTokensByKey_ flows_ initialUdpReactor fst snd];
    rewrite ?Ho, ?Hg; try done.
  - split_and!; try done. set_solver.
  - intros f ->%elem_of_singleton. by left.
  - rewrite map_size_empty. lia.
  - exists ∅. split_and!; [constructor| |done]. intros t x. by rewrite lookup_empty.
Qed.

Lemma runUdpEventLoop_inv turns w :
  udp_fresh_start w ->
  wp (runUdpEventLoop callbacks_ options_ turns) (fun _ s' => exists p, Inv None p s')
    (initialUdpReactor ep l, w).
Proof.
  intros Hw. pose proof (udp_fresh_Inv w Hw) as Hi. unfold runUdpEventLoop. wp_step.
  apply (wp_mono _ (settled (initialUdpReactor ep l, w) unit)).
  { pose proof (uc_ready _ _ Hcb) as Hc.
    destruct (readyCallback callbacks_) as [g|]; [apply outside_settled|apply ret_settled]; eauto. }
  intros [[]|e|] s1 [Hn1 Hi1]; [|done|done]. wp_step.
  apply wp_loop with (I := fun _ s' => exists p, Inv None p s'); [done| |done].
  intros [] s2 Hi2. eapply wp_mono; [by apply udpLoopTurn_settled|].
  intros [[[]|[]]|e|] s3 [Hn3 Hi3]; try done.
Qed.

Lemma udp_runReactorObject_releases turns w o w' :
  udp_fresh_start w -> 0 <= l -> runReactorObject callbacks_ options_ turns ep l w = (o, w') ->
  o <> Diverge -> u_opened w' = ∅ /\ (statisticsCallback callbacks_ <> None -> u_live w' = 0) /\ u_owner_ok w'.
Proof.
  intros Hw Hpos Hrun Hnd. unfold runReactorObject in Hrun.
  assert (Hinv : wp (result <- runUdpEventLoop callbacks_ options_ turns ;;
      closeAllFlows callbacks_ ;;; mret result) (fun _ s' => exists p, Inv None p s')
      (initialUdpReactor ep l, w)).
  { wp_step. eapply wp_mono; [by apply runUdpEventLoop_inv|]. intros [n|e|] s1 [p1 Hi1]; [|by eexists..].
    wp_step. eapply wp_mono; [by eapply closeAllFlows_empties|].
    intros [[]|e|] s2 [[_ Hi2] _]; [wp_step|..]; by eexists. }
  unfold wp in Hinv.
  destruct ((result <- runUdpEventLoop callbacks_ options_ turns ;;
      closeAllFlows callbacks_ ;;; mret result) (initialUdpReactor ep l, w)) as [o1 s1].
  cbn [fst snd] in Hinv. destruct Hinv as [p1 Hi1].
  assert (Hd : wp (destroyUdpReactor callbacks_) (fun _ s' => Inv None p1 s' /\ flows_ s'.1 = ∅) s1).
  { unfold destroyUdpReactor. wp_step. eapply wp_mono; [by eapply closeAllFlows_empties|].
    intros [[]|e|] s2 [[_ Hi2] Hs2]; [done|wp_step; done|done]. }
  unfold wp in Hd. destruct (destroyUdpReactor callbacks_ s1) as [o2 [r2 w2]]. cbn [fst snd] in Hd.
  destruct Hd as [[(Hl & _ & Hlo) _ _ _ _ Hopened _ _ Hlive _ _ Hown] Hempty]. cbn [fst snd] in *.
  assert (Hw' : w' = closeMember (listenerFd_ r2) w2) by (destruct o1; simplify_eq; done).
  subst w'. unfold closeMember. rewrite Hl.
  destruct (Z.leb_spec 0 l); [|lia]. destruct (uk_close l w2 Hlo) as (Eo & _ & El & Ew).
  rewrite Eo, El. rewrite Hempty, map_size_empty in Hlive. split; [|split; [done|by apply Ew]].
  apply set_eq. intros f. split; [|set_solver]. intros [Hf Hne]%elem_of_difference.
  destruct (Hopened f Hf) as [->|[[=]|(t & x & Hx & _)]]; [set_solver|].
  by rewrite Hempty, lookup_empty in Hx.
Qed.
End invariant.
