(* ===== verification/UdpReactorTheorems.v ===== *)
(** * What the UDP reactor guarantees

    The properties of the event loop that follow from the invariant of
    [UdpReactorSafety], for every kernel that behaves as documented and every set
    of callbacks; the packet metadata; and a scripted kernel on which the
    theorems are instantiated. *)
From S2P Require Import Prelude Config Core Metrics UdpReactor UdpReactorSafety.

#[local] Set Default Proof Using "All".

(** ** The control buffer of a received datagram

    One [IP_PKTINFO] message, padded to the alignment as recvmsg(2) leaves it. *)
Definition pktinfoControl (ifindex : Z) (ipi_spec_dst ipi_addr : list Z) : bytes :=
  littleEndianBytes 8 (CMSG_LEN sizeof_in_pktinfo) ++ littleEndianBytes 4 IPPROTO_IP ++
  littleEndianBytes 4 IP_PKTINFO ++ littleEndianBytes 4 ifindex ++ (chr <$> ipi_spec_dst) ++
  (chr <$> ipi_addr) ++ littleEndianBytes 4 0.

Definition isAddress (a : list Z) : Prop := length a = 4%nat /\ Forall (fun x => 0 <= x < 256) a.

Lemma isAddress_inv a :
  isAddress a -> exists a0 a1 a2 a3, a = [a0; a1; a2; a3] /\
    0 <= a0 < 256 /\ 0 <= a1 < 256 /\ 0 <= a2 < 256 /\ 0 <= a3 < 256.
Proof.
  intros [Hl Hf]. destruct a as [|a0 [|a1 [|a2 [|a3 [|]]]]]; try done.
  rewrite !Forall_cons in Hf. naive_solver.
Qed.

Lemma scanControl_pktinfo fuel ifindex spec addr :
  isAddress spec -> isAddress addr ->
  scanControl (S fuel) (pktinfoControl ifindex spec addr)
    (cmsgFirst (pktinfoControl ifindex spec addr)) None =
  if isUnicastAddress addr && bool_decide (addr = spec) then Some (Some addr) else None.
Proof.
  intros (s0 & s1 & s2 & s3 & -> & ? & ? & ? & ?)%isAddress_inv
         (a0 & a1 & a2 & a3 & -> & ? & ? & ? & ?)%isAddress_inv.
  set (control := pktinfoControl _ _ _).
  assert (E1 : cmsgFirst control = Some 0) by reflexivity.
  assert (E2 : cmsg_level 0 control = IPPROTO_IP) by reflexivity.
  assert (E3 : cmsg_type 0 control = IP_PKTINFO) by reflexivity.
  assert (E4 : cmsg_len 0 control = CMSG_LEN sizeof_in_pktinfo) by reflexivity.
  assert (E5 : len control = 32) by reflexivity.
  assert (E6 : cmsgNext 0 control = None) by reflexivity.
  assert (E7 : readAddress (0 + 20) control = [s0; s1; s2; s3]).
  { change (code <$> [chr s0; chr s1; chr s2; chr s3] = [s0; s1; s2; s3]). cbn. by rewrite !code_chr. }
  assert (E8 : readAddress (0 + 24) control = [a0; a1; a2; a3]).
  { change (code <$> [chr a0; chr a1; chr a2; chr a3] = [a0; a1; a2; a3]). cbn. by rewrite !code_chr. }
  rewrite E1. cbn [scanControl]. rewrite E2, E3, E4, E5, E6, E7, E8. cbn.
  destruct (isUnicastAddress [a0; a1; a2; a3]); cbn; [|done].
  case_bool_decide as Ha; case_bool_decide as Hb; cbn; try done. by destruct fuel.
Qed.

(** What a datagram must satisfy to be accepted with local address [addr]. *)
Definition acceptable (ep : Endpoint) (port : Z) (source spec addr : list Z) : bool :=
  negb (port =? 0) && isUnicastAddress source && isUnicastAddress addr && bool_decide (addr = spec) &&
  (bool_decide (address ep = anyAddress) || bool_decide (address ep = addr)).

(** Packet metadata.  A datagram that carries one packet information is
    accepted exactly when it has a source port, its source and destination are
    unicast, the destination is the interface's own address, and the listener is
    bound to it or to any address; the key is then the client's endpoint with
    that destination.  Whatever the control buffer holds, an accepted datagram
    gives the sender's endpoint, with a destination the listener is bound to, and
    no truncated control buffer is accepted. *)
Theorem parsePacketMetadata_exact ep data trunc namelen port source ifindex spec addr :
  isAddress spec -> isAddress addr ->
  (parsePacketMetadata ep
     (mkDatagram data trunc false sizeof_sockaddr_in AF_INET port source (pktinfoControl ifindex spec addr)) =
   if acceptable ep port source spec addr
   then Some (mkUdpFlowKey (mkEndpoint source port) addr) else None) /\
  forall family ctrunc control k,
    parsePacketMetadata ep (mkDatagram data trunc ctrunc namelen family port source control) = Some k ->
    client k = mkEndpoint source port /\ port <> 0 /\ isUnicastAddress source = true /\
    ctrunc = false /\ family = AF_INET /\ sizeof_sockaddr_in <= namelen /\
    (address ep = anyAddress \/ address ep = localAddress k).
Proof.
  intros Hs Ha. split.
  - unfold parsePacketMetadata, acceptable. cbn [dg_namelen dg_family dg_port dg_ctrunc dg_address dg_control].
    rewrite Z.ltb_irrefl, Z.eqb_refl, orb_false_r. cbn [orb negb].
    destruct (port =? 0); [done|]. cbn [negb andb].
    destruct (isUnicastAddress source); [|done]. cbn [negb andb].
    rewrite scanControl_pktinfo by done.
    by destruct (isUnicastAddress addr && bool_decide (addr = spec)).
  - intros family ctrunc control k. unfold parsePacketMetadata.
    cbn [dg_namelen dg_family dg_port dg_ctrunc dg_address dg_control].
    destruct (_ || _) eqn:He; [done|]. bool_to_prop.
    destruct (isUnicastAddress source); [|done]. cbn [negb].
    destruct (scanControl _ _ _ _) as [[a|]|]; try done.
    destruct (bool_decide _ || bool_decide _) eqn:Hl; [|done]. intros [= <-]. cbn.
    split_and!; try done. apply orb_true_iff in Hl as [Hl|Hl]; bool_to_prop; auto.
Qed.

Section theorems.
Context {W : Type} `{UdpKernel W}.

(** The states between two turns of the event loop. *)
Inductive udp_reachable (callbacks_ : UdpReactorCallbacks W) (options_ : UdpReactorOptions)
    (ep : Endpoint) (l : Z) : UdpReactor * W -> Prop :=
| udp_start w :
    udp_fresh_start l w -> udp_reachable callbacks_ options_ ep l (initialUdpReactor ep l, w)
| udp_turn s s' :
    udp_reachable callbacks_ options_ ep l s ->
    udpLoopTurn callbacks_ options_ tt s = (Ret (inl tt), s') ->
    udp_reachable callbacks_ options_ ep l s'.

Lemma udp_reachable_Inv callbacks_ options_ ep l s :
  udp_callbacks_ok (maxFlows options_) callbacks_ -> udp_reachable callbacks_ options_ ep l s ->
  exists p, Inv callbacks_ options_ ep l None p s.
Proof.
  intros Hcb Hr. induction Hr as [w Hw|s s' Hr IH Ht].
  - eexists. by apply udp_fresh_Inv.
  - pose proof (udpLoopTurn_settled callbacks_ options_ ep l Hcb s IH) as Hs.
    unfold wp in Hs. rewrite Ht in Hs. apply Hs.
Qed.

(** The two indexes are inverse to each other, tokens are fresh, every flow owns
    its open socket, every open socket is the listener or a flow's, and the
    flows are those reported as created and not as closed. *)
Record udp_consistent (callbacks_ : UdpReactorCallbacks W) (options_ : UdpReactorOptions) (l : Z)
    (s : UdpReactor * W) : Prop := {
  us_inverse : forall k t,
    flowTokensByKey_ s.1 !! k = Some t <-> exists x, flows_ s.1 !! t = Some x /\ key x = k;
  us_tokens : forall t x, flows_ s.1 !! t = Some x ->
    UdpReactor.token x = t /\ 3 <= t < nextFlowToken_ s.1 /\ nextFlowToken_ s.1 <= UINT64_MAX;
  us_sockets : forall f, f ∈ u_opened s.2 <->
    f = l \/ exists t x, flows_ s.1 !! t = Some x /\ fd x = f;
  us_private : forall t x t' x', flows_ s.1 !! t = Some x -> flows_ s.1 !! t' = Some x' ->
    fd x = fd x' -> t = t';
  us_capacity : Z.of_nat (size (flows_ s.1)) <= Z.max 0 (maxFlows options_);
  us_accounted : statisticsCallback callbacks_ <> None -> u_live s.2 = Z.of_nat (size (flows_ s.1))
}.

Lemma Inv_consistent callbacks_ options_ ep l p s :
  Inv callbacks_ options_ ep l None p s -> udp_consistent callbacks_ options_ l s.
Proof.
  intros [(_ & _ & Hl) Hn Hf Hk Hd Ho _ Hc Hv _ _]. split; try done.
  - intros k t. split; [by apply Hk|]. intros (x & Hx & <-). by apply (Hf t x).
  - intros t x Hx. destruct (Hf t x Hx) as (? & ? & _). split_and!; [done|lia..].
  - intros f. split.
    + intros [?|[[=]|?]]%Ho; auto.
    + intros [->|(t & x & Hx & <-)]; [done|]. by apply (Hf t x).
Qed.

(** C11: index integrity.  Between any two turns of the event loop the two
    indexes of the flows are mutually inverse, tokens are never reused, the
    sockets that are open are the listener and one private socket per flow, the
    capacity is kept and the statistics account for exactly the flows in the
    table. *)
Theorem udp_index_integrity callbacks_ options_ ep l s :
  udp_callbacks_ok (maxFlows options_) callbacks_ -> udp_reachable callbacks_ options_ ep l s ->
  udp_consistent callbacks_ options_ l s.
Proof.
  intros Hcb Hr. destruct (udp_reachable_Inv _ _ _ _ _ Hcb Hr) as [p Hi]. by eapply Inv_consistent.
Qed.

(** C2: relay and affinity.  In every run of the event loop, on every kernel
    and with every callbacks, whatever ends it: a datagram sent to a backend is
    the last one received from the listener, whole, unchanged and sent once; a
    reply goes, from the address it was sent to, to the one client its backend
    socket belongs to; and no socket ever carries the datagrams of two clients
    or two local addresses. *)
Theorem udp_relay_affinity callbacks_ options_ ep l turns w :
  udp_callbacks_ok (maxFlows options_) callbacks_ -> udp_fresh_start l w ->
  let '(_, (r, w')) := runUdpEventLoop callbacks_ options_ turns (initialUdpReactor ep l, w) in
  exists owner waiting, relayed ep l (u_log w') owner waiting /\
    forall t x, flows_ r !! t = Some x -> owner !! fd x = None \/ owner !! fd x = Some (key x).
Proof.
  intros Hcb Hw. pose proof (runUdpEventLoop_inv callbacks_ options_ ep l Hcb turns w Hw) as Hi.
  unfold wp in Hi. destruct (runUdpEventLoop _ _ _ _) as [o [r w']]. cbn [fst snd] in Hi.
  destruct Hi as [p [_ _ _ _ _ _ _ _ _ _ (owner & Hrel & Hown & _)]]. by exists owner, p.
Qed.

(** C13: no descriptor leaks.  However the event loop ends, when the reactor
    object is destroyed no flow socket and not the listener is left open, and
    every flow reported as created was reported as closed. *)
Theorem udp_reactor_releases_descriptors callbacks_ options_ ep l turns w o w' :
  udp_callbacks_ok (maxFlows options_) callbacks_ -> udp_fresh_start l w -> 0 <= l ->
  runReactorObject callbacks_ options_ turns ep l w = (o, w') -> o <> Diverge ->
  u_opened w' = ∅ /\ (statisticsCallback callbacks_ <> None -> u_live w' = 0).
Proof.
  intros Hcb Hw Hl Hrun Hn.
  by destruct (udp_runReactorObject_releases callbacks_ options_ ep l Hcb turns w o w' Hw Hl Hrun Hn)
    as (? & ? & _).
Qed.

(** C12: creating a flow is a transaction.  In every outcome, also when an
    allocation, a system call or a report fails, the indexes and sockets stay
    consistent: nothing of a flow that was not created is left.  A result 0
    added no flow; another result is the token of the flow for the key, and no
    other flow was added. *)
Theorem createFlow_transactional callbacks_ options_ ep l k s :
  udp_callbacks_ok (maxFlows options_) callbacks_ -> udp_reachable callbacks_ options_ ep l s ->
  flowTokensByKey_ s.1 !! k = None ->
  let '(o, s') := createFlow callbacks_ options_ k s in
  udp_consistent callbacks_ options_ l s' /\
  match o with
  | Ret t =>
      t = 0 /\ flowTokensByKey_ s'.1 ⊆ flowTokensByKey_ s.1 \/
      t <> 0 /\ flowTokensByKey_ s'.1 !! k = Some t /\
        delete k (flowTokensByKey_ s'.1) ⊆ flowTokensByKey_ s.1
  | Throw _ => True
  | Diverge => False
  end.
Proof.
  intros Hcb Hr Hk. destruct (udp_reachable_Inv _ _ _ _ _ Hcb Hr) as [p Hi].
  pose proof (createFlow_created callbacks_ options_ ep l Hcb k p s Hi Hk) as Hc. unfold wp in Hc.
  destruct (createFlow callbacks_ options_ k s) as [o s']. destruct Hc as (Hn & Hi' & Ho).
  split; [by eapply Inv_consistent|]. destruct o as [t|e|]; [|done|done]. cbn [fst snd] in Ho.
  destruct (Z.eqb_spec t 0); auto.
Qed.

(** Idle expiry is exact: an expiry that completes removes the flows whose
    last submission is at least the idle timeout before the clock it read, and
    only those. *)
Theorem expireIdleFlows_removes_exactly_idle callbacks_ options_ ep l s s' :
  udp_callbacks_ok (maxFlows options_) callbacks_ -> udp_reachable callbacks_ options_ ep l s ->
  expireIdleFlows callbacks_ options_ s = (Ret tt, s') ->
  forall t x, flows_ s'.1 !! t = Some x <->
    flows_ s.1 !! t = Some x /\ (u_now s.2).1 - lastSubmissionTime (deadline x) < idleTimeout options_.
Proof.
  intros Hcb Hr He t x. destruct (udp_reachable_Inv _ _ _ _ _ Hcb Hr) as [p Hi].
  pose proof (expireIdleFlows_exact callbacks_ options_ ep l Hcb None p s Hi) as Hx.
  unfold wp in Hx. rewrite He in Hx. rewrite (Hx eq_refl t x). unfold udpExpired.
  by rewrite Z.leb_gt.
Qed.

(** Error classes.  A socket error ends the event loop, with the system
    state untouched, exactly when the descriptor is unusable or the listener
    reports something outside the shared classes; resource pressure, and what
    the shared listener reports of one peer, costs no flow; any other error of a
    backend socket costs exactly the flow it belongs to. *)
Theorem handleSocketError_classes callbacks_ options_ ep l code listener t kind s :
  udp_callbacks_ok (maxFlows options_) callbacks_ -> udp_reachable callbacks_ options_ ep l s ->
  let '(o, s') := handleSocketError callbacks_ code listener t kind s in
  o <> Diverge /\
  if fatalError code listener then o = Throw (SystemError code kind) /\ s' = s
  else if listener || isResourcePressure code then
    flows_ s'.1 = flows_ s.1 /\ forall go, o = Ret go -> go = true
  else
    (flows_ s'.1 = flows_ s.1 \/ flows_ s'.1 = delete t (flows_ s.1)) /\
    forall go, o = Ret go -> go = false /\ flows_ s'.1 = delete t (flows_ s.1).
Proof.
  intros Hcb Hr. destruct (udp_reachable_Inv _ _ _ _ _ Hcb Hr) as [p Hi].
  pose proof (handleSocketError_class callbacks_ options_ ep l Hcb p code listener t kind s Hi) as Hc.
  pose proof (handleSocketError_shrinks callbacks_ options_ ep l Hcb p code listener t kind s Hi) as [Hn _].
  unfold wp in Hc. by destruct (handleSocketError callbacks_ code listener t kind s) as [o s'].
Qed.
End theorems.

(** ** A scripted kernel

    Descriptors are handed out from a counter, datagrams wait in an inbox with
    the descriptor they arrive on, the batches of events come from a list whose
    end is a stop signal, and every reading of the clock takes a millisecond. *)
Module ScriptedUdpKernel.
Record Kernel := mkKernel {
  k_opened : gset Z;
  k_log : list UdpLog;
  k_live : Z;
  k_time : Z;
  k_events : list (list (Z * Z));
  k_inbox : list (Z * Datagram);
  k_memory : bool;
  k_next : Z
}.

Definition with_log (e : UdpLog) (w : Kernel) : Kernel :=
  mkKernel (k_opened w) (k_log w ++ [e]) (k_live w) (k_time w) (k_events w) (k_inbox w)
    (k_memory w) (k_next w).

#[export] Instance kernel_ops : UdpOps Kernel := {
  u_now w :=
    (k_time w,
     mkKernel (k_opened w) (k_log w) (k_live w) (k_time w + ms 1) (k_events w) (k_inbox w)
       (k_memory w) (k_next w));
  u_read_signal w := (match k_events w with [] => inl kSignalInfoSize | _ => inr EAGAIN end, w);
  u_epoll_wait timeout w :=
    (inl (match k_events w with batch :: _ => batch | [] => [] end),
     mkKernel (k_opened w) (k_log w) (k_live w) (k_time w + ms timeout) (tail (k_events w))
       (k_inbox w) (k_memory w) (k_next w));
  u_epoll_add _ _ w := (inl tt, w);
  u_epoll_del _ w := (inl tt, w);
  u_alloc w := (k_memory w, w);
  u_socket w :=
    if bool_decide (k_next w ∈ k_opened w) then (inr EMFILE, w)
    else
      (inl (k_next w),
       mkKernel ({[k_next w]} ∪ k_opened w) (k_log w ++ [LOpen (k_next w)]) (k_live w) (k_time w)
         (k_events w) (k_inbox w) (k_memory w) (k_next w + 1));
  u_bind _ _ w := (inl tt, w);
  u_connect _ _ w := (inl tt, w);
  u_recvmsg f limit w :=
    match k_inbox w with
    | (f', msg) :: rest =>
        if (f' =? f) && (len (dg_data msg) <=? limit) then
          (inl msg,
           mkKernel (k_opened w) (k_log w ++ [LRecv f msg]) (k_live w) (k_time w) (k_events w) rest
             (k_memory w) (k_next w))
        else (inr EAGAIN, w)
    | [] => (inr EAGAIN, w)
    end;
  u_send f d w := (inl (len d), with_log (LSend f d) w);
  u_sendmsg f d to control w := (inl (len d), with_log (LSendTo f to control d) w);
  u_socket_error _ w := (inl 0, w);
  u_close f w :=
    mkKernel (k_opened w ∖ {[f]}) (k_log w) (k_live w) (k_time w) (k_events w) (k_inbox w)
      (k_memory w) (k_next w);
  u_order l _ := l
}.

#[export] Instance kernel_ghost : UdpGhost Kernel := {
  u_opened := k_opened;
  u_log := k_log;
  u_live := k_live;
  u_owner_ok _ := True
}.

#[export] Instance scripted_kernel : UdpKernel Kernel.
Proof.
  split; intros; cbn; try (by split_and!).
  - case_bool_decide; cbn; by split_and!.
  - destruct (k_inbox w) as [|[f' msg] rest]; [by split_and!|].
    by destruct (_ && _)%bool; split_and!.
  - done.
Qed.

Definition backendEndpoint : Endpoint := mkEndpoint [10; 0; 0; 1] 53.

(** Every client goes to one backend; the statistics callback counts. *)
Definition callbacks : UdpReactorCallbacks Kernel := {|
  backendSelector := Some (mret (Some backendEndpoint));
  maintenanceCallback := None;
  statisticsCallback := Some (fun e => mmodify (fun w =>
    mkKernel (k_opened w) (k_log w) (k_live w + live_change e) (k_time w) (k_events w) (k_inbox w)
      (k_memory w) (k_next w)));
  readyCallback := Some (mret tt);
  flowCallback := Some (fun _ => mret tt);
  diagnosticCallback := Some (fun _ _ => mret tt);
  observationCallback := None
|}.

Lemma udp_scripted_callbacks_ok limit : udp_callbacks_ok limit callbacks.
Proof. split; cbn; try done; intros; by split_and!. Qed.

Definition options : UdpReactorOptions := mkUdpReactorOptions 2 (ms 1000) 100 kUdpPayloadLimit.
Definition endpoint : Endpoint := mkEndpoint anyAddress 53.

Definition clientAddress : list Z := [192; 168; 0; 7].
Definition serviceAddress : list Z := [192; 168; 0; 1].
Definition requestKey : UdpFlowKey := mkUdpFlowKey (mkEndpoint clientAddress 4000) serviceAddress.
Definition request : Datagram :=
  mkDatagram (bs "query") false false sizeof_sockaddr_in AF_INET 4000 clientAddress
    (pktinfoControl 2 serviceAddress serviceAddress).
Definition reply : Datagram := mkDatagram (bs "answer") false false 0 0 0 anyAddress [].

(** A request waits on the listener 9, its reply on the first flow's socket 10. *)
Definition start (memory : bool) : Kernel :=
  mkKernel {[9]} [] 0 0 [[(1, EPOLLIN)]; [(3, EPOLLIN)]; []] [(9, request); (10, reply)] memory 10.

Lemma udp_start_fresh memory : udp_fresh_start 9 (start memory).
Proof. by split. Qed.

Definition initial : UdpReactor * Kernel := (initialUdpReactor endpoint 9, start true).
Definition turn (s : UdpReactor * Kernel) : UdpReactor * Kernel :=
  (udpLoopTurn callbacks options tt s).2.
Definition goes_on (s : UdpReactor * Kernel) : bool :=
  bool_decide ((udpLoopTurn callbacks options tt s).1 = Ret (inl tt)).

Lemma udp_turn_reachable s :
  udp_reachable callbacks options endpoint 9 s -> goes_on s = true ->
  udp_reachable callbacks options endpoint 9 (turn s).
Proof.
  intros Hs Hg. eapply udp_turn; [exact Hs|]. unfold goes_on in Hg.
  apply bool_decide_eq_true_1 in Hg. unfold turn. rewrite <-Hg. by destruct (udpLoopTurn _ _ _ s).
Qed.

Lemma udp_initial_reachable memory :
  udp_reachable callbacks options endpoint 9 (initialUdpReactor endpoint 9, start memory).
Proof. apply udp_start, udp_start_fresh. Qed.

(** The request was forwarded on a new flow. *)
Definition forwarded : UdpReactor * Kernel := turn initial.
Lemma forwarded_reachable : udp_reachable callbacks options endpoint 9 forwarded.
Proof. apply udp_turn_reachable; [apply udp_initial_reachable|]. vm_compute. reflexivity. Qed.

(** The same with an idle timeout of a millisecond: the flow is due. *)
Definition hasty : UdpReactorOptions := mkUdpReactorOptions 2 (ms 1) 100 kUdpPayloadLimit.
Definition due : UdpReactor * Kernel := (udpLoopTurn callbacks hasty tt initial).2.
Lemma due_reachable : udp_reachable callbacks hasty endpoint 9 due.
Proof.
  eapply udp_turn; [apply udp_start, (udp_start_fresh true)|].
  assert (Hret : bool_decide ((udpLoopTurn callbacks hasty tt initial).1 = Ret (inl tt)) = true)
    by (vm_compute; reflexivity).
  apply bool_decide_eq_true_1 in Hret. unfold due. rewrite <-Hret.
  change (initialUdpReactor endpoint 9, start true) with initial. by destruct (udpLoopTurn callbacks hasty tt initial).
Qed.
End ScriptedUdpKernel.

Import ScriptedUdpKernel.

Lemma parsePacketMetadata_exact_witness :
  acceptable endpoint 4000 clientAddress serviceAddress serviceAddress = true /\
  parsePacketMetadata endpoint request = Some requestKey.
Proof.
  split; [reflexivity|].
  refine (proj1 (parsePacketMetadata_exact endpoint (bs "query") false 0 4000 clientAddress 2
            serviceAddress serviceAddress _ _)); (split; [done|]); repeat constructor; lia.
Defined.

(** One flow and its private socket exist after the first request. *)
Lemma udp_index_integrity_witness :
  flowTokensByKey_ forwarded.1 !! requestKey = Some 3 /\
  udp_consistent callbacks options 9 forwarded.
Proof.
  split; [vm_compute; reflexivity|].
  exact (udp_index_integrity callbacks options endpoint 9 forwarded
           (udp_scripted_callbacks_ok _) forwarded_reachable).
Defined.

(** The query and the answer were both relayed. *)
Lemma udp_relay_affinity_witness :
  let '(_, (r, w')) := runUdpEventLoop callbacks options 3 initial in
  u_log w' = [LRecv 9 request; LOpen 10; LSend 10 (bs "query"); LRecv 10 reply;
              LSendTo 9 (mkEndpoint clientAddress 4000) (replyControl serviceAddress) (bs "answer")] /\
  exists owner waiting, relayed endpoint 9 (u_log w') owner waiting /\
    forall t x, flows_ r !! t = Some x -> owner !! fd x = None \/ owner !! fd x = Some (key x).
Proof.
  pose proof (udp_relay_affinity callbacks options endpoint 9 3 (start true)
                (udp_scripted_callbacks_ok _) (udp_start_fresh true)) as Hr.
  change (initialUdpReactor endpoint 9, start true) with initial in Hr.
  assert (Hlog : u_log (runUdpEventLoop callbacks options 3 initial).2.2 =
    [LRecv 9 request; LOpen 10; LSend 10 (bs "query"); LRecv 10 reply;
     LSendTo 9 (mkEndpoint clientAddress 4000) (replyControl serviceAddress) (bs "answer")])
    by (vm_compute; reflexivity).
  destruct (runUdpEventLoop callbacks options 3 initial) as [o [r w']]. split; [exact Hlog|exact Hr].
Defined.

(** The third turn meets the stop signal; the flow and the listener are closed. *)
Lemma udp_reactor_releases_descriptors_witness :
  (runReactorObject callbacks options 3 endpoint 9 (start true)).1 = Ret 0 /\
  u_opened (runReactorObject callbacks options 3 endpoint 9 (start true)).2 = ∅.
Proof.
  assert (Hret : (runReactorObject callbacks options 3 endpoint 9 (start true)).1 = Ret 0)
    by (vm_compute; reflexivity).
  split; [exact Hret|].
  refine (proj1 (udp_reactor_releases_descriptors callbacks options endpoint 9 3 (start true)
    (runReactorObject callbacks options 3 endpoint 9 (start true)).1
    (runReactorObject callbacks options 3 endpoint 9 (start true)).2
    (udp_scripted_callbacks_ok _) (udp_start_fresh true) ltac:(lia) _ _)).
  - by destruct (runReactorObject _ _ _ _ _ _).
  - rewrite Hret. discriminate.
Defined.

(** Without memory no flow is created, and its socket is closed again. *)
Lemma createFlow_transactional_witness :
  let '(o, s') := createFlow callbacks options requestKey (initialUdpReactor endpoint 9, start false) in
  (o = Ret 0 /\ u_log s'.2 = [LOpen 10]) /\
  udp_consistent callbacks options 9 s' /\
  match o with
  | Ret t =>
      t = 0 /\ flowTokensByKey_ s'.1 ⊆ flowTokensByKey_ (initialUdpReactor endpoint 9) \/
      t <> 0 /\ flowTokensByKey_ s'.1 !! requestKey = Some t /\
        delete requestKey (flowTokensByKey_ s'.1) ⊆ flowTokensByKey_ (initialUdpReactor endpoint 9)
  | Throw _ => True
  | Diverge => False
  end.
Proof.
  pose proof (createFlow_transactional callbacks options endpoint 9 requestKey
    (initialUdpReactor endpoint 9, start false) (udp_scripted_callbacks_ok _) (udp_initial_reachable false) eq_refl) as Hc.
  assert (Ho : (createFlow callbacks options requestKey (initialUdpReactor endpoint 9, start false)).1 = Ret 0 /\
    u_log (createFlow callbacks options requestKey (initialUdpReactor endpoint 9, start false)).2.2 = [LOpen 10])
    by (split; vm_compute; reflexivity).
  destruct (createFlow callbacks options requestKey (initialUdpReactor endpoint 9, start false)) as [o s'].
  split; [exact Ho|exact Hc].
Defined.

Lemma expireIdleFlows_removes_exactly_idle_witness :
  flowTokensByKey_ due.1 !! requestKey = Some 3 /\
  forall t x, flows_ (expireIdleFlows callbacks hasty due).2.1 !! t = Some x <->
    flows_ due.1 !! t = Some x /\ (u_now due.2).1 - lastSubmissionTime (deadline x) < idleTimeout hasty.
Proof.
  split; [vm_compute; reflexivity|].
  refine (expireIdleFlows_removes_exactly_idle callbacks hasty endpoint 9 due
            (expireIdleFlows callbacks hasty due).2 (udp_scripted_callbacks_ok _) due_reachable _).
  assert (Hret : bool_decide ((expireIdleFlows callbacks hasty due).1 = Ret tt) = true)
    by (vm_compute; reflexivity).
  apply bool_decide_eq_true_1 in Hret. rewrite <-Hret. by destruct (expireIdleFlows callbacks hasty due).
Defined.

(** A refused connection of a backend socket closes its flow. *)
Lemma handleSocketError_classes_witness :
  (handleSocketError callbacks ECONNREFUSED false 3 (bs "test") forwarded).1 = Ret false /\
  flows_ (handleSocketError callbacks ECONNREFUSED false 3 (bs "test") forwarded).2.1 =
    delete 3 (flows_ forwarded.1).
Proof.
  pose proof (handleSocketError_classes callbacks options endpoint 9 ECONNREFUSED false 3 (bs "test")
    forwarded (udp_scripted_callbacks_ok _) forwarded_reachable) as Hc.
  assert (Hret : (handleSocketError callbacks ECONNREFUSED false 3 (bs "test") forwarded).1 = Ret false)
    by (vm_compute; reflexivity).
  split; [exact Hret|].
  destruct (handleSocketError callbacks ECONNREFUSED false 3 (bs "test") forwarded) as [o s'].
  exact (proj2 (proj2 (proj2 Hc) false Hret)).
Defined.
