(* ===== verification/UdpProbe.v ===== *)
(** * The UDP probe checker (src/src/health/UdpProbeChecker.h, UdpProbeChecker.cpp)

    One connected socket per target, an echo probe per second with a deadline of
    half a second, a nonce per probe and a budget of received events per poll.
    The transport, the nonce source and the completion clock are the interface
    [ProbeCollaborators] of the checker, as in the source; the second half of
    the file is the implementation of that interface over system calls.
    Time points are nanosecond counts that do not overflow. *)
From S2P Require Import Prelude HealthState.

Abbreviation packet := (list Z).
Definition kProbePacketSize : nat := 24.

Definition probeStateName (s : HealthStatus) : bytes := healthStatusName s.

(** ** Data *)

Record ProbeTarget := mkProbeTarget {
  id : bytes;
  interfaceName : bytes;
  ifindex : Z;
  sourceMac : list Z;
  destinationMac : list Z;
  probeAddress : Z;
  probePort : Z
}.

#[export] Instance probe_target_eq_dec : EqDecision ProbeTarget.
Proof. solve_decision. Defined.

Definition sameProbeIdentity (first second : ProbeTarget) : bool :=
  bool_decide (id first = id second) && (ifindex first =? ifindex second) &&
  bool_decide (sourceMac first = sourceMac second) &&
  bool_decide (destinationMac first = destinationMac second) &&
  (probeAddress first =? probeAddress second) && (probePort first =? probePort second).

Record ProbeSnapshot := mkProbeSnapshot {
  target : ProbeTarget;
  state : HealthStatus;
  consecutiveSuccesses : Z;
  consecutiveFailures : Z
}.

Record ProbeTransition := mkProbeTransition {
  pt_id : bytes;
  pt_from : HealthStatus;
  pt_to : HealthStatus;
  pt_reason : bytes;
  pt_error : Z
}.

Record ProbeIoResult := mkProbeIoResult {
  io_bytes : Z;
  io_error : Z
}.

Record Probe := mkProbe {
  snapshot : ProbeSnapshot;
  handle : Z;
  awaitingReply : bool;
  token : packet;
  nextProbeTime : Z;
  probeDeadline : Z
}.

Definition zeroPacket : packet := replicate kProbePacketSize 0.

#[export] Instance probe_inhabited : Inhabited Probe :=
  populate (mkProbe (mkProbeSnapshot (mkProbeTarget [] [] 0 [] [] 0 0) kUnknown 0 0) (-1) false
              zeroPacket 0 0).

Record UdpProbeChecker := mkUdpProbeChecker {
  probes_ : list Probe;
  lastPollTime_ : Z;
  hasPolled_ : bool;
  receiveCursor_ : Z;
  lastReceiveEventCount_ : Z
}.

Definition set_probes (l : list Probe) (c : UdpProbeChecker) : UdpProbeChecker :=
  mkUdpProbeChecker l (lastPollTime_ c) (hasPolled_ c) (receiveCursor_ c) (lastReceiveEventCount_ c).
Definition set_receiveCursor (n : Z) (c : UdpProbeChecker) : UdpProbeChecker :=
  mkUdpProbeChecker (probes_ c) (lastPollTime_ c) (hasPolled_ c) n (lastReceiveEventCount_ c).
Definition set_eventCount (n : Z) (c : UdpProbeChecker) : UdpProbeChecker :=
  mkUdpProbeChecker (probes_ c) (lastPollTime_ c) (hasPolled_ c) (receiveCursor_ c) n.

Definition set_snapshot (s : ProbeSnapshot) (p : Probe) : Probe :=
  mkProbe s (handle p) (awaitingReply p) (token p) (nextProbeTime p) (probeDeadline p).
Definition set_awaiting (b : bool) (p : Probe) : Probe :=
  mkProbe (snapshot p) (handle p) b (token p) (nextProbeTime p) (probeDeadline p).
Definition set_handle (h : Z) (p : Probe) : Probe :=
  mkProbe (snapshot p) h (awaitingReply p) (token p) (nextProbeTime p) (probeDeadline p).

(** ** Constants and error classes *)

Definition kInterval : Z := seconds 1.
Definition kTimeout : Z := ms 500.
Definition kReceiveBudget : Z := 256.

Definition isLocalProbeError (error : Z) : bool :=
  (error =? ENOBUFS) || (error =? ENOMEM) || (error =? EMFILE) || (error =? ENFILE) ||
  (error =? EAGAIN) || (error =? EINTR) || (error =? EADDRNOTAVAIL) || (error =? EACCES) ||
  (error =? EPERM).

Definition validateProbeIoResult {St} (result : ProbeIoResult) : M St unit :=
  if ((0 <=? io_bytes result) && negb (io_error result =? 0)) ||
     ((io_bytes result <? 0) && (io_error result =? 0)) ||
     (io_error result =? EBADF) || (io_error result =? ENOTSOCK) ||
     (io_error result =? EFAULT) || (io_error result =? EINVAL)
  then mthrow (RuntimeError (bs "probe transport invariant failed"))
  else mret tt.

Definition errorReason (error : Z) : bytes :=
  if isLocalProbeError error then bs "local_error" else bs "target_error".

(** ** The collaborators: ProbeTransport, ProbeNonceSource, ProbeCompletionClock *)

Class ProbeCollaborators (W : Type) := {
  openProbeSocket : ProbeTarget -> M W Z;
  closeProbeSocket : Z -> W -> W;
  sendProbePacket : Z -> packet -> M W ProbeIoResult;
  (** The result and the buffer of 25 bytes. *)
  receiveProbePacket : Z -> M W (ProbeIoResult * packet);
  generateProbePacket : M W packet;
  nowAtCompletion : Z -> M W Z
}.

Section checker.
Context {W : Type} `{ProbeCollaborators W}.

Definition cancelProbe (p : Probe) (w : W) : Probe * W :=
  (mkProbe (snapshot p) (-1) false zeroPacket (nextProbeTime p) (probeDeadline p),
   if 0 <=? handle p then closeProbeSocket (handle p) w else w).

Fixpoint cancelProbes (l : list Probe) (w : W) : list Probe * W :=
  match l with
  | [] => ([], w)
  | p :: l' =>
      let '(p', w1) := cancelProbe p w in
      let '(l'', w2) := cancelProbes l' w1 in
      (p' :: l'', w2)
  end.

Definition cancelAllProbes (c : UdpProbeChecker) (w : W) : UdpProbeChecker * W :=
  let '(l, w') := cancelProbes (probes_ c) w in (set_probes l c, w').

(** ** Construction *)

Definition invalidTarget (ids : list bytes) (t : ProbeTarget) : bool :=
  bool_decide (id t = []) || bool_decide (id t ∈ ids) || (ifindex t =? 0) ||
  bool_decide (interfaceName t = []) || (16 <=? len (interfaceName t)) ||
  (probeAddress t =? 0) || (probePort t =? 0).

Fixpoint validTargets (ids : list bytes) (targets : list ProbeTarget) : bool :=
  match targets with
  | [] => true
  | t :: targets' => negb (invalidTarget ids t) && validTargets (id t :: ids) targets'
  end.

Definition newSnapshot (t : ProbeTarget) : ProbeSnapshot := mkProbeSnapshot t kUnknown 0 0.

(** The first snapshot of the same identity is imported. *)
Fixpoint importSnapshot (t : ProbeTarget) (previous : list ProbeSnapshot) : outcome ProbeSnapshot :=
  match previous with
  | [] => Ret (newSnapshot t)
  | old :: previous' =>
      if negb (sameProbeIdentity t (target old)) then importSnapshot t previous'
      else if (2 <? consecutiveSuccesses old) || (3 <? consecutiveFailures old) ||
              (negb (consecutiveSuccesses old =? 0) && negb (consecutiveFailures old =? 0))
      then Throw (RuntimeError (bs "invalid imported probe counters"))
      else Ret (mkProbeSnapshot t (state old) (consecutiveSuccesses old) (consecutiveFailures old))
  end.

Definition prepareProbe (previous : list ProbeSnapshot) (t : ProbeTarget)
    : M (UdpProbeChecker * W) unit :=
  s <- lift_outcome (importSnapshot t previous) ;;
  update (fun c => set_probes (probes_ c ++ [mkProbe s (-1) false zeroPacket 0 0]) c) ;;;
  h <- outside (openProbeSocket t) ;;
  update (fun c => set_probes (alter (set_handle h) (pred (length (probes_ c))) (probes_ c)) c) ;;;
  if h <? 0 then mthrow (RuntimeError (bs "probe transport returned invalid handle"))
  else mret tt.

(** A failed construction runs [cancelAllProbes] over the probes so far. *)
Definition orCancel {A} (m : M (UdpProbeChecker * W) A) : M (UdpProbeChecker * W) A :=
  mcatch m (fun e s => (Throw e, cancelAllProbes s.1 s.2)).

Definition emptyChecker : UdpProbeChecker := mkUdpProbeChecker [] 0 false 0 0.

Definition newUdpProbeChecker (targets : list ProbeTarget) (previous : list ProbeSnapshot)
    : M W UdpProbeChecker :=
  if 64 <? len targets then mthrow (InvalidArgument (bs "probe target limit is 64"))
  else if negb (validTargets [] targets) then
    mthrow (InvalidArgument (bs "invalid or duplicate probe target"))
  else fun w =>
    match orCancel (mfor targets (prepareProbe previous)) (emptyChecker, w) with
    | (Ret _, (c, w')) => (Ret c, w')
    | (Throw e, (_, w')) => (Throw e, w')
    | (Diverge, (_, w')) => (Diverge, w')
    end.

Definition destroyUdpProbeChecker (c : UdpProbeChecker) (w : W) : W := (cancelAllProbes c w).2.

(** ** Polling

    The state of a poll is the checker and the transitions collected so far. *)
Abbreviation poll := (M ((UdpProbeChecker * list ProbeTransition) * W)).

Definition probeAt (i : nat) : poll Probe := own (fun s => probes_ s.1 !!! i).
Definition setProbe (i : nat) (f : Probe -> Probe) : poll unit :=
  update (fun s => (set_probes (alter f i (probes_ s.1)) s.1, s.2)).

(** The counters of the snapshot after a result. *)
Definition countResult (success : bool) (s : ProbeSnapshot) : ProbeSnapshot :=
  if success then
    let n := Z.min (u32 (consecutiveSuccesses s + 1)) 2 in
    mkProbeSnapshot (target s) (if n =? 2 then kHealthy else state s) n 0
  else
    let n := Z.min (u32 (consecutiveFailures s + 1)) 3 in
    mkProbeSnapshot (target s) (if n =? 3 then kUnhealthy else state s) 0 n.

Definition completeProbeResult (i : nat) (success : bool) (reason : bytes) (error : Z) : poll unit :=
  setProbe i (fun p => mkProbe (snapshot p) (handle p) false zeroPacket (nextProbeTime p) (probeDeadline p)) ;;;
  probe <- probeAt i ;;
  let previous := state (snapshot probe) in
  let s := countResult success (snapshot probe) in
  setProbe i (set_snapshot s) ;;;
  mwhen (bool_decide (previous <> state s))
    (update (fun x => (x.1, x.2 ++ [mkProbeTransition (id (target s)) previous (state s) reason error]))).

Definition sendProbe (pollTime : Z) (i : nat) : poll unit :=
  t <- outside generateProbePacket ;;
  setProbe i (fun p => mkProbe (snapshot p) (handle p) (awaitingReply p) t (pollTime + kInterval)
                         (pollTime + kTimeout)) ;;;
  probe <- probeAt i ;;
  sent <- outside (sendProbePacket (handle probe) (token probe)) ;;
  validateProbeIoResult sent ;;;
  if negb (io_bytes sent =? Z.of_nat kProbePacketSize) then
    if 0 <=? io_bytes sent then mthrow (RuntimeError (bs "partial UDP probe send"))
    else completeProbeResult i false (errorReason (io_error sent)) (io_error sent)
  else setProbe i (set_awaiting true).

Definition sendDueProbe (pollTime : Z) (i : nat) : poll unit :=
  probe <- probeAt i ;;
  if handle probe <? 0 then mthrow (RuntimeError (bs "probe checker has terminated"))
  else
    mwhen (awaitingReply probe && (probeDeadline probe <=? pollTime))
      (completeProbeResult i false (bs "timeout") ETIMEDOUT) ;;;
    probe <- probeAt i ;;
    if awaitingReply probe || (pollTime <? nextProbeTime probe) then mret tt
    else sendProbe pollTime i.

Definition sendDueProbePackets (pollTime : Z) : poll unit :=
  n <- own (fun s => length (probes_ s.1)) ;;
  mfor (seq 0 n) (sendDueProbe pollTime).

(** One turn of the inner loop: [inl] goes on, [inr] leaves it. *)
Definition receiveTurn (pollTime : Z) (i : nat) : poll (unit + unit) :=
  probe <- probeAt i ;;
  c <- own fst ;;
  if negb (awaitingReply probe && (lastReceiveEventCount_ c <? kReceiveBudget)) then mret (inr tt)
  else
    received <- outside (receiveProbePacket (handle probe)) ;;
    let '(result, reply) := received in
    validateProbeIoResult result ;;;
    let wouldBlock :=
      (io_bytes result <? 0) && ((io_error result =? EAGAIN) || (io_error result =? EWOULDBLOCK)) in
    mwhen (negb wouldBlock)
      (update (fun s => (set_eventCount (lastReceiveEventCount_ s.1 + 1) s.1, s.2))) ;;;
    completedAt <- outside (nowAtCompletion pollTime) ;;
    if completedAt <? pollTime then
      mthrow (RuntimeError (bs "probe completion clock moved backwards"))
    else if probeDeadline probe <=? completedAt then
      completeProbeResult i false (bs "timeout") ETIMEDOUT ;;; mret (inr tt)
    else if wouldBlock then mret (inr tt)
    else if io_bytes result <? 0 then
      if io_error result =? EINTR then mret (inl tt)
      else
        completeProbeResult i false (errorReason (io_error result)) (io_error result) ;;; mret (inr tt)
    else
      mwhen ((io_bytes result =? Z.of_nat kProbePacketSize) &&
             bool_decide (token probe = take kProbePacketSize reply))
        (completeProbeResult i true (bs "success") 0) ;;;
      mret (inl tt).

(** Every turn that goes on counts an event, so the budget bounds the turns. *)
Definition receiveReplies (pollTime : Z) (i : nat) : poll unit :=
  mloop (S (Z.to_nat kReceiveBudget)) (fun _ => receiveTurn pollTime i) tt.

Fixpoint receiveFrom (pollTime : Z) (offsets : list nat) : poll unit :=
  match offsets with
  | [] => mret tt
  | offset :: offsets' =>
      c <- own fst ;;
      if lastReceiveEventCount_ c <? kReceiveBudget then
        let count := len (probes_ c) in
        receiveReplies pollTime (Z.to_nat ((receiveCursor_ c + Z.of_nat offset) mod count)) ;;;
        receiveFrom pollTime offsets'
      else mret tt
  end.

Definition receivePendingProbeReplies (pollTime : Z) : poll unit :=
  n <- own (fun s => length (probes_ s.1)) ;;
  receiveFrom pollTime (seq 0 n) ;;;
  mwhen (negb (n =? 0)%nat)
    (update (fun s => (set_receiveCursor ((receiveCursor_ s.1 + 1) mod Z.of_nat n) s.1, s.2))).

Definition pollBody (pollTime : Z) : poll unit :=
  c <- own fst ;;
  if hasPolled_ c && (pollTime <? lastPollTime_ c) then
    mthrow (RuntimeError (bs "probe clock moved backwards"))
  else
    update (fun s =>
      (mkUdpProbeChecker (probes_ s.1) pollTime true (receiveCursor_ s.1) 0, s.2)) ;;;
    sendDueProbePackets pollTime ;;;
    receivePendingProbeReplies pollTime.

Definition pollProbeTransitions (pollTime : Z) : M (UdpProbeChecker * W) (list ProbeTransition) :=
  orCancel (fun s =>
    let '(o, ((c, transitions), w)) := pollBody pollTime ((s.1, []), s.2) in
    match o with
    | Ret _ => (Ret transitions, (c, w))
    | Throw e => (Throw e, (c, w))
    | Diverge => (Diverge, (c, w))
    end).

(** ** Queries *)

Definition copyProbeSnapshots (c : UdpProbeChecker) : list ProbeSnapshot := snapshot <$> probes_ c.
Definition copyHealthyProbeTargets (c : UdpProbeChecker) : list ProbeTarget :=
  target <$> filter (fun s => state s = kHealthy) (snapshot <$> probes_ c).

Definition timePointMax : Z := 2 ^ 63 - 1.
Definition wakeup (p : Probe) : Z := if awaitingReply p then probeDeadline p else nextProbeTime p.
Definition nextProbeWakeup (c : UdpProbeChecker) : Z :=
  foldl (fun result p => Z.min result (wakeup p)) timePointMax (probes_ c).
Definition inFlightProbeCount (c : UdpProbeChecker) : Z :=
  len (filter (fun p => awaitingReply p = true) (probes_ c)).
End checker.

(** ** The nonce sequence *)

Record ProbeNonceSequence := mkProbeNonceSequence {
  epoch_ : Z;
  lastSequence_ : Z
}.

(** The eight bytes of a 64-bit integer, most significant first. *)
Definition bigEndian64 (x : Z) : packet :=
  (fun index => u8 (Z.shiftr x (56 - 8 * Z.of_nat index))) <$> seq 0 8.

Definition kProbeMagic : packet := code <$> bs "L4LBHC01".

Definition generateSequencePacket : M ProbeNonceSequence packet :=
  fun s =>
    if lastSequence_ s =? UINT64_MAX then
      (Throw (RuntimeError (bs "probe sequence exhausted")), s)
    else
      let sequence := lastSequence_ s + 1 in
      (Ret (kProbeMagic ++ bigEndian64 (epoch_ s) ++ bigEndian64 sequence),
       mkProbeNonceSequence (epoch_ s) sequence).

(** ** The transport over system calls *)

Class ProbeSystem (K : Type) := {
  ps_if_nametoindex : bytes -> K -> Z * K;
  ps_socket : K -> (Z + Z) * K;
  ps_bind_device : Z -> bytes -> K -> (unit + Z) * K;
  ps_connect : Z -> Z -> Z -> K -> (unit + Z) * K;
  ps_send : Z -> packet -> K -> (Z + Z) * K;
  (** recv(2) with [MSG_TRUNC]: the datagram's length and the filled buffer. *)
  ps_recv : Z -> K -> (Z * packet + Z) * K;
  ps_close : Z -> K -> K;
  ps_now : K -> Z * K;
  ps_getrandom : Z -> K -> (packet + Z) * K
}.

Section transport.
Context {K : Type} `{ProbeSystem K}.

Definition openUdpProbeSocket (t : ProbeTarget) : M K Z :=
  index <- mworld (ps_if_nametoindex (interfaceName t)) ;;
  if negb (index =? ifindex t) then mthrow (RuntimeError (bs "probe interface identity changed"))
  else
    h <- orThrow (bs "probe socket") ps_socket ;;
    bound <- mworld (ps_bind_device h (interfaceName t)) ;;
    match bound with
    | inr error =>
        mmodify (ps_close h) ;;; mthrow (SystemError error (bs "prepare bound UDP probe"))
    | inl _ =>
        connected <- mworld (ps_connect h (probeAddress t) (probePort t)) ;;
        match connected with
        | inr error =>
            mmodify (ps_close h) ;;; mthrow (SystemError error (bs "prepare bound UDP probe"))
        | inl _ => mret h
        end
    end.

Definition sendUdpProbePacket (h : Z) (p : packet) : M K ProbeIoResult :=
  sent <- mworld (ps_send h p) ;;
  mret match sent with inl n => mkProbeIoResult n 0 | inr errno => mkProbeIoResult (-1) errno end.

Definition receiveUdpProbePacket (h : Z) : M K (ProbeIoResult * packet) :=
  received <- mworld (ps_recv h) ;;
  mret match received with
       | inl (n, reply) => (mkProbeIoResult n 0, reply)
       | inr errno => (mkProbeIoResult (-1) errno, replicate 25 0)
       end.

(** Eight random bytes, in as many calls as it takes: every completed call gives
    at least one byte, and [fuel] bounds the interruptions. *)
Fixpoint randomEpochBytes (fuel : nat) (completed : packet) : M K packet :=
  if 8 <=? len completed then mret completed
  else
    match fuel with
    | O => mdiverge
    | S fuel' =>
        count <- mworld (ps_getrandom (8 - len completed)) ;;
        match count with
        | inr errno =>
            if errno =? EINTR then randomEpochBytes fuel' completed
            else mthrow (SystemError errno (bs "probe random epoch"))
        | inl [] => mthrow (SystemError EIO (bs "probe random epoch"))
        | inl chunk => randomEpochBytes fuel' (completed ++ chunk)
        end
    end.

(** The bytes are the memory of a little-endian integer. *)
Definition createRandomProbeEpoch (fuel : nat) : M K Z :=
  b <- randomEpochBytes fuel [] ;;
  mret (foldr (fun x n => x + 256 * n) 0 b).

(** The process-wide sequence is the second component of the world. *)
#[global] Instance udp_probe_sockets : ProbeCollaborators (K * ProbeNonceSequence) := {
  openProbeSocket t s := let '(o, k) := openUdpProbeSocket t s.1 in (o, (k, s.2));
  closeProbeSocket h s := (ps_close h s.1, s.2);
  sendProbePacket h p s := let '(o, k) := sendUdpProbePacket h p s.1 in (o, (k, s.2));
  receiveProbePacket h s := let '(o, k) := receiveUdpProbePacket h s.1 in (o, (k, s.2));
  generateProbePacket s := let '(o, n) := generateSequencePacket s.2 in (o, (s.1, n));
  nowAtCompletion _ s := let '(t, k) := ps_now s.1 in (Ret t, (k, s.2))
}.
End transport.
