(* ===== verification/UdpProbeSafety.v ===== *)
(** * The UDP probe checker: invariant and preservation

    What the collaborators promise, the events of a socket as a grammar that
    yields the history of results, the invariant of the checker and the lemmas
    that every operation keeps it. *)
From S2P Require Import Prelude HealthState UdpProbe.

(** ** The collaborators *)

Inductive ProbeEvent :=
| PSent (p : packet)
| PReceived (n : Z) (reply : packet).

(** [psockets] is the ghost set of open sockets, [plog] what went through each
    since it was opened. *)
Class ProbeLaws (W : Type) `{ProbeCollaborators W} := {
  psockets : W -> gset Z;
  plog : W -> Z -> list ProbeEvent;
  pl_open : forall t w,
    match openProbeSocket t w with
    | (Ret h, w') =>
        if 0 <=? h then
          (h ∉ psockets w) /\ psockets w' = ({[h]} ∪ psockets w) /\
          plog w' h = [] /\ forall h', h' <> h -> plog w' h' = plog w h'
        else psockets w' = psockets w /\ forall h', h' ∈ psockets w -> plog w' h' = plog w h'
    | (Throw _, w') => psockets w' = psockets w /\ forall h', h' ∈ psockets w -> plog w' h' = plog w h'
    | (Diverge, _) => False
    end;
  pl_close : forall h w,
    psockets (closeProbeSocket h w) = psockets w ∖ {[h]} /\
    forall h', plog (closeProbeSocket h w) h' = plog w h';
  pl_send : forall h p w, let '(o, w') := sendProbePacket h p w in
    o <> Diverge /\ psockets w' = psockets w /\
    (forall h', h' <> h -> plog w' h' = plog w h') /\
    match o with
    | Ret r => plog w' h = if 0 <=? io_bytes r then plog w h ++ [PSent p] else plog w h
    | _ => True
    end;
  pl_receive : forall h w, let '(o, w') := receiveProbePacket h w in
    o <> Diverge /\ psockets w' = psockets w /\
    (forall h', h' <> h -> plog w' h' = plog w h') /\
    match o with
    | Ret (r, reply) =>
        plog w' h = if 0 <=? io_bytes r then plog w h ++ [PReceived (io_bytes r) reply] else plog w h
    | _ => True
    end;
  pl_generate : forall w, let '(o, w') := generateProbePacket w in
    o <> Diverge /\ psockets w' = psockets w /\ forall h, plog w' h = plog w h;
  pl_completion : forall t w, let '(o, w') := nowAtCompletion t w in
    o <> Diverge /\ psockets w' = psockets w /\ forall h, plog w' h = plog w h
}.

(** ** Events and results

    [probed log outstanding history]: the events of a socket account for the
    history of results (the latest first), with the nonce that is outstanding.
    A success takes a received datagram of exactly 24 bytes that equals the
    outstanding nonce, which is then spent. *)
Inductive probed : list ProbeEvent -> option packet -> list bool -> Prop :=
| probed_start : probed [] None []
| probed_sent log t history :
    probed log None history -> probed (log ++ [PSent t]) (Some t) history
| probed_failure log o history :
    probed log o history -> probed log None (false :: history)
| probed_late log t n reply history :
    probed log (Some t) history -> probed (log ++ [PReceived n reply]) None (false :: history)
| probed_other log t n reply history :
    probed log (Some t) history ->
    n <> Z.of_nat kProbePacketSize \/ take kProbePacketSize reply <> t ->
    probed (log ++ [PReceived n reply]) (Some t) history
| probed_echo log t reply history :
    probed log (Some t) history -> take kProbePacketSize reply = t ->
    probed (log ++ [PReceived (Z.of_nat kProbePacketSize) reply]) None (true :: history).

Definition isSent (e : ProbeEvent) : Prop := match e with PSent _ => True | _ => False end.
#[export] Instance isSent_dec e : Decision (isSent e).
Proof. destruct e; apply _. Defined.

(** Every success is paid for with a packet of its own. *)
Lemma probed_successes log o history :
  probed log o history ->
  (length (filter (fun r => r = true) history) + (if o is Some _ then 1 else 0) <=
     length (filter isSent log))%nat.
Proof.
  assert (Hf : forall l, filter (fun r => r = true) (false :: l) = filter (fun r => r = true) l)
    by (intros; by apply filter_cons_False).
  assert (Ht : forall l, filter (fun r => r = true) (true :: l) = true :: filter (fun r => r = true) l)
    by (intros; by apply filter_cons_True).
  induction 1 as [|log t history _ IH|log o history _ IH|log t n reply history _ IH
                 |log t n reply history _ IH _|log t reply history _ IH _];
    rewrite ?Hf, ?Ht, ?filter_app, ?length_app; cbn in *; try lia.
  rewrite decide_True by done. cbn. lia.
Qed.

(** The transitions reported for one target lead from one state to another. *)
Inductive chain (i : bytes) : HealthStatus -> list ProbeTransition -> HealthStatus -> Prop :=
| chain_nil a : chain i a [] a
| chain_cons a b c reason error l :
    a <> b -> chain i b l c -> chain i a (mkProbeTransition i a b reason error :: l) c.

Lemma chain_app i a b c l k : chain i a l b -> chain i b k c -> chain i a (l ++ k) c.
Proof. induction 1; cbn; [done|]. intros. constructor; auto. Qed.

Lemma chain_ids i a l b : chain i a l b -> Forall (fun t => pt_id t = i) l.
Proof. by induction 1; constructor. Qed.

Section checker.
Context {W : Type} `{ProbeLaws W}.
Abbreviation st := ((UdpProbeChecker * list ProbeTransition) * W)%type.
Abbreviation plist s := (probes_ (fst (fst s))).

(** ** Sockets *)

Definition open_handles (l : list Probe) : list Z := filter (fun h => 0 <= h) (handle <$> l).

Lemma open_handles_cons p l :
  open_handles (p :: l) = (if 0 <=? handle p then [handle p] else []) ++ open_handles l.
Proof.
  unfold open_handles. rewrite fmap_cons.
  destruct (Z.leb_spec 0 (handle p)); [by apply filter_cons_True|by apply filter_cons_False; lia].
Qed.

(** The sockets that are open are those of [base] and one per handle. *)
Record sockets_ok (base : gset Z) (l : list Probe) (w : W) : Prop := {
  so_nodup : NoDup (open_handles l);
  so_open : psockets w = base ∪ list_to_set (open_handles l);
  so_disjoint : list_to_set (open_handles l) ## base
}.

Lemma cancelProbes_closes base l w :
  sockets_ok base l w ->
  psockets (cancelProbes l w).2 = base /\
  (forall h, plog (cancelProbes l w).2 h = plog w h) /\
  snapshot <$> (cancelProbes l w).1 = snapshot <$> l /\
  Forall (fun p => handle p = -1 /\ awaitingReply p = false) (cancelProbes l w).1.
Proof.
  revert w. induction l as [|p l IH]; intros w [Hn Ho Hd].
  { cbn in *. rewrite Ho. split_and!; [set_solver|done..]. }
  cbn [cancelProbes]. unfold cancelProbe. destruct (pl_close (handle p) w) as [Hc Hg].
  set (w1 := if 0 <=? handle p then closeProbeSocket (handle p) w else w).
  assert (Hlog : forall h, plog w1 h = plog w h).
  { intros h. unfold w1. destruct (0 <=? handle p); [apply Hg|done]. }
  assert (Hok : sockets_ok base l w1).
  { rewrite open_handles_cons in Hn, Ho, Hd. unfold w1.
    destruct (0 <=? handle p); cbn [app] in *; [|by split].
    apply NoDup_cons in Hn as [Hnew Hn]. split; [done| |set_solver].
    rewrite Hc, Ho. apply set_eq. set_solver. }
  destruct (IH w1 Hok) as (Hs & Hl & He & Hf). destruct (cancelProbes l w1) as [l'' w2].
  cbn in *. split_and!; [done|intros h; by rewrite Hl, Hlog|by f_equal|by constructor].
Qed.

(** ** The invariant of a probe *)

Definition outstanding (p : Probe) : option packet := if awaitingReply p then Some (token p) else None.

(** [s0] is the snapshot the probe started with. *)
Record probe_ok (s0 : ProbeSnapshot) (w : W) (p : Probe) : Prop := {
  po_handle : 0 <= handle p;
  po_history : exists history, probed (plog w (handle p)) (outstanding p) history /\
    snapshot p = foldr countResult s0 history;
  po_schedule : awaitingReply p = true -> nextProbeTime p = probeDeadline p + (kInterval - kTimeout)
}.

(** The probe will need no attention until after [t]. *)
Definition future (t : Z) (p : Probe) : Prop := t < wakeup p.

(** Only the probe at [i] and its socket change. *)
Record step (i : nat) (s s' : st) (p p' : Probe) (new : list ProbeTransition) : Prop := {
  st_before : plist s !! i = Some p;
  st_after : plist s' = <[i := p']> (plist s);
  st_cursor : receiveCursor_ s'.1.1 = receiveCursor_ s.1.1;
  st_handle : handle p' = handle p;
  st_target : target (snapshot p') = target (snapshot p);
  st_transitions : s'.1.2 = s.1.2 ++ new;
  st_chain : chain (id (target (snapshot p))) (state (snapshot p)) new (state (snapshot p'));
  st_sockets : psockets s'.2 = psockets s.2;
  st_log : forall h, h <> handle p -> plog s'.2 h = plog s.2 h
}.

Lemma step_now i s s' p p' new : step i s s' p p' new -> plist s' !! i = Some p'.
Proof.
  intros [Hb -> _ _ _ _ _ _ _]. apply list_lookup_insert_eq. by eapply lookup_lt_Some.
Qed.

Lemma step_trans i s s' s'' p p' p'' new new' :
  step i s s' p p' new -> step i s' s'' p' p'' new' -> step i s s'' p p'' (new ++ new').
Proof.
  intros Ha Hb. pose proof (step_now _ _ _ _ _ _ Ha) as Hn.
  destruct Ha as [A1 A2 A3 A4 A5 A6 A7 A8 A9], Hb as [B1 B2 B3 B4 B5 B6 B7 B8 B9].
  split; try congruence.
  - by rewrite B2, A2, list_insert_insert_eq.
  - by rewrite B6, A6, app_assoc.
  - eapply chain_app; [done|]. by rewrite A5 in B7.
  - intros h Hh. rewrite B9 by congruence. by apply A9.
Qed.

Lemma alter_at {A} (f : A -> A) i (l : list A) x : l !! i = Some x -> alter f i l = <[i := f x]> l.
Proof.
  revert i. induction l as [|y l IH]; intros [|i] Hl; cbn in *; simplify_eq; [done|].
  f_equal. by apply IH.
Qed.

(** The world moved, the probes did not. *)
Lemma step_world i s s' p :
  plist s !! i = Some p -> plist s' = plist s -> receiveCursor_ s'.1.1 = receiveCursor_ s.1.1 ->
  s'.1.2 = s.1.2 -> psockets s'.2 = psockets s.2 ->
  (forall h, h <> handle p -> plog s'.2 h = plog s.2 h) -> step i s s' p p [].
Proof.
  intros Hp Hl Hr Ht Hs Hg. split; try done.
  - by rewrite Hl, list_insert_id.
  - by rewrite app_nil_r.
  - constructor.
Qed.

(** The probe is replaced by one with the same handle and snapshot. *)
Lemma step_probe i s w' p p' :
  plist s !! i = Some p -> handle p' = handle p -> snapshot p' = snapshot p ->
  psockets w' = psockets s.2 -> (forall h, h <> handle p -> plog w' h = plog s.2 h) ->
  step i s ((set_probes (<[i := p']> (plist s)) s.1.1, s.1.2), w') p p' [].
Proof.
  intros Hp Hh Hsn Hs Hg. split; cbn [fst snd]; try done; try (by rewrite Hsn).
  - by rewrite app_nil_r.
  - rewrite Hsn. constructor.
Qed.

(** ** Results *)

Definition finished (success : bool) (p : Probe) : Probe :=
  mkProbe (countResult success (snapshot p)) (handle p) false zeroPacket (nextProbeTime p)
    (probeDeadline p).
Definition reported (success : bool) (reason : bytes) (error : Z) (p : Probe)
    : list ProbeTransition :=
  let s := countResult success (snapshot p) in
  if bool_decide (state (snapshot p) <> state s)
  then [mkProbeTransition (id (target s)) (state (snapshot p)) (state s) reason error] else [].

Lemma countResult_target success s : target (countResult success s) = target s.
Proof. by destruct success. Qed.

Lemma completeProbeResult_eq i success reason error (s : st) p :
  plist s !! i = Some p ->
  completeProbeResult i success reason error s =
  (Ret tt, ((set_probes (<[i := finished success p]> (plist s)) s.1.1,
             s.1.2 ++ reported success reason error p), s.2)).
Proof.
  intros Hp. destruct s as [[c ts] w]. cbn [fst snd] in *.
  unfold completeProbeResult, setProbe, probeAt, mbind, update, own, mwhen. cbn [fst snd].
  pose proof (lookup_lt_Some _ _ _ Hp) as Hlt. cbn [probes_ set_probes].
  rewrite (alter_at _ _ _ _ Hp). set (p1 := mkProbe _ _ _ _ _ _).
  assert (Hp1 : <[i := p1]> (probes_ c) !! i = Some p1) by by apply list_lookup_insert_eq.
  rewrite (list_lookup_total_correct _ _ _ Hp1), (alter_at _ _ _ _ Hp1), list_insert_insert_eq.
  unfold reported. cbn [snapshot p1]. case_bool_decide; cbn; [done|]. by rewrite app_nil_r.
Qed.

Lemma completed_step i success reason error (s : st) p :
  plist s !! i = Some p ->
  step i s ((set_probes (<[i := finished success p]> (plist s)) s.1.1,
             s.1.2 ++ reported success reason error p), s.2) p (finished success p)
    (reported success reason error p).
Proof.
  intros Hp. split; cbn [fst snd]; try done; cbn [snapshot finished].
  - apply countResult_target.
  - unfold reported. rewrite countResult_target. case_bool_decide as Hd.
    + constructor; [done|constructor].
    + destruct (decide (state (snapshot p) = state (countResult success (snapshot p)))) as [<-|]; [constructor|done].
Qed.

(** The outcome of an operation on the probe at [i]: [Q] holds of the probe
    that is left when it returns. *)
Definition at_probe (i : nat) (p : Probe) (s : st) {A} (Q : A -> Probe -> st -> Prop)
    (o : outcome A) (s' : st) : Prop :=
  o <> Diverge /\ exists p' new, step i s s' p p' new /\ forall a, o = Ret a -> Q a p' s'.

Lemma at_probe_trans i s s1 p p1 new {A} (Q : A -> Probe -> st -> Prop) o s' :
  step i s s1 p p1 new -> at_probe i p1 s1 Q o s' -> at_probe i p s Q o s'.
Proof.
  intros Hs (Hn & p' & new' & Hs' & HQ). split; [done|]. exists p', (new ++ new').
  split; [by eapply step_trans|done].
Qed.

Lemma completeProbeResult_at i success reason error s p (Q : unit -> Probe -> st -> Prop) :
  plist s !! i = Some p ->
  Q tt (finished success p) ((set_probes (<[i := finished success p]> (plist s)) s.1.1,
                              s.1.2 ++ reported success reason error p), s.2) ->
  wp (completeProbeResult i success reason error) (at_probe i p s Q) s.
Proof.
  intros Hp HQ. unfold wp. rewrite (completeProbeResult_eq _ _ _ _ _ _ Hp). cbn [fst snd].
  split; [done|]. eexists _, _. split; [by apply completed_step|]. by intros [] _.
Qed.

(** A failure keeps the invariant, from any state of the log that has a
    history. *)
Lemma finished_ok s0 success w p history :
  0 <= handle p -> probed (plog w (handle p)) None (success :: history) ->
  snapshot p = foldr countResult s0 history ->
  probe_ok s0 w (finished success p).
Proof.
  intros Hh Hp Hs. split; cbn; [done| |done]. exists (success :: history). split; [done|]. cbn.
  by rewrite Hs.
Qed.

(** ** Sending *)

Lemma validate_wp {St} r (Q : outcome unit -> St -> Prop) s :
  (forall e, Q (Throw e) s) -> Q (Ret tt) s -> wp (validateProbeIoResult r) Q s.
Proof. intros HT HR. unfold validateProbeIoResult. wp_step; by wp_step. Qed.

Lemma probeAt_wp i s p (Q : outcome Probe -> st -> Prop) :
  plist s !! i = Some p -> Q (Ret p) s -> wp (probeAt i) Q s.
Proof. intros Hp HQ. unfold wp, probeAt, own. cbn. by rewrite (list_lookup_total_correct _ _ _ Hp). Qed.

Lemma setProbe_wp i f s p (Q : outcome unit -> st -> Prop) :
  plist s !! i = Some p ->
  Q (Ret tt) ((set_probes (<[i := f p]> (plist s)) s.1.1, s.1.2), s.2) -> wp (setProbe i f) Q s.
Proof. intros Hp HQ. unfold wp, setProbe, update. cbn. by rewrite (alter_at _ _ _ _ Hp). Qed.

Lemma at_probe_throw i s s' p p' new {A} (Q : A -> Probe -> st -> Prop) e :
  step i s s' p p' new -> at_probe i p s Q (Throw e) s'.
Proof. intros Hs. split; [done|]. by exists p', new. Qed.
Lemma at_probe_ret i s s' p p' new {A} (Q : A -> Probe -> st -> Prop) a :
  step i s s' p p' new -> Q a p' s' -> at_probe i p s Q (Ret a) s'.
Proof. intros Hs HQ. split; [done|]. exists p', new. split; [done|]. by intros ? [= <-]. Qed.

Lemma step_refl i (s : st) p : plist s !! i = Some p -> step i s s p p [].
Proof. intros Hp. by apply step_world. Qed.

Lemma probe_ok_quiet s0 w w' p :
  probe_ok s0 w p -> plog w' (handle p) = plog w (handle p) -> probe_ok s0 w' p.
Proof. intros [Hh Hp Hs] Hg. split; [done| |done]. by rewrite Hg. Qed.

Definition sent_result (t : Z) (s0 : ProbeSnapshot) (n : Z) (_ : unit) (p' : Probe) (s' : st) : Prop :=
  probe_ok s0 s'.2 p' /\ future t p' /\ lastReceiveEventCount_ s'.1.1 = n.

Lemma sendProbe_at t i s0 s p :
  plist s !! i = Some p -> probe_ok s0 s.2 p -> awaitingReply p = false ->
  wp (sendProbe t i) (at_probe i p s (sent_result t s0 (lastReceiveEventCount_ s.1.1))) s.
Proof.
  intros Hp [Hh (history & Hpr & Hsn) _] Ha. unfold sendProbe.
  wp_step. wp_step. pose proof (pl_generate s.2) as Hg.
  destruct (generateProbePacket s.2) as [[n|e|] w1]; destruct Hg as (Hn1 & Hs1 & Hl1); cbn [fst snd];
    [|eapply at_probe_throw, (step_world i s (s.1, w1)); by auto|done].
  wp_step. eapply setProbe_wp; [done|]. cbn [fst snd].
  set (p1 := mkProbe _ _ _ _ _ _).
  assert (Hst : step i s ((set_probes (<[i:=p1]> (plist s)) s.1.1, s.1.2), w1) p p1 [])
    by (apply step_probe; auto).
  set (s1 := (_, _, w1)) in *. pose proof (step_now _ _ _ _ _ _ Hst) as Hp1.
  eapply wp_mono; [|intros o s'; by eapply at_probe_trans].
  wp_step. eapply probeAt_wp; [done|]. wp_step. wp_step.
  pose proof (pl_send (handle p1) (token p1) s1.2) as Hsend.
  destruct (sendProbePacket (handle p1) (token p1) s1.2) as [[r|e|] w2];
    destruct Hsend as (Hn2 & Hs2 & Ho2 & Hl2); cbn [fst snd];
    [|eapply at_probe_throw, (step_world i s1 (s1.1, w2)); by auto|done].
  assert (Hst2 : step i s1 (s1.1, w2) p1 p1 []).
  { by apply step_world. }
  eapply wp_mono; [|intros o s'; by eapply at_probe_trans].
  wp_step. apply validate_wp; [intros; by eapply at_probe_throw, step_refl|].
  wp_step; [wp_step; [by eapply at_probe_throw, step_refl|]|]; bool_to_prop.
  - apply completeProbeResult_at; [done|]. split_and!; [| |done].
    + eapply (finished_ok _ _ _ _ history); [done| |done]. cbn [snd]. rewrite Hl2.
      destruct (Z.leb_spec 0 (io_bytes r)); [lia|].
      eapply (probed_failure _ None). cbn [handle p1]. rewrite Hl1.
      unfold outstanding in Hpr. by rewrite Ha in Hpr.
    + unfold future, wakeup, p1. cbn. unfold kInterval, seconds. lia.
  - eapply setProbe_wp; [done|]. eapply at_probe_ret; [by apply step_probe|].
    cbn [fst snd]. split_and!; [| |done].
    + split; [done| |].
      * exists history. split; [|done]. cbn [handle set_awaiting outstanding awaitingReply token].
        unfold outstanding in *. cbn [awaitingReply set_awaiting token snd] in *. rewrite Ha in Hpr. rewrite Hl2.
        destruct (Z.leb_spec 0 (io_bytes r)); [|unfold kProbePacketSize in *; lia].
        cbn [handle p1]. rewrite Hl1. by constructor.
      * intros _. unfold p1. cbn. lia.
    + unfold future, wakeup, p1. cbn. unfold kTimeout, ms. lia.
Qed.

Lemma sendDueProbe_at t i s0 s p :
  plist s !! i = Some p -> probe_ok s0 s.2 p ->
  wp (sendDueProbe t i) (at_probe i p s (sent_result t s0 (lastReceiveEventCount_ s.1.1))) s.
Proof.
  intros Hp Hok. unfold sendDueProbe. wp_step. eapply probeAt_wp; [done|].
  wp_step; [by eapply at_probe_throw, step_refl|]. wp_step. wp_step.
  assert (Hrest : forall (s : st) p, plist s !! i = Some p -> probe_ok s0 s.2 p ->
     (awaitingReply p = true -> t < probeDeadline p) ->
     wp (probe <- probeAt i ;;
         (if awaitingReply probe || (t <? nextProbeTime probe) then mret tt else sendProbe t i))
       (at_probe i p s (sent_result t s0 (lastReceiveEventCount_ s.1.1))) s).
  { clear. intros s p Hp Hok Hlate. wp_step. eapply probeAt_wp; [done|]. wp_step.
    - wp_step. eapply at_probe_ret; [by eapply step_refl|]. split_and!; [done| |done].
      unfold future, wakeup. destruct (awaitingReply p); [auto|]. cbn in *. lia.
    - bool_to_prop. by apply sendProbe_at. }
  destruct (awaitingReply p && (probeDeadline p <=? t)) eqn:Hlate.
  - apply andb_true_iff in Hlate as [Ha Hd]. unfold wp at 1.
    rewrite (completeProbeResult_eq _ _ _ _ _ _ Hp). cbn [fst snd].
    pose proof (completed_step i false (bs "timeout") ETIMEDOUT s p Hp) as Hst.
    set (s1 := (_, _, s.2)) in *.
    apply (wp_mono _ (at_probe i (finished false p) s1 (sent_result t s0 (lastReceiveEventCount_ s1.1.1))));
      [|intros o s'; by eapply at_probe_trans].
    apply Hrest; [by eapply step_now|cbn [snd]|done].
    destruct Hok as [Hh (history & Hpr & Hsn) _]. eapply finished_ok; [done| |done].
    by eapply probed_failure.
  - apply Hrest; [done|done|]. intros Ha. rewrite Ha in Hlate. cbn in Hlate. lia.
Qed.

(** ** Receiving *)

Definition received_result (t : Z) (s0 : ProbeSnapshot) (p : Probe) (n : Z)
    (a : unit + unit) (p' : Probe) (s' : st) : Prop :=
  probe_ok s0 s'.2 p' /\ (future t p -> future t p') /\
  n <= lastReceiveEventCount_ s'.1.1 <= kReceiveBudget /\
  (a = inl tt -> n < lastReceiveEventCount_ s'.1.1).

(** A probe that was awaiting a reply and is done stays scheduled. *)
Lemma finished_future t s0 w success p :
  probe_ok s0 w p -> awaitingReply p = true -> future t p -> future t (finished success p).
Proof.
  intros [_ _ Hs] Ha. unfold future, wakeup. cbn. rewrite Ha, (Hs Ha).
  unfold kInterval, kTimeout, seconds, ms. lia.
Qed.

#[local] Ltac settle :=
  split_and!; cbn [fst snd lastReceiveEventCount_ set_probes]; try done; auto with lia.

(** What follows a received result [r] with the buffer [reply], once the event
    is counted. *)
Definition receivedDecision (t : Z) (i : nat) (p : Probe) (r : ProbeIoResult) (reply : packet)
    (wouldBlock : bool) : M st (unit + unit) :=
  completedAt <- outside (nowAtCompletion t) ;;
  if completedAt <? t then mthrow (RuntimeError (bs "probe completion clock moved backwards"))
  else if probeDeadline p <=? completedAt then
    completeProbeResult i false (bs "timeout") ETIMEDOUT ;;; mret (inr tt)
  else if wouldBlock then mret (inr tt)
  else if io_bytes r <? 0 then
    if io_error r =? EINTR then mret (inl tt)
    else completeProbeResult i false (errorReason (io_error r)) (io_error r) ;;; mret (inr tt)
  else
    mwhen ((io_bytes r =? Z.of_nat kProbePacketSize) &&
           bool_decide (token p = take kProbePacketSize reply))
      (completeProbeResult i true (bs "success") 0) ;;;
    mret (inl tt).

Lemma completed_then i p s success reason error {A} (a : A) (Q : A -> Probe -> st -> Prop) :
  plist s !! i = Some p ->
  Q a (finished success p) ((set_probes (<[i := finished success p]> (plist s)) s.1.1,
                             s.1.2 ++ reported success reason error p), s.2) ->
  wp (completeProbeResult i success reason error ;;; mret a) (at_probe i p s Q) s.
Proof.
  intros Hp HQ. wp_step. unfold wp at 1. rewrite (completeProbeResult_eq _ _ _ _ _ _ Hp). cbn [fst snd].
  wp_step. eapply at_probe_ret; [by apply completed_step|done].
Qed.

Lemma receivedDecision_at t i s0 s p r reply wouldBlock history before n :
  plist s !! i = Some p -> 0 <= handle p -> awaitingReply p = true ->
  probed before (Some (token p)) history -> snapshot p = foldr countResult s0 history ->
  nextProbeTime p = probeDeadline p + (kInterval - kTimeout) ->
  plog s.2 (handle p) = (if 0 <=? io_bytes r then before ++ [PReceived (io_bytes r) reply] else before) ->
  (wouldBlock = true -> io_bytes r < 0) ->
  n <= lastReceiveEventCount_ s.1.1 <= kReceiveBudget ->
  (wouldBlock = false -> n < lastReceiveEventCount_ s.1.1) ->
  wp (receivedDecision t i p r reply wouldBlock) (at_probe i p s (received_result t s0 p n)) s.
Proof.
  intros Hp Hh Ha Hpr Hsn Hnext Hlog Hwb Hcount Hless. unfold receivedDecision.
  wp_step. wp_step. pose proof (pl_completion t s.2) as Hc.
  destruct (nowAtCompletion t s.2) as [[at_|e|] w1]; destruct Hc as (Hn1 & Hs1 & Hl1); cbn [fst snd];
    [|eapply at_probe_throw, (step_world i s (s.1, w1)); by auto|done].
  assert (Hst : step i s (s.1, w1) p p []) by by apply step_world.
  eapply wp_mono; [|intros o s'; by eapply at_probe_trans].
  assert (Hfail : probe_ok s0 w1 (finished false p)).
  { apply (finished_ok _ _ _ _ history); [done| |done]. rewrite Hl1, Hlog.
    destruct (0 <=? io_bytes r); [by eapply probed_late|by eapply probed_failure]. }
  assert (Hfuture : forall success, future t p -> future t (finished success p)).
  { intros success. unfold future, wakeup. cbn. rewrite Ha, Hnext.
    unfold kInterval, kTimeout, seconds, ms. lia. }
  assert (Hsame : (if 0 <=? io_bytes r then before ++ [PReceived (io_bytes r) reply] else before) = before ->
    probe_ok s0 w1 p).
  { intros He. split; [done| |done]. exists history. split; [|done].
    unfold outstanding. by rewrite Ha, Hl1, Hlog, He. }
  wp_step; [by eapply at_probe_throw, step_refl|].
  wp_step; [apply completed_then; [done|]; by settle|].
  wp_step.
  { wp_step. eapply at_probe_ret; [by apply step_refl|]. settle.
    apply Hsame. destruct (Z.leb_spec 0 (io_bytes r)); [|done]. specialize (Hwb eq_refl). lia. }
  wp_step.
  { assert (Hneg : (0 <=? io_bytes r) = false) by (bool_to_prop; lia). rewrite Hneg in Hsame.
    wp_step.
    - wp_step. eapply at_probe_ret; [by apply step_refl|]. by settle.
    - apply completed_then; [done|]. by settle. }
  assert (Hpos : (0 <=? io_bytes r) = true) by (bool_to_prop; lia). rewrite Hpos in Hlog.
  wp_step. wp_step. destruct (_ && _) eqn:Hecho.
  - apply andb_true_iff in Hecho as [Hlen Htoken]. bool_to_prop.
    unfold wp at 1. rewrite (completeProbeResult_eq i _ _ _ (s.1, w1) p Hp). cbn [fst snd].
    wp_step. eapply at_probe_ret; [by apply (completed_step i true _ _ (s.1, w1))|]. settle.
    apply (finished_ok _ _ _ _ history); [done| |done]. cbn [snd]. rewrite Hl1, Hlog.
    rewrite Hlen. by eapply probed_echo.
  - wp_step. eapply at_probe_ret; [by apply step_refl|]. settle.
    split; [done| |done]. exists history. split; [|done]. unfold outstanding. rewrite Ha, Hl1, Hlog.
    apply probed_other; [done|]. bool_to_prop. destruct Hecho as [?|?]; bool_to_prop; auto.
Qed.

Lemma receiveTurn_at t i s0 s p :
  plist s !! i = Some p -> probe_ok s0 s.2 p -> lastReceiveEventCount_ s.1.1 <= kReceiveBudget ->
  wp (receiveTurn t i)
    (at_probe i p s (received_result t s0 p (lastReceiveEventCount_ s.1.1))) s.
Proof.
  intros Hp Hok Hcount. unfold receiveTurn. wp_step. eapply probeAt_wp; [done|]. wp_step. wp_step. wp_step.
  { wp_step. eapply at_probe_ret; [by apply step_refl|]. by settle. }
  apply negb_false_iff, andb_true_iff in Heqb as [Ha Hroom]. apply Z.ltb_lt in Hroom.
  wp_step. wp_step. pose proof (pl_receive (handle p) s.2) as Hr.
  destruct (receiveProbePacket (handle p) s.2) as [[[r reply]|e|] w1];
    destruct Hr as (Hn1 & Hs1 & Ho1 & Hl1); cbn [fst snd];
    [|eapply at_probe_throw, (step_world i s (s.1, w1)); by auto|done].
  destruct Hok as [Hh (history & Hpr & Hsn) Hnext]. unfold outstanding in Hpr. rewrite Ha in Hpr.
  assert (Hst : step i s (s.1, w1) p p []) by by apply step_world.
  wp_step. apply validate_wp; [intros; by eapply at_probe_throw|].
  set (wouldBlock := (io_bytes r <? 0) && _).
  wp_step. wp_step. wp_step; [wp_step|]; cbn [fst snd];
    (eapply wp_mono;
     [eapply (receivedDecision_at t i s0 _ p r reply wouldBlock history (plog s.2 (handle p)));
        cbn [fst snd lastReceiveEventCount_ set_eventCount]; try done; auto with lia|]);
    try (intros o s'; eapply at_probe_trans; by apply step_world).
  all: try (unfold wouldBlock; intros [Hb _]%andb_true_iff; by apply Z.ltb_lt).
  all: try lia; intros Hb; rewrite Hb in Heqb; done.
Qed.

Definition replies_result (t : Z) (s0 : ProbeSnapshot) (p : Probe) (_ : unit) (p' : Probe) (s' : st)
    : Prop :=
  probe_ok s0 s'.2 p' /\ (future t p -> future t p') /\
  0 <= lastReceiveEventCount_ s'.1.1 <= kReceiveBudget.

Lemma receiveReplies_at t i s0 s p :
  plist s !! i = Some p -> probe_ok s0 s.2 p -> 0 <= lastReceiveEventCount_ s.1.1 <= kReceiveBudget ->
  wp (receiveReplies t i) (at_probe i p s (replies_result t s0 p)) s.
Proof.
  intros Hp Hok Hcount. unfold receiveReplies.
  assert (Hfuel : kReceiveBudget - lastReceiveEventCount_ s.1.1 <
                  Z.of_nat (S (Z.to_nat kReceiveBudget))) by lia.
  generalize dependent (S (Z.to_nat kReceiveBudget)). intros fuel. revert s p Hp Hok Hcount.
  induction fuel as [|fuel IH]; intros s p Hp Hok Hcount Hfuel; cbn [mloop]; [lia|].
  wp_step. eapply wp_mono; [eapply receiveTurn_at; [done|done|lia]|].
  intros o s1 (Hn & p1 & new & Hst & Hret). pose proof (step_now _ _ _ _ _ _ Hst) as Hp1.
  destruct o as [[[]|[]]|e|]; [| |by eapply at_probe_throw|done].
  - destruct (Hret _ eq_refl) as (Hok1 & Hf1 & Hc1 & Hlt). specialize (Hlt eq_refl).
    eapply wp_mono; [apply (IH s1 p1); [done|done|lia|lia]|].
    intros o s' (Hn' & p' & new' & Hst' & Hret'). split; [done|]. eexists p', _.
    split; [by eapply step_trans|]. intros a ->. destruct (Hret' a eq_refl) as (? & ? & ?).
    split_and!; auto; lia.
  - destruct (Hret _ eq_refl) as (Hok1 & Hf1 & Hc1 & _). wp_step. eapply at_probe_ret; [done|].
    split_and!; [done|done|lia|lia].
Qed.

(** ** The whole checker *)

(** [imports] are the snapshots the probes started with. *)
Record checker_ok (imports : list ProbeSnapshot) (base : gset Z) (s : st) : Prop := {
  co_probes : Forall2 (fun s0 p => probe_ok s0 s.2 p) imports (plist s);
  co_sockets : sockets_ok base (plist s) s.2;
  co_ids : NoDup ((fun p => id (target (snapshot p))) <$> plist s);
  co_cursor : 0 <= receiveCursor_ s.1.1
}.

(** Every probe keeps its target and socket, and its new transitions lead from
    its old state to its new state. *)
Definition moved (s s' : st) : Prop :=
  length (plist s') = length (plist s) /\
  exists new, s'.1.2 = s.1.2 ++ new /\
    forall i p, plist s !! i = Some p -> exists p', plist s' !! i = Some p' /\
      target (snapshot p') = target (snapshot p) /\ handle p' = handle p /\
      chain (id (target (snapshot p))) (state (snapshot p))
        (filter (fun t => pt_id t = id (target (snapshot p))) new) (state (snapshot p')).

Definition polled (imports : list ProbeSnapshot) (base : gset Z) (s : st) A (o : outcome A) (s' : st)
    : Prop :=
  o <> Diverge /\ sockets_ok base (plist s') s'.2 /\ moved s s' /\
  (forall a, o = Ret a -> checker_ok imports base s').

Lemma moved_refl s : moved s s.
Proof.
  split; [done|]. exists []. split; [by rewrite app_nil_r|]. intros i p Hp. exists p.
  split_and!; try done. constructor.
Qed.

Lemma moved_trans s s' s'' : moved s s' -> moved s' s'' -> moved s s''.
Proof.
  intros [Hl (new & Ht & Hc)] [Hl' (new' & Ht' & Hc')]. split; [congruence|].
  exists (new ++ new'). split; [by rewrite Ht', Ht, app_assoc|]. intros i p Hp.
  destruct (Hc i p Hp) as (p' & Hp' & Htg & Hh & Hch).
  destruct (Hc' i p' Hp') as (p'' & Hp'' & Htg' & Hh' & Hch'). rewrite Htg in Hch'.
  exists p''. split_and!; [done|congruence|congruence|]. rewrite filter_app. by eapply chain_app.
Qed.

Lemma polled_composes imports base : composes (polled imports base).
Proof.
  split_and!.
  - intros s A B a o s' s'' (_ & _ & Hm & _) (Hn & Hs & Hm' & Hr). split_and!; try done.
    by eapply moved_trans.
  - intros s A B e s' (_ & Hs & Hm & _). by split_and!.
  - by intros s A s' [? _].
Qed.

Lemma open_handles_step l i p p' :
  l !! i = Some p -> handle p' = handle p -> open_handles (<[i := p']> l) = open_handles l.
Proof.
  intros Hp Hh. unfold open_handles. f_equal. rewrite list_fmap_insert. apply list_insert_id.
  by rewrite list_lookup_fmap, Hp, Hh.
Qed.

Lemma step_sockets i s s' p p' new base :
  step i s s' p p' new -> sockets_ok base (plist s) s.2 -> sockets_ok base (plist s') s'.2.
Proof.
  intros [Hp Hl _ Hh _ _ _ Hs _] [Hn Ho Hd].
  assert (He : open_handles (plist s') = open_handles (plist s)) by (rewrite Hl; by eapply open_handles_step).
  by split; rewrite He, ?Hs.
Qed.

Lemma step_moved i s s' p p' new :
  step i s s' p p' new -> NoDup ((fun p => id (target (snapshot p))) <$> plist s) -> moved s s'.
Proof.
  intros [Hp Hl _ Hh Htg Hts Hch _ _] Hids. split; [by rewrite Hl, length_insert|].
  exists new. split; [done|]. intros j q Hq. rewrite Hl. destruct (decide (j = i)) as [->|Hne].
  - simplify_eq. exists p'. rewrite list_lookup_insert_eq by (by eapply lookup_lt_Some).
    split_and!; try done. rewrite (list_filter_all _ new); [done|].
    by apply chain_ids in Hch.
  - exists q. rewrite list_lookup_insert_ne by done. split_and!; try done.
    rewrite (list_filter_none _ new); [constructor|].
    apply chain_ids in Hch. eapply Forall_impl; [exact Hch|]. cbn. intros x Hx Hx'. apply Hne.
    eapply NoDup_lookup; [exact Hids| |]; rewrite list_lookup_fmap; [by rewrite Hq|].
    rewrite Hp. cbn. congruence.
Qed.

Lemma handles_distinct imports base s i j p q :
  checker_ok imports base s -> plist s !! i = Some p -> plist s !! j = Some q ->
  handle p = handle q -> i = j.
Proof.
  intros [Hpr [Hn _ _] _ _] Hp Hq Hh.
  assert (He : open_handles (plist s) = handle <$> plist s).
  { apply list_filter_all, Forall_fmap, Forall_forall. intros x Hx.
    apply list_elem_of_lookup in Hx as [k Hk].
    destruct (Forall2_lookup_r _ _ _ _ _ Hpr Hk) as (s0 & _ & [Hpos _ _]). done. }
  rewrite He in Hn. eapply NoDup_lookup; [exact Hn| |]; rewrite list_lookup_fmap; [by rewrite Hp|].
  by rewrite Hq, Hh.
Qed.

Lemma step_checker imports base i s0 s s' p p' new :
  checker_ok imports base s -> imports !! i = Some s0 -> step i s s' p p' new ->
  probe_ok s0 s'.2 p' -> checker_ok imports base s'.
Proof.
  intros Hok Hs0 Hst Hp'. pose proof (step_sockets _ _ _ _ _ _ base Hst) as Hsock.
  pose proof (fun j q => handles_distinct _ _ _ j i q p Hok) as Hdist.
  destruct Hok as [Hpr Hs Hids Hcur]. destruct Hst as [Hp Hl Hc Hh Htg Hts _ _ Hlog]. split.
  - rewrite Hl. apply Forall2_same_length_lookup_2.
    { rewrite length_insert. by eapply Forall2_length. }
    intros j s0' q Hj Hq. destruct (decide (j = i)) as [->|Hne].
    + rewrite list_lookup_insert_eq in Hq by (by eapply lookup_lt_Some). by simplify_eq.
    + rewrite list_lookup_insert_ne in Hq by done.
      destruct (Forall2_lookup_lr _ _ _ _ _ _ Hpr Hj Hq) as [K1 K2 K3].
      split; [done| |done]. rewrite Hlog; [done|]. intros Heq. apply Hne. by apply (Hdist j q).
  - by apply Hsock.
  - rewrite Hl, list_fmap_insert, list_insert_id; [done|]. by rewrite list_lookup_fmap, Hp, Htg.
  - by rewrite Hc.
Qed.

Lemma at_polled imports base i s0 s p {A} (Q : A -> Probe -> st -> Prop) o s' :
  checker_ok imports base s -> imports !! i = Some s0 -> at_probe i p s Q o s' ->
  (forall a p', Q a p' s' -> probe_ok s0 s'.2 p') -> polled imports base s A o s'.
Proof.
  intros Hok Hs0 (Hn & p' & new & Hst & Hret) HQ. split; [done|].
  split; [by eapply step_sockets, co_sockets|]. split; [by eapply step_moved, co_ids|].
  intros a ->. eapply step_checker; eauto.
Qed.

(** ** The two phases of a poll *)

Lemma checker_lookup imports base s i :
  checker_ok imports base s -> (i < length (plist s))%nat ->
  exists p s0, plist s !! i = Some p /\ imports !! i = Some s0 /\ probe_ok s0 s.2 p.
Proof.
  intros [Hpr _ _ _] [p Hp]%lookup_lt_is_Some_2.
  destruct (Forall2_lookup_r _ _ _ _ _ Hpr Hp) as (s0 & ? & ?). by exists p, s0.
Qed.

Lemma polled_refl imports base s {A} (a : A) : checker_ok imports base s -> polled imports base s A (Ret a) s.
Proof. intros Hok. split_and!; [done|apply Hok|apply moved_refl|done]. Qed.
Lemma polled_throw imports base s {A} e : checker_ok imports base s -> polled imports base s A (Throw e) s.
Proof. intros Hok. split_and!; [done|apply Hok|apply moved_refl|done]. Qed.

Lemma polled_after imports base s s1 {A} (o : outcome A) s' :
  moved s s1 -> polled imports base s1 A o s' -> polled imports base s A o s'.
Proof. intros Hm (Hn & Hs & Hm' & Hr). split_and!; try done. by eapply moved_trans. Qed.

Lemma sendDueProbePackets_polled t imports base s :
  checker_ok imports base s ->
  wp (sendDueProbePackets t)
    (fun o s' => polled imports base s unit o s' /\
       (o = Ret tt -> Forall (future t) (plist s') /\
          lastReceiveEventCount_ s'.1.1 = lastReceiveEventCount_ s.1.1)) s.
Proof.
  intros Hok. unfold sendDueProbePackets. wp_step. wp_step.
  set (I := fun k s' => moved s s' /\ checker_ok imports base s' /\
    lastReceiveEventCount_ s'.1.1 = lastReceiveEventCount_ s.1.1 /\
    forall j p, (j < k)%nat -> plist s' !! j = Some p -> future t p).
  apply (wp_for_seq _ _ I).
  - split_and!; [apply moved_refl|done|done|lia].
  - intros k s1 Hk (Hm & Hok1 & Hc1 & Hf1).
    destruct (checker_lookup _ _ s1 k Hok1) as (p & s0 & Hp & Hs0 & Hpok); [by rewrite (proj1 Hm)|].
    eapply wp_mono; [by eapply sendDueProbe_at|]. intros o s2 Hat.
    assert (Hpol : polled imports base s1 unit o s2).
    { eapply at_polled; [done|done|done|]. by intros a p' [? _]. }
    destruct o as [[]|e|].
    + destruct Hat as (_ & p' & new & Hst & Hret). destruct (Hret tt eq_refl) as (_ & Hf & Hc).
      destruct Hpol as (_ & _ & Hm2 & Hok2). split_and!; [by eapply moved_trans|by eapply Hok2|congruence|].
      intros j q Hj Hq. rewrite (st_after _ _ _ _ _ _ Hst) in Hq.
      destruct (decide (j = k)) as [->|Hne].
      * rewrite list_lookup_insert_eq in Hq by (by eapply lookup_lt_Some, st_before). by simplify_eq.
      * rewrite list_lookup_insert_ne in Hq by done. eapply (Hf1 j); [lia|done].
    + split; [by eapply polled_after|done].
    + by destruct Hpol.
  - intros s' (Hm & Hok' & Hc & Hf). split; [eapply polled_after; [done|by apply polled_refl]|].
    intros _. split; [|done]. apply Forall_lookup. intros j p Hp. apply (Hf j); [|done].
    rewrite <-(proj1 Hm). by eapply lookup_lt_Some.
Qed.

Definition counted (s : st) : Prop := 0 <= lastReceiveEventCount_ s.1.1 <= kReceiveBudget.

Lemma receiveFrom_polled t offsets imports base s :
  checker_ok imports base s -> counted s -> Forall (fun o => (o < length (plist s))%nat) offsets ->
  wp (receiveFrom t offsets)
    (fun o s' => polled imports base s unit o s' /\
       (o = Ret tt -> counted s' /\ (Forall (future t) (plist s) -> Forall (future t) (plist s')))) s.
Proof.
  revert s. induction offsets as [|offset offsets IH]; intros s Hok Hcount Hoff; cbn [receiveFrom].
  { wp_step. split; [by apply polled_refl|done]. }
  apply Forall_cons in Hoff as [Hlt Hoff]. wp_step. wp_step. wp_step.
  2: { wp_step. split; [by apply polled_refl|done]. }
  set (i := Z.to_nat _).
  assert (Hi : (i < length (plist s))%nat).
  { subst i. unfold len. pose proof (Z.mod_pos_bound (receiveCursor_ s.1.1 + Z.of_nat offset)
      (Z.of_nat (length (plist s)))). lia. }
  destruct (checker_lookup _ _ s i Hok Hi) as (p & s0 & Hp & Hs0 & Hpok).
  wp_step. eapply wp_mono; [by eapply receiveReplies_at|]. intros o s1 Hat.
  assert (Hpol : polled imports base s unit o s1).
  { eapply at_polled; [done|done|done|]. by intros a p' [? _]. }
  destruct o as [[]|e|]; [|by split|by destruct Hpol].
  destruct Hat as (_ & p' & new & Hst & Hret). destruct (Hret tt eq_refl) as (_ & Hf & Hc).
  destruct Hpol as (_ & _ & Hm & Hok1). specialize (Hok1 tt eq_refl).
  eapply wp_mono; [apply IH; [done|done|]|].
  { eapply Forall_impl; [exact Hoff|]. cbn. intros x Hx. by rewrite (proj1 Hm). }
  intros o s' [Hpol' Hr']. split; [by eapply polled_after|]. intros Ho.
  destruct (Hr' Ho) as [Hc' Hf']. split; [done|]. intros Hall. apply Hf'.
  rewrite (st_after _ _ _ _ _ _ Hst). apply Forall_insert; [done|]. apply Hf.
  by eapply Forall_lookup_1, st_before.
Qed.

Lemma receivePendingProbeReplies_polled t imports base s :
  checker_ok imports base s -> counted s ->
  wp (receivePendingProbeReplies t)
    (fun o s' => polled imports base s unit o s' /\
       (o = Ret tt -> counted s' /\ (Forall (future t) (plist s) -> Forall (future t) (plist s')))) s.
Proof.
  intros Hok Hcount. unfold receivePendingProbeReplies. wp_step. wp_step. wp_step.
  eapply wp_mono; [apply receiveFrom_polled; [done|done|]|].
  { apply Forall_seq. lia. }
  intros [[]|e|] s1 [Hpol Hr]; [|by split|by destruct Hpol].
  destruct (Hr eq_refl) as [Hc Hf]. wp_step. destruct (negb _) eqn:Hz; [|by split].
  wp_step. destruct Hpol as (_ & Hs & Hm & Hok1). specialize (Hok1 tt eq_refl).
  split; [|done]. split_and!; [done|done|done|]. intros _ _. destruct Hok1 as [K1 K2 K3 K4].
  split; [done|done|done|]. cbn. apply Z.mod_pos_bound. apply negb_true_iff, Nat.eqb_neq in Hz. lia.
Qed.

(** A poll of a live checker, before the cleanup of a failure. *)
Lemma pollBody_polled t imports base s :
  checker_ok imports base s ->
  wp (pollBody t)
    (fun o s' => polled imports base s unit o s' /\
       (o = Ret tt -> counted s' /\ Forall (future t) (plist s'))) s.
Proof.
  intros Hok. unfold pollBody. wp_step. wp_step. wp_step.
  { wp_step. split; [by apply polled_throw|done]. }
  wp_step. wp_step. set (s1 := ((mkUdpProbeChecker _ _ _ _ _, _), _)).
  assert (Hok1 : checker_ok imports base s1) by (destruct Hok; by split).
  assert (Hm1 : moved s s1) by exact (moved_refl s).
  wp_step. eapply wp_mono; [by apply sendDueProbePackets_polled|].
  intros [[]|e|] s2 [Hpol2 Hr2]; [|split; [by eapply polled_after|done]|by destruct Hpol2].
  destruct (Hr2 eq_refl) as [Hf2 Hc2]. destruct Hpol2 as (_ & _ & Hm2 & Hok2).
  specialize (Hok2 tt eq_refl).
  eapply wp_mono; [apply receivePendingProbeReplies_polled; [done|]|].
  { unfold counted. rewrite Hc2. cbn. unfold kReceiveBudget. lia. }
  intros o s3 [Hpol3 Hr3]. split; [apply (polled_after _ _ s s2); [by apply (moved_trans s s1)|done]|].
  intros Ho. destruct (Hr3 Ho) as [? Hff]. split; [done|by apply Hff].
Qed.
End checker.
