(* ===== verification/UdpProbeTheorems.v ===== *)
(** * What the UDP probe checker guarantees

    Construction, the history of results behind every state, polling, and the
    uniqueness of the nonces; the sockets of the source implement the interface
    of the checker, and a scripted network instantiates the theorems. *)
From S2P Require Import Prelude HealthState UdpProbe UdpProbeSafety.

(** ** Construction and polls *)

(** The snapshot as the state machine of [HealthState]. *)
Definition healthOf (s : ProbeSnapshot) : HealthState :=
  mkHealthState (state s) (consecutiveSuccesses s) (consecutiveFailures s).

Lemma countResult_health r s : healthOf (countResult r s) = (applyProbeResult (healthOf s) r).2.
Proof. by destruct r. Qed.

Lemma countResult_history history s :
  healthOf (foldr countResult s history) =
  foldr (fun r h => (applyProbeResult h r).2) (healthOf s) history.
Proof. induction history as [|r l IH]; [done|]. cbn [foldr]. by rewrite countResult_health, IH. Qed.

Lemma validTargets_ids ids targets :
  validTargets ids targets = true ->
  NoDup (id <$> targets) /\ forall t, t ∈ targets -> (id t ∉ ids).
Proof.
  revert ids. induction targets as [|t targets IH]; intros ids; cbn; [by split; [constructor|set_solver]|].
  intros [Ht Hv]%andb_true_iff. apply IH in Hv as [Hn Hout].
  assert (Hnew : id t ∉ ids).
  { unfold invalidTarget in Ht. rewrite !negb_orb in Ht. bool_to_prop. done. }
  split.
  - constructor; [|done]. intros (u & Heq & Hu)%list_elem_of_fmap. apply (Hout u Hu). set_solver.
  - intros u [->|Hu]%elem_of_cons; [done|]. apply Hout in Hu. set_solver.
Qed.

Lemma importSnapshot_target t previous s : importSnapshot t previous = Ret s -> target s = t.
Proof.
  induction previous as [|old previous IH]; cbn; [by intros [= <-]|].
  destruct (sameProbeIdentity _ _); cbn; [|done].
  by destruct (_ || _); [|intros [= <-]].
Qed.

Lemma importSnapshot_returns t previous : importSnapshot t previous <> Diverge.
Proof.
  induction previous as [|old previous IH]; cbn; [done|].
  destruct (sameProbeIdentity _ _); cbn; [|done]. by destruct (_ || _).
Qed.

Section theorems.
Context {W : Type} `{ProbeLaws W}.

(** A probe as the constructor leaves it. *)
Record prepared (previous : list ProbeSnapshot) (w : W) (t : ProbeTarget) (p : Probe) : Prop := {
  pp_handle : 0 <= handle p;
  pp_open : handle p ∈ psockets w;
  pp_idle : awaitingReply p = false;
  pp_log : plog w (handle p) = [];
  pp_snapshot : importSnapshot t previous = Ret (snapshot p)
}.

Lemma open_handles_app (l k : list Probe) : open_handles (l ++ k) = open_handles l ++ open_handles k.
Proof. unfold open_handles. by rewrite fmap_app, filter_app. Qed.

(** One more probe with its new socket. *)
Lemma sockets_ok_snoc base l (w w' : W) p :
  sockets_ok base l w -> 0 <= handle p -> (handle p ∉ psockets w) ->
  psockets w' = ({[handle p]} ∪ psockets w) -> sockets_ok base (l ++ [p]) w'.
Proof.
  intros [Hn Ho Hd] Hpos Hnew Hw'.
  assert (He : open_handles (l ++ [p]) = open_handles l ++ [handle p]).
  { rewrite open_handles_app, (open_handles_cons p []).
    by destruct (Z.leb_spec 0 (handle p)); [|lia]. }
  split; rewrite He.
  - apply NoDup_app. split_and!; [done|set_solver|]. apply NoDup_singleton.
  - rewrite Hw', Ho, list_to_set_app_L. set_solver.
  - rewrite list_to_set_app_L. set_solver.
Qed.

Lemma sockets_ok_idle base l (w w' : W) p :
  sockets_ok base l w -> handle p < 0 -> psockets w' = psockets w -> sockets_ok base (l ++ [p]) w'.
Proof.
  intros [Hn Ho Hd] Hneg Hw'.
  assert (He : open_handles (l ++ [p]) = open_handles l).
  { rewrite open_handles_app, (open_handles_cons p []).
    destruct (Z.leb_spec 0 (handle p)); [lia|]. apply app_nil_r. }
  split; rewrite He; [done|by rewrite Hw'|done].
Qed.

Lemma alter_last {A} (f : A -> A) l (x : A) :
  alter f (pred (length (l ++ [x]))) (l ++ [x]) = l ++ [f x].
Proof.
  rewrite length_app. cbn. replace (pred (length l + 1)) with (length l + 0)%nat by lia.
  rewrite (alter_at f _ _ x); [|by rewrite lookup_app_r, Nat.add_sub' by lia].
  by rewrite insert_app_r.
Qed.

Lemma prepareProbe_spec previous base targets t c w :
  Forall2 (prepared previous w) targets (probes_ c) -> sockets_ok base (probes_ c) w ->
  wp (prepareProbe previous t)
    (fun o s' => o <> Diverge /\ sockets_ok base (probes_ s'.1) s'.2 /\
       forall a, o = Ret a -> Forall2 (prepared previous s'.2) (targets ++ [t]) (probes_ s'.1) /\
         receiveCursor_ s'.1 = receiveCursor_ c) (c, w).
Proof.
  intros Hall Hs. unfold prepareProbe. wp_step. wp_step.
  destruct (importSnapshot t previous) as [s|e|] eqn:Himp;
    [|by split_and!|by apply importSnapshot_returns in Himp].
  wp_step. wp_step. wp_step. wp_step. cbn [fst snd probes_ set_probes].
  pose proof (pl_open t w) as Ho. destruct (openProbeSocket t w) as [[h|e|] w1]; cbn [fst snd]; [| |done].
  2: { split_and!; [done| |done]. apply (sockets_ok_idle base _ w); [done|cbn; lia|apply Ho]. }
  wp_step. wp_step. cbn [fst snd probes_ set_probes]. rewrite alter_last.
  destruct (Z.leb_spec 0 h).
  - destruct Ho as (Hnew & Hopen & Hlog & Hother).
    assert (Hs' : sockets_ok base (probes_ c ++ [set_handle h (mkProbe s (-1) false zeroPacket 0 0)]) w1)
      by by eapply sockets_ok_snoc.
    wp_step; [lia|]. wp_step. split_and!; [done|done|]. intros _ _. split; [|done]. cbn [fst snd probes_ set_probes].
    apply Forall2_app.
    + eapply Forall2_impl; [exact Hall|]. intros t' p [P1 P2 P3 P4 P5]. split; try done; [set_solver|].
      rewrite Hother; [done|]. by intros <-.
    + constructor; [|done]. split; cbn; try done. set_solver.
  - wp_step; [|lia]. wp_step. split_and!; [done| |done]. cbn.
    apply (sockets_ok_idle base _ w); [done|done|apply Ho].
Qed.

(** A construction either gives a checker with one open socket per target and
    the imported states, or closes every socket it opened. *)
Lemma newUdpProbeChecker_spec targets previous w :
  match newUdpProbeChecker targets previous w with
  | (Ret c, w') =>
      checker_ok (snapshot <$> probes_ c) (psockets w) ((c, []), w') /\
      target <$> (snapshot <$> probes_ c) = targets /\ len targets <= 64 /\
      Forall2 (fun t p => importSnapshot t previous = Ret (snapshot p)) targets (probes_ c)
  | (Throw _, w') => psockets w' = psockets w
  | (Diverge, _) => False
  end.
Proof.
  unfold newUdpProbeChecker. destruct (Z.ltb_spec 64 (len targets)); [done|].
  destruct (validTargets [] targets) eqn:Hv; [cbn [negb]|done].
  apply validTargets_ids in Hv as [Hids _].
  set (I := fun k (s' : UdpProbeChecker * W) => Forall2 (prepared previous s'.2) (take k targets) (probes_ s'.1) /\
    sockets_ok (psockets w) (probes_ s'.1) s'.2 /\ receiveCursor_ s'.1 = 0).
  set (Q := fun (o : outcome unit) (s' : UdpProbeChecker * W) => match o with
    | Ret _ => I (length targets) s'
    | Throw _ => sockets_ok (psockets w) (probes_ s'.1) s'.2
    | Diverge => False end).
  assert (Hloop : wp (mfor targets (prepareProbe previous)) Q (emptyChecker, w)).
  { assert (Hgen : forall rest done_ s', targets = done_ ++ rest -> I (length done_) s' ->
       wp (mfor rest (prepareProbe previous)) Q s').
    { induction rest as [|t rest IH]; intros done_ [c' w'] Ht Hi; cbn [mfor].
      - wp_step. rewrite app_nil_r in Ht. by subst done_.
      - wp_step. destruct Hi as (Hall & Hs & Hcur). cbn [fst snd] in *.
        rewrite Ht, take_app_length in Hall.
        eapply wp_mono; [by apply prepareProbe_spec|]. intros [[]|e|] s2 (Hn & Hs2 & Hr); [|done|done].
        destruct (Hr tt eq_refl) as [Hall2 Hcur2].
        assert (Ht' : targets = (done_ ++ [t]) ++ rest) by (by rewrite Ht, <-app_assoc).
        apply (IH (done_ ++ [t])); [done|].
        split_and!; [|done|congruence]. by rewrite Ht', take_app_length. }
    apply (Hgen targets []); [done|]. split_and!; [constructor| |done].
    split; cbn; [constructor|set_solver|set_solver]. }
  unfold orCancel, mcatch. unfold wp in Hloop.
  destruct (mfor targets (prepareProbe previous) (emptyChecker, w)) as [[[]|e|] [c w']]; cbn [fst snd Q] in Hloop.
  - destruct Hloop as (Hall & Hs & Hcur). rewrite firstn_all in Hall. cbn [fst snd] in *.
    assert (Htg : target <$> (snapshot <$> probes_ c) = targets).
    { clear -Hall. induction Hall as [|t p ts ps Hp _ IH]; [done|]. cbn. rewrite IH. f_equal.
      by eapply importSnapshot_target, pp_snapshot. }
    split_and!; [|done|done|].
    + split; [|done| |cbn; lia].
      * apply Forall2_fmap_l, Forall2_same_length_lookup_2; [done|]. intros i p q Hp Hq.
        assert (q = p) as -> by (cbn in Hq; congruence). cbn.
        destruct (Forall2_lookup_r _ _ _ _ _ Hall Hp) as (t & _ & [P1 P2 P3 P4 P5]).
        split; [done| |cbn; congruence]. exists []. cbn [snd]. rewrite P4. unfold outstanding. rewrite P3.
        split; [constructor|done].
      * rewrite <-Htg in Hids. by rewrite <-!list_fmap_compose in Hids.
    + eapply Forall2_impl; [exact Hall|]. intros t p Hp. apply Hp.
  - unfold cancelAllProbes. pose proof (cancelProbes_closes _ _ _ Hloop) as (Hc & _).
    cbn [fst snd]. destruct (cancelProbes (probes_ c) w') as [l w2]. exact Hc.
  - done.
Qed.

(** A checker from its construction through any number of polls that return;
    [imports] are the snapshots it started with, [base] the sockets that were
    open before. *)
Inductive checker_life : list ProbeSnapshot -> gset Z -> UdpProbeChecker * W -> Prop :=
| life_new targets previous w c w' :
    newUdpProbeChecker targets previous w = (Ret c, w') ->
    checker_life (snapshot <$> probes_ c) (psockets w) (c, w')
| life_poll imports base t s ts s' :
    checker_life imports base s -> pollProbeTransitions t s = (Ret ts, s') ->
    checker_life imports base s'.

Definition pollRun (t : Z) (s : UdpProbeChecker * W) := pollBody t ((s.1, []), s.2).

(** A poll is its body, with the cleanup when it throws. *)
Lemma pollProbeTransitions_body t imports base s :
  checker_ok imports base ((s.1, []), s.2) ->
  match pollProbeTransitions t s with
  | (Ret ts, s') => (pollRun t s).1 = Ret tt /\ (pollRun t s).2 = ((s'.1, ts), s'.2)
  | (Throw _, s') =>
      psockets s'.2 = base /\ Forall (fun p => handle p = -1 /\ awaitingReply p = false) (probes_ s'.1)
  | (Diverge, _) => False
  end.
Proof.
  intros Hok. pose proof (pollBody_polled t imports base _ Hok) as [(Hn & Hs & _ & _) _].
  unfold pollProbeTransitions, orCancel, mcatch, pollRun in *.
  destruct (pollBody t ((s.1, []), s.2)) as [[[]|e|] [[c ts] w]]; cbn [fst snd] in *; [done| |done].
  pose proof (cancelProbes_closes _ _ _ Hs) as (Hc & _ & _ & Hf). unfold cancelAllProbes.
  by destruct (cancelProbes (probes_ c) w) as [l w2].
Qed.

Lemma life_ok imports base s : checker_life imports base s -> checker_ok imports base ((s.1, []), s.2).
Proof.
  induction 1 as [targets previous w c w' Hnew|imports base t s ts s' _ IH Hpoll].
  - pose proof (newUdpProbeChecker_spec targets previous w) as Hs. rewrite Hnew in Hs. apply Hs.
  - pose proof (pollProbeTransitions_body t _ _ _ IH) as Hb. rewrite Hpoll in Hb. destruct Hb as [Ho Hb].
    pose proof (pollBody_polled t imports base _ IH) as [(_ & _ & _ & Hr) _]. unfold pollRun in *.
    specialize (Hr tt Ho). rewrite Hb in Hr. destruct Hr. by split.
Qed.

Lemma nextProbeWakeup_future t c :
  Forall (future t) (probes_ c) -> t < timePointMax -> t < nextProbeWakeup c.
Proof.
  unfold nextProbeWakeup. generalize timePointMax. generalize (probes_ c). intros l.
  induction l as [|p l IH]; intros m Hf Hm; [done|]. apply Forall_cons in Hf as [Hp Hf].
  cbn [foldl]. apply IH; [done|]. unfold future in Hp. lia.
Qed.

(** Construction is exception safe.  It refuses more than 64 targets and
    duplicate ids, and either gives one probe per target, in their order, with a
    socket of its own and the imported state, or leaves open exactly the sockets
    that were open before. *)
Theorem newUdpProbeChecker_exception_safe targets previous w :
  match newUdpProbeChecker targets previous w with
  | (Ret c, w') =>
      len targets <= 64 /\ target <$> copyProbeSnapshots c = targets /\ NoDup (id <$> targets) /\
      Forall2 (fun t p => importSnapshot t previous = Ret (snapshot p)) targets (probes_ c) /\
      NoDup (handle <$> probes_ c) /\
      psockets w' = psockets w ∪ list_to_set (handle <$> probes_ c)
  | (Throw _, w') => psockets w' = psockets w
  | (Diverge, _) => False
  end.
Proof.
  pose proof (newUdpProbeChecker_spec targets previous w) as Hs.
  destruct (newUdpProbeChecker targets previous w) as [[c|e|] w']; [|done|done].
  destruct Hs as ([Hpr [Hn Ho _] Hids _] & Htg & Hlen & Himp). cbn [fst snd] in *.
  assert (He : open_handles (probes_ c) = handle <$> probes_ c).
  { apply list_filter_all, Forall_fmap, Forall_forall. intros p Hp.
    apply list_elem_of_lookup in Hp as [i Hi].
    destruct (Forall2_lookup_r _ _ _ _ _ Hpr Hi) as (s0 & _ & [Hpos _ _]). done. }
  rewrite He in Hn, Ho. split_and!; try done.
  rewrite <-Htg, <-!list_fmap_compose. exact Hids.
Qed.

(** C23: the state of a target is what the events on its socket call for.  At
    every time of a checker's life there is a history of results that the
    datagrams sent and received on the probe's own socket account for (a success
    takes an exact echo of the nonce that is outstanding, and spends it), and
    the snapshot is the imported one after the health state machine was fed that
    history; so there are no more successes than probes sent. *)
Theorem udp_probe_history imports base s i p :
  checker_life imports base s -> probes_ s.1 !! i = Some p ->
  exists s0 history, imports !! i = Some s0 /\
    probed (plog s.2 (handle p)) (outstanding p) history /\
    healthOf (snapshot p) = foldr (fun r h => (applyProbeResult h r).2) (healthOf s0) history /\
    (length (filter (fun r => r = true) history) <= length (filter isSent (plog s.2 (handle p))))%nat.
Proof.
  intros Hlife Hp. destruct (life_ok _ _ _ Hlife) as [Hpr _ _ _].
  destruct (Forall2_lookup_r _ _ _ _ _ Hpr Hp) as (s0 & Hs0 & [_ (history & Hh & Hsn) _]).
  exists s0, history. split_and!; [done|done|by rewrite Hsn, countResult_history|].
  apply probed_successes in Hh. cbn [fst snd] in Hh. lia.
Qed.

(** C24: polling.  A poll returns or throws, on every network.  When it returns
    it handled at most 256 events, no probe needs attention before a time after
    the poll, and the transitions it reports for each target lead step by step
    from the state before to the state after the poll.  When it throws every
    socket of the checker is closed and no probe is outstanding. *)
Theorem pollProbeTransitions_outcome t imports base s :
  checker_life imports base s ->
  match pollProbeTransitions t s with
  | (Ret ts, s') =>
      checker_life imports base s' /\ lastReceiveEventCount_ s'.1 <= kReceiveBudget /\
      (t < timePointMax -> t < nextProbeWakeup s'.1) /\
      forall i p, probes_ s.1 !! i = Some p -> exists p', probes_ s'.1 !! i = Some p' /\
        target (snapshot p') = target (snapshot p) /\
        chain (id (target (snapshot p))) (state (snapshot p))
          (filter (fun x => pt_id x = id (target (snapshot p))) ts) (state (snapshot p'))
  | (Throw _, s') =>
      psockets s'.2 = base /\ Forall (fun p => handle p = -1 /\ awaitingReply p = false) (probes_ s'.1)
  | (Diverge, _) => False
  end.
Proof.
  intros Hlife. pose proof (life_ok _ _ _ Hlife) as Hok.
  pose proof (pollProbeTransitions_body t _ _ _ Hok) as Hb.
  pose proof (pollBody_polled t imports base _ Hok) as [(_ & _ & Hm & _) Hf].
  destruct (pollProbeTransitions t s) as [[ts|e|] s'] eqn:Hpoll; [|done|done].
  destruct Hb as [Ho Hb]. unfold pollRun in *. specialize (Hf Ho). rewrite Hb in Hm, Hf.
  destruct Hf as [[_ Hc] Hf]. split_and!; [by eapply life_poll|done|by apply nextProbeWakeup_future|].
  destruct Hm as [_ (new & Hts & Hm)]. cbn in Hts. subst new. intros i p Hp.
  destruct (Hm i p Hp) as (p' & Hp' & Htg & _ & Hch). by exists p'.
Qed.
End theorems.

(** ** Nonces *)

Fixpoint generatePackets (n : nat) : M ProbeNonceSequence (list packet) :=
  match n with
  | O => mret []
  | S n' => p <- generateSequencePacket ;; l <- generatePackets n' ;; mret (p :: l)
  end.

(** The integer whose bytes, the most significant first, are [b]. *)
Definition bigEndian (b : packet) : Z := foldl (fun n x => 256 * n + x) 0 b.

Lemma byte_step x k k' :
  k' = k + 8 -> 0 <= k -> 256 * (x / 2 ^ k') + (x / 2 ^ k) mod 2 ^ 8 = x / 2 ^ k.
Proof.
  intros -> Hk. rewrite Z.pow_add_r, <-Z.div_div by lia.
  pose proof (Z.div_mod (x / 2 ^ k) (2 ^ 8)). lia.
Qed.

Lemma bigEndian_bytes x : 0 <= x < 2 ^ 64 -> bigEndian (bigEndian64 x) = x.
Proof.
  intros Hx. unfold bigEndian, bigEndian64, u8. cbn [seq fmap list_fmap foldl].
  rewrite !Z.shiftr_div_pow2 by lia.
  assert (H0 : 256 * 0 + (x / 2 ^ (56 - 8 * Z.of_nat 0)) mod 2 ^ 8 = x / 2 ^ 56).
  { rewrite Z.add_0_l. apply Z.mod_small. split; [apply Z.div_pos; lia|].
    apply Z.div_lt_upper_bound; lia. }
  rewrite H0, !(byte_step x) by lia. apply Z.div_1_r.
Qed.

Definition packetOf (epoch sequence : Z) : packet :=
  kProbeMagic ++ bigEndian64 epoch ++ bigEndian64 sequence.

Lemma packetOf_sequence epoch k : 0 <= k < 2 ^ 64 -> bigEndian (drop 16 (packetOf epoch k)) = k.
Proof. apply bigEndian_bytes. Qed.

Lemma generatePackets_spec n s :
  0 <= lastSequence_ s <= UINT64_MAX ->
  wp (generatePackets n) (fun o _ => match o with
    | Ret l => lastSequence_ s + Z.of_nat n <= UINT64_MAX /\
        l = (fun i => packetOf (epoch_ s) (lastSequence_ s + Z.of_nat i)) <$> seq 1 n
    | Throw _ => UINT64_MAX < lastSequence_ s + Z.of_nat n
    | Diverge => False end) s.
Proof.
  revert s. induction n as [|n IH]; intros s Hs; cbn [generatePackets]; [wp_step; split; [lia|done]|].
  wp_step. unfold wp at 1, generateSequencePacket.
  destruct (Z.eqb_spec (lastSequence_ s) UINT64_MAX); cbn [fst snd]; [lia|].
  wp_step. eapply wp_mono; [apply IH; cbn; lia|]. intros [l|e|] s' Hl; cbn [lastSequence_ epoch_] in Hl; [|lia|done].
  wp_step. destruct Hl as [Hle ->]. split; [lia|]. cbn [seq fmap list_fmap]. f_equal.
  rewrite <-(fmap_S_seq 1 n), <-list_fmap_compose. apply list_fmap_ext. intros i x Hx. unfold compose. f_equal. lia.
Qed.

(** C25: nonces are never reused.  The packets of one process-wide sequence are
    all different, however many are generated and by however many checkers, each
    has 24 bytes; when the 64-bit sequence is used up the source throws instead of
    wrapping around. *)
Theorem probe_nonces_unique n s :
  0 <= lastSequence_ s <= UINT64_MAX ->
  match (generatePackets n s).1 with
  | Ret l => length l = n /\ NoDup l /\ Forall (fun p => length p = kProbePacketSize) l
  | Throw _ => UINT64_MAX < lastSequence_ s + Z.of_nat n
  | Diverge => False
  end.
Proof.
  intros Hs. pose proof (generatePackets_spec n s Hs) as Hg. unfold wp in Hg.
  destruct (generatePackets n s) as [[l|e|] s']; cbn [fst snd] in *; [|done|done].
  destruct Hg as [Hle ->]. split; [by rewrite length_fmap, length_seq|]. split.
  - apply NoDup_fmap_2_strong; [|apply NoDup_seq]. intros i j Hi Hj Heq.
    apply elem_of_seq in Hi, Hj. unfold UINT64_MAX in *.
    apply (f_equal (fun p => bigEndian (drop 16 p))) in Heq. rewrite !packetOf_sequence in Heq by lia. lia.
  - by apply Forall_fmap, Forall_true.
Qed.

(** ** The sockets of the source *)

(** The documented behaviour of the system calls, with the ghost state of the
    sockets. *)
Class ProbeSystemLaws (K : Type) `{ProbeSystem K} := {
  ks_sockets : K -> gset Z;
  ks_log : K -> Z -> list ProbeEvent;
  ksl_index : forall name k, let k' := (ps_if_nametoindex name k).2 in
    ks_sockets k' = ks_sockets k /\ forall h, ks_log k' h = ks_log k h;
  ksl_socket : forall k,
    match ps_socket k with
    | (inl h, k') => 0 <= h /\ (h ∉ ks_sockets k) /\ ks_sockets k' = ({[h]} ∪ ks_sockets k) /\
        ks_log k' h = [] /\ forall h', h' <> h -> ks_log k' h' = ks_log k h'
    | (inr _, k') => ks_sockets k' = ks_sockets k /\ forall h, ks_log k' h = ks_log k h
    end;
  ksl_bind : forall h name k, let k' := (ps_bind_device h name k).2 in
    ks_sockets k' = ks_sockets k /\ forall h, ks_log k' h = ks_log k h;
  ksl_connect : forall h a p k, let k' := (ps_connect h a p k).2 in
    ks_sockets k' = ks_sockets k /\ forall h, ks_log k' h = ks_log k h;
  ksl_close : forall h k, ks_sockets (ps_close h k) = ks_sockets k ∖ {[h]} /\
    forall h', ks_log (ps_close h k) h' = ks_log k h';
  ksl_send : forall h p k, let '(r, k') := ps_send h p k in
    ks_sockets k' = ks_sockets k /\ (forall h', h' <> h -> ks_log k' h' = ks_log k h') /\
    match r with
    | inl n => 0 <= n /\ ks_log k' h = ks_log k h ++ [PSent p]
    | inr _ => ks_log k' h = ks_log k h
    end;
  ksl_recv : forall h k, let '(r, k') := ps_recv h k in
    ks_sockets k' = ks_sockets k /\ (forall h', h' <> h -> ks_log k' h' = ks_log k h') /\
    match r with
    | inl (n, reply) => 0 <= n /\ ks_log k' h = ks_log k h ++ [PReceived n reply]
    | inr _ => ks_log k' h = ks_log k h
    end;
  ksl_now : forall k, let k' := (ps_now k).2 in
    ks_sockets k' = ks_sockets k /\ forall h, ks_log k' h = ks_log k h
}.

Section sockets.
Context {K : Type} `{ProbeSystemLaws K}.

Lemma openUdpProbeSocket_opens t k :
  wp (openUdpProbeSocket t) (fun o k' => match o with
    | Ret h => 0 <= h /\ (h ∉ ks_sockets k) /\ ks_sockets k' = ({[h]} ∪ ks_sockets k) /\
        ks_log k' h = [] /\ forall h', h' <> h -> ks_log k' h' = ks_log k h'
    | Throw _ => ks_sockets k' = ks_sockets k /\ forall h, h ∈ ks_sockets k -> ks_log k' h = ks_log k h
    | Diverge => False end) k.
Proof.
  unfold openUdpProbeSocket, orThrow. wp_step. wp_step.
  destruct (ksl_index (interfaceName t) k) as [Hs1 Hl1].
  set (k1 := (ps_if_nametoindex (interfaceName t) k).2) in *.
  wp_step; [by wp_step|]. wp_step. wp_step. wp_step. pose proof (ksl_socket k1) as Hsock.
  destruct (ps_socket k1) as [[h|errno] k2]; cbn [fst snd].
  2: { wp_step. destruct Hsock as [Hs2 Hl2]. split; [congruence|]. intros h _. by rewrite Hl2, Hl1. }
  destruct Hsock as (Hh & Hnew & Hs2 & Hl2 & Ho2). wp_step. wp_step. wp_step.
  destruct (ksl_bind h (interfaceName t) k2) as [Hs3 Hl3].
  set (k3 := (ps_bind_device h (interfaceName t) k2).2) in *.
  assert (Hfail : forall k4 e, ks_sockets k4 = ks_sockets k2 -> (forall h', ks_log k4 h' = ks_log k2 h') ->
    wp (mmodify (ps_close h) ;;; mthrow e) (fun (o : outcome Z) k' => match o with
      | Throw _ => ks_sockets k' = ks_sockets k /\ forall h, h ∈ ks_sockets k -> ks_log k' h = ks_log k h
      | _ => False end) k4).
  { intros k4 e Hk4 Hl4. wp_step. wp_step. wp_step. destruct (ksl_close h k4) as [Hc Hlc].
    split; [rewrite Hc, Hk4, Hs2, <-Hs1; set_solver|]. intros h' Hh'.
    rewrite Hlc, Hl4, Ho2, Hl1; [done|]. intros ->. by rewrite Hs1 in Hnew. }
  destruct (ps_bind_device h (interfaceName t) k2).1;
    [|eapply wp_mono; [by apply (Hfail k3)|]; by intros [] ? ?].
  wp_step. wp_step. destruct (ksl_connect h (probeAddress t) (probePort t) k3) as [Hs4 Hl4].
  set (k4 := (ps_connect h (probeAddress t) (probePort t) k3).2) in *.
  destruct (ps_connect h (probeAddress t) (probePort t) k3).1;
    [|eapply wp_mono; [apply (Hfail k4); [congruence|intros h'; by rewrite Hl4, Hl3]|]; by intros [] ? ?].
  wp_step. split_and!; [done|by rewrite <-Hs1|by rewrite Hs4, Hs3, Hs2, Hs1|by rewrite Hl4, Hl3|].
  intros h' Hh'. by rewrite Hl4, Hl3, Ho2, Hl1.
Qed.

(** The sockets, the process-wide sequence and the steady clock are what the
    checker asks of its collaborators. *)
#[global] Instance udp_probe_sockets_laws : ProbeLaws (K * ProbeNonceSequence).
Proof using All.
  refine {| psockets w := ks_sockets w.1; plog w := ks_log w.1 |}.
  - intros t [k n]. cbn. pose proof (openUdpProbeSocket_opens t k) as Ho. unfold wp in Ho.
    destruct (openUdpProbeSocket t k) as [[h|e|] k']; cbn in *; [|done|done].
    destruct (Z.leb_spec 0 h); [apply Ho|lia].
  - intros h [k n]. cbn. apply ksl_close.
  - intros h p [k n]. cbn. unfold sendUdpProbePacket, mbind, mworld, mret.
    pose proof (ksl_send h p k) as Hs. destruct (ps_send h p k) as [[m|e] k']; cbn in *; [|done].
    destruct Hs as (Hs & Ho & Hm & Hl). split_and!; try done. by destruct (Z.leb_spec 0 m); [|lia].
  - intros h [k n]. cbn. unfold receiveUdpProbePacket, mbind, mworld, mret.
    pose proof (ksl_recv h k) as Hs. destruct (ps_recv h k) as [[[m reply]|e] k']; cbn in *; [|done].
    destruct Hs as (Hs & Ho & Hm & Hl). split_and!; try done. by destruct (Z.leb_spec 0 m); [|lia].
  - intros [k n]. cbn. unfold generateSequencePacket. by destruct (lastSequence_ n =? UINT64_MAX).
  - intros t [k n]. cbn. pose proof (ksl_now k) as Hs. by destruct (ps_now k).
Defined.
End sockets.

(** ** A scripted network

    Every packet sent is echoed to its socket at once; a clock reading advances
    the clock by a second. *)
Module ScriptedNetwork.
Record Network := mkNetwork {
  n_open : gset Z;
  n_log : gmap Z (list ProbeEvent);
  n_inbox : list (Z * packet);
  n_time : Z;
  n_next : Z
}.

Definition record_event (h : Z) (e : ProbeEvent) (k : Network) : gmap Z (list ProbeEvent) :=
  <[h := default [] (n_log k !! h) ++ [e]]> (n_log k).

#[export] Instance network_system : ProbeSystem Network := {
  ps_if_nametoindex _ k := (2, k);
  ps_socket k :=
    if bool_decide (0 <= n_next k /\ n_next k ∉ n_open k) then
      (inl (n_next k),
       mkNetwork ({[n_next k]} ∪ n_open k) (<[n_next k := []]> (n_log k)) (n_inbox k) (n_time k)
         (n_next k + 1))
    else (inr EMFILE, k);
  ps_bind_device _ _ k := (inl tt, k);
  ps_connect _ _ _ k := (inl tt, k);
  ps_send h p k :=
    (inl (len p),
     mkNetwork (n_open k) (record_event h (PSent p) k) (n_inbox k ++ [(h, p)]) (n_time k) (n_next k));
  ps_recv h k :=
    match n_inbox k with
    | (h', p) :: rest =>
        if h' =? h then
          (inl (len p, p ++ [0]),
           mkNetwork (n_open k) (record_event h (PReceived (len p) (p ++ [0])) k) rest (n_time k) (n_next k))
        else (inr EAGAIN, k)
    | [] => (inr EAGAIN, k)
    end;
  ps_close h k := mkNetwork (n_open k ∖ {[h]}) (n_log k) (n_inbox k) (n_time k) (n_next k);
  ps_now k := (n_time k, mkNetwork (n_open k) (n_log k) (n_inbox k) (n_time k + seconds 1) (n_next k));
  ps_getrandom n k := (inl (replicate (Z.to_nat n) 7), k)
}.

#[export] Instance network_laws : ProbeSystemLaws Network.
Proof.
  refine {| ks_sockets := n_open; ks_log k h := default [] (n_log k !! h) |}; intros; cbn; try done.
  - case_bool_decide as Hd; cbn; [|done]. destruct Hd. split_and!; try done.
    + by rewrite lookup_insert_eq.
    + intros h' Hne. by rewrite lookup_insert_ne.
  - unfold record_event. split_and!; [done| |apply len_nonneg|by rewrite lookup_insert_eq].
    intros h' Hne. by rewrite lookup_insert_ne.
  - destruct (n_inbox k) as [|[h' p] rest]; [done|]. destruct (h' =? h); [|done]. cbn.
    unfold record_event. split_and!; [done| |apply len_nonneg|by rewrite lookup_insert_eq].
    intros h'' Hne. by rewrite lookup_insert_ne.
Defined.

Definition world : Network * ProbeNonceSequence :=
  (mkNetwork ∅ ∅ [] 0 5, mkProbeNonceSequence 506097522914230528 0).
Definition backend : ProbeTarget :=
  mkProbeTarget (bs "a") (bs "eth0") 2 (replicate 6 2) (replicate 6 4) 16777226 20480.

Definition returned {A} (d : A) (o : outcome A) : A := match o with Ret a => a | _ => d end.

Definition fresh : UdpProbeChecker * (Network * ProbeNonceSequence) :=
  (returned emptyChecker (newUdpProbeChecker [backend] [] world).1, (newUdpProbeChecker [backend] [] world).2).
Definition polledOnce := (pollProbeTransitions 0 fresh).2.
Definition polledTwice := (pollProbeTransitions (seconds 1) polledOnce).2.

Definition imports : list ProbeSnapshot := [newSnapshot backend].

Lemma fresh_life : checker_life imports ∅ fresh.
Proof.
  assert (Hnew : newUdpProbeChecker [backend] [] world = (Ret fresh.1, fresh.2)) by (vm_compute; reflexivity).
  exact (life_new [backend] [] world fresh.1 fresh.2 Hnew).
Qed.

Lemma polledOnce_life : checker_life imports ∅ polledOnce.
Proof.
  apply (life_poll imports ∅ 0 fresh []); [exact fresh_life|].
  assert (Hret : (pollProbeTransitions 0 fresh).1 = Ret []) by (vm_compute; reflexivity).
  unfold polledOnce. rewrite <-Hret. by destruct (pollProbeTransitions 0 fresh).
Qed.

Definition becameHealthy : list ProbeTransition :=
  [mkProbeTransition (bs "a") kUnknown kHealthy (bs "success") 0].

Lemma polledTwice_transitions : (pollProbeTransitions (seconds 1) polledOnce).1 = Ret becameHealthy.
Proof. vm_compute. reflexivity. Qed.

Lemma polledTwice_life : checker_life imports ∅ polledTwice.
Proof.
  apply (life_poll imports ∅ (seconds 1) polledOnce becameHealthy); [exact polledOnce_life|].
  unfold polledTwice. rewrite <-polledTwice_transitions.
  by destruct (pollProbeTransitions (seconds 1) polledOnce).
Qed.
End ScriptedNetwork.

Import ScriptedNetwork.

(** Two echoes make the target healthy. *)
Lemma udp_probe_history_witness :
  state (snapshot (probes_ polledTwice.1 !!! 0%nat)) = kHealthy /\
  exists s0 history, imports !! 0%nat = Some s0 /\
    probed (plog polledTwice.2 5) (outstanding (probes_ polledTwice.1 !!! 0%nat)) history /\
    healthOf (snapshot (probes_ polledTwice.1 !!! 0%nat)) =
      foldr (fun r h => (applyProbeResult h r).2) (healthOf s0) history /\
    (length (filter (fun r => r = true) history) <= length (filter isSent (plog polledTwice.2 5)))%nat.
Proof.
  assert (Hp : probes_ polledTwice.1 !! 0%nat = Some (probes_ polledTwice.1 !!! 0%nat))
    by (vm_compute; reflexivity).
  assert (Hh : handle (probes_ polledTwice.1 !!! 0%nat) = 5) by (vm_compute; reflexivity).
  split; [vm_compute; reflexivity|]. rewrite <-Hh.
  exact (udp_probe_history imports ∅ polledTwice 0 _ polledTwice_life Hp).
Defined.

Lemma pollProbeTransitions_outcome_witness :
  (pollProbeTransitions (seconds 1) polledOnce).1 = Ret becameHealthy /\
  seconds 1 < nextProbeWakeup polledTwice.1.
Proof.
  split; [exact polledTwice_transitions|].
  pose proof (pollProbeTransitions_outcome (seconds 1) imports ∅ polledOnce polledOnce_life) as Ho.
  pose proof polledTwice_transitions as Ht. unfold polledTwice.
  destruct (pollProbeTransitions (seconds 1) polledOnce) as [o s']. cbn [fst snd] in *. subst o.
  destruct Ho as (_ & _ & Hw & _). apply Hw. reflexivity.
Defined.

Lemma probe_nonces_unique_witness :
  match (generatePackets 3 (mkProbeNonceSequence 1 (UINT64_MAX - 2))).1 with
  | Ret _ => False
  | Throw _ => UINT64_MAX < UINT64_MAX - 2 + 3
  | Diverge => False
  end.
Proof.
  pose proof (probe_nonces_unique 3 (mkProbeNonceSequence 1 (UINT64_MAX - 2))) as Hn.
  assert (Hr : 0 <= UINT64_MAX - 2 <= UINT64_MAX) by (unfold UINT64_MAX; lia).
  assert (Ht : exists e, (generatePackets 3 (mkProbeNonceSequence 1 (UINT64_MAX - 2))).1 = Throw e)
    by (eexists; vm_compute; reflexivity).
  destruct Ht as [e Ht]. specialize (Hn Hr). rewrite Ht in Hn |- *. exact Hn.
Defined.
