(* ===== verification/XdpSchema.v ===== *)
(** * The values of the BPF maps (src/src/xdp/MapSchema.h, UdpDsrSchema.h,
    UdpRuntimeSchema.h)

    Bytes are integers from 0 to 255; addresses and ports are kept as the
    integers that the host (little-endian) loads from their network bytes, as in
    the source. *)
From S2P Require Import Prelude.

Definition kXdpSchemaVersion : Z := 1.
Definition kXdpMaxBackends : Z := 64.
Definition kDsrSchemaVersion : Z := 2.
Definition kDsrMaxBackends : Z := 64.
Definition kRuntimeSchemaVersion : Z := 3.

Record XdpConfigValue := mkXdpConfigValue {
  xc_schemaVersion : Z;
  xc_backendCount : Z
}.
Record XdpBackendValue := mkXdpBackendValue {
  xb_address : Z;
  xb_port : Z;
  xb_reserved : Z
}.
Record XdpStatsValue := mkXdpStatsValue { xs_passPackets : Z }.

Record UdpDsrConfigValue := mkUdpDsrConfigValue {
  schemaVersion : Z;
  backendCount : Z;
  vipAddress : Z;
  vipPort : Z;
  reserved : Z
}.
Record UdpDsrBackendValue := mkUdpDsrBackendValue {
  ifindex : Z;
  destinationMac : list Z;
  sourceMac : list Z
}.

Record UdpDsrStatsValue := mkUdpDsrStatsValue {
  totalPackets : Z;
  passPackets : Z;
  redirectRequests : Z;
  dropPackets : Z;
  unsupportedPackets : Z;
  noBackendPackets : Z;
  invalidConfigPackets : Z;
  helperErrorPackets : Z
}.

Record UdpRuntimeSnapshot := mkUdpRuntimeSnapshot {
  rs_schemaVersion : Z;
  rs_backendCount : Z;
  rs_generation : Z;
  rs_vipAddress : Z;
  rs_vipPort : Z;
  rs_reserved : Z;
  rs_backends : list UdpDsrBackendValue
}.

#[export] Instance xdp_config_eq_dec : EqDecision XdpConfigValue.
Proof. solve_decision. Defined.
#[export] Instance xdp_backend_eq_dec : EqDecision XdpBackendValue.
Proof. solve_decision. Defined.
#[export] Instance dsr_config_eq_dec : EqDecision UdpDsrConfigValue.
Proof. solve_decision. Defined.
#[export] Instance dsr_backend_eq_dec : EqDecision UdpDsrBackendValue.
Proof. solve_decision. Defined.
#[export] Instance runtime_snapshot_eq_dec : EqDecision UdpRuntimeSnapshot.
Proof. solve_decision. Defined.

(** Value-initialised values. *)
Definition zeroMac : list Z := [0; 0; 0; 0; 0; 0].
Definition emptyXdpBackend : XdpBackendValue := mkXdpBackendValue 0 0 0.
Definition emptyDsrBackend : UdpDsrBackendValue := mkUdpDsrBackendValue 0 zeroMac zeroMac.
Definition zeroStats : UdpDsrStatsValue := mkUdpDsrStatsValue 0 0 0 0 0 0 0 0.

#[export] Instance dsr_backend_inhabited : Inhabited UdpDsrBackendValue := populate emptyDsrBackend.
#[export] Instance xdp_backend_inhabited : Inhabited XdpBackendValue := populate emptyXdpBackend.

(** [validMac], the same function in four files: unicast and not all zero. *)
Definition validMac (mac : list Z) : bool :=
  (Z.land (mac !!! 0%nat) 1 =? 0) &&
  negb (Z.lor (Z.lor (Z.lor (Z.lor (Z.lor (mac !!! 0%nat) (mac !!! 1%nat)) (mac !!! 2%nat))
                        (mac !!! 3%nat)) (mac !!! 4%nat)) (mac !!! 5%nat) =? 0).

(** [byte]s and the integers the host loads from them. *)
Definition is_byte (x : Z) : Prop := 0 <= x < 256.
Definition loadLittle (l : list Z) : Z := foldr (fun x n => x + 256 * n) 0 l.

Lemma loadLittle_range l : Forall is_byte l -> 0 <= loadLittle l < 256 ^ len l.
Proof.
  induction 1 as [|x l Hx Hl IH]; cbn; [done|]. fold (loadLittle l). rewrite len_cons, Z.pow_add_r, Z.pow_1_r by (lia || apply len_nonneg).
  unfold is_byte in Hx. lia.
Qed.

Lemma loadLittle_inj l k :
  Forall is_byte l -> Forall is_byte k -> length l = length k -> loadLittle l = loadLittle k -> l = k.
Proof.
  intros Hl. revert k. induction Hl as [|x l Hx _ IH]; intros [|y k] Hk Hlen Heq; try done.
  apply Forall_cons in Hk as [Hy Hk]. cbn in Heq, Hlen. fold (loadLittle l) (loadLittle k) in Heq.
  unfold is_byte in *. assert (x = y /\ loadLittle l = loadLittle k) as [-> Hl'] by lia.
  f_equal. apply IH; [done|lia|done].
Qed.
