(* ===== verification/XdpProgram.v ===== *)
(** * The XDP programs (src/src/xdp/xdp_udp_dsr.bpf.c, xdp_udp_runtime.bpf.c,
    xdp_maps.bpf.c, xdp_pass.bpf.c)

    A program runs on one packet and on the statistics slot of its CPU.  An
    access outside the packet is an error of the model, so a result other than
    that error shows that every access is in bounds.  Map lookups and the
    redirect helper belong to the kernel and are arguments. *)
From S2P Require Import Prelude XdpSchema.

Inductive XdpAction := XDP_ABORTED | XDP_DROP | XDP_PASS | XDP_TX | XDP_REDIRECT.

#[export] Instance xdp_action_eq_dec : EqDecision XdpAction.
Proof. solve_decision. Defined.

(** The return code of the redirect helper. *)
Definition redirectCode : Z := 4.

Record XdpContext := mkXdpContext {
  data : list Z;
  stats : UdpDsrStatsValue
}.

Abbreviation prog := (M XdpContext).

Inductive Counter :=
| CTotal | CPass | CRedirect | CDrop | CUnsupported | CNoBackend | CInvalidConfig | CHelperError.

(** [__sync_fetch_and_add(&stats->counter, 1)] *)
Definition addOne (c : Counter) (s : UdpDsrStatsValue) : UdpDsrStatsValue :=
  let '(mkUdpDsrStatsValue t p r d u n i h) := s in
  match c with
  | CTotal => mkUdpDsrStatsValue (u64 (t + 1)) p r d u n i h
  | CPass => mkUdpDsrStatsValue t (u64 (p + 1)) r d u n i h
  | CRedirect => mkUdpDsrStatsValue t p (u64 (r + 1)) d u n i h
  | CDrop => mkUdpDsrStatsValue t p r (u64 (d + 1)) u n i h
  | CUnsupported => mkUdpDsrStatsValue t p r d (u64 (u + 1)) n i h
  | CNoBackend => mkUdpDsrStatsValue t p r d u (u64 (n + 1)) i h
  | CInvalidConfig => mkUdpDsrStatsValue t p r d u n (u64 (i + 1)) h
  | CHelperError => mkUdpDsrStatsValue t p r d u n i (u64 (h + 1))
  end.

Definition count (c : Counter) : prog unit :=
  mmodify (fun s => mkXdpContext (data s) (addOne c (stats s))).

Definition packetLength : prog Z := mgets (fun s => len (data s)).

Definition byteAt (i : nat) : prog Z :=
  fun s => match data s !! i with
           | Some b => (Ret b, s)
           | None => (Throw (OutOfRange (bs "packet access")), s)
           end.

(** [memcpy] out of and into the packet. *)
Definition readBytes (offset n : nat) : prog (list Z) :=
  fun s => if (offset + n <=? length (data s))%nat
           then (Ret (take n (drop offset (data s))), s)
           else (Throw (OutOfRange (bs "packet access")), s).
Definition writeBytes (offset : nat) (b : list Z) : prog unit :=
  fun s => if (offset + length b <=? length (data s))%nat
           then (Ret tt, mkXdpContext (take offset (data s) ++ b ++ drop (offset + length b) (data s))
                           (stats s))
           else (Throw (OutOfRange (bs "packet access")), s).

(** The labels at the end of the programs. *)
Definition pass : prog XdpAction := count CPass ;;; mret XDP_PASS.
Definition unsupported : prog XdpAction := count CUnsupported ;;; pass.
Definition invalidConfig : prog XdpAction := count CInvalidConfig ;;; pass.
Definition drop_ : prog XdpAction := count CDrop ;;; mret XDP_DROP.

(** ** Headers *)

(** A 16-bit word in network order. *)
Definition wordAt (i : nat) : prog Z :=
  high <- byteAt i ;;
  low <- byteAt (S i) ;;
  mret (Z.lor (Z.shiftl high 8) low).

Definition fixedHeaders : prog bool :=
  b12 <- byteAt 12 ;;
  b13 <- byteAt 13 ;;
  b14 <- byteAt 14 ;;
  b23 <- byteAt 23 ;;
  b20 <- byteAt 20 ;;
  b21 <- byteAt 21 ;;
  mret (negb (negb (b12 =? 8) || negb (b13 =? 0) || negb (b14 =? 69) || negb (b23 =? 17) ||
              negb (Z.land b20 191 =? 0) || negb (b21 =? 0))).

Definition lengthsAgree : prog bool :=
  size <- packetLength ;;
  ipLength <- wordAt 16 ;;
  udpLength <- wordAt 38 ;;
  mret (negb ((ipLength <? 28) || (1500 <? ipLength) || (size <? 14 + ipLength) ||
              negb (udpLength =? u32 (ipLength - 20)))).

Fixpoint sumWords (offsets : list nat) (checksum : Z) : prog Z :=
  match offsets with
  | [] => mret checksum
  | i :: offsets' =>
      w <- wordAt i ;;
      sumWords offsets' (u32 (checksum + w))
  end.

Definition foldChecksum (checksum : Z) : Z := Z.land checksum 65535 + Z.shiftr checksum 16.

(** [for (i = 14; i < 34; i += 2)] *)
Definition headerOffsets : list nat := [14; 16; 18; 20; 22; 24; 26; 28; 30; 32]%nat.

Definition checksumValid : prog bool :=
  checksum <- sumWords headerOffsets 0 ;;
  mret (foldChecksum (foldChecksum checksum) =? 65535).

(** The checks before the configuration is looked at. *)
Definition supported : prog bool :=
  size <- packetLength ;;
  if size <? 42 then mret false
  else
    fixed <- fixedHeaders ;;
    if negb fixed then mret false
    else
      lengths <- lengthsAgree ;;
      if negb lengths then mret false else checksumValid.

(** ** The flow hash *)

Definition fnvPrime : Z := 16777619.
Definition fnvOffset : Z := 2166136261.

Fixpoint hashBytes (offsets : list nat) (hash : Z) : prog Z :=
  match offsets with
  | [] => mret hash
  | i :: offsets' =>
      b <- byteAt i ;;
      hashBytes offsets' (u32 (Z.lxor hash b * fnvPrime))
  end.

(** Source and destination address and port, and the protocol. *)
Definition flowHash : prog Z :=
  hash <- hashBytes (seq 26 12) fnvOffset ;;
  mret (u32 (Z.lxor hash 17 * fnvPrime)).

Section programs.
(** [bpf_redirect(ifindex, 0)] *)
Context (redirectPacket : Z -> Z).

Definition invalidBackend (b : UdpDsrBackendValue) : bool :=
  (ifindex b =? 0) || negb (validMac (destinationMac b)) || negb (validMac (sourceMac b)).

(** The MAC addresses are rewritten only after the helper accepted the target. *)
Definition forwardTo (b : UdpDsrBackendValue) : prog XdpAction :=
  if negb (redirectPacket (ifindex b) =? redirectCode) then count CHelperError ;;; drop_
  else
    writeBytes 0 (destinationMac b) ;;;
    writeBytes 6 (sourceMac b) ;;;
    count CRedirect ;;;
    mret XDP_REDIRECT.

(** ** xdp_udp_dsr *)

Definition invalidDsrConfig (config : UdpDsrConfigValue) : bool :=
  negb (schemaVersion config =? 2) || (64 <? backendCount config) || negb (reserved config =? 0).

Definition xdp_udp_dsr_body (l4lb_cfg_v2 : option UdpDsrConfigValue)
    (l4lb_be_v2 : Z -> option UdpDsrBackendValue) : prog XdpAction :=
  count CTotal ;;;
  ok <- supported ;;
  if negb ok then unsupported
  else
    match l4lb_cfg_v2 with
    | None => invalidConfig
    | Some config =>
        if invalidDsrConfig config then invalidConfig
        else
          address <- readBytes 30 4 ;;
          port <- readBytes 36 2 ;;
          if negb (loadLittle address =? vipAddress config) || negb (loadLittle port =? vipPort config)
          then unsupported
          else if backendCount config =? 0 then count CNoBackend ;;; pass
          else
            hash <- flowHash ;;
            match l4lb_be_v2 (hash mod backendCount config) with
            | None => invalidConfig
            | Some b => if invalidBackend b then invalidConfig else forwardTo b
            end
    end.

(** ** xdp_udp_rt *)

Definition invalidRuntimeConfig (config : UdpRuntimeSnapshot) : bool :=
  negb (rs_schemaVersion config =? 3) || (64 <? rs_backendCount config) ||
  negb (rs_reserved config =? 0) || (rs_generation config =? 0).

(** [l4lb_active_v3] is the value of the published inner map, if any. *)
Definition xdp_udp_rt_body (l4lb_active_v3 : option UdpRuntimeSnapshot) : prog XdpAction :=
  count CTotal ;;;
  ok <- supported ;;
  if negb ok then unsupported
  else
    match l4lb_active_v3 with
    | None => invalidConfig
    | Some config =>
        if invalidRuntimeConfig config then invalidConfig
        else
          address <- readBytes 30 4 ;;
          port <- readBytes 36 2 ;;
          if negb (loadLittle address =? rs_vipAddress config) ||
             negb (loadLittle port =? rs_vipPort config)
          then unsupported
          else if rs_backendCount config =? 0 then count CNoBackend ;;; drop_
          else
            hash <- flowHash ;;
            let key := Z.land (hash mod rs_backendCount config) (kDsrMaxBackends - 1) in
            match rs_backends config !! Z.to_nat key with
            | None => mthrow (OutOfRange (bs "snapshot access"))
            | Some b => if invalidBackend b then invalidConfig else forwardTo b
            end
    end.

(** Without a statistics slot the packet passes untouched. *)
Definition onPacket (body : prog XdpAction) (packet : list Z) (slot : option UdpDsrStatsValue)
    : outcome XdpAction * (list Z * option UdpDsrStatsValue) :=
  match slot with
  | None => (Ret XDP_PASS, (packet, None))
  | Some s =>
      let '(o, c) := body (mkXdpContext packet s) in (o, (data c, Some (stats c)))
  end.

Definition xdp_udp_dsr l4lb_cfg_v2 l4lb_be_v2 :=
  onPacket (xdp_udp_dsr_body l4lb_cfg_v2 l4lb_be_v2).
Definition xdp_udp_rt l4lb_active_v3 := onPacket (xdp_udp_rt_body l4lb_active_v3).
End programs.

(** ** xdp_maps_pass and xdp_pass *)

Definition xdp_maps_pass (packet : list Z) (slot : option XdpStatsValue)
    : XdpAction * (list Z * option XdpStatsValue) :=
  (XDP_PASS, (packet, (fun s => mkXdpStatsValue (u64 (xs_passPackets s + 1))) <$> slot)).
Definition xdp_pass (packet : list Z) : XdpAction * list Z := (XDP_PASS, packet).
