(* ===== verification/XdpTheorems.v ===== *)
(** * What the XDP programs do to a packet

    The headers the programs accept are exactly the encodings of a frame, the
    hash is FNV-1a over the flow, and a packet is redirected, dropped or passed,
    counted and rewritten accordingly. *)
From S2P Require Import Prelude XdpSchema XdpProgram.

(** ** Reading a packet *)

Lemma byteAt_eq i s : (i < length (data s))%nat -> byteAt i s = (Ret (data s !!! i), s).
Proof.
  intros Hi. unfold byteAt. destruct (lookup_lt_is_Some_2 _ _ Hi) as [b Hb].
  by rewrite Hb, (list_lookup_total_correct _ _ _ Hb).
Qed.

Definition word (p : list Z) (i : nat) : Z := Z.lor (Z.shiftl (p !!! i) 8) (p !!! S i).

Lemma wordAt_eq i s : (S i < length (data s))%nat -> wordAt i s = (Ret (word (data s) i), s).
Proof.
  intros Hi. unfold wordAt, mbind. rewrite byteAt_eq by lia. by rewrite byteAt_eq by lia.
Qed.

Lemma sumWords_eq offsets c s :
  Forall (fun i => (S i < length (data s))%nat) offsets ->
  sumWords offsets c s = (Ret (foldl (fun c i => u32 (c + word (data s) i)) c offsets), s).
Proof.
  revert c. induction offsets as [|i offsets IH]; intros c Hf; [done|].
  apply Forall_cons in Hf as [Hi Hf]. cbn [sumWords]. unfold mbind. rewrite wordAt_eq by done. by rewrite IH.
Qed.

Definition fixedOk (p : list Z) : bool :=
  negb (negb (p !!! 12%nat =? 8) || negb (p !!! 13%nat =? 0) || negb (p !!! 14%nat =? 69) ||
        negb (p !!! 23%nat =? 17) || negb (Z.land (p !!! 20%nat) 191 =? 0) || negb (p !!! 21%nat =? 0)).
Definition lengthsOk (p : list Z) : bool :=
  negb ((word p 16 <? 28) || (1500 <? word p 16) || (len p <? 14 + word p 16) ||
        negb (word p 38 =? u32 (word p 16 - 20))).
Definition checksumOk (p : list Z) : bool :=
  foldChecksum (foldChecksum (foldl (fun c i => u32 (c + word p i)) 0 headerOffsets)) =? 65535.
Definition supportedPacket (p : list Z) : bool :=
  if len p <? 42 then false else fixedOk p && lengthsOk p && checksumOk p.

Lemma supported_eq s : supported s = (Ret (supportedPacket (data s)), s).
Proof.
  unfold supported, supportedPacket, packetLength, mgets. unfold mbind at 1.
  destruct (Z.ltb_spec (len (data s)) 42) as [|Hlen]; [done|]. unfold len in Hlen.
  unfold mbind at 1, fixedHeaders. unfold mbind. rewrite !byteAt_eq by lia. unfold mret at 1.
  fold (fixedOk (data s)). destruct (fixedOk (data s)); [cbn [negb andb]|done].
  unfold lengthsAgree, packetLength, mgets, mbind. rewrite !wordAt_eq by lia. unfold mret at 1.
  fold (lengthsOk (data s)). destruct (lengthsOk (data s)); [cbn [negb andb]|done].
  unfold checksumValid, mbind. rewrite sumWords_eq by (repeat constructor; lia).
  unfold mret, checksumOk. reflexivity.
Qed.

Lemma supported_length p : supportedPacket p = true -> (42 <= length p)%nat.
Proof. unfold supportedPacket, len. destruct (Z.ltb_spec (Z.of_nat (length p)) 42); [done|lia]. Qed.

(** ** FNV-1a *)

Definition fnv1a (l : list Z) : Z := foldl (fun h b => u32 (Z.lxor h b * fnvPrime)) fnvOffset l.

(** The addresses and ports in the packet. *)
Definition flowBytes (p : list Z) : list Z := take 12 (drop 26 p).

Lemma hashBytes_eq start n h s :
  (start + n <= length (data s))%nat ->
  hashBytes (seq start n) h s =
  (Ret (foldl (fun h b => u32 (Z.lxor h b * fnvPrime)) h (take n (drop start (data s)))), s).
Proof.
  revert start h. induction n as [|n IH]; intros start h Hn; [done|].
  cbn [seq hashBytes]. unfold mbind. rewrite byteAt_eq by lia. rewrite IH by lia.
  destruct (lookup_lt_is_Some_2 (data s) start) as [b Hb]; [lia|].
  rewrite (list_lookup_total_correct _ _ _ Hb), (drop_S _ _ _ Hb). done.
Qed.

Lemma flowHash_eq s :
  (42 <= length (data s))%nat -> flowHash s = (Ret (fnv1a (flowBytes (data s) ++ [17])), s).
Proof.
  intros Hl. unfold flowHash, mbind. rewrite hashBytes_eq by lia. unfold mret, fnv1a, flowBytes.
  by rewrite foldl_app.
Qed.

Lemma fnv1a_range l b : 0 <= fnv1a (l ++ [b]) < 2 ^ 32.
Proof. unfold fnv1a. rewrite foldl_app. apply u32_range. Qed.

(** ** The verdict on a packet *)

Inductive Verdict :=
| VUnsupported | VInvalidConfig | VNoBackend | VHelperError | VForward (b : UdpDsrBackendValue).

Definition vipBytes (p : list Z) : list Z := take 4 (drop 30 p).
Definition portBytes (p : list Z) : list Z := take 2 (drop 36 p).

Definition targetVerdict (redirectPacket : Z -> Z) (target : option UdpDsrBackendValue) : Verdict :=
  match target with
  | None => VInvalidConfig
  | Some b =>
      if invalidBackend b then VInvalidConfig
      else if redirectPacket (ifindex b) =? redirectCode then VForward b else VHelperError
  end.

(** [invalid] is the program's test of its configuration. *)
Definition verdict (redirectPacket : Z -> Z) (config : option UdpDsrConfigValue) (invalid : bool)
    (backends : Z -> option UdpDsrBackendValue) (p : list Z) : Verdict :=
  if negb (supportedPacket p) then VUnsupported
  else
    match config with
    | None => VInvalidConfig
    | Some c =>
        if invalid then VInvalidConfig
        else if negb (loadLittle (vipBytes p) =? vipAddress c) || negb (loadLittle (portBytes p) =? vipPort c)
        then VUnsupported
        else if backendCount c =? 0 then VNoBackend
        else targetVerdict redirectPacket (backends (fnv1a (flowBytes p ++ [17]) mod backendCount c))
    end.

Definition counters (v : Verdict) (noBackend : Counter) : list Counter :=
  match v with
  | VUnsupported => [CTotal; CUnsupported; CPass]
  | VInvalidConfig => [CTotal; CInvalidConfig; CPass]
  | VNoBackend => [CTotal; CNoBackend; noBackend]
  | VHelperError => [CTotal; CHelperError; CDrop]
  | VForward _ => [CTotal; CRedirect]
  end.
Definition actionOf (v : Verdict) (noBackend : XdpAction) : XdpAction :=
  match v with
  | VUnsupported | VInvalidConfig => XDP_PASS
  | VNoBackend => noBackend
  | VHelperError => XDP_DROP
  | VForward _ => XDP_REDIRECT
  end.
Definition rewritten (v : Verdict) (p : list Z) : list Z :=
  match v with
  | VForward b => destinationMac b ++ sourceMac b ++ drop 12 p
  | _ => p
  end.

(** The arrays of the structures have their declared sizes. *)
Definition macs_sized (b : UdpDsrBackendValue) : Prop :=
  length (destinationMac b) = 6%nat /\ length (sourceMac b) = 6%nat.

Definition ends_with (v : Verdict) (noBackend : Counter) (action : XdpAction) (p : list Z)
    (s : UdpDsrStatsValue) (r : outcome XdpAction * XdpContext) : Prop :=
  r = (Ret (actionOf v action),
       mkXdpContext (rewritten v p) (foldl (fun s c => addOne c s) s (tail (counters v noBackend)))).

Lemma forwardTo_ends redirectPacket b p s n a :
  (42 <= length p)%nat -> macs_sized b -> invalidBackend b = false ->
  ends_with (targetVerdict redirectPacket (Some b)) n a p s (forwardTo redirectPacket b (mkXdpContext p s)).
Proof.
  intros Hl [Hd Hs] Hb. unfold ends_with, targetVerdict, forwardTo. rewrite Hb.
  destruct (redirectPacket (ifindex b) =? redirectCode); cbn [negb]; [|done].
  unfold mbind, writeBytes. cbn [data stats].
  destruct (Nat.leb_spec (0 + length (destinationMac b)) (length p)); [|lia].
  rewrite take_0, app_nil_l. cbn [data stats].
  rewrite length_app, length_drop.
  destruct (Nat.leb_spec (6 + length (sourceMac b)) (length (destinationMac b) + (length p - (0 + length (destinationMac b)))));
    [|lia].
  unfold count, mmodify, mret. cbn [data stats]. do 3 f_equal.
  rewrite take_app_length' by done. cbn [rewritten].
  f_equal. f_equal. rewrite drop_app_ge by lia. rewrite drop_drop. f_equal. lia.
Qed.

Lemma counted_total v n s :
  foldl (fun s c => addOne c s) s (counters v n) =
  foldl (fun s c => addOne c s) (addOne CTotal s) (tail (counters v n)).
Proof. by destruct v. Qed.

Definition dsrVerdict redirectPacket (config : option UdpDsrConfigValue) backends p : Verdict :=
  verdict redirectPacket config (match config with Some c => invalidDsrConfig c | None => false end)
    backends p.

Lemma readBytes_eq offset n s :
  (offset + n <= length (data s))%nat ->
  readBytes offset n s = (Ret (take n (drop offset (data s))), s).
Proof. intros Hl. unfold readBytes. by destruct (Nat.leb_spec (offset + n) (length (data s))); [|lia]. Qed.

Lemma dsr_body_eq redirectPacket config backends p s :
  (forall k b, backends k = Some b -> macs_sized b) ->
  let v := dsrVerdict redirectPacket config backends p in
  xdp_udp_dsr_body redirectPacket config backends (mkXdpContext p s) =
  (Ret (actionOf v XDP_PASS), mkXdpContext (rewritten v p) (foldl (fun s c => addOne c s) s (counters v CPass))).
Proof.
  intros Hmacs. unfold xdp_udp_dsr_body, dsrVerdict, verdict. unfold mbind at 1.
  change (count CTotal (mkXdpContext p s)) with (@Ret unit tt, mkXdpContext p (addOne CTotal s)).
  cbv beta iota. unfold mbind at 1. rewrite supported_eq. cbn [data].
  destruct (supportedPacket p) eqn:Hsup; cbn [negb]; [|done].
  apply supported_length in Hsup. destruct config as [c|]; [|done].
  destruct (invalidDsrConfig c); [done|].
  unfold mbind at 1. rewrite readBytes_eq by (cbn; lia). unfold mbind at 1.
  rewrite readBytes_eq by (cbn; lia). cbn [data]. fold (vipBytes p) (portBytes p).
  destruct (_ || _); [done|]. destruct (backendCount c =? 0); [done|].
  unfold mbind at 1. rewrite flowHash_eq by done. cbn [data].
  destruct (backends _) as [b|] eqn:Hb; [|done].
  destruct (invalidBackend b) eqn:Hinv; [unfold targetVerdict; by rewrite Hinv|].
  rewrite counted_total. apply forwardTo_ends; [done|by eapply Hmacs|done].
Qed.

(** The configuration of a snapshot as the first program keeps it. *)
Definition snapshotConfig (r : UdpRuntimeSnapshot) : UdpDsrConfigValue :=
  mkUdpDsrConfigValue (rs_schemaVersion r) (rs_backendCount r) (rs_vipAddress r) (rs_vipPort r)
    (rs_reserved r).
Definition snapshotBackend (r : UdpRuntimeSnapshot) (k : Z) : option UdpDsrBackendValue :=
  rs_backends r !! Z.to_nat k.

Definition runtimeVerdict redirectPacket (snapshot : option UdpRuntimeSnapshot) p : Verdict :=
  verdict redirectPacket (snapshotConfig <$> snapshot)
    (match snapshot with Some r => invalidRuntimeConfig r | None => false end)
    (match snapshot with Some r => snapshotBackend r | None => fun _ => None end) p.

(** The array has its declared size and unsigned counts. *)
Definition snapshot_sized (r : UdpRuntimeSnapshot) : Prop :=
  length (rs_backends r) = 64%nat /\ Forall macs_sized (rs_backends r) /\ 0 <= rs_backendCount r.

Lemma rt_body_eq redirectPacket snapshot p s :
  (forall r, snapshot = Some r -> snapshot_sized r) ->
  let v := runtimeVerdict redirectPacket snapshot p in
  xdp_udp_rt_body redirectPacket snapshot (mkXdpContext p s) =
  (Ret (actionOf v XDP_DROP), mkXdpContext (rewritten v p) (foldl (fun s c => addOne c s) s (counters v CDrop))).
Proof.
  intros Hsized. unfold xdp_udp_rt_body, runtimeVerdict, verdict. unfold mbind at 1.
  change (count CTotal (mkXdpContext p s)) with (@Ret unit tt, mkXdpContext p (addOne CTotal s)).
  cbv beta iota. unfold mbind at 1. rewrite supported_eq. cbn [data].
  destruct (supportedPacket p) eqn:Hsup; cbn [negb]; [|done].
  apply supported_length in Hsup. destruct snapshot as [r|]; [|done]. cbn [fmap option_fmap option_map].
  destruct (Hsized r eq_refl) as (H64 & Hmacs & Hpos).
  destruct (invalidRuntimeConfig r) eqn:Hinvalid; [done|].
  unfold mbind at 1. rewrite readBytes_eq by (cbn; lia). unfold mbind at 1.
  rewrite readBytes_eq by (cbn; lia). cbn [data]. fold (vipBytes p) (portBytes p).
  cbn [vipAddress vipPort backendCount snapshotConfig].
  destruct (_ || _); [done|]. destruct (Z.eqb_spec (rs_backendCount r) 0); [done|].
  unfold mbind at 1. rewrite flowHash_eq by done. cbn [data].
  assert (Hle : rs_backendCount r <= 64) by (unfold invalidRuntimeConfig in Hinvalid; bool_to_prop; lia).
  set (k := fnv1a _ mod _).
  assert (Hk : 0 <= k < 64) by (pose proof (Z.mod_pos_bound (fnv1a (flowBytes p ++ [17])) (rs_backendCount r)); lia).
  assert (Hand : Z.land k (kDsrMaxBackends - 1) = k).
  { change (kDsrMaxBackends - 1) with (Z.ones 6). rewrite Z.land_ones by lia. by apply Z.mod_small. }
  rewrite Hand. unfold snapshotBackend.
  destruct (lookup_lt_is_Some_2 (rs_backends r) (Z.to_nat k)) as [b Hb]; [lia|]. rewrite Hb.
  destruct (invalidBackend b) eqn:Hinv; [unfold targetVerdict; by rewrite Hinv|].
  rewrite counted_total. apply forwardTo_ends; [done| |done]. by eapply Forall_lookup_1.
Qed.

(** ** Frames *)

(** An Ethernet frame with an unfragmented IPv4 packet without options that
    carries one UDP datagram; [f_trailer] is padding after the packet. *)
Record Frame := mkFrame {
  f_macs : list Z;
  f_tos : Z;
  f_id : list Z;
  f_dontFragment : bool;
  f_ttl : Z;
  f_checksum : list Z;
  f_source : list Z;
  f_destination : list Z;
  f_sourcePort : list Z;
  f_destinationPort : list Z;
  f_udpChecksum : list Z;
  f_payload : list Z;
  f_trailer : list Z
}.

Definition big16 (n : Z) : list Z := [n / 256; n mod 256].

Definition ipHeader (f : Frame) : list Z :=
  [69; f_tos f] ++ big16 (28 + len (f_payload f)) ++ f_id f ++
  [if f_dontFragment f then 64 else 0; 0] ++ [f_ttl f; 17] ++ f_checksum f ++
  f_source f ++ f_destination f.

Definition encodeFrame (f : Frame) : list Z :=
  f_macs f ++ [8; 0] ++ ipHeader f ++ f_sourcePort f ++ f_destinationPort f ++
  big16 (8 + len (f_payload f)) ++ f_udpChecksum f ++ f_payload f ++ f_trailer f.

Definition frame_flow (f : Frame) : list Z :=
  f_source f ++ f_destination f ++ f_sourcePort f ++ f_destinationPort f.

(** The sum of the 16-bit words in ones' complement arithmetic (modulo 65535). *)
Fixpoint sum16 (l : list Z) : Z :=
  match l with
  | a :: b :: l' => 256 * a + b + sum16 l'
  | _ => 0
  end.

Definition sized (n : nat) (l : list Z) : Prop := length l = n /\ Forall is_byte l.

Record wf_frame (f : Frame) : Prop := {
  wf_macs : sized 12 (f_macs f);
  wf_tos : is_byte (f_tos f);
  wf_id : sized 2 (f_id f);
  wf_ttl : is_byte (f_ttl f);
  wf_checksum : sized 2 (f_checksum f);
  wf_source : sized 4 (f_source f);
  wf_destination : sized 4 (f_destination f);
  wf_ports : sized 2 (f_sourcePort f) /\ sized 2 (f_destinationPort f);
  wf_udpChecksum : sized 2 (f_udpChecksum f);
  wf_payload : Forall is_byte (f_payload f) /\ len (f_payload f) <= 1472;
  wf_trailer : Forall is_byte (f_trailer f);
  wf_sum : sum16 (ipHeader f) mod 65535 = 0
}.

Lemma word_bytes high low : is_byte low -> Z.lor (Z.shiftl high 8) low = 256 * high + low.
Proof.
  intros Hl. unfold is_byte in Hl. pose proof (Z.add_lor_land (Z.shiftl high 8) low) as Ha.
  assert (Hz : Z.land (Z.shiftl high 8) low = 0).
  { apply Z.bits_inj'. intros n Hn. rewrite Z.land_spec, Z.shiftl_spec, Z.bits_0 by done.
    destruct (Z.ltb_spec n 8).
    - rewrite (Z.testbit_neg_r high) by lia. done.
    - replace (Z.testbit low n) with false; [apply andb_false_r|]. symmetry.
      destruct (Z.eqb_spec low 0) as [->|]; [apply Z.bits_0|].
      apply Z.bits_above_log2; [lia|]. apply Z.log2_lt_pow2; [lia|].
      assert (2 ^ 8 <= 2 ^ n) by (apply Z.pow_le_mono_r; lia). lia. }
  rewrite Hz in Ha. pose proof (Z.shiftl_mul_pow2 high 8). lia.
Qed.

Lemma foldChecksum_valid s :
  0 < s <= 655350 -> foldChecksum (foldChecksum s) = 65535 <-> s mod 65535 = 0.
Proof.
  intros Hs. unfold foldChecksum. rewrite !(Z.land_ones _ 16) by lia. rewrite !Z.shiftr_div_pow2 by lia.
  change (2 ^ 16) with 65536. Z.div_mod_to_equations. lia.
Qed.

Lemma flags_byte b : is_byte b -> Z.land b 191 = 0 <-> b = 64 \/ b = 0.
Proof.
  intros Hb. assert (Hall : forallb (fun n => Bool.eqb (Z.land (Z.of_nat n) 191 =? 0)
    ((Z.of_nat n =? 64) || (Z.of_nat n =? 0))) (seq 0 256) = true) by (vm_compute; reflexivity).
  rewrite forallb_forall in Hall. specialize (Hall (Z.to_nat b)). unfold is_byte in Hb.
  rewrite Z2Nat.id in Hall by lia. rewrite eqb_true_iff in Hall.
  rewrite <-(Z.eqb_eq (Z.land b 191)), Hall; [|apply in_seq; lia]. lia.
Qed.

Lemma drop_cons (p : list Z) i : (i < length p)%nat -> drop i p = p !!! i :: drop (S i) p.
Proof.
  intros Hi. destruct (lookup_lt_is_Some_2 _ _ Hi) as [b Hb].
  by rewrite (drop_S _ _ _ Hb), (list_lookup_total_correct _ _ _ Hb).
Qed.
Lemma drop_split (p : list Z) i n j : j = (i + n)%nat -> drop i p = take n (drop i p) ++ drop j p.
Proof. intros ->. by rewrite <-drop_drop, take_drop. Qed.

Lemma byte_lookup (p : list Z) i : Forall is_byte p -> (i < length p)%nat -> is_byte (p !!! i).
Proof. intros Hp Hi. by apply Forall_lookup_total_1. Qed.

Lemma word_lookup p i :
  Forall is_byte p -> (S i < length p)%nat -> word p i = 256 * p !!! i + p !!! S i /\ 0 <= word p i < 65536.
Proof.
  intros Hp Hi. pose proof (byte_lookup p i Hp ltac:(lia)) as H1.
  pose proof (byte_lookup p (S i) Hp Hi) as H2. unfold word. rewrite word_bytes by done.
  unfold is_byte in *. lia.
Qed.

Lemma sum16_step p i n :
  (S i < length p)%nat ->
  sum16 (take (S (S n)) (drop i p)) = 256 * p !!! i + p !!! S i + sum16 (take n (drop (S (S i)) p)).
Proof. intros Hi. by rewrite (drop_cons p i), (drop_cons p (S i)) by lia. Qed.

Lemma u32_add a b : u32 (u32 a + b) = u32 (a + b).
Proof. by apply Z.add_mod_idemp_l. Qed.

(** The words of the header, summed as the program does and as the mathematics
    does. *)
Lemma headerSum_eq p :
  Forall is_byte p -> (34 <= length p)%nat ->
  foldl (fun c i => u32 (c + word p i)) 0 headerOffsets = sum16 (take 20 (drop 14 p)) /\
  256 * p !!! 14%nat <= sum16 (take 20 (drop 14 p)) <= 655350.
Proof.
  intros Hp Hl. unfold headerOffsets. cbn [foldl].
  do 10 (rewrite sum16_step by lia).
  change (take 0 (drop 34 p)) with (@nil Z). cbn [sum16].
  pose proof (fun i Hi => word_lookup p i Hp Hi) as Hw.
  pose proof (fun i Hi => byte_lookup p i Hp Hi) as Hb. unfold is_byte in Hb.
  pose proof (Hw 14%nat ltac:(lia)). pose proof (Hw 16%nat ltac:(lia)). pose proof (Hw 18%nat ltac:(lia)).
  pose proof (Hw 20%nat ltac:(lia)). pose proof (Hw 22%nat ltac:(lia)). pose proof (Hw 24%nat ltac:(lia)).
  pose proof (Hw 26%nat ltac:(lia)). pose proof (Hw 28%nat ltac:(lia)). pose proof (Hw 30%nat ltac:(lia)).
  pose proof (Hw 32%nat ltac:(lia)). pose proof (Hb 14%nat ltac:(lia)). pose proof (Hb 15%nat ltac:(lia)). clear Hw Hb.
  repeat (rewrite u32_add || rewrite <-(Z.add_assoc (u32 _))). rewrite u32_small by lia. lia.
Qed.

(** The acceptance of the program in terms of the bytes. *)
Definition accepted (p : list Z) : Prop :=
  42 <= len p /\
  p !!! 12%nat = 8 /\ p !!! 13%nat = 0 /\ p !!! 14%nat = 69 /\ p !!! 23%nat = 17 /\
  (p !!! 20%nat = 64 \/ p !!! 20%nat = 0) /\ p !!! 21%nat = 0 /\
  28 <= 256 * p !!! 16%nat + p !!! 17%nat <= 1500 /\
  14 + (256 * p !!! 16%nat + p !!! 17%nat) <= len p /\
  256 * p !!! 38%nat + p !!! 39%nat = 256 * p !!! 16%nat + p !!! 17%nat - 20 /\
  sum16 (take 20 (drop 14 p)) mod 65535 = 0.

Lemma supported_accepted p : Forall is_byte p -> supportedPacket p = true <-> accepted p.
Proof.
  intros Hp. unfold supportedPacket, accepted. destruct (Z.ltb_spec (len p) 42) as [|Hlen]; [split; [done|lia]|].
  assert (Hl : (42 <= length p)%nat) by (unfold len in Hlen; lia).
  destruct (word_lookup p 16 Hp ltac:(lia)) as [E16 R16]. destruct (word_lookup p 38 Hp ltac:(lia)) as [E38 _].
  destruct (headerSum_eq p Hp ltac:(lia)) as [Hsum Hrange].
  pose proof (flags_byte _ (byte_lookup p 20 Hp ltac:(lia))) as Hflags.
  unfold fixedOk, lengthsOk, checksumOk. rewrite Hsum, E16, E38.
  rewrite !andb_true_iff, !negb_true_iff, !orb_false_iff, !negb_false_iff, !Z.eqb_eq, !Z.ltb_ge, Hflags.
  rewrite E16 in R16. split.
  - intros ((K1 & K2) & K3). rewrite foldChecksum_valid in K3 by lia.
    rewrite u32_small in K2 by lia. intuition lia.
  - intros K. rewrite foldChecksum_valid by lia. rewrite u32_small by lia. intuition lia.
Qed.

(** The frame that a packet encodes. *)
Definition frameOf (p : list Z) : Frame :=
  let n := Z.to_nat (256 * p !!! 16%nat + p !!! 17%nat - 28) in
  mkFrame (take 12 p) (p !!! 15%nat) (take 2 (drop 18 p)) (p !!! 20%nat =? 64) (p !!! 22%nat)
    (take 2 (drop 24 p)) (take 4 (drop 26 p)) (take 4 (drop 30 p)) (take 2 (drop 34 p))
    (take 2 (drop 36 p)) (take 2 (drop 40 p)) (take n (drop 42 p)) (drop n (drop 42 p)).

Lemma big16_bytes high low : is_byte high -> is_byte low -> big16 (256 * high + low) = [high; low].
Proof.
  unfold is_byte, big16. intros. f_equal; [|f_equal]; Z.div_mod_to_equations; lia.
Qed.

Lemma sized_part p i n : Forall is_byte p -> (i + n <= length p)%nat -> sized n (take n (drop i p)).
Proof.
  intros Hp Hl. split; [rewrite length_take, length_drop; lia|]. by apply Forall_take, Forall_drop.
Qed.

Lemma accepted_payload p : accepted p -> len (f_payload (frameOf p)) = 256 * p !!! 16%nat + p !!! 17%nat - 28.
Proof.
  intros (Hl & _ & _ & _ & _ & _ & _ & Hr & Ht & _). unfold len in *. cbn [frameOf f_payload].
  rewrite length_take, length_drop. lia.
Qed.

Lemma accepted_header p :
  Forall is_byte p -> accepted p -> drop 14 p = ipHeader (frameOf p) ++ drop 34 p.
Proof.
  intros Hp Hacc. pose proof (accepted_payload p Hacc) as Hpay.
  destruct Hacc as (Hl & _ & _ & H14 & H23 & H20 & H21 & _). unfold len in Hl.
  rewrite (drop_cons p 14), (drop_cons p 15), (drop_cons p 16), (drop_cons p 17), (drop_split p 18 2 20),
    (drop_cons p 20), (drop_cons p 21), (drop_cons p 22), (drop_cons p 23), (drop_split p 24 2 26),
    (drop_split p 26 4 30), (drop_split p 30 4 34) by lia.
  unfold ipHeader. rewrite Hpay.
  replace (28 + (256 * p !!! 16%nat + p !!! 17%nat - 28)) with (256 * p !!! 16%nat + p !!! 17%nat) by lia.
  rewrite big16_bytes by (apply byte_lookup; [done|lia]).
  cbn [frameOf f_tos f_id f_dontFragment f_ttl f_checksum f_source f_destination].
  rewrite H14, H23, H21. destruct H20 as [-> | ->]; cbn [Z.eqb Pos.eqb app];
    rewrite <-!app_assoc; cbn [app]; by rewrite <-!app_assoc.
Qed.

Lemma accepted_encodes p : Forall is_byte p -> accepted p -> p = encodeFrame (frameOf p).
Proof.
  intros Hp Hacc. pose proof (accepted_header p Hp Hacc) as Hh. pose proof (accepted_payload p Hacc) as Hpay.
  destruct Hacc as (Hl & H12 & H13 & _ & _ & _ & _ & Hr & Ht & Hu & _). unfold len in Hl.
  unfold encodeFrame. rewrite Hpay.
  replace (8 + (256 * p !!! 16%nat + p !!! 17%nat - 28)) with (256 * p !!! 38%nat + p !!! 39%nat) by lia.
  rewrite big16_bytes by (apply byte_lookup; [done|lia]).
  cbn [frameOf f_macs f_sourcePort f_destinationPort f_udpChecksum f_payload f_trailer].
  rewrite take_drop.
  rewrite <-(take_drop 12 p) at 1. f_equal.
  rewrite (drop_cons p 12), (drop_cons p 13), H12, H13, Hh by lia. cbn [app]. do 3 f_equal.
  rewrite (drop_split p 34 2 36) at 1 by lia. rewrite (drop_split p 36 2 38) at 1 by lia.
  rewrite (drop_cons p 38), (drop_cons p 39) by lia. by rewrite (drop_split p 40 2 42) at 1 by lia.
Qed.

Lemma accepted_frame p : Forall is_byte p -> accepted p -> wf_frame (frameOf p).
Proof.
  intros Hp Hacc. pose proof (accepted_header p Hp Hacc) as Hh. pose proof (accepted_payload p Hacc) as Hpay.
  destruct Hacc as (Hl & _ & _ & _ & _ & _ & _ & Hr & Ht & _ & Hsum). unfold len in Hl.
  split; cbn [frameOf f_macs f_tos f_id f_ttl f_checksum f_source f_destination f_sourcePort
              f_destinationPort f_udpChecksum f_payload f_trailer];
    try (apply sized_part; [done|lia]); try (apply byte_lookup; [done|lia]).
  - apply (sized_part p 0 12); [done|lia].
  - split; apply sized_part; (done || lia).
  - split; [by apply Forall_take, Forall_drop|]. cbn [frameOf f_payload] in Hpay. lia.
  - by apply Forall_drop, Forall_drop.
  - assert (Hlen : length (ipHeader (frameOf p)) = 20%nat).
    { apply (f_equal length) in Hh. rewrite length_app, !length_drop in Hh. lia. }
    rewrite Hh, take_app_length' in Hsum by done. done.
Qed.

Ltac explode l H :=
  destruct H as [? ?]; repeat (destruct l as [|? l]; cbn [length] in *; try lia); subst;
  rewrite ?Forall_cons in *.

Lemma frame_accepted f : wf_frame f -> Forall is_byte (encodeFrame f) /\ accepted (encodeFrame f).
Proof.
  destruct f as [macs tos i df ttl ck src dst sp dp uck pay tr].
  intros [K1 K2 K3 K4 K5 K6 K7 [K8 K9] K10 [K11 K12] K13 K14].
  cbn [f_macs f_tos f_id f_ttl f_checksum f_source f_destination f_sourcePort f_destinationPort
       f_udpChecksum f_payload f_trailer] in K1, K2, K3, K4, K5, K6, K7, K8, K9, K10, K11, K12, K13.
  explode macs K1. explode i K3. explode ck K5. explode src K6. explode dst K7. explode sp K8.
  explode dp K9. explode uck K10. pose proof (len_nonneg pay) as Hpay.
  assert (Hbig : forall n, 0 <= n < 65536 -> is_byte (n / 256) /\ is_byte (n mod 256))
    by (unfold is_byte; intros; Z.div_mod_to_equations; lia).
  destruct (Hbig (28 + len pay) ltac:(lia)) as [Hhigh Hlow].
  destruct (Hbig (8 + len pay) ltac:(lia)) as [Hhigh' Hlow'].
  assert (Hconst : is_byte 8 /\ is_byte 0 /\ is_byte 69 /\ is_byte 17 /\ is_byte (if df then 64 else 0))
    by (unfold is_byte; destruct df; lia).
  split.
  - unfold encodeFrame, ipHeader, big16.
    cbn [f_macs f_tos f_id f_dontFragment f_ttl f_checksum f_source f_destination f_sourcePort
         f_destinationPort f_udpChecksum f_payload f_trailer app].
    rewrite ?Forall_cons, Forall_app. tauto.
  - set (f := mkFrame _ _ _ _ _ _ _ _ _ _ _ _ _) in *. set (p := encodeFrame f).
    assert (Hlen : len p = 42 + len pay + len tr).
    { unfold len. change (length p) with (42 + length (pay ++ tr))%nat. rewrite length_app. lia. }
    assert (H16 : p !!! 16%nat = (28 + len pay) / 256) by reflexivity.
    assert (H17 : p !!! 17%nat = (28 + len pay) mod 256) by reflexivity.
    assert (H38 : p !!! 38%nat = (8 + len pay) / 256) by reflexivity.
    assert (H39 : p !!! 39%nat = (8 + len pay) mod 256) by reflexivity.
    assert (Hjoin : forall n, 256 * (n / 256) + n mod 256 = n) by (intros n; pose proof (Z.div_mod n 256); lia).
    unfold accepted. rewrite H16, H17, H38, H39, !Hjoin, Hlen. pose proof (len_nonneg tr).
    split_and!; try reflexivity; try lia; [|exact K14].
    change (p !!! 20%nat) with (if df then 64 else 0). destruct df; auto.
Qed.

Lemma supported_frame p :
  Forall is_byte p -> supportedPacket p = true <-> exists f, wf_frame f /\ p = encodeFrame f.
Proof.
  intros Hp. rewrite supported_accepted by done. split.
  - intros Ha. exists (frameOf p). split; [by apply accepted_frame|by apply accepted_encodes].
  - intros (f & Hf & ->). by apply frame_accepted.
Qed.

Lemma frame_fields f :
  wf_frame f ->
  flowBytes (encodeFrame f) = frame_flow f /\ vipBytes (encodeFrame f) = f_destination f /\
  portBytes (encodeFrame f) = f_destinationPort f.
Proof.
  destruct f as [macs tos i df ttl ck src dst sp dp uck pay tr].
  intros [K1 _ K3 _ K5 K6 K7 [K8 K9] _ _ _ _].
  cbn [f_macs f_id f_checksum f_source f_destination f_sourcePort f_destinationPort] in K1, K3, K5, K6, K7, K8, K9.
  explode macs K1. explode i K3. explode ck K5. explode src K6. explode dst K7. explode sp K8.
  explode dp K9. done.
Qed.

(** The frame with the addresses of a backend's link. *)
Definition retarget (b : UdpDsrBackendValue) (f : Frame) : Frame :=
  mkFrame (destinationMac b ++ sourceMac b) (f_tos f) (f_id f) (f_dontFragment f) (f_ttl f)
    (f_checksum f) (f_source f) (f_destination f) (f_sourcePort f) (f_destinationPort f)
    (f_udpChecksum f) (f_payload f) (f_trailer f).

Lemma retarget_rewritten b f :
  wf_frame f -> rewritten (VForward b) (encodeFrame f) = encodeFrame (retarget b f).
Proof.
  intros [[Hl _] _ _ _ _ _ _ _ _ _ _ _]. cbn [rewritten]. unfold encodeFrame at 1.
  rewrite drop_app_length' by done. unfold encodeFrame. cbn [retarget f_macs]. by rewrite <-app_assoc.
Qed.

(** The configuration selects the backend [b] for the frame [f]. *)
Record selected (config : UdpDsrConfigValue) (backends : Z -> option UdpDsrBackendValue) (f : Frame)
    (b : UdpDsrBackendValue) : Prop := {
  sel_config : schemaVersion config = 2 /\ backendCount config <= 64 /\ reserved config = 0;
  sel_address : loadLittle (f_destination f) = vipAddress config;
  sel_port : loadLittle (f_destinationPort f) = vipPort config;
  sel_count : backendCount config <> 0;
  sel_backend : backends (fnv1a (frame_flow f ++ [17]) mod backendCount config) = Some b;
  sel_valid : invalidBackend b = false
}.

Lemma valid_config c :
  invalidDsrConfig c = false <-> schemaVersion c = 2 /\ backendCount c <= 64 /\ reserved c = 0.
Proof. unfold invalidDsrConfig. rewrite !orb_false_iff, !negb_false_iff, !Z.eqb_eq, Z.ltb_ge. tauto. Qed.

Lemma verdict_selected redirectPacket config backends f b :
  wf_frame f -> selected config backends f b ->
  dsrVerdict redirectPacket (Some config) backends (encodeFrame f) =
  if redirectPacket (ifindex b) =? redirectCode then VForward b else VHelperError.
Proof.
  intros Hf [Hc Ha Hp Hn Hb Hv]. destruct (frame_accepted f Hf) as [Hbytes Hacc].
  apply supported_accepted in Hacc; [|done]. destruct (frame_fields f Hf) as (E1 & E2 & E3).
  unfold dsrVerdict, verdict. rewrite Hacc, E1, E2, E3, Ha, Hp, !Z.eqb_refl. cbn [negb orb].
  apply valid_config in Hc. rewrite Hc. destruct (Z.eqb_spec (backendCount config) 0); [done|].
  unfold targetVerdict. by rewrite Hb, Hv.
Qed.

Lemma verdict_target redirectPacket config backends p :
  Forall is_byte p ->
  let v := dsrVerdict redirectPacket (Some config) backends p in
  (exists b, v = VForward b) \/ v = VHelperError ->
  exists f b, wf_frame f /\ p = encodeFrame f /\ selected config backends f b.
Proof.
  intros Hp v Hv. unfold v, dsrVerdict, verdict in Hv.
  destruct (supportedPacket p) eqn:Hs; cbn [negb] in Hv; [|naive_solver].
  apply supported_frame in Hs as (f & Hf & ->); [|done].
  destruct (frame_fields f Hf) as (E1 & E2 & E3). rewrite E1, E2, E3 in Hv.
  destruct (invalidDsrConfig config) eqn:Hc; [naive_solver|]. apply valid_config in Hc.
  destruct (Z.eqb_spec (loadLittle (f_destination f)) (vipAddress config)) as [Ha|]; [|cbn in Hv; naive_solver].
  destruct (Z.eqb_spec (loadLittle (f_destinationPort f)) (vipPort config)) as [Hport|]; [|cbn in Hv; naive_solver].
  cbn [negb orb] in Hv. destruct (Z.eqb_spec (backendCount config) 0) as [|Hn]; [naive_solver|].
  unfold targetVerdict in Hv. destruct (backends _) as [b|] eqn:Hb; [|naive_solver].
  destruct (invalidBackend b) eqn:Hinv; [naive_solver|]. exists f, b. by split_and!.
Qed.

(** C5: the static program forwards exactly what it promises.  It accesses the
    packet in bounds only and always returns an action.  A packet is redirected
    exactly when it is the encoding of an unfragmented UDP frame with a valid
    header checksum for the configured address, the FNV-1a hash of its flow
    selects a valid backend, and the helper accepts; then only the two MAC
    addresses change, to the backend's.  It is dropped exactly when the helper
    refuses the selected backend; every packet not redirected is unchanged. *)
Theorem xdp_udp_dsr_forwards_exactly redirectPacket config backends p s :
  Forall is_byte p -> (forall k b, backends k = Some b -> macs_sized b) ->
  exists action p' s',
    xdp_udp_dsr redirectPacket (Some config) backends p (Some s) = (Ret action, (p', Some s')) /\
    (action = XDP_REDIRECT <-> exists f b, wf_frame f /\ p = encodeFrame f /\
       selected config backends f b /\ redirectPacket (ifindex b) = redirectCode) /\
    (action = XDP_DROP <-> exists f b, wf_frame f /\ p = encodeFrame f /\
       selected config backends f b /\ redirectPacket (ifindex b) <> redirectCode) /\
    (forall f b, wf_frame f -> p = encodeFrame f -> selected config backends f b ->
       redirectPacket (ifindex b) = redirectCode -> p' = encodeFrame (retarget b f)) /\
    (action <> XDP_REDIRECT -> p' = p).
Proof.
  intros Hp Hmacs. unfold xdp_udp_dsr, onPacket. rewrite dsr_body_eq by done. cbn [data stats].
  set (v := dsrVerdict redirectPacket (Some config) backends p).
  eexists _, _, _. split; [reflexivity|].
  assert (Hsel : forall f b, wf_frame f -> p = encodeFrame f -> selected config backends f b ->
    v = if redirectPacket (ifindex b) =? redirectCode then VForward b else VHelperError).
  { intros f b Hf -> Hs. by apply verdict_selected. }
  pose proof (verdict_target redirectPacket config backends p Hp) as Hback. fold v in Hback. cbv zeta in Hback.
  split_and!.
  - split.
    + intros Ha. destruct v as [| | | |b] eqn:Hv; try done.
      destruct Hback as (f & b' & Hf & He & Hs); [eauto|]. exists f, b'. split_and!; try done.
      specialize (Hsel f b' Hf He Hs). by destruct (Z.eqb_spec (redirectPacket (ifindex b')) redirectCode).
    + intros (f & b & Hf & He & Hs & Hr). rewrite (Hsel f b Hf He Hs), Hr, Z.eqb_refl. done.
  - split.
    + intros Ha. destruct v as [| | | |b] eqn:Hv; try done.
      destruct Hback as (f & b' & Hf & He & Hs); [eauto|]. exists f, b'. split_and!; try done.
      specialize (Hsel f b' Hf He Hs). by destruct (Z.eqb_spec (redirectPacket (ifindex b')) redirectCode).
    + intros (f & b & Hf & He & Hs & Hr). rewrite (Hsel f b Hf He Hs).
      by destruct (Z.eqb_spec (redirectPacket (ifindex b)) redirectCode).
  - intros f b Hf He Hs Hr. rewrite (Hsel f b Hf He Hs), Hr, Z.eqb_refl, He. by apply retarget_rewritten.
  - by destruct v.
Qed.

(** The packet is one for the configured address, but the snapshot holds no
    backend. *)
Record unserved (r : UdpRuntimeSnapshot) (f : Frame) : Prop := {
  un_reserved : rs_reserved r = 0;
  un_address : loadLittle (f_destination f) = rs_vipAddress r;
  un_port : loadLittle (f_destinationPort f) = rs_vipPort r;
  un_count : rs_backendCount r = 0
}.

Lemma verdict_unserved redirectPacket r p :
  Forall is_byte p -> rs_schemaVersion r = 3 -> rs_generation r <> 0 ->
  runtimeVerdict redirectPacket (Some r) p = VNoBackend <->
  exists f, wf_frame f /\ p = encodeFrame f /\ unserved r f.
Proof.
  intros Hp Hv Hg. unfold runtimeVerdict, verdict, invalidRuntimeConfig.
  cbn [fmap option_fmap option_map snapshotConfig vipAddress vipPort backendCount]. rewrite Hv.
  destruct (Z.eqb_spec (rs_generation r) 0) as [|_]; [done|]. rewrite orb_false_r.
  split.
  - destruct (supportedPacket p) eqn:Hs; cbn [negb]; [|done].
    apply supported_frame in Hs as (f & Hf & ->); [|done]. destruct (frame_fields f Hf) as (_ & E1 & E2).
    rewrite E1, E2. destruct (_ || _) eqn:Hi; [done|]. destruct (negb (loadLittle _ =? _) || _) eqn:Ha; [done|].
    destruct (Z.eqb_spec (rs_backendCount r) 0) as [Hn|].
    + intros _. rewrite !orb_false_iff, !negb_false_iff, !Z.eqb_eq in Ha.
      rewrite !orb_false_iff, !negb_false_iff, !Z.eqb_eq in Hi. destruct Hi, Ha. exists f. split; [done|]. split; [done|]. by split.
    + unfold targetVerdict. destruct (snapshotBackend r _); [|done].
      destruct (invalidBackend _); [done|]. by destruct (_ =? redirectCode).
  - intros (f & Hf & -> & [Hr Ha Hport Hn]). destruct (frame_accepted f Hf) as [Hbytes Hacc].
    apply supported_accepted in Hacc; [|done]. destruct (frame_fields f Hf) as (_ & E1 & E2).
    rewrite Hacc, E1, E2, Ha, Hport, Hr, Hn, !Z.eqb_refl. done.
Qed.

(** The counters after a packet without a backend. *)
Definition countNoBackend (last : Counter) (s : UdpDsrStatsValue) : UdpDsrStatsValue :=
  addOne last (addOne CNoBackend (addOne CTotal s)).

(** C19: the two programs agree.  With the same addresses and backends the
    program that reads published snapshots does to every packet what the static
    one does, in the packet, the action and the counters, as long as there is a
    backend.  Without one they differ exactly on the well-formed packets for the
    configured address, when there is a slot for the statistics: these the static
    program passes and counts as passed, and the other one drops and counts as
    dropped; both count them as packets without a backend and leave them
    unchanged.  On every other packet they agree. *)
Theorem xdp_udp_rt_equivalent redirectPacket r p slot :
  snapshot_sized r -> rs_schemaVersion r = 3 -> rs_generation r <> 0 ->
  let config := mkUdpDsrConfigValue 2 (rs_backendCount r) (rs_vipAddress r) (rs_vipPort r) (rs_reserved r) in
  let dsr := xdp_udp_dsr redirectPacket (Some config) (snapshotBackend r) p slot in
  let rt := xdp_udp_rt redirectPacket (Some r) p slot in
  (rs_backendCount r <> 0 -> rt = dsr) /\
  (Forall is_byte p -> forall s, slot = Some s ->
     (exists f, wf_frame f /\ p = encodeFrame f /\ unserved r f) ->
     dsr = (Ret XDP_PASS, (p, Some (countNoBackend CPass s))) /\
     rt = (Ret XDP_DROP, (p, Some (countNoBackend CDrop s)))) /\
  (Forall is_byte p ->
     slot = None \/ ~ (exists f, wf_frame f /\ p = encodeFrame f /\ unserved r f) -> rt = dsr).
Proof.
  intros Hsized Hv Hg config dsr rt. unfold dsr, rt, xdp_udp_dsr, xdp_udp_rt, onPacket.
  destruct slot as [s|]; [|by split_and!].
  rewrite rt_body_eq by (intros ? [= <-]; done). destruct Hsized as (H64 & Hmacs & _).
  rewrite dsr_body_eq by (intros k b Hb; by eapply Forall_lookup_1). cbn [data stats].
  assert (He : dsrVerdict redirectPacket (Some config) (snapshotBackend r) p =
               runtimeVerdict redirectPacket (Some r) p).
  { unfold dsrVerdict, runtimeVerdict, invalidDsrConfig, invalidRuntimeConfig.
    cbn [schemaVersion backendCount reserved config fmap option_fmap option_map]. rewrite Hv.
    destruct (Z.eqb_spec (rs_generation r) 0); [done|]. by rewrite orb_false_r. }
  rewrite He. clear He. pose proof (verdict_unserved redirectPacket r p) as Hun.
  assert (Hagree : runtimeVerdict redirectPacket (Some r) p <> VNoBackend ->
    actionOf (runtimeVerdict redirectPacket (Some r) p) XDP_DROP =
      actionOf (runtimeVerdict redirectPacket (Some r) p) XDP_PASS /\
    counters (runtimeVerdict redirectPacket (Some r) p) CDrop =
      counters (runtimeVerdict redirectPacket (Some r) p) CPass)
    by (by destruct (runtimeVerdict redirectPacket (Some r) p)).
  split_and!.
  - intros Hn. destruct Hagree as [-> ->]; [|done]. intros Ev. unfold runtimeVerdict, verdict in Ev.
    destruct (supportedPacket p); [|done]. cbn [negb fmap option_fmap option_map] in Ev.
    destruct (invalidRuntimeConfig r); [done|]. destruct (_ || _); [done|].
    cbn [backendCount snapshotConfig] in Ev. destruct (Z.eqb_spec (rs_backendCount r) 0); [done|].
    unfold targetVerdict in Ev. destruct (snapshotBackend r _); [|done].
    destruct (invalidBackend _); [done|]. by destruct (_ =? redirectCode).
  - intros Hp s' [= <-] Hf. by apply Hun in Hf as ->.
  - intros Hp [[=]|Hn]. destruct Hagree as [-> ->]; [|done]. intros Ev. apply Hn. by apply Hun.
Qed.

(** ** Accounting *)

(** A sequence of packets through the statistics slot of one CPU: the actions and
    the counters; [None] if a program does not return an action. *)
Fixpoint runPackets (program : list Z -> option UdpDsrStatsValue ->
      outcome XdpAction * (list Z * option UdpDsrStatsValue))
    (packets : list (list Z)) (s : UdpDsrStatsValue) : option (list XdpAction * UdpDsrStatsValue) :=
  match packets with
  | [] => Some ([], s)
  | p :: packets' =>
      match program p (Some s) with
      | (Ret action, (_, Some s')) =>
          '(actions, s'') ← runPackets program packets' s'; Some (action :: actions, s'')
      | _ => None
      end
  end.

(** The total is the sum of the actions, modulo 2^64, and what was not redirected
    is the sum of the reasons. *)
Record accounted (noBackendDrops : bool) (s : UdpDsrStatsValue) : Prop := {
  ac_total : totalPackets s = u64 (passPackets s + redirectRequests s + dropPackets s);
  ac_pass : passPackets s = u64 (unsupportedPackets s + invalidConfigPackets s +
                                 if noBackendDrops then 0 else noBackendPackets s);
  ac_drop : dropPackets s = u64 (helperErrorPackets s + if noBackendDrops then noBackendPackets s else 0)
}.

Lemma addOne_accounted (drops : bool) v s :
  accounted drops s ->
  accounted drops (foldl (fun s c => addOne c s) s (counters v (if drops then CDrop else CPass))).
Proof.
  destruct s as [t p r d u n i h]. intros [K1 K2 K3]. cbn in K1, K2, K3. unfold u64 in *.
  change (2 ^ 64) with 18446744073709551616 in *.
  destruct drops, v; cbn [counters foldl addOne]; split;
    cbn [totalPackets passPackets redirectRequests dropPackets unsupportedPackets noBackendPackets
         invalidConfigPackets helperErrorPackets]; unfold u64;
    change (2 ^ 64) with 18446744073709551616;
    Z.div_mod_to_equations; lia.
Qed.

(** How often an action was taken. *)
Definition occurrences (a : XdpAction) (actions : list XdpAction) : Z :=
  len (filter (fun x => x = a) actions).

(** The counters moved on from [s] to [s'] by what the [actions] call for. *)
Record counted (actions : list XdpAction) (s s' : UdpDsrStatsValue) : Prop := {
  cd_total : u64 (totalPackets s') = u64 (totalPackets s + len actions);
  cd_pass : u64 (passPackets s') = u64 (passPackets s + occurrences XDP_PASS actions);
  cd_redirect : u64 (redirectRequests s') = u64 (redirectRequests s + occurrences XDP_REDIRECT actions);
  cd_drop : u64 (dropPackets s') = u64 (dropPackets s + occurrences XDP_DROP actions)
}.

Lemma u64_step a b c d : u64 b = u64 (u64 (a + d) + c) -> u64 b = u64 (a + (d + c)).
Proof.
  intros ->. unfold u64. rewrite Zplus_mod_idemp_l. f_equal. lia.
Qed.
Lemma u64_same a b c : u64 b = u64 (a + c) -> u64 b = u64 (a + (0 + c)).
Proof. done. Qed.

Lemma counted_cons (drops : bool) v actions s s' :
  counted actions (foldl (fun s c => addOne c s) s (counters v (if drops then CDrop else CPass))) s' ->
  counted (actionOf v (if drops then XDP_DROP else XDP_PASS) :: actions) s s'.
Proof.
  assert (Ho : forall a x, occurrences a (x :: actions) =
    (if bool_decide (x = a) then 1 else 0) + occurrences a actions).
  { intros a x. unfold occurrences. rewrite filter_cons. case_decide; case_bool_decide; try done.
    by rewrite len_cons. }
  destruct s as [t p r d u n i h]. intros [K1 K2 K3 K4].
  destruct drops, v; cbn [counters foldl addOne] in K1, K2, K3, K4;
    cbn [totalPackets passPackets redirectRequests dropPackets] in K1, K2, K3, K4;
    split; cbn [totalPackets passPackets redirectRequests dropPackets actionOf];
    rewrite ?Ho, ?len_cons; first [by apply u64_step|by apply u64_same].
Qed.

(** What one packet does, for both programs. *)
Lemma runPackets_spec (drops : bool) program :
  (forall p s, exists v p', program p (Some s) =
     (Ret (actionOf v (if drops then XDP_DROP else XDP_PASS)),
      (p', Some (foldl (fun s c => addOne c s) s (counters v (if drops then CDrop else CPass)))))) ->
  forall packets s, exists actions s', runPackets program packets s = Some (actions, s') /\
    length actions = length packets /\ counted actions s s' /\ (accounted drops s -> accounted drops s').
Proof.
  intros Hprogram packets. induction packets as [|p packets IH]; intros s; cbn [runPackets].
  { exists [], s. split; [done|]. split; [done|]. split; [|done].
    by split; unfold occurrences, len; cbn [filter list_filter length]; rewrite Z.add_0_r. }
  destruct (Hprogram p s) as (v & p' & ->).
  destruct (IH (foldl (fun s c => addOne c s) s (counters v (if drops then CDrop else CPass))))
    as (actions & s' & -> & Hl & Hc & Ha). cbn [mbind option_bind].
  eexists _, s'. split; [done|]. split; [cbn [length]; congruence|].
  split; [by apply counted_cons|]. intros Hs. by apply Ha, addOne_accounted.
Qed.

(** C20: packet accounting.  Whatever packets arrive, in any order and number,
    both programs return an action for each of them, and modulo 2^64 the total
    grows by the number of packets and the passed, redirected and dropped ones
    by the number of times that action was returned.  If the counters were
    balanced, they stay so: the total is the sum of the passed, the redirected
    and the dropped packets, and the passed and dropped packets are the sums of
    their reasons. *)
Theorem xdp_stats_balanced redirectPacket config backends snapshot packets s :
  (forall k b, backends k = Some b -> macs_sized b) ->
  (forall r, snapshot = Some r -> snapshot_sized r) ->
  (exists actions s',
     runPackets (xdp_udp_dsr redirectPacket config backends) packets s = Some (actions, s') /\
     length actions = length packets /\ counted actions s s' /\ (accounted false s -> accounted false s')) /\
  (exists actions s',
     runPackets (xdp_udp_rt redirectPacket snapshot) packets s = Some (actions, s') /\
     length actions = length packets /\ counted actions s s' /\ (accounted true s -> accounted true s')).
Proof.
  intros Hb Hr. split.
  - apply (runPackets_spec false). intros p s0. exists (dsrVerdict redirectPacket config backends p).
    unfold xdp_udp_dsr, onPacket. rewrite dsr_body_eq by done. eauto.
  - apply (runPackets_spec true). intros p s0. exists (runtimeVerdict redirectPacket snapshot p).
    unfold xdp_udp_rt, onPacket. rewrite rt_body_eq by done. eauto.
Qed.

(** ** Witnesses *)

Module XdpExample.
Definition backendLink : UdpDsrBackendValue :=
  mkUdpDsrBackendValue 7 [2; 0; 0; 0; 0; 9] [2; 0; 0; 0; 0; 1].
(** 10.0.0.1:53 as the host loads it. *)
Definition config : UdpDsrConfigValue := mkUdpDsrConfigValue 2 1 16777226 13568 0.
Definition backends (k : Z) : option UdpDsrBackendValue := if k =? 0 then Some backendLink else None.
Definition snapshot : UdpRuntimeSnapshot :=
  mkUdpRuntimeSnapshot 3 1 1 16777226 13568 0 (backendLink :: replicate 63 emptyDsrBackend).
Definition accepts (_ : Z) : Z := redirectCode.

(** "hi" from 192.168.0.7:4000 to 10.0.0.1:53. *)
Definition query : Frame :=
  mkFrame (replicate 12 4) 0 [0; 1] true 64 [112; 30] [192; 168; 0; 7] [10; 0; 0; 1] [15; 160] [0; 53]
    [0; 0] [104; 105] [].

Lemma query_wf : wf_frame query.
Proof. split; try split; cbn; try (repeat constructor; unfold is_byte; lia); try done. Qed.

Lemma query_selected : selected config backends query backendLink.
Proof. by split; vm_compute. Qed.

Lemma backends_sized k b : backends k = Some b -> macs_sized b.
Proof. unfold backends. destruct (k =? 0); [|done]. by intros [= <-]. Qed.

Lemma snapshot_is_sized : snapshot_sized snapshot.
Proof. split_and!; [done| |done]. unfold snapshot. cbn [rs_backends]. repeat constructor; done. Qed.
End XdpExample.

Import XdpExample.

(** The query is redirected with the backend's addresses. *)
Lemma xdp_udp_dsr_forwards_exactly_witness :
  (xdp_udp_dsr accepts (Some config) backends (encodeFrame query) (Some zeroStats)).1 = Ret XDP_REDIRECT /\
  (xdp_udp_dsr accepts (Some config) backends (encodeFrame query) (Some zeroStats)).2.1 =
    encodeFrame (retarget backendLink query).
Proof.
  assert (Hbytes : Forall is_byte (encodeFrame query)) by (apply frame_accepted, query_wf).
  destruct (xdp_udp_dsr_forwards_exactly accepts config backends (encodeFrame query) zeroStats
              Hbytes backends_sized) as (a & p' & s' & Heq & [_ Hr] & _ & Hp & _).
  rewrite Heq. cbn [fst snd]. split.
  - f_equal. apply Hr. exists query, backendLink.
    split_and!; [exact query_wf|done|exact query_selected|reflexivity].
  - apply Hp; [exact query_wf|done|exact query_selected|reflexivity].
Defined.

(** The query is served by both programs; without a backend one passes it and
    the other drops it. *)
Definition emptied : UdpRuntimeSnapshot :=
  mkUdpRuntimeSnapshot 3 0 2 16777226 13568 0 (replicate 64 emptyDsrBackend).
Lemma emptied_sized : snapshot_sized emptied.
Proof. split_and!; [done| |done]. unfold emptied. cbn [rs_backends]. repeat constructor; done. Qed.

Lemma xdp_udp_rt_equivalent_witness :
  xdp_udp_rt accepts (Some snapshot) (encodeFrame query) (Some zeroStats) =
    xdp_udp_dsr accepts (Some config) (snapshotBackend snapshot) (encodeFrame query) (Some zeroStats) /\
  xdp_udp_rt accepts (Some emptied) (encodeFrame query) (Some zeroStats) =
    (Ret XDP_DROP, (encodeFrame query, Some (mkUdpDsrStatsValue 1 0 0 1 0 1 0 0))).
Proof.
  split.
  - refine (proj1 (xdp_udp_rt_equivalent accepts snapshot (encodeFrame query) (Some zeroStats)
                     snapshot_is_sized eq_refl _) _); discriminate.
  - assert (Hbytes : Forall is_byte (encodeFrame query)) by (apply frame_accepted, query_wf).
    assert (Hg : rs_generation emptied <> 0) by discriminate.
    destruct (xdp_udp_rt_equivalent accepts emptied (encodeFrame query) (Some zeroStats)
                emptied_sized eq_refl Hg) as (_ & Hdrop & _).
    destruct (Hdrop Hbytes zeroStats eq_refl) as [_ Hrt]; [|exact Hrt].
    exists query. split; [exact query_wf|]. split; [reflexivity|]. split; vm_compute; reflexivity.
Defined.

(** One query and one short packet. *)
Lemma xdp_stats_balanced_witness :
  runPackets (xdp_udp_dsr accepts (Some config) backends) [encodeFrame query; [1; 2; 3]] zeroStats =
    Some ([XDP_REDIRECT; XDP_PASS], mkUdpDsrStatsValue 2 1 1 0 1 0 0 0) /\
  exists actions s',
    runPackets (xdp_udp_dsr accepts (Some config) backends) [encodeFrame query; [1; 2; 3]] zeroStats =
      Some (actions, s') /\ length actions = 2%nat /\ counted actions zeroStats s' /\
    (accounted false zeroStats -> accounted false s').
Proof.
  split; [vm_compute; reflexivity|].
  refine (proj1 (xdp_stats_balanced accepts (Some config) backends (Some snapshot)
    [encodeFrame query; [1; 2; 3]] zeroStats backends_sized _)).
  intros r [= <-]. exact snapshot_is_sized.
Defined.
