(* ===== verification/BpfKernel.v ===== *)
(** * libbpf and the bpf(2) calls

    The library and the kernel behind src/src/xdp are code outside this
    repository: type classes over an arbitrary world [K].  Objects, maps and
    programs are pointers of the library and the accessors read them.  A call
    that fails returns [inr] the errno.  The second half is what the three map
    stores share: the expected shape of a map and the error they report. *)
From S2P Require Import Prelude XdpSchema.

Abbreviation bpf_object := Z (only parsing).
Abbreviation bpf_map := Z (only parsing).
Abbreviation bpf_program := Z (only parsing).

Definition BPF_MAP_TYPE_ARRAY : Z := 2.
Definition BPF_MAP_TYPE_PERCPU_ARRAY : Z := 6.
Definition BPF_MAP_TYPE_ARRAY_OF_MAPS : Z := 12.
Definition BPF_PROG_TYPE_XDP : Z := 6.
Definition BPF_F_RDONLY_PROG : Z := 128.

(** The fields of [struct bpf_map_info] that the source looks at. *)
Record bpf_map_info := mkBpfMapInfo {
  info_name : bytes;
  info_type : Z;
  info_id : Z;
  info_key_size : Z;
  info_value_size : Z;
  info_max_entries : Z;
  info_map_flags : Z
}.

Class Libbpf (K : Type) := {
  bpf_object__open_mem : bytes -> K -> (bpf_object + Z) * K;
  bpf_object__load : bpf_object -> K -> (unit + Z) * K;
  bpf_object__close : bpf_object -> K -> K;
  (** [bpf_object__for_each_map] and [bpf_object__for_each_program]. *)
  bpf_object_maps : bpf_object -> K -> list bpf_map;
  bpf_object_programs : bpf_object -> K -> list bpf_program;
  bpf_object__find_map_by_name : bpf_object -> bytes -> K -> option bpf_map;
  bpf_map__name : bpf_map -> K -> bytes;
  bpf_map__type : bpf_map -> K -> Z;
  bpf_map__key_size : bpf_map -> K -> Z;
  bpf_map__value_size : bpf_map -> K -> Z;
  bpf_map__max_entries : bpf_map -> K -> Z;
  bpf_map__map_flags : bpf_map -> K -> Z;
  bpf_map__inner_map : bpf_map -> K -> option bpf_map;
  bpf_map__fd : bpf_map -> K -> Z;
  bpf_program__name : bpf_program -> K -> bytes;
  bpf_program__section_name : bpf_program -> K -> bytes;
  bpf_program__type : bpf_program -> K -> Z;
  bpf_program__fd : bpf_program -> K -> Z;
  libbpf_num_possible_cpus : K -> Z
}.

Class BpfCalls (K : Type) := {
  bpf_map_get_info : Z -> K -> (bpf_map_info + Z) * K;
  bpf_map_freeze : Z -> K -> (unit + Z) * K;
  (** type, name, key size, value size, entries and flags *)
  bpf_map_create : Z -> bytes -> Z -> Z -> Z -> Z -> K -> (Z + Z) * K;
  bpf_close : Z -> K -> K;
  bpf_strerror : Z -> bytes
}.

(** The elements of a map, by the type the source passes a pointer to. *)
Class BpfElements (K V : Type) := {
  bpf_map_update_elem : Z -> Z -> V -> K -> (unit + Z) * K;
  bpf_map_lookup_elem : Z -> Z -> K -> (V + Z) * K
}.

Record MapSpec := mkMapSpec {
  mapName : bytes;
  mapType : Z;
  valueSize : Z;
  maxEntries : Z;
  mapFlags : Z
}.

(** [errno] after the call that failed *)
Definition mapSystemError {K} `{BpfCalls K} (operation : bytes) (error : Z) : exn :=
  RuntimeError (operation ++ bs " errno=" ++ to_string error ++ bs ": " ++ bpf_strerror error).

Section store.
Context {K : Type} `{Libbpf K} `{BpfCalls K}.

Definition orThrowMap {A} (operation : bytes) (op : K -> (A + Z) * K) : M K A :=
  result <- mworld op ;;
  match result with
  | inl a => mret a
  | inr error => mthrow (mapSystemError operation error)
  end.

Definition matchesMapSpecification (m : bpf_map) (spec : MapSpec) (k : K) : bool :=
  (bpf_map__type m k =? mapType spec) && (bpf_map__key_size m k =? 4) &&
  (bpf_map__value_size m k =? valueSize spec) &&
  (bpf_map__max_entries m k =? maxEntries spec) && (bpf_map__map_flags m k =? mapFlags spec).

(** The test of a loaded map's metadata; the name of a map that is not the
    object's own is not looked at. *)
Definition matchesMetadata (info : bpf_map_info) (spec : MapSpec) (checkName : bool) : bool :=
  negb ((checkName && negb (bool_decide (info_name info = mapName spec))) ||
        negb (info_type info =? mapType spec) || negb (info_key_size info =? 4) ||
        negb (info_value_size info =? valueSize spec) ||
        negb (info_max_entries info =? maxEntries spec) ||
        negb (info_map_flags info =? mapFlags spec)).
End store.

(** A sum over the slots of the CPUs, with the wrap-around of the counters. *)
Definition addStats (a b : UdpDsrStatsValue) : UdpDsrStatsValue :=
  mkUdpDsrStatsValue (u64 (totalPackets a + totalPackets b)) (u64 (passPackets a + passPackets b))
    (u64 (redirectRequests a + redirectRequests b)) (u64 (dropPackets a + dropPackets b))
    (u64 (unsupportedPackets a + unsupportedPackets b))
    (u64 (noBackendPackets a + noBackendPackets b))
    (u64 (invalidConfigPackets a + invalidConfigPackets b))
    (u64 (helperErrorPackets a + helperErrorPackets b)).
Definition sumStats (values : list UdpDsrStatsValue) : UdpDsrStatsValue :=
  foldl addStats zeroStats values.

(** The reader of per-CPU statistics in the two DSR stores: the buffer is a
    vector of one value per possible CPU. *)
Definition readPerCpu {K} `{Libbpf K} `{BpfCalls K} `{BpfElements K (list UdpDsrStatsValue)}
    (what : bytes) (fd : Z) : M K UdpDsrStatsValue :=
  cpus <- mgets libbpf_num_possible_cpus ;;
  if (cpus <=? 0) || (UINT64_MAX / 64 <? cpus) then mthrow (RuntimeError (bs "无效 possible CPU 数量"))
  else
    values <- orThrowMap what (bpf_map_lookup_elem fd 0) ;;
    mret (sumStats values).

(** A call of the world by what it promises. *)
Lemma wp_outside_spec {C W A} (m : M W A) (Q : outcome A -> C * W -> Prop) s :
  wp m (fun o w => Q o (s.1, w)) s.2 -> wp (outside m) Q s.
Proof. intros Hm. by apply wp_outside. Qed.

Lemma wp_orThrowMap {K} `{BpfCalls K} {A} what (op : K -> (A + Z) * K)
    (Q : outcome A -> K -> Prop) k :
  (match op k with
   | (inl a, k') => Q (Ret a) k'
   | (inr error, k') => Q (Throw (mapSystemError what error)) k'
   end) -> wp (orThrowMap what op) Q k.
Proof.
  intros HQ. unfold orThrowMap. apply wp_bind, wp_world. destruct (op k) as [[a|error] k'];
    [by apply wp_ret|by apply wp_throw].
Qed.
