(* ===== verification/RuntimeStore.v ===== *)
(** * The store of the runtime snapshot (src/src/xdp/RuntimeMapStore.h, .cpp)

    A snapshot is written to a new map, read back, frozen and then published by
    one update of the outer map.  The file ends with the kernel's promises and
    the theorem that a publication is a transaction. *)
From S2P Require Import Prelude XdpSchema XdpProgram XdpTheorems BpfKernel.

(** ** Data *)

Definition runtimeSnapshotSize : Z := 1048.
Definition activeSpec : MapSpec := mkMapSpec (bs "l4lb_active_v3") BPF_MAP_TYPE_ARRAY_OF_MAPS 4 1 0.
Definition templateSpec : MapSpec :=
  mkMapSpec (bs "l4lb_tpl_v3") BPF_MAP_TYPE_ARRAY runtimeSnapshotSize 1 BPF_F_RDONLY_PROG.
Definition statsSpec : MapSpec := mkMapSpec (bs "l4lb_stats_v3") BPF_MAP_TYPE_PERCPU_ARRAY 64 1 0.
Definition runtimeMapSpecs : list MapSpec := [activeSpec; templateSpec; statsSpec].

Record RuntimeMapStore := mkRuntimeMapStore {
  outerFd_ : Z;
  statsFd_ : Z;
  activeFd_ : Z;
  generation_ : Z
}.

Definition emptySnapshot : UdpRuntimeSnapshot :=
  mkUdpRuntimeSnapshot 0 0 0 0 0 0 (replicate 64 emptyDsrBackend).

(** ** The candidate *)

(** [for (index = 0; index < 64; ++index)] *)
Fixpoint validateBackends (count : Z) (index : Z) (backends : list UdpDsrBackendValue)
    : outcome unit :=
  match backends with
  | [] => Ret tt
  | b :: backends' =>
      if index <? count then
        if (ifindex b =? 0) || negb (validMac (destinationMac b)) || negb (validMac (sourceMac b))
        then Throw (InvalidArgument (bs "无效 runtime backend"))
        else validateBackends count (index + 1) backends'
      else if bool_decide (b <> emptyDsrBackend) then
        Throw (InvalidArgument (bs "未用 runtime 槽必须清零"))
      else validateBackends count (index + 1) backends'
  end.

Definition validateCandidateSnapshot (snapshot : UdpRuntimeSnapshot) (generation : Z)
    : outcome unit :=
  if negb (rs_schemaVersion snapshot =? 3) || (64 <? rs_backendCount snapshot) ||
     negb (rs_reserved snapshot =? 0) || (generation =? UINT64_MAX) ||
     negb (rs_generation snapshot =? generation + 1) || (rs_vipAddress snapshot =? 0) ||
     (rs_vipPort snapshot =? 0)
  then Throw (InvalidArgument (bs "无效 runtime snapshot 或代次"))
  else validateBackends (rs_backendCount snapshot) 0 (rs_backends snapshot).

Section store.
Context {K : Type} `{Libbpf K} `{BpfCalls K} `{BpfElements K UdpRuntimeSnapshot}.
(** The outer map is written with a descriptor and read as a map's ID. *)
Context `{BpfElements K Z} `{BpfElements K (list UdpDsrStatsValue)}.

(** ** Validation of the object and of the descriptors *)

Definition acceptedRuntimeMap (m : bpf_map) (k : K) : bool :=
  foldl (fun accepted spec =>
    if bool_decide (bpf_map__name m k = mapName spec) then matchesMapSpecification m spec k
    else accepted) false runtimeMapSpecs.

Definition acceptedRuntimeProgram (p : bpf_program) (k : K) : bool :=
  bool_decide (bpf_program__name p k = bs "xdp_udp_rt") &&
  bool_decide (bpf_program__section_name p k = bs "xdp") &&
  (bpf_program__type p k =? BPF_PROG_TYPE_XDP).

Definition innerTemplateMatches (object : bpf_object) (k : K) : bool :=
  match bpf_object__find_map_by_name object (mapName activeSpec) k with
  | None => false
  | Some outer =>
      match bpf_map__inner_map outer k with
      | None => false
      | Some inner => matchesMapSpecification inner templateSpec k
      end
  end.

Definition orRuntimeError (what : bytes) (test : K -> bool) : M K unit :=
  ok <- mgets test ;;
  if ok : bool then mret tt else mthrow (RuntimeError what).

Definition validateRuntimeMapObject (object : bpf_object) : M K unit :=
  maps <- mgets (bpf_object_maps object) ;;
  mfor maps (fun m => orRuntimeError (bs "runtime map 白名单不匹配") (acceptedRuntimeMap m)) ;;;
  orRuntimeError (bs "runtime 必须恰好三个 maps") (fun _ => len maps =? len runtimeMapSpecs) ;;;
  mfor runtimeMapSpecs (fun spec =>
    orRuntimeError (bs "缺少 runtime map：" ++ mapName spec)
      (fun k => bool_decide (is_Some (bpf_object__find_map_by_name object (mapName spec) k)))) ;;;
  orRuntimeError (bs "runtime inner 模板不匹配") (innerTemplateMatches object) ;;;
  programs <- mgets (bpf_object_programs object) ;;
  mfor programs (fun p =>
    orRuntimeError (bs "runtime program 白名单不匹配") (acceptedRuntimeProgram p)) ;;;
  orRuntimeError (bs "runtime 必须单程序") (fun _ => len programs =? 1).

Definition validateMapMetadata (fd : Z) (spec : MapSpec) (checkName : bool) : M K bpf_map_info :=
  info <- orThrowMap (bs "读取 runtime map metadata") (bpf_map_get_info fd) ;;
  if matchesMetadata info spec checkName then mret info
  else mthrow (RuntimeError (bs "runtime map metadata 不匹配")).

Definition validateMapDescriptor (object : bpf_object) (spec : MapSpec) : M K Z :=
  found <- mgets (bpf_object__find_map_by_name object (mapName spec)) ;;
  match found with
  | None => mthrow (RuntimeError (bs "缺少 runtime map"))
  | Some m =>
      fd <- mgets (bpf_map__fd m) ;;
      validateMapMetadata fd spec true ;;;
      mret fd
  end.

(** A frozen map refuses the update for lack of permission. *)
Definition verifyFrozenSnapshot (fd : Z) (snapshot : UdpRuntimeSnapshot) : M K unit :=
  updated <- mworld (bpf_map_update_elem fd 0 snapshot) ;;
  match updated with
  | inr error =>
      if (error =? EPERM) || (error =? EACCES) then mret tt
      else mthrow (RuntimeError (bs "runtime inner 未只读冻结"))
  | inl _ => mthrow (RuntimeError (bs "runtime inner 未只读冻结"))
  end.

(** ** Construction and destruction *)

Definition newRuntimeMapStore (object : bpf_object) : M K RuntimeMapStore :=
  outerFd <- validateMapDescriptor object activeSpec ;;
  statsFd <- validateMapDescriptor object statsSpec ;;
  templateFd <- validateMapDescriptor object templateSpec ;;
  orThrowMap (bs "初始化 runtime 模板") (bpf_map_update_elem templateFd 0 emptySnapshot) ;;;
  readback <- orThrowMap (bs "回读 runtime 模板") (bpf_map_lookup_elem templateFd 0) ;;
  if bool_decide (readback <> emptySnapshot) then mthrow (RuntimeError (bs "runtime 模板非零"))
  else
    orThrowMap (bs "冻结 runtime 模板") (bpf_map_freeze templateFd) ;;;
    verifyFrozenSnapshot templateFd emptySnapshot ;;;
    mret (mkRuntimeMapStore outerFd statsFd (-1) 0).

Definition destroyRuntimeMapStore (s : RuntimeMapStore) (k : K) : K :=
  if 0 <=? activeFd_ s then bpf_close (activeFd_ s) k else k.

(** ** Publication *)

(** Everything on the candidate before it is published. *)
Definition prepareCandidate (candidate : Z) (snapshot : UdpRuntimeSnapshot) : M K bpf_map_info :=
  orThrowMap (bs "写入 runtime snapshot") (bpf_map_update_elem candidate 0 snapshot) ;;;
  readback <- orThrowMap (bs "回读 runtime snapshot") (bpf_map_lookup_elem candidate 0) ;;
  if bool_decide (snapshot <> readback) then
    mthrow (RuntimeError (bs "runtime snapshot 回读不一致"))
  else
    orThrowMap (bs "冻结 runtime snapshot") (bpf_map_freeze candidate) ;;;
    info <- validateMapMetadata candidate templateSpec false ;;
    verifyFrozenSnapshot candidate snapshot ;;;
    mret info.

(** The candidate's owner closes it on the way out unless it was released. *)
Definition orCloseCandidate {A} (candidate : Z) (m : M K A) : M K A :=
  mcatch m (fun e => mmodify (bpf_close candidate) ;;; mthrow e).

Definition createCandidate : M K Z :=
  orThrowMap (bs "创建 runtime inner")
    (bpf_map_create BPF_MAP_TYPE_ARRAY (bs "l4lb_snap_v3") 4 runtimeSnapshotSize 1
       BPF_F_RDONLY_PROG).

Definition publishSnapshot (snapshot : UdpRuntimeSnapshot) : M (RuntimeMapStore * K) unit :=
  generation <- own generation_ ;;
  lift_outcome (validateCandidateSnapshot snapshot generation) ;;;
  candidate <- outside createCandidate ;;
  outerFd <- own outerFd_ ;;
  info <- outside (orCloseCandidate candidate
    (info <- prepareCandidate candidate snapshot ;;
     orThrowMap (bs "发布 runtime outer") (bpf_map_update_elem outerFd 0 candidate) ;;;
     mret info)) ;;
  previousFd <- own activeFd_ ;;
  update (fun s => mkRuntimeMapStore (outerFd_ s) (statsFd_ s) candidate (rs_generation snapshot)) ;;;
  effect (fun k => if 0 <=? previousFd then bpf_close previousFd k else k) ;;;
  published <- call (bpf_map_lookup_elem outerFd 0) ;;
  match published with
  | inr _ => mthrow (RuntimePublishError (bs "已发布后终止：outer 回读失败") true)
  | inl publishedId =>
      if negb (publishedId =? info_id info) then
        mthrow (RuntimePublishError (bs "已发布后终止：outer map ID 不一致") true)
      else mret tt
  end.

Definition readRuntimeStatistics (s : RuntimeMapStore) : M K UdpDsrStatsValue :=
  readPerCpu (bs "读取 runtime stats") (statsFd_ s).
End store.

(** ** The kernel's promises

    [fds] maps the open descriptors to map IDs, [snaps] the IDs of the inner maps
    to their value and whether they are frozen, [slots] the IDs of the outer
    maps to the inner map they hold.  A map goes away no earlier than its last
    reference.  Nothing is promised about the value an update leaves (the store
    reads it back), the order of IDs or which call fails. *)

Class RuntimeKernel (K : Type) `{BpfCalls K} `{BpfElements K UdpRuntimeSnapshot}
    `{BpfElements K Z} := {
  fds : K -> gmap Z Z;
  snaps : K -> gmap Z (UdpRuntimeSnapshot * bool);
  slots : K -> gmap Z (option Z);
  rk_create : forall name k,
    match bpf_map_create BPF_MAP_TYPE_ARRAY name 4 runtimeSnapshotSize 1 BPF_F_RDONLY_PROG k with
    | (inl fd, k') => exists i v,
        0 <= fd /\ fds k !! fd = None /\ fds k' = <[fd := i]> (fds k) /\
        (forall fd', fds k !! fd' <> Some i) /\
        snaps k' = <[i := (v, false)]> (snaps k) /\ slots k' = slots k
    | (inr _, k') => fds k' = fds k /\ snaps k' = snaps k /\ slots k' = slots k
    end;
  rk_write : forall fd i v frozen (value : UdpRuntimeSnapshot) k,
    fds k !! fd = Some i -> snaps k !! i = Some (v, frozen) ->
    let '(result, k') := bpf_map_update_elem fd 0 value k in
    fds k' = fds k /\ slots k' = slots k /\
    if frozen : bool then snaps k' = snaps k
    else exists v', snaps k' = <[i := (v', false)]> (snaps k);
  rk_read : forall fd i v frozen k,
    fds k !! fd = Some i -> snaps k !! i = Some (v, frozen) ->
    let '(result, k') := @bpf_map_lookup_elem K UdpRuntimeSnapshot _ fd 0 k in
    fds k' = fds k /\ slots k' = slots k /\ snaps k' = snaps k /\
    match result with inl value => value = v | inr _ => True end;
  rk_freeze : forall fd i v frozen k,
    fds k !! fd = Some i -> snaps k !! i = Some (v, frozen) ->
    let '(result, k') := bpf_map_freeze fd k in
    fds k' = fds k /\ slots k' = slots k /\
    match result with
    | inl _ => snaps k' = <[i := (v, true)]> (snaps k)
    | inr _ => snaps k' = snaps k
    end;
  rk_info : forall fd k,
    let '(_, k') := bpf_map_get_info fd k in
    fds k' = fds k /\ slots k' = slots k /\ snaps k' = snaps k;
  rk_publish : forall outer o held (fd : Z) i k,
    fds k !! outer = Some o -> slots k !! o = Some held -> fds k !! fd = Some i ->
    let '(result, k') := bpf_map_update_elem outer 0 fd k in
    fds k' = fds k /\ snaps k' = snaps k /\
    match result with
    | inl _ => slots k' = <[o := Some i]> (slots k)
    | inr _ => slots k' = slots k
    end;
  rk_published : forall outer k,
    let '(_, k') := @bpf_map_lookup_elem K Z _ outer 0 k in
    fds k' = fds k /\ slots k' = slots k /\ snaps k' = snaps k;
  rk_close : forall fd k,
    fds (bpf_close fd k) = delete fd (fds k) /\ slots (bpf_close fd k) = slots k /\
    forall i, (exists fd', fds (bpf_close fd k) !! fd' = Some i) ->
      snaps (bpf_close fd k) !! i = snaps k !! i
}.

(** What the XDP program finds in the outer map. *)
Definition activeSnapshot {K} `{RuntimeKernel K} (outer : Z) (k : K) : option UdpRuntimeSnapshot :=
  o ← fds k !! outer; held ← slots k !! o; i ← held; fst <$> snaps k !! i.

Section publish.
Context {K : Type} `{Libbpf K} `{RuntimeKernel K}.

(** The descriptors of the object are [base]; the store owns the active one. *)
Inductive owns (base : gmap Z Z) (s : RuntimeMapStore) (k : K) : Prop :=
| owns_nothing o :
    activeFd_ s = -1 -> generation_ s = 0 -> fds k = base ->
    base !! outerFd_ s = Some o -> slots k !! o = Some None -> owns base s k
| owns_active o i v :
    0 <= activeFd_ s -> base !! activeFd_ s = None -> fds k = <[activeFd_ s := i]> base ->
    base !! outerFd_ s = Some o -> slots k !! o = Some (Some i) ->
    snaps k !! i = Some (v, true) -> rs_generation v = generation_ s -> owns base s k.

(** A snapshot that a reader cannot find fault with. *)
Definition publishable (v : UdpRuntimeSnapshot) : Prop :=
  invalidRuntimeConfig v = false /\ rs_vipAddress v <> 0 /\ rs_vipPort v <> 0 /\
  forall n b, rs_backends v !! n = Some b ->
    if Z.of_nat n <? rs_backendCount v then invalidBackend b = false else b = emptyDsrBackend.

Lemma validateBackends_valid count index l :
  validateBackends count index l = Ret tt ->
  forall n b, l !! n = Some b ->
    if index + Z.of_nat n <? count then invalidBackend b = false else b = emptyDsrBackend.
Proof.
  revert index. induction l as [|b0 l IH]; intros index Hv n b Hn; [done|].
  cbn [validateBackends] in Hv.
  destruct n as [|n]; cbn in Hn.
  - injection Hn as ->. rewrite Z.add_0_r. destruct (index <? count).
    + unfold invalidBackend. by destruct (_ || _) in Hv |- *.
    + by case_bool_decide.
  - replace (index + Z.of_nat (S n)) with (index + 1 + Z.of_nat n) by lia. apply IH; [|done].
    destruct (index <? count); [by destruct (_ || _) in Hv|by case_bool_decide].
Qed.

Lemma validateCandidateSnapshot_valid v g :
  0 <= g ->
  match validateCandidateSnapshot v g with
  | Ret _ => publishable v /\ g <> UINT64_MAX /\ rs_generation v = g + 1
  | Throw e => exists what, e = InvalidArgument what
  | Diverge => False
  end.
Proof.
  intros Hg. unfold validateCandidateSnapshot. destruct (_ || _) eqn:Hbad; [by eexists|].
  bool_to_prop.
  destruct (validateBackends _ _ _) as [[]|e|] eqn:Hb.
  - unfold publishable, invalidRuntimeConfig. split_and!; try lia.
    intros n b Hn. by apply (validateBackends_valid _ _ _ Hb n b Hn).
  - clear -Hb. revert Hb. generalize 0. induction (rs_backends v) as [|b l IH]; intros i Hb; [done|].
    cbn [validateBackends] in Hb. repeat case_match; try (simplify_eq; by eexists); eauto.
  - clear -Hb. revert Hb. generalize 0. induction (rs_backends v) as [|b l IH]; intros i Hb; [done|].
    cbn [validateBackends] in Hb. repeat case_match; try done; eauto.
Qed.

(** No exception of the preparation claims to be committed. *)
Definition uncommitted (e : exn) : Prop :=
  match e with RuntimePublishError _ true => False | _ => True end.

(** What one map's operations leave alone. *)
Record only_map (i : Z) (k k' : K) : Prop := {
  om_fds : fds k' = fds k;
  om_slots : slots k' = slots k;
  om_snaps : forall j, j <> i -> snaps k' !! j = snaps k !! j
}.

Lemma only_map_trans i k k' k'' : only_map i k k' -> only_map i k' k'' -> only_map i k k''.
Proof. intros [] []. split; [congruence..|]. intros. rewrite om_snaps1; auto. Qed.

Lemma wp_prepareCandidate c i v0 snapshot k :
  fds k !! c = Some i -> snaps k !! i = Some (v0, false) ->
  wp (prepareCandidate c snapshot)
    (fun o k' => only_map i k k' /\
       match o with
       | Ret _ => snaps k' !! i = Some (snapshot, true)
       | Throw e => uncommitted e
       | Diverge => False
       end) k.
Proof.
  intros Hc Hi. unfold prepareCandidate. apply wp_bind, wp_orThrowMap.
  pose proof (rk_write c i v0 false snapshot k Hc Hi) as Hw.
  destruct (bpf_map_update_elem c 0 snapshot k) as [r k1]. destruct Hw as (F1 & S1 & v1 & N1).
  assert (O1 : only_map i k k1). { split; [done..|]. intros j Hj. by rewrite N1, lookup_insert_ne. }
  destruct r as [_|error]; cbn; [|done]. clear dependent v0.
  assert (Hc1 : fds k1 !! c = Some i) by congruence.
  assert (Hi1 : snaps k1 !! i = Some (v1, false)) by (rewrite N1; by apply lookup_insert_eq).
  apply wp_bind, wp_orThrowMap. pose proof (rk_read c i v1 false k1 Hc1 Hi1) as Hr.
  destruct (bpf_map_lookup_elem c 0 k1) as [r k2]. destruct Hr as (F2 & S2 & N2 & Hv).
  assert (O2 : only_map i k k2). { destruct O1. split; [congruence..|]. intros. rewrite N2. auto. }
  destruct r as [readback|error]; cbn; [subst readback|done].
  case_bool_decide; [by apply wp_throw|].
  apply wp_bind, wp_orThrowMap.
  assert (Hc2 : fds k2 !! c = Some i) by congruence.
  assert (Hi2 : snaps k2 !! i = Some (snapshot, false)) by congruence.
  pose proof (rk_freeze c i _ _ k2 Hc2 Hi2) as Hf.
  destruct (bpf_map_freeze c k2) as [r k3]. destruct Hf as (F3 & S3 & N3).
  destruct r as [_|error]; cbn.
  2:{ split; [|done]. destruct O2. split; [congruence..|]. intros. rewrite N3. auto. }
  assert (Hi3 : snaps k3 !! i = Some (snapshot, true)) by (rewrite N3; by apply lookup_insert_eq).
  assert (O3 : only_map i k k3).
  { destruct O2. split; [congruence..|]. intros. rewrite N3, lookup_insert_ne by done. auto. }
  unfold validateMapMetadata. apply wp_bind, wp_bind, wp_orThrowMap.
  pose proof (rk_info c k3) as Hn. destruct (bpf_map_get_info c k3) as [r k4].
  destruct Hn as (F4 & S4 & N4).
  assert (O4 : only_map i k k4). { destruct O3. split; [congruence..|]. intros. rewrite N4. auto. }
  destruct r as [info|error]; cbn; [|done].
  destruct (matchesMetadata _ _ _); [apply wp_ret; cbn|by apply wp_throw].
  unfold verifyFrozenSnapshot. apply wp_bind, wp_bind, wp_world.
  assert (Hc4 : fds k4 !! c = Some i) by congruence.
  assert (Hi4 : snaps k4 !! i = Some (snapshot, true)) by congruence.
  pose proof (rk_write c i _ _ snapshot k4 Hc4 Hi4) as Hw.
  destruct (bpf_map_update_elem c 0 snapshot k4) as [r k5]. destruct Hw as (F5 & S5 & N5).
  assert (O5 : only_map i k k5). { destruct O4. split; [congruence..|]. intros. rewrite N5. auto. }
  destruct r as [u|error]; cbn; [done|]. destruct (_ || _); [|done]. split; [done|]. cbn. congruence.
Qed.

(** The world before a publication and after one that did not happen. *)
Record unpublished (outer : Z) (k k' : K) : Prop := {
  un_fds : fds k' = fds k;
  un_active : activeSnapshot outer k' = activeSnapshot outer k
}.

(** How a publication may end. *)
Definition transaction (base : gmap Z Z) (snapshot : UdpRuntimeSnapshot) (s : RuntimeMapStore) (k : K)
    (o : outcome unit) (s' : RuntimeMapStore) (k' : K) : Prop :=
  owns base s' k' /\ outerFd_ s' = outerFd_ s /\ statsFd_ s' = statsFd_ s /\
  match o with
  | Ret _ | Throw (RuntimePublishError _ true) =>
      generation_ s' = generation_ s + 1 /\ generation_ s' <= UINT64_MAX /\
      rs_generation snapshot = generation_ s' /\ publishable snapshot /\
      activeSnapshot (outerFd_ s) k' = Some snapshot
  | Throw _ => s' = s /\ unpublished (outerFd_ s) k k'
  | Diverge => False
  end.

Lemma owns_outer base s k : owns base s k -> exists o held, base !! outerFd_ s = Some o /\
  fds k !! outerFd_ s = Some o /\ slots k !! o = Some held.
Proof.
  intros [o Ha Hg Hb Hbo Hsl|o i v Ha Hb Hfk Hbo Hsl Hi Hg]; eexists _, _; split_and!; try done.
  - congruence.
  - rewrite Hfk, lookup_insert_ne; [done|congruence].
Qed.

Lemma transaction_aborted base snapshot s k k' e :
  owns base s k -> uncommitted e -> owns base s k' -> unpublished (outerFd_ s) k k' ->
  transaction base snapshot s k (Throw e) s k'.
Proof. intros Ho He Ho' Hu. split_and!; [done..|]. by destruct e as [| | | | | | | | | |? []]. Qed.

(** Nothing of what the store owns or publishes is touched. *)
Lemma owns_frame base s k k' :
  owns base s k -> fds k' = fds k -> slots k' = slots k ->
  (forall i fd, fds k !! fd = Some i -> snaps k' !! i = snaps k !! i) ->
  owns base s k' /\ unpublished (outerFd_ s) k k'.
Proof.
  intros Ho Hf Hs Hn. split.
  - destruct Ho as [o Ha Hg Hb Hbo Hsl|o i v Ha Hb Hfk Hbo Hsl Hi Hg].
    + apply (owns_nothing base s k' o); congruence.
    + apply (owns_active base s k' o i v); [done|done|congruence|done|congruence| |done].
      rewrite (Hn i (activeFd_ s)); [done|]. rewrite Hfk. apply lookup_insert_eq.
  - split; [done|]. unfold activeSnapshot. rewrite Hf, Hs.
    destruct Ho as [o Ha Hg Hb Hbo Hsl|o i v Ha Hb Hfk Hbo Hsl Hi Hg].
    + rewrite Hb, Hbo; cbn. by rewrite Hsl.
    + assert (activeFd_ s <> outerFd_ s) by congruence.
      rewrite Hfk, lookup_insert_ne, Hbo by done; cbn. rewrite Hsl; cbn.
      f_equal. apply (Hn i (activeFd_ s)). rewrite Hfk. apply lookup_insert_eq.
Qed.

(** Closing the candidate of a failed publication restores the world. *)
Lemma aborted_candidate base s k k' c i :
  owns base s k -> fds k !! c = None -> fds k' = <[c := i]> (fds k) -> slots k' = slots k ->
  (forall fd, fds k !! fd <> Some i) -> (forall j, j <> i -> snaps k' !! j = snaps k !! j) ->
  owns base s (bpf_close c k') /\ unpublished (outerFd_ s) k (bpf_close c k').
Proof.
  intros Ho Hc Hf Hs Hi Hn. destruct (rk_close c k') as (Cf & Cs & Cn).
  assert (Cf' : fds (bpf_close c k') = fds k) by (rewrite Cf, Hf; by apply delete_insert_id).
  apply owns_frame; [done|done|congruence|]. intros j fd Hfd. rewrite Cn by (exists fd; congruence).
  apply Hn. intros ->. by apply (Hi fd).
Qed.

(** The candidate [c] with map [i] that was created in [k]. *)
Record candidate_of (k k' : K) (c i : Z) : Prop := {
  co_new : fds k !! c = None;
  co_fresh : forall fd, fds k !! fd <> Some i;
  co_fds : fds k' = <[c := i]> (fds k);
  co_snaps : forall j, j <> i -> snaps k' !! j = snaps k !! j
}.

(** What the candidate's owner runs before it releases the descriptor. *)
Definition publishCandidate (c outer : Z) (snapshot : UdpRuntimeSnapshot) : M K bpf_map_info :=
  orCloseCandidate c
    (info <- prepareCandidate c snapshot ;;
     orThrowMap (bs "发布 runtime outer") (bpf_map_update_elem outer 0 c) ;;;
     mret info).

(** It succeeds with the outer map updated or leaves nothing behind. *)
Definition offered (base : gmap Z Z) (snapshot : UdpRuntimeSnapshot) (s : RuntimeMapStore) (k : K)
    (c i o : Z) (r : outcome bpf_map_info) (k' : K) : Prop :=
  match r with
  | Ret _ => candidate_of k k' c i /\ slots k' = <[o := Some i]> (slots k) /\
             snaps k' !! i = Some (snapshot, true)
  | Throw e => uncommitted e /\ owns base s k' /\ unpublished (outerFd_ s) k k'
  | Diverge => False
  end.

Lemma wp_publishCandidate base snapshot s k c i v o held k1 :
  owns base s k -> candidate_of k k1 c i -> slots k1 = slots k -> snaps k1 !! i = Some (v, false) ->
  fds k !! outerFd_ s = Some o -> slots k !! o = Some held ->
  wp (publishCandidate c (outerFd_ s) snapshot)
    (offered base snapshot s k c i o) k1.
Proof.
  intros Ho [Cn Cf Ck Cs] Hs1 Hi Hof Hos. unfold publishCandidate, orCloseCandidate. apply wp_catch, wp_bind.
  eapply wp_mono; [apply (wp_prepareCandidate c i v snapshot k1); [|done]|].
  { rewrite Ck. apply lookup_insert_eq. }
  assert (Habort : forall e k2, uncommitted e -> only_map i k1 k2 ->
    wp (mmodify (bpf_close c) ;;; mthrow e) (offered base snapshot s k c i o) k2).
  { intros e k2 He [O1 O2 O3]. apply wp_bind, wp_modify, wp_throw. split; [done|].
    apply (aborted_candidate base s k k2 c i); try done; try congruence.
    intros j Hj. rewrite O3; auto. }
  intros [info|e|] k2 [O2 Hp]; [|by apply Habort|done]. destruct O2 as [O2 S2 N2].
  apply wp_bind, wp_orThrowMap.
  assert (c <> outerFd_ s) by congruence.
  pose proof (rk_publish (outerFd_ s) o held c i k2) as Hpub.
  destruct (bpf_map_update_elem (outerFd_ s) 0 c k2) as [r k3].
  destruct Hpub as (O3 & N3 & Hr).
  { rewrite O2, Ck, lookup_insert_ne; done. }
  { by rewrite S2, Hs1. }
  { rewrite O2, Ck. apply lookup_insert_eq. }
  destruct r as [_|error].
  - apply wp_ret. split_and!; [split; [done|done|congruence|]|congruence|congruence].
    intros j Hj. rewrite N3, N2; auto.
  - cbn beta iota. apply Habort; [done|]. split; [congruence..|]. intros j Hj. rewrite N3. auto.
Qed.

(** The one commit: the old descriptor is closed, the new snapshot is visible. *)
Lemma committed_owns base snapshot s k c i o k2 :
  owns base s k -> 0 <= c -> candidate_of k k2 c i -> fds k !! outerFd_ s = Some o ->
  slots k2 = <[o := Some i]> (slots k) -> snaps k2 !! i = Some (snapshot, true) ->
  base !! outerFd_ s = Some o ->
  exists k3, (if 0 <=? activeFd_ s then bpf_close (activeFd_ s) k2 else k2) = k3 /\
    owns base (mkRuntimeMapStore (outerFd_ s) (statsFd_ s) c (rs_generation snapshot)) k3 /\
    activeSnapshot (outerFd_ s) k3 = Some snapshot.
Proof.
  intros Ho Hc [Cn Cf Ck Cs] Hof Hs Hi Hbo. eexists. split; [done|].
  set (k3 := if 0 <=? _ then _ else _).
  assert (base !! c = None /\ fds k3 = <[c := i]> base /\ slots k3 = slots k2 /\
          snaps k3 !! i = Some (snapshot, true)) as (Hbc & Hf3 & Hs3 & Hi3).
  { subst k3. destruct Ho as [o' Ha Hg Hb Hbo' Hsl|o' i' v Ha Hb Hfk Hbo' Hsl Hi' Hg].
    - rewrite Ha. cbn. split_and!; congruence.
    - destruct (Z.leb_spec 0 (activeFd_ s)); [|lia].
      rewrite Hfk, lookup_insert_None in Cn. destruct Cn as [Cn Hne].
      destruct (rk_close (activeFd_ s) k2) as (Cl & Csl & Csn).
      assert (E : fds (bpf_close (activeFd_ s) k2) = <[c := i]> base).
      { rewrite Cl, Ck, Hfk, delete_insert_ne by done. f_equal. by apply delete_insert_id. }
      split_and!; [done..|]. rewrite Csn; [done|]. exists c. rewrite E. apply lookup_insert_eq. }
  split.
  - apply (owns_active base _ k3 o i snapshot); try done.
    by rewrite Hs3, Hs, lookup_insert_eq.
  - unfold activeSnapshot. assert (c <> outerFd_ s) by congruence.
    rewrite Hf3, lookup_insert_ne, Hbo by done; cbn. rewrite Hs3, Hs, lookup_insert_eq; cbn.
    by rewrite Hi3.
Qed.

Lemma wp_publishSnapshot base snapshot s k :
  owns base s k -> 0 <= generation_ s < 2 ^ 64 ->
  wp (publishSnapshot snapshot) (fun o s' => transaction base snapshot s k o s'.1 s'.2) (s, k).
Proof.
  intros Ho Hg. unfold publishSnapshot. apply wp_bind, wp_own. cbn [fst snd].
  pose proof (validateCandidateSnapshot_valid snapshot (generation_ s) (proj1 Hg)) as Hv.
  apply wp_bind, wp_outcome. destruct (validateCandidateSnapshot _ _) as [[]|e|]; [|..|done].
  2:{ destruct Hv as [what ->]. by apply transaction_aborted. }
  destruct Hv as (Hp & Hmax & Hgen). apply wp_bind, wp_outside_spec, wp_orThrowMap. cbn [fst snd].
  pose proof (rk_create (bs "l4lb_snap_v3") k) as Hc.
  destruct (bpf_map_create _ _ _ _ _ _ k) as [[c|error] k1].
  2:{ destruct Hc as (Cf & Cn & Cs). apply transaction_aborted; [done|done|..];
      apply (owns_frame base s k k1); congruence. }
  destruct Hc as (i & v & Hc0 & Hcn & Hf & Hfr & Hn & Hs). apply wp_bind, wp_own. cbn [fst snd].
  destruct (owns_outer base s k Ho) as (o & held & Hbo & Hof & Hos).
  apply wp_bind, wp_outside_spec. fold (publishCandidate c (outerFd_ s) snapshot). cbn [fst snd].
  eapply wp_mono; [apply (wp_publishCandidate base snapshot s k c i v o held); try done|].
  { split; try done. intros j Hj. by rewrite Hn, lookup_insert_ne. }
  { rewrite Hn. apply lookup_insert_eq. }
  intros [info|e|] k2 Hr; [|destruct Hr as (He & Ho' & Hu); by apply transaction_aborted|done].
  destruct Hr as ([Cn Cf Ck Cs] & S2 & I2). apply wp_bind, wp_own, wp_bind, wp_update, wp_bind, wp_effect.
  cbn [fst snd].
  destruct (committed_owns base snapshot s k c i o k2 Ho) as (k3 & -> & Ho3 & Ha3); try done.
  assert (Hcommit : forall k4, fds k4 = fds k3 -> slots k4 = slots k3 -> snaps k4 = snaps k3 ->
    let s' := mkRuntimeMapStore (outerFd_ s) (statsFd_ s) c (rs_generation snapshot) in
    owns base s' k4 /\ outerFd_ s' = outerFd_ s /\ statsFd_ s' = statsFd_ s /\
    generation_ s' = generation_ s + 1 /\ generation_ s' <= UINT64_MAX /\
    rs_generation snapshot = generation_ s' /\ publishable snapshot /\
    activeSnapshot (outerFd_ s) k4 = Some snapshot).
  { intros k4 F S N s'. destruct (owns_frame base s' k3 k4) as [Ho4 [_ Ha4]]; [done..|by rewrite N|].
    split_and!; try done; [unfold UINT64_MAX in *; cbn in *; lia|by rewrite <-Ha3]. }
  apply wp_bind, wp_call. cbn [fst snd]. pose proof (rk_published (outerFd_ s) k3) as Hl.
  destruct (bpf_map_lookup_elem (outerFd_ s) 0 k3) as [r k4]. destruct Hl as (F & S & N).
  specialize (Hcommit k4 F S N).
  destruct r as [publishedId|error]; [cbn [fst snd]; destruct (negb (publishedId =? info_id info))|]; [apply wp_throw|apply wp_ret|apply wp_throw];
    exact Hcommit.
Qed.

Lemma publishable_verdict redirectPacket v p :
  length (rs_backends v) = 64%nat -> 0 <= rs_backendCount v -> publishable v ->
  runtimeVerdict redirectPacket (Some v) p <> VInvalidConfig.
Proof.
  intros H64 Hpos (Hc & _ & _ & Hb). unfold runtimeVerdict, verdict.
  destruct (supportedPacket p); [|done]. cbn [negb fmap option_fmap option_map]. rewrite Hc.
  destruct (_ || _); [done|]. cbn [backendCount snapshotConfig].
  destruct (Z.eqb_spec (rs_backendCount v) 0); [done|].
  assert (rs_backendCount v <= 64) by (unfold invalidRuntimeConfig in Hc; bool_to_prop; lia).
  pose proof (Z.mod_pos_bound (fnv1a (flowBytes p ++ [17])) (rs_backendCount v)).
  unfold targetVerdict, snapshotBackend. set (k := fnv1a _ mod _) in *.
  destruct (lookup_lt_is_Some_2 (rs_backends v) (Z.to_nat k)) as [b Hk]; [lia|]. rewrite Hk.
  specialize (Hb _ _ Hk). destruct (Z.ltb_spec (Z.of_nat (Z.to_nat k)) (rs_backendCount v)); [|lia].
  rewrite Hb. by destruct (_ =? _).
Qed.

Lemma destroy_owns base s k : owns base s k -> fds (destroyRuntimeMapStore s k) = base.
Proof.
  unfold destroyRuntimeMapStore. intros [o Ha _ Hb|o i v Ha Hb Hf].
  - by rewrite Ha.
  - destruct (Z.leb_spec 0 (activeFd_ s)); [|lia]. destruct (rk_close (activeFd_ s) k) as [-> _].
    rewrite Hf. by apply delete_insert_id.
Qed.

(** C6: publishing a snapshot is a transaction.  From any state of the store
    [publishSnapshot] ends in one of two ways, whichever call of the kernel
    fails.  Either it was committed - it returns, or it throws a
    [RuntimePublishError] that says so - and then the XDP program finds exactly
    this snapshot in a frozen map, of the next generation, and for no packet it
    finds the configuration invalid; or it throws anything else, and the store,
    the open descriptors and what the program finds are as before.  In both
    cases the store owns one active descriptor at most, and destroying it leaves
    the descriptors of the object only. *)
Theorem publishSnapshot_transactional base snapshot s k :
  owns base s k -> 0 <= generation_ s < 2 ^ 64 -> snapshot_sized snapshot ->
  let '(o, (s', k')) := publishSnapshot snapshot (s, k) in
  transaction base snapshot s k o s' k' /\
  fds (destroyRuntimeMapStore s' k') = base /\
  (o = Ret tt \/ (exists what, o = Throw (RuntimePublishError what true)) ->
     forall redirectPacket p,
       runtimeVerdict redirectPacket (activeSnapshot (outerFd_ s') k') p <> VInvalidConfig).
Proof.
  intros Ho Hg (H64 & _ & Hpos). pose proof (wp_publishSnapshot base snapshot s k Ho Hg) as Hp.
  unfold wp in Hp. destruct (publishSnapshot snapshot (s, k)) as [o [s' k']]. cbn [fst snd] in Hp.
  split; [done|]. destruct Hp as (Ho' & Hout & _ & Hcase). split; [by apply destroy_owns|].
  intros Hcommit redirectPacket p. rewrite Hout.
  assert (activeSnapshot (outerFd_ s) k' = Some snapshot /\ publishable snapshot) as [-> ?].
  { destruct Hcommit as [->|[what ->]]; naive_solver. }
  by apply publishable_verdict.
Qed.
End publish.

(** ** A scripted kernel *)

Module ScriptedMaps.
Record world := mkWorld {
  w_fds : gmap Z Z;
  w_snaps : gmap Z (UdpRuntimeSnapshot * bool);
  w_slots : gmap Z (option Z);
  w_next : Z
}.

Definition snapshotInfo (i : Z) : bpf_map_info :=
  mkBpfMapInfo (bs "l4lb_snap_v3") BPF_MAP_TYPE_ARRAY i 4 1048 1 BPF_F_RDONLY_PROG.

#[export] Instance calls : BpfCalls world := {
  bpf_map_get_info fd w :=
    (match w_fds w !! fd with Some i => inl (snapshotInfo i) | None => inr EBADF end, w);
  bpf_map_freeze fd w :=
    match w_fds w !! fd with
    | Some i =>
        match w_snaps w !! i with
        | Some (v, _) => (inl tt, mkWorld (w_fds w) (<[i := (v, true)]> (w_snaps w)) (w_slots w) (w_next w))
        | None => (inr EINVAL, w)
        end
    | None => (inr EBADF, w)
    end;
  bpf_map_create _ _ _ _ _ _ w :=
    let n := w_next w in
    if decide (0 <= n /\ w_fds w !! n = None /\ map_Forall (fun _ i => i <> n) (w_fds w)) then
      (inl n, mkWorld (<[n := n]> (w_fds w)) (<[n := (emptySnapshot, false)]> (w_snaps w)) (w_slots w) (n + 1))
    else (inr EMFILE, w);
  bpf_close fd w := mkWorld (delete fd (w_fds w)) (w_snaps w) (w_slots w) (w_next w);
  bpf_strerror _ := bs "error"
}.

#[export] Instance snapshot_elements : BpfElements world UdpRuntimeSnapshot := {
  bpf_map_update_elem fd _ v w :=
    match w_fds w !! fd with
    | Some i =>
        match w_snaps w !! i with
        | Some (_, false) =>
            (inl tt, mkWorld (w_fds w) (<[i := (v, false)]> (w_snaps w)) (w_slots w) (w_next w))
        | _ => (inr EPERM, w)
        end
    | None => (inr EBADF, w)
    end;
  bpf_map_lookup_elem fd _ w :=
    (match w_fds w !! fd ≫= fun i => w_snaps w !! i with Some (v, _) => inl v | None => inr EBADF end, w)
}.

#[export] Instance outer_elements : BpfElements world Z := {
  bpf_map_update_elem outer _ fd w :=
    match w_fds w !! outer, w_fds w !! fd with
    | Some o, Some i =>
        (inl tt, mkWorld (w_fds w) (w_snaps w) (<[o := Some i]> (w_slots w)) (w_next w))
    | _, _ => (inr EBADF, w)
    end;
  bpf_map_lookup_elem outer _ w :=
    (match w_fds w !! outer ≫= fun o => w_slots w !! o with Some (Some i) => inl i | _ => inr ENOENT end, w)
}.

#[export] Instance kernel : RuntimeKernel world.
Proof.
  refine {| fds := w_fds; snaps := w_snaps; slots := w_slots |}.
  - intros name w. cbn. case_decide as Hd; [|done]. cbn. destruct Hd as (H0 & Hn & Hf).
    exists (w_next w), emptySnapshot. split_and!; try done. intros fd Hfd. by apply (Hf fd _ Hfd).
  - intros fd i v frozen value w Hf Hi. cbn. rewrite Hf, Hi. destruct frozen; [done|]. split_and!; eauto.
  - intros fd i v frozen w Hf Hi. cbn. by rewrite Hf; cbn; rewrite Hi.
  - intros fd i v frozen w Hf Hi. cbn. by rewrite Hf, Hi.
  - done.
  - intros outer o held fd i w Ho Hh Hf. cbn. by rewrite Ho, Hf.
  - done.
  - done.
Defined.

Definition base : gmap Z Z := {[3 := 100; 4 := 101; 5 := 102]}.
Definition start : world := mkWorld base ∅ {[100 := None]} 6.
Definition store : RuntimeMapStore := mkRuntimeMapStore 3 4 (-1) 0.
Definition second : UdpRuntimeSnapshot :=
  mkUdpRuntimeSnapshot 3 0 2 16777226 13568 0 (replicate 64 emptyDsrBackend).

Lemma start_owns : owns base store start.
Proof. by apply (owns_nothing base store start 100). Qed.
End ScriptedMaps.

Import ScriptedMaps.

(** The first snapshot is published; a second one of the same generation is not. *)
Lemma publishSnapshot_transactional_witness :
  let '(o, (s1, k1)) := publishSnapshot XdpExample.snapshot (store, start) in
  o = Ret tt /\ activeSnapshot 3 k1 = Some XdpExample.snapshot /\
  let '(o, (s2, k2)) := publishSnapshot XdpExample.snapshot (s1, k1) in
  (exists e, o = Throw e) /\ s2 = s1 /\ activeSnapshot 3 k2 = Some XdpExample.snapshot.
Proof.
  pose proof (publishSnapshot_transactional base XdpExample.snapshot store start start_owns
    (conj (Z.le_refl 0) eq_refl) XdpExample.snapshot_is_sized) as H1.
  assert (E1 : bool_decide ((publishSnapshot XdpExample.snapshot (store, start)).1 = Ret tt) = true)
    by (vm_compute; reflexivity).
  destruct (publishSnapshot XdpExample.snapshot (store, start)) as [o [s1 k1]].
  apply bool_decide_eq_true_1 in E1. cbn [fst] in E1. subst o.
  destruct H1 as ((Ho1 & Hout & _ & Hg & Hmax & _ & _ & Ha) & _).
  split; [done|]. split; [exact Ha|].
  change (generation_ store) with 0 in Hg. change (outerFd_ store) with 3 in Hout, Ha.
  assert (Hr : 0 <= generation_ s1 < 2 ^ 64) by (rewrite Hg; done).
  pose proof (publishSnapshot_transactional base XdpExample.snapshot s1 k1 Ho1 Hr
    XdpExample.snapshot_is_sized) as H2.
  destruct (publishSnapshot XdpExample.snapshot (s1, k1)) as [o [s2 k2]].
  destruct H2 as ((_ & _ & _ & Hcase) & _).
  assert (Hno : generation_ s2 = generation_ s1 + 1 -> rs_generation XdpExample.snapshot <> generation_ s2)
    by (rewrite Hg; intros ->; discriminate).
  assert (Hsame : s2 = s1 /\ unpublished (outerFd_ s1) k1 k2 -> s2 = s1 /\ activeSnapshot 3 k2 = Some XdpExample.snapshot)
    by (intros [-> [_ E]]; rewrite Hout in E; split; [done|by rewrite E]).
  destruct o as [u|e|]; [naive_solver| |done]. split; [by exists e|]. apply Hsame.
  destruct e as [| | | | | | | | | |what []]; naive_solver.
Defined.
