(* ===== verification/MapStore.v ===== *)
(** * The stores of the static configurations (src/src/xdp/MapStore.h, MapStore.cpp,
    DsrMapStore.h, DsrMapStore.cpp)

    Both stores check an object's maps against a list of three specifications
    and hand out its configuration map and its table of backends through the
    interface [MapAccess].  They are the same code over different values; the
    definitions are shared and the two stores are their instances. *)
From S2P Require Import Prelude XdpSchema BpfKernel.

(** [ConfigMapAccess] and [DsrMapAccess]: what the synchronisation of a
    configuration needs of a store. *)
Class MapAccess (W C B : Type) := {
  writeBackend : Z -> B -> M W unit;
  writeConfig : C -> M W unit;
  readBackend : Z -> M W B;
  readConfig : M W C;
  freezeBackends : M W unit;
  freezeConfig : M W unit
}.

Record MapStore := mkMapStore {
  configFd_ : Z;
  backendFd_ : Z;
  statsFd_ : Z
}.

(** ** The two lists of specifications *)

Definition configMapSpecs : list MapSpec :=
  [mkMapSpec (bs "l4lb_cfg_v1") BPF_MAP_TYPE_ARRAY 8 1 BPF_F_RDONLY_PROG;
   mkMapSpec (bs "l4lb_be_v1") BPF_MAP_TYPE_ARRAY 8 kXdpMaxBackends BPF_F_RDONLY_PROG;
   mkMapSpec (bs "l4lb_stats_v1") BPF_MAP_TYPE_PERCPU_ARRAY 8 1 0].
Definition dsrMapSpecs : list MapSpec :=
  [mkMapSpec (bs "l4lb_cfg_v2") BPF_MAP_TYPE_ARRAY 16 1 BPF_F_RDONLY_PROG;
   mkMapSpec (bs "l4lb_be_v2") BPF_MAP_TYPE_ARRAY 16 kDsrMaxBackends BPF_F_RDONLY_PROG;
   mkMapSpec (bs "l4lb_stats_v2") BPF_MAP_TYPE_PERCPU_ARRAY 64 1 0].

#[export] Instance map_spec_inhabited : Inhabited MapSpec := populate (mkMapSpec [] 0 0 0 0).

Section store.
Context {K : Type} `{Libbpf K} `{BpfCalls K}.

(** The first specification of the map's name decides. *)
Fixpoint matchedMap (specs : list MapSpec) (m : bpf_map) (k : K) : bool :=
  match specs with
  | [] => false
  | spec :: specs' =>
      if bool_decide (bpf_map__name m k <> mapName spec) then matchedMap specs' m k
      else matchesMapSpecification m spec k
  end.

Definition validateMapObject (specs : list MapSpec) (object : bpf_object) : M K unit :=
  maps <- mgets (bpf_object_maps object) ;;
  mfor maps (fun m =>
    matched <- mgets (matchedMap specs m) ;;
    name <- mgets (bpf_map__name m) ;;
    if matched : bool then mret tt else mthrow (RuntimeError (bs "map 白名单不匹配：" ++ name))) ;;;
  if negb (len maps =? len specs) then
    mthrow (RuntimeError (bs "maps 模式必须恰好包含三个配置/统计 maps"))
  else
    mfor specs (fun spec =>
      found <- mgets (bpf_object__find_map_by_name object (mapName spec)) ;;
      match found with
      | None => mthrow (RuntimeError (bs "缺少 map " ++ mapName spec))
      | Some _ => mret tt
      end).

Definition validateConfigMapObject : bpf_object -> M K unit := validateMapObject configMapSpecs.
Definition validateDsrMapObject : bpf_object -> M K unit := validateMapObject dsrMapSpecs.

Definition validateMapDescriptor (object : bpf_object) (spec : MapSpec) : M K Z :=
  found <- mgets (bpf_object__find_map_by_name object (mapName spec)) ;;
  match found with
  | None => mthrow (RuntimeError (bs "缺少 map " ++ mapName spec))
  | Some m =>
      fd <- mgets (bpf_map__fd m) ;;
      info <- orThrowMap (bs "读取 map metadata " ++ mapName spec) (bpf_map_get_info fd) ;;
      if matchesMetadata info spec true then mret fd
      else mthrow (RuntimeError (bs "已加载 map metadata 不匹配：" ++ mapName spec))
  end.

Definition newStore (specs : list MapSpec) (object : bpf_object) : M K MapStore :=
  configFd <- validateMapDescriptor object (specs !!! 0%nat) ;;
  backendFd <- validateMapDescriptor object (specs !!! 1%nat) ;;
  statsFd <- validateMapDescriptor object (specs !!! 2%nat) ;;
  mret (mkMapStore configFd backendFd statsFd).
Definition newMapStore : bpf_object -> M K MapStore := newStore configMapSpecs.
Definition newDsrMapStore : bpf_object -> M K MapStore := newStore dsrMapSpecs.

(** ** The operations of a store *)

Section access.
Context {C B : Type} `{BpfElements K C} `{BpfElements K B}.
Context (s : MapStore).

Definition writeBackendMap (index : Z) (value : B) : M K unit :=
  orThrowMap (bs "写入 backend index=" ++ to_string index)
    (bpf_map_update_elem (backendFd_ s) index value).
Definition writeConfigMap (value : C) : M K unit :=
  orThrowMap (bs "写入 cfg") (bpf_map_update_elem (configFd_ s) 0 value).
Definition readBackendMap (index : Z) : M K B :=
  orThrowMap (bs "回读 backend index=" ++ to_string index)
    (bpf_map_lookup_elem (backendFd_ s) index).
Definition readConfigMap : M K C :=
  orThrowMap (bs "回读 cfg") (bpf_map_lookup_elem (configFd_ s) 0).
Definition freezeBackendsMap : M K unit :=
  orThrowMap (bs "freeze backends") (bpf_map_freeze (backendFd_ s)).
Definition freezeConfigMap : M K unit :=
  orThrowMap (bs "freeze cfg") (bpf_map_freeze (configFd_ s)).

Definition mapStoreAccess : MapAccess K C B := {|
  writeBackend := writeBackendMap;
  writeConfig := writeConfigMap;
  readBackend := readBackendMap;
  readConfig := readConfigMap;
  freezeBackends := freezeBackendsMap;
  freezeConfig := freezeConfigMap
|}.
End access.

(** ** Statistics *)

(** The stride of a CPU's slot is the size of a value, rounded up to 8. *)
Definition statsStride : Z := Z.land (8 + 7) (UINT64_MAX - 7).

Definition perCpuStatsBufferSize (possibleCpus : Z) : outcome Z :=
  if (possibleCpus <=? 0) || (UINT64_MAX / statsStride <? possibleCpus) then
    Throw (RuntimeError (bs "无效 possible CPU 数量或统计缓冲区溢出"))
  else Ret (possibleCpus * statsStride).

(** The buffer is bytes; a slot is the little-endian counter at its stride. *)
Definition sumPerCpuPassPackets (values : list Z) (possibleCpus : Z) : outcome Z :=
  match perCpuStatsBufferSize possibleCpus with
  | Ret size =>
      if negb (len values =? size) then
        Throw (RuntimeError (bs "per-CPU 统计缓冲区尺寸不匹配"))
      else
        let stride := Z.to_nat (size / possibleCpus) in
        Ret (foldl (fun sum cpu => u64 (sum + loadLittle (take 8 (drop (cpu * stride) values)))) 0
               (seq 0 (Z.to_nat possibleCpus)))
  | Throw e => Throw e
  | Diverge => Diverge
  end.

Definition readPassPackets `{BpfElements K (list Z)} (s : MapStore) : M K Z :=
  possibleCpus <- mgets libbpf_num_possible_cpus ;;
  lift_outcome (perCpuStatsBufferSize possibleCpus) ;;;
  values <- orThrowMap (bs "读取 stats") (bpf_map_lookup_elem (statsFd_ s) 0) ;;
  lift_outcome (sumPerCpuPassPackets values possibleCpus).

Definition readDsrStatistics `{BpfElements K (list UdpDsrStatsValue)} (s : MapStore)
    : M K UdpDsrStatsValue :=
  readPerCpu (bs "读取 stats") (statsFd_ s).
End store.
