(* ===== verification/ConfigSync.v ===== *)
(** * Parsing and synchronising the static configurations
    (src/src/control/XdpConfigSync.h, XdpConfigSync.cpp, DsrConfigSync.h, DsrConfigSync.cpp)

    The literals of the command line become the values of the maps, which are
    written in full, read back and frozen through the interface [MapAccess].
    [inet_pton] and the interface queries belong to the system. *)
From S2P Require Import Prelude XdpSchema XdpProgram XdpTheorems BpfKernel MapStore.

(** ** The literals of the C and C++ libraries *)

(** A [std::string] seen as a C string. *)
Definition c_str (s : bytes) : bytes := prefix_to (find_char (chr 0) s) s.

(** The value of a digit in bases up to 16. *)
Definition digitValue (c : ascii) : Z :=
  let n := code c in
  if (48 <=? n) && (n <=? 57) then n - 48
  else if (97 <=? n) && (n <=? 102) then n - 87
  else if (65 <=? n) && (n <=? 70) then n - 55
  else 255.

(** [std::from_chars] for [unsigned]: the digits that match, and their value
    unless there is none or it does not fit. *)
Fixpoint from_chars_loop (base : Z) (text : bytes) (value : Z) : Z * bytes :=
  match text with
  | [] => (value, [])
  | c :: text' =>
      if digitValue c <? base then from_chars_loop base text' (value * base + digitValue c)
      else (value, text)
  end.
Definition from_chars (base : Z) (text : bytes) : option Z * bytes :=
  let '(value, rest) := from_chars_loop base text 0 in
  (if (length rest =? length text)%nat || (2 ^ 32 <=? value) then None else Some value, rest).

(** [ntohl] and [htons] on a little-endian host. *)
Definition ntohl (x : Z) : Z :=
  Z.lor (Z.lor (Z.shiftl (Z.land x 255) 24) (Z.shiftl (Z.land (Z.shiftr x 8) 255) 16))
        (Z.lor (Z.shiftl (Z.land (Z.shiftr x 16) 255) 8) (Z.shiftr x 24)).
Definition htons (x : Z) : Z := Z.lor (Z.shiftl (Z.land x 255) 8) (Z.shiftr x 8).

(** Zero, broadcast and multicast addresses are refused. *)
Definition notUnicast (hostAddress : Z) : bool :=
  (hostAddress =? 0) || (hostAddress =? 4294967295) ||
  (Z.land hostAddress 4026531840 =? 3758096384).

(** ** Interfaces of the host *)

Definition IFF_UP : Z := 1.
Definition ARPHRD_ETHER : Z := 1.

Class InterfaceOps (K : Type) := {
  if_socket : K -> (Z + Z) * K;
  if_close : Z -> K -> K;
  (** [ioctl] with [SIOCGIFINDEX], [SIOCGIFFLAGS], [SIOCGIFMTU] and
      [SIOCGIFHWADDR] *)
  if_index : Z -> bytes -> K -> (Z + Z) * K;
  if_flags : Z -> bytes -> K -> (Z + Z) * K;
  if_mtu : Z -> bytes -> K -> (Z + Z) * K;
  if_hwaddr : Z -> bytes -> K -> (Z * list Z + Z) * K
}.

(** [inet_pton(AF_INET, ...)]: the address as the host loads it. *)
Class AddressParser := inet_pton : bytes -> option Z.

Section parse.
Context {K : Type} `{InterfaceOps K} `{AddressParser}.

Definition parseXdpBackend (seen : list XdpBackendValue) (endpoint : bytes)
    : outcome XdpBackendValue :=
  match find_char ":" endpoint with
  | None => Throw (InvalidArgument (bs "后端必须为 IPv4:PORT：" ++ endpoint))
  | Some separator =>
      let address := take separator endpoint in
      let portText := drop (S separator) endpoint in
      match inet_pton (c_str address), from_chars 10 portText with
      | Some a, (Some port, []) =>
          if (port =? 0) || (65535 <? port) then
            Throw (InvalidArgument (bs "无效 IPv4 后端：" ++ endpoint))
          else if notUnicast (ntohl a) then
            Throw (InvalidArgument (bs "后端必须为 IPv4 单播地址：" ++ endpoint))
          else
            let backend := mkXdpBackendValue a (htons port) 0 in
            if bool_decide ((a, htons port) ∈ (fun b => (xb_address b, xb_port b)) <$> seen) then
              Throw (InvalidArgument (bs "重复后端：" ++ endpoint))
            else Ret backend
      | _, _ => Throw (InvalidArgument (bs "无效 IPv4 后端：" ++ endpoint))
      end
  end.

Fixpoint parseXdpBackends_loop (endpoints : list bytes) (backends : list XdpBackendValue)
    : outcome (list XdpBackendValue) :=
  match endpoints with
  | [] => Ret backends
  | endpoint :: endpoints' =>
      match parseXdpBackend backends endpoint with
      | Ret backend => parseXdpBackends_loop endpoints' (backends ++ [backend])
      | Throw e => Throw e
      | Diverge => Diverge
      end
  end.

Definition parseXdpBackends (endpoints : list bytes) : outcome (list XdpBackendValue) :=
  if kXdpMaxBackends <? len endpoints then Throw (InvalidArgument (bs "后端最多 64 个"))
  else parseXdpBackends_loop endpoints [].

(** ** [DsrConfiguration] *)

Record InterfaceInfo := mkInterfaceInfo {
  ii_index : Z;
  ii_mac : list Z
}.

Record DsrConfiguration := mkDsrConfiguration {
  dsr_config : UdpDsrConfigValue;
  dsr_backends : list UdpDsrBackendValue
}.

(** [find_first_of("/ \t\r\n:@")] *)
Definition isInterfaceSeparator (c : ascii) : bool :=
  bool_decide (code c ∈ [47; 32; 9; 13; 10; 58; 64]).

Definition validInterfaceName (name : bytes) : bool :=
  negb (bool_decide (name = []) || (16 <=? len name) ||
        bool_decide (is_Some (find_if isInterfaceSeparator name))).

(** A query that must succeed with an acceptable answer. *)
Definition orInvalid {A} (what : bytes) (ok : A -> bool) (op : K -> (A + Z) * K) : M K A :=
  answer <- mworld op ;;
  match answer with
  | inl a => if ok a then mret a else mthrow (InvalidArgument what)
  | inr _ => mthrow (InvalidArgument what)
  end.

Definition queryInterface (name : bytes) (fd : Z) : M K InterfaceInfo :=
  index <- orInvalid (bs "接口不存在：" ++ name) (fun _ => true) (if_index fd (c_str name)) ;;
  orInvalid (bs "接口必须 UP：" ++ name) (fun flags => has_any flags IFF_UP)
    (if_flags fd (c_str name)) ;;;
  orInvalid (bs "接口 MTU 必须至少1500：" ++ name) (fun mtu => 1500 <=? mtu)
    (if_mtu fd (c_str name)) ;;;
  hardware <- orInvalid (bs "接口必须为 Ethernet：" ++ name) (fun h => h.1 =? ARPHRD_ETHER)
    (if_hwaddr fd (c_str name)) ;;
  let mac := take 6 hardware.2 in
  if validMac mac then mret (mkInterfaceInfo (u32 index) mac)
  else mthrow (InvalidArgument (bs "接口 MAC 无效：" ++ name)).

Definition inspectInterface (name : bytes) : M K InterfaceInfo :=
  if negb (validInterfaceName name) then
    mthrow (InvalidArgument (bs "无效接口名称：" ++ name))
  else
    opened <- mworld if_socket ;;
    match opened with
    | inr _ => mthrow (RuntimeError (bs "无法打开接口查询 socket"))
    | inl fd => mfinally (queryInterface name fd) (if_close fd)
    end.

(** The [i]-th byte of a MAC literal: two digits and, but for the last, a
    colon. *)
Definition macByte (text : bytes) (i : nat) : option Z :=
  match from_chars 16 (take 2 (drop (3 * i) text)) with
  | (Some byte, []) =>
      if (i <? 5)%nat && bool_decide (text !! (3 * i + 2)%nat <> Some ":"%char) then None
      else Some byte
  | _ => None
  end.

Fixpoint macBytes (text : bytes) (indices : list nat) : option (list Z) :=
  match indices with
  | [] => Some []
  | i :: indices' =>
      byte ← macByte text i;
      rest ← macBytes text indices';
      Some (byte :: rest)
  end.

Definition parseMac (text : bytes) : outcome (list Z) :=
  if negb (len text =? 17) then Throw (InvalidArgument (bs "MAC 必须为六组两位十六进制"))
  else
    match macBytes text (seq 0 6) with
    | None => Throw (InvalidArgument (bs "无效 MAC：" ++ text))
    | Some mac =>
        if validMac mac then Ret mac
        else Throw (InvalidArgument (bs "MAC 必须为非零单播：" ++ text))
    end.

Fixpoint parseTargets (targets : list bytes) : outcome (list (bytes * list Z)) :=
  match targets with
  | [] => Ret []
  | target :: targets' =>
      match find_char "@" target with
      | None => Throw (InvalidArgument (bs "target 必须为 EGRESS@MAC"))
      | Some separator =>
          match parseMac (drop (S separator) target) with
          | Ret mac =>
              match parseTargets targets' with
              | Ret rest => Ret ((take separator target, mac) :: rest)
              | Throw e => Throw e
              | Diverge => Diverge
              end
          | Throw e => Throw e
          | Diverge => Diverge
          end
      end
  end.

(** Two targets are the same if they share the interface and the MAC. *)
Definition targetKey (b : UdpDsrBackendValue) : Z * list Z := (ifindex b, destinationMac b).

Fixpoint resolveTargets (input : Z) (targets : list (bytes * list Z))
    (backends : list UdpDsrBackendValue) : M K (list UdpDsrBackendValue) :=
  match targets with
  | [] => mret backends
  | (name, mac) :: targets' =>
      output <- inspectInterface name ;;
      if ii_index output =? input then mthrow (InvalidArgument (bs "出口不能等于入口"))
      else if bool_decide ((ii_index output, mac) ∈ targetKey <$> backends) then
        mthrow (InvalidArgument (bs "重复 target"))
      else
        resolveTargets input targets'
          (backends ++ [mkUdpDsrBackendValue (ii_index output) mac (ii_mac output)])
  end.

Definition parseDsrConfiguration (ingress vip : bytes) (targets : list bytes)
    : M K DsrConfiguration :=
  endpoints <- lift_outcome (parseXdpBackends [vip]) ;;
  let endpoint := endpoints !!! 0%nat in
  if kDsrMaxBackends <? len targets then mthrow (InvalidArgument (bs "后端最多 64 个"))
  else
    parsedTargets <- lift_outcome (parseTargets targets) ;;
    input <- inspectInterface ingress ;;
    backends <- resolveTargets (ii_index input) parsedTargets [] ;;
    mret (mkDsrConfiguration
      (mkUdpDsrConfigValue kDsrSchemaVersion (len targets) (xb_address endpoint) (xb_port endpoint) 0)
      backends).
End parse.

(** ** Synchronisation *)

Section synchronize.
Context {W C B : Type} `{MapAccess W C B} `{EqDecision C} `{EqDecision B}.

(** What slot [index] is to hold. *)
Definition expectedBackend (empty : B) (backends : list B) (index : nat) : B :=
  default empty (backends !! index).

Definition verifyBackend (empty : B) (backends : list B) (index : nat) : M W unit :=
  actual <- readBackend (Z.of_nat index) ;;
  if bool_decide (actual <> expectedBackend empty backends index) then
    mthrow (RuntimeError (bs "backend 回读不一致 index=" ++ to_string (Z.of_nat index)))
  else mret tt.

Definition writeAndVerify (config : C) (empty : B) (backends : list B) : M W unit :=
  mfor (seq 0 64) (fun index =>
    writeBackend (Z.of_nat index) (expectedBackend empty backends index)) ;;;
  writeConfig config ;;;
  actualConfig <- readConfig ;;
  if bool_decide (actualConfig <> config) then mthrow (RuntimeError (bs "cfg 回读不一致"))
  else
    mfor (seq 0 64) (verifyBackend empty backends) ;;;
    freezeBackends ;;;
    freezeConfig.
End synchronize.

Definition synchronizeXdpConfig {W} `{MapAccess W XdpConfigValue XdpBackendValue}
    (backends : list XdpBackendValue) : M W unit :=
  if kXdpMaxBackends <? len backends then mthrow (InvalidArgument (bs "后端最多 64 个"))
  else writeAndVerify (mkXdpConfigValue kXdpSchemaVersion (len backends)) emptyXdpBackend backends.

Definition synchronizeDsrConfig {W} `{MapAccess W UdpDsrConfigValue UdpDsrBackendValue}
    (configuration : DsrConfiguration) : M W unit :=
  let backends := dsr_backends configuration in
  let config := dsr_config configuration in
  if kDsrMaxBackends <? len backends then mthrow (InvalidArgument (bs "后端最多 64 个"))
  else if negb (schemaVersion config =? kDsrSchemaVersion) ||
          negb (backendCount config =? len backends) || negb (reserved config =? 0) ||
          (vipPort config =? 0) || notUnicast (ntohl (vipAddress config))
  then mthrow (InvalidArgument (bs "无效 DSR 配置"))
  else if existsb invalidBackend backends then
    mthrow (InvalidArgument (bs "无效 DSR backend"))
  else writeAndVerify config emptyDsrBackend backends.

(** ** What a store promises *)

Class MapLaws (W C B : Type) `{MapAccess W C B} := {
  (** The value of the configuration, those of the table and which are frozen. *)
  image_config : W -> C;
  image_table : W -> Z -> B;
  frozen_config : W -> bool;
  frozen_table : W -> bool;
  ml_writeBackend : forall i b w, let '(o, w') := writeBackend i b w in
    o <> Diverge /\ image_config w' = image_config w /\
    (forall j, j <> i -> image_table w' j = image_table w j) /\
    frozen_config w' = frozen_config w /\ frozen_table w' = frozen_table w;
  ml_writeConfig : forall c w, let '(o, w') := writeConfig c w in
    o <> Diverge /\ (forall j, image_table w' j = image_table w j) /\
    frozen_config w' = frozen_config w /\ frozen_table w' = frozen_table w;
  ml_readBackend : forall i w, let '(o, w') := readBackend i w in
    o <> Diverge /\ (0 <= i < 64 -> forall b, o = Ret b -> b = image_table w i) /\
    image_config w' = image_config w /\ (forall j, image_table w' j = image_table w j) /\
    frozen_config w' = frozen_config w /\ frozen_table w' = frozen_table w;
  ml_readConfig : forall w, let '(o, w') := readConfig w in
    o <> Diverge /\ (forall c, o = Ret c -> c = image_config w) /\
    image_config w' = image_config w /\ (forall j, image_table w' j = image_table w j) /\
    frozen_config w' = frozen_config w /\ frozen_table w' = frozen_table w;
  ml_freezeBackends : forall w, let '(o, w') := freezeBackends w in
    o <> Diverge /\ image_config w' = image_config w /\ (forall j, image_table w' j = image_table w j) /\
    frozen_config w' = frozen_config w /\
    frozen_table w' = (if o is Ret _ then true else frozen_table w);
  ml_freezeConfig : forall w, let '(o, w') := freezeConfig w in
    o <> Diverge /\ image_config w' = image_config w /\ (forall j, image_table w' j = image_table w j) /\
    frozen_table w' = frozen_table w /\
    frozen_config w' = (if o is Ret _ then true else frozen_config w)
}.

Section verified.
Context {W C B : Type} `{MapLaws W C B} `{EqDecision C} `{EqDecision B}.

(** The maps hold the configuration and the padded table. *)
Definition exact_image (config : C) (empty : B) (backends : list B) (w : W) : Prop :=
  image_config w = config /\
  forall i, (i < 64)%nat -> image_table w (Z.of_nat i) = expectedBackend empty backends i.

Definition frozen (w : W) : Prop := frozen_config w = true /\ frozen_table w = true.
Definition unfrozen (w : W) : Prop := frozen_config w = false /\ frozen_table w = false.

(** Whatever ends the synchronisation, only an exact image is ever frozen. *)
Definition synchronized (config : C) (empty : B) (backends : list B) (o : outcome unit) (w : W) : Prop :=
  o <> Diverge /\ (o = Ret tt -> frozen w /\ exact_image config empty backends w) /\
  (unfrozen w \/ exact_image config empty backends w).

Lemma unfrozen_synchronized config empty backends (e : exn) w :
  unfrozen w -> synchronized config empty backends (Throw e) w.
Proof. intros Hu. split_and!; [done|done|by left]. Qed.

Lemma wp_verifyBackends (config : C) (empty : B) backends w :
  unfrozen w -> image_config w = config ->
  wp (mfor (seq 0 64) (verifyBackend empty backends))
    (fun o w' => match o with
                 | Ret _ => unfrozen w' /\ exact_image config empty backends w'
                 | Throw _ => unfrozen w'
                 | Diverge => False
                 end) w.
Proof.
  intros Hu Hc. apply (wp_for_seq 64 _ (fun n w => unfrozen w /\ image_config w = config /\
    forall i, (i < n)%nat -> image_table w (Z.of_nat i) = expectedBackend empty backends i)).
  - split_and!; [done..|lia].
  - intros n w' Hn ([Hu1 Hu2] & Hc' & Ht). unfold verifyBackend. apply wp_bind.
    pose proof (ml_readBackend (Z.of_nat n) w') as Hr. unfold wp.
    destruct (readBackend (Z.of_nat n) w') as [o w2]. destruct Hr as (Hd & Hv & E1 & E2 & E3 & E4).
    cbn [fst snd]. destruct o as [b|e|]; [|split; congruence|done].
    case_bool_decide as Hb; [split; cbn; congruence|]. cbn.
    split_and!; [split; congruence|congruence|]. intros i Hi. rewrite E2.
    destruct (decide (i = n)) as [->|]; [|apply Ht; lia]. rewrite <-(Hv ltac:(lia) b); [done|done].
  - intros w' (Hu' & Hc' & Ht). done.
Qed.

Lemma wp_writeBackends (empty : B) backends w :
  unfrozen w ->
  wp (mfor (seq 0 64) (fun index => writeBackend (Z.of_nat index) (expectedBackend empty backends index)))
    (fun o w' => o <> Diverge /\ unfrozen w') w.
Proof.
  intros Hu. apply (wp_for _ _ unfrozen); [done| |done].
  intros n w' _ [Hu1 Hu2]. pose proof (ml_writeBackend (Z.of_nat n) (expectedBackend empty backends n) w') as Hw.
  unfold wp. destruct (writeBackend _ _ w') as [o w2]. destruct Hw as (Hd & _ & _ & E1 & E2).
  cbn [fst snd]. assert (unfrozen w2) by (split; congruence). by destruct o.
Qed.

Lemma wp_writeAndVerify (config : C) (empty : B) backends w :
  unfrozen w -> wp (writeAndVerify config empty backends) (synchronized config empty backends) w.
Proof.
  intros Hu. unfold writeAndVerify. apply wp_bind.
  eapply wp_mono; [by apply wp_writeBackends|]. intros [[]|e|] w1 [Hd1 Hu1];
    [|by apply unfrozen_synchronized|done].
  apply wp_bind. pose proof (ml_writeConfig config w1) as Hw. unfold wp at 1.
  destruct (writeConfig config w1) as [o w2]. destruct Hw as (Hd2 & _ & E1 & E2). cbn [fst snd].
  assert (Hu2 : unfrozen w2) by (destruct Hu1; split; congruence).
  destruct o as [[]|e|]; [|by apply unfrozen_synchronized|done].
  apply wp_bind. pose proof (ml_readConfig w2) as Hr. unfold wp at 1.
  destruct (readConfig w2) as [o w3]. destruct Hr as (Hd3 & Hv & E3 & _ & E4 & E5). cbn [fst snd].
  assert (Hu3 : unfrozen w3) by (destruct Hu2; split; congruence).
  destruct o as [c|e|]; [|by apply unfrozen_synchronized|done]. specialize (Hv c eq_refl).
  case_bool_decide as Hsame; [by apply wp_throw, unfrozen_synchronized|].
  assert (image_config w3 = config) by congruence.
  apply wp_bind. eapply wp_mono; [by apply wp_verifyBackends|].
  intros [[]|e|] w4 Hw4; [destruct Hw4 as [Hu4 [Hc4 Ht4]]|by apply unfrozen_synchronized|done].
  apply wp_bind. pose proof (ml_freezeBackends w4) as Hf. unfold wp at 1.
  destruct (freezeBackends w4) as [o w5]. destruct Hf as (Hd5 & F1 & F2 & F3 & F4). cbn [fst snd].
  assert (He5 : exact_image config empty backends w5)
    by (split; [congruence|]; intros i Hi; rewrite F2; auto).
  destruct o as [[]|e|]; [|split_and!; [done|done|by right]|done].
  pose proof (ml_freezeConfig w5) as Hf. unfold wp.
  destruct (freezeConfig w5) as [o w6]. destruct Hf as (Hd6 & G1 & G2 & G3 & G4). cbn [fst snd].
  assert (He6 : exact_image config empty backends w6).
  { destruct He5 as [Hc5 Ht5]. split; [congruence|]. intros i Hi. rewrite G2. auto. }
  split_and!; [done| |by right]. intros ->. split; [|done]. split; congruence.
Qed.
End verified.

(** ** What the parser accepts *)

Lemma htons_nonzero x : 0 < x < 65536 -> htons x <> 0.
Proof.
  intros Hx E. unfold htons in E. apply Z.lor_eq_0_iff in E as [E1 E2].
  rewrite Z.shiftl_mul_pow2 in E1 by lia. rewrite Z.shiftr_div_pow2 in E2 by lia.
  change 255 with (Z.ones 8) in E1. rewrite Z.land_ones in E1 by lia.
  change (2 ^ 8) with 256 in *. pose proof (Z.div_mod x 256). lia.
Qed.

Lemma digitValue_nonneg c : 0 <= digitValue c.
Proof. unfold digitValue. repeat case_match; bool_to_prop; lia. Qed.

Lemma from_chars_loop_nonneg base text v : 0 <= base -> 0 <= v -> 0 <= (from_chars_loop base text v).1.
Proof.
  revert v. induction text as [|c text IH]; intros v Hb Hv; cbn; [done|].
  destruct (digitValue c <? base); [|done]. apply IH; [done|]. pose proof (digitValue_nonneg c). nia.
Qed.

(** The kernel numbers interfaces from 1. *)
Class InterfaceLaws (K : Type) `{InterfaceOps K} :=
  if_index_positive : forall fd name k,
    match (if_index fd name k).1 with inl i => 0 < i < 2 ^ 31 | inr _ => True end.

Section accepted.
Context {K : Type} `{InterfaceLaws K} `{AddressParser}.

Definition usable (b : UdpDsrBackendValue) : Prop := invalidBackend b = false.

Lemma parseXdpBackends_vip vip l :
  parseXdpBackends [vip] = Ret l ->
  exists b, l = [b] /\ notUnicast (ntohl (xb_address b)) = false /\ xb_port b <> 0.
Proof.
  unfold parseXdpBackends. destruct (_ <? _); [done|]. cbn [parseXdpBackends_loop].
  unfold parseXdpBackend. destruct (find_char ":" vip) as [n|]; [|done].
  destruct (inet_pton _) as [a|]; [|done]. unfold from_chars.
  pose proof (from_chars_loop_nonneg 10 (drop (S n) vip) 0 ltac:(done) ltac:(done)) as Hpos.
  destruct (from_chars_loop 10 (drop (S n) vip) 0) as [port rest]. cbn [fst] in Hpos.
  destruct (_ || _); [done|]. destruct rest; [|done].
  destruct ((port =? 0) || (65535 <? port)) eqn:Hport; [done|].
  destruct (notUnicast (ntohl a)) eqn:Ha; [done|]. case_bool_decide; [done|]. intros [= <-].
  eexists. split; [done|]. cbn. split; [done|]. bool_to_prop. apply htons_nonzero. lia.
Qed.

Lemma parseTargets_macs targets l :
  parseTargets targets = Ret l -> length l = length targets /\ Forall (fun t => validMac t.2 = true) l.
Proof.
  revert l. induction targets as [|t targets IH]; intros l; cbn; [by intros [= <-]|].
  destruct (find_char "@" t) as [n|]; [|done]. destruct (parseMac _) as [mac|e|] eqn:Hm; [|done..].
  destruct (parseTargets targets) as [rest|e|]; [|done..]. intros [= <-].
  destruct (IH rest eq_refl) as [Hlen Hf]. split; [cbn; congruence|]. constructor; [|done]. cbn.
  unfold parseMac in Hm. destruct (negb _); [done|]. destruct (macBytes _ _); [|done].
  by destruct (validMac _) eqn:Hv; [injection Hm as <-|].
Qed.

Lemma parseXdpBackends_total endpoints : parseXdpBackends endpoints <> Diverge.
Proof.
  unfold parseXdpBackends. destruct (_ <? _); [done|]. generalize (@nil XdpBackendValue).
  induction endpoints as [|e endpoints IH]; intros l; cbn [parseXdpBackends_loop]; [done|].
  destruct (parseXdpBackend l e) eqn:He; [apply IH|done|].
  unfold parseXdpBackend in He. by repeat case_match.
Qed.

Lemma parseTargets_total targets : parseTargets targets <> Diverge.
Proof.
  induction targets as [|t targets IH]; cbn; [done|]. destruct (find_char _ _); [|done].
  destruct (parseMac _) eqn:Hm; [by destruct (parseTargets targets)|done|].
  unfold parseMac in Hm. by repeat case_match.
Qed.

Lemma wp_orInvalid {A} what ok (op : K -> (A + Z) * K) (P : A -> Prop) k :
  (forall a k', op k = (inl a, k') -> ok a = true -> P a) ->
  wp (orInvalid what ok op) (fun o _ => match o with
    Ret a => P a | Throw e => True | Diverge => False end) k.
Proof.
  intros HP. unfold orInvalid. apply wp_bind, wp_world. destruct (op k) as [[a|e] k'] eqn:E; cbn; [|done].
  destruct (ok a) eqn:Hok; cbn; eauto.
Qed.

Lemma wp_inspectInterface name k :
  wp (inspectInterface name) (fun o _ => match o with
    | Ret i => ii_index i <> 0 /\ validMac (ii_mac i) = true
    | Throw _ => True
    | Diverge => False
    end) k.
Proof using All.
  unfold inspectInterface. destruct (negb _); [done|]. apply wp_bind, wp_world.
  destruct (if_socket k) as [[fd|e] k1]; cbn [fst snd]; [|done]. apply wp_finally.
  unfold queryInterface. apply wp_bind.
  eapply wp_mono; [apply (wp_orInvalid _ _ _ (fun i => 0 < i < 2 ^ 31))|].
  { intros i k' E _. pose proof (if_index_positive fd (c_str name) k1) as Hi. by rewrite E in Hi. }
  intros [index|e|] k2 Hi; [|done..].
  apply wp_bind. eapply wp_mono; [by apply (wp_orInvalid _ _ _ (fun _ => True))|].
  intros [flags|e|] k3 Hd3; [|done..].
  apply wp_bind. eapply wp_mono; [by apply (wp_orInvalid _ _ _ (fun _ => True))|].
  intros [mtu|e|] k4 Hd4; [|done..].
  apply wp_bind. eapply wp_mono; [by apply (wp_orInvalid _ _ _ (fun _ => True))|].
  intros [hardware|e|] k5 Hd5; [|done..].
  destruct (validMac _) eqn:Hm; [|done]. apply wp_ret. cbn. split; [|done].
  unfold u32. rewrite Z.mod_small by lia. lia.
Qed.
Lemma usable_backend i mac source :
  i <> 0 -> validMac mac = true -> validMac source = true -> usable (mkUdpDsrBackendValue i mac source).
Proof.
  intros Hi Hm Hs. unfold usable, invalidBackend. cbn. rewrite Hm, Hs. destruct (Z.eqb_spec i 0); done.
Qed.

Lemma wp_resolveTargets input targets backends k :
  Forall (fun t => validMac t.2 = true) targets -> Forall usable backends ->
  wp (resolveTargets input targets backends) (fun o _ => match o with
    | Ret l => length l = (length backends + length targets)%nat /\ Forall usable l
    | Throw _ => True
    | Diverge => False
    end) k.
Proof using All.
  revert backends k. induction targets as [|[name mac] targets IH]; intros backends k Ht Hb.
  { apply wp_ret. cbn. split; [lia|done]. }
  apply Forall_cons in Ht as [Hm Ht]. cbn [resolveTargets]. apply wp_bind.
  eapply wp_mono; [apply wp_inspectInterface|]. intros [output|e|] k1 Ho; [|done..].
  destruct (_ =? _); [done|]. case_bool_decide; [done|].
  eapply wp_mono; [apply IH; [done|]|].
  - apply Forall_app. split; [done|]. apply Forall_singleton. by apply usable_backend; [apply Ho|done|apply Ho].
  - intros [l|e|] k2 Hl; [|done..]. rewrite length_app in Hl. cbn in Hl |- *. split; [lia|apply Hl].
Qed.

(** What [synchronizeDsrConfig] checks of a configuration. *)
Record synchronizable (c : DsrConfiguration) : Prop := {
  sy_version : schemaVersion (dsr_config c) = kDsrSchemaVersion;
  sy_count : backendCount (dsr_config c) = len (dsr_backends c);
  sy_reserved : reserved (dsr_config c) = 0;
  sy_port : vipPort (dsr_config c) <> 0;
  sy_vip : notUnicast (ntohl (vipAddress (dsr_config c))) = false;
  sy_limit : len (dsr_backends c) <= 64;
  sy_usable : Forall usable (dsr_backends c)
}.

Lemma wp_parseDsrConfiguration ingress vip targets k :
  wp (parseDsrConfiguration ingress vip targets) (fun o _ => match o with
    | Ret c => synchronizable c
    | Throw _ => True
    | Diverge => False
    end) k.
Proof using All.
  unfold parseDsrConfiguration. apply wp_bind, wp_outcome.
  destruct (parseXdpBackends [vip]) as [l|e|] eqn:Hv; [|done|by apply parseXdpBackends_total in Hv].
  apply parseXdpBackends_vip in Hv as (b & -> & Hb & Hp). cbn [lookup_total list_lookup_total].
  destruct (Z.ltb_spec kDsrMaxBackends (len targets)) as [|Hmax]; [done|].
  apply wp_bind, wp_outcome. destruct (parseTargets targets) as [parsed|e|] eqn:Ht; [|done|by apply parseTargets_total in Ht].
  apply parseTargets_macs in Ht as [Hlen Ht].
  apply wp_bind. eapply wp_mono; [apply wp_inspectInterface|]. intros [input|e|] k1 Hi; [|done..].
  apply wp_bind. eapply wp_mono; [by apply wp_resolveTargets|]. intros [l|e|] k2 Hl; [|done..].
  destruct Hl as [Hl Hu]. apply wp_ret. cbn in Hl. unfold kDsrMaxBackends, len in Hmax.
  split; cbn; try done; unfold len; lia.
Qed.
End accepted.

(** ** The stores keep the promise *)

(** Arrays by descriptor: the element of a configuration map, the elements of a
    table, and which maps are frozen.  The descriptors are those of different
    maps of one object.  Nothing is promised about the value an update leaves. *)
Class ArrayKernel (K C B : Type) `{BpfCalls K} `{BpfElements K C} `{BpfElements K B} := {
  array_config : K -> Z -> C;
  array_table : K -> Z -> Z -> B;
  is_frozen : K -> Z -> bool;
  ak_update_config : forall fd (c : C) k, let '(_, k') := bpf_map_update_elem fd 0 c k in
    (forall fd', fd' <> fd -> array_config k' fd' = array_config k fd' /\
       forall i, array_table k' fd' i = array_table k fd' i) /\
    (forall fd', is_frozen k' fd' = is_frozen k fd');
  ak_update_table : forall fd i (b : B) k, let '(_, k') := bpf_map_update_elem fd i b k in
    (forall fd', fd' <> fd -> array_config k' fd' = array_config k fd') /\
    (forall fd' j, fd' <> fd \/ j <> i -> array_table k' fd' j = array_table k fd' j) /\
    (forall fd', is_frozen k' fd' = is_frozen k fd');
  ak_lookup_config : forall fd k, let '(r, k') := @bpf_map_lookup_elem K C _ fd 0 k in
    (forall c, r = inl c -> c = array_config k fd) /\
    (forall fd', array_config k' fd' = array_config k fd' /\ is_frozen k' fd' = is_frozen k fd' /\
       forall i, array_table k' fd' i = array_table k fd' i);
  ak_lookup_table : forall fd i k, let '(r, k') := @bpf_map_lookup_elem K B _ fd i k in
    (0 <= i < 64 -> forall b, r = inl b -> b = array_table k fd i) /\
    (forall fd', array_config k' fd' = array_config k fd' /\ is_frozen k' fd' = is_frozen k fd' /\
       forall i, array_table k' fd' i = array_table k fd' i);
  ak_freeze : forall fd k, let '(r, k') := bpf_map_freeze fd k in
    (forall fd', array_config k' fd' = array_config k fd' /\
       forall i, array_table k' fd' i = array_table k fd' i) /\
    (forall fd', fd' <> fd -> is_frozen k' fd' = is_frozen k fd') /\
    is_frozen k' fd = (if r is inl _ then true else is_frozen k fd)
}.

Lemma orThrowMap_eq {K} `{BpfCalls K} {A} what (op : K -> (A + Z) * K) k :
  orThrowMap what op k =
  (match (op k).1 with inl a => Ret a | inr e => Throw (mapSystemError what e) end, (op k).2).
Proof. unfold orThrowMap, mbind, mworld. by destruct (op k) as [[a|e] k']. Qed.

Section discharge.
Context {K C B : Type} `{ArrayKernel K C B} (s : MapStore).
Context (distinct : configFd_ s <> backendFd_ s).

#[local] Instance access : MapAccess K C B := mapStoreAccess s.

#[export] Instance map_store_laws : MapLaws K C B.
Proof using All.
  refine {| image_config k := array_config k (configFd_ s);
            image_table k := array_table k (backendFd_ s);
            frozen_config k := is_frozen k (configFd_ s);
            frozen_table k := is_frozen k (backendFd_ s) |}.
  - intros i b k. cbn. unfold writeBackendMap. rewrite orThrowMap_eq.
    pose proof (ak_update_table (backendFd_ s) i b k) as Hu.
    destruct (bpf_map_update_elem (backendFd_ s) i b k) as [r k']. destruct Hu as (E1 & E2 & E3).
    split_and!; [by destruct r|by apply E1|intros; apply E2; by right|apply E3..].
  - intros c k. cbn. unfold writeConfigMap. rewrite orThrowMap_eq.
    pose proof (ak_update_config (configFd_ s) c k) as Hu.
    destruct (bpf_map_update_elem (configFd_ s) 0 c k) as [r k']. destruct Hu as (E1 & E2).
    split_and!; [by destruct r|by apply E1|apply E2..].
  - intros i k. cbn. unfold readBackendMap. rewrite orThrowMap_eq.
    pose proof (ak_lookup_table (backendFd_ s) i k) as Hu.
    destruct (bpf_map_lookup_elem (backendFd_ s) i k) as [r k']. destruct Hu as (E1 & E2).
    split_and!; [by destruct r|intros Hi b; destruct r; intros [= <-]; by apply E1|apply E2..].
  - intros k. cbn. unfold readConfigMap. rewrite orThrowMap_eq.
    pose proof (ak_lookup_config (configFd_ s) k) as Hu.
    destruct (bpf_map_lookup_elem (configFd_ s) 0 k) as [r k']. destruct Hu as (E1 & E2).
    split_and!; [by destruct r|intros c; destruct r; intros [= <-]; by apply E1|apply E2..].
  - intros k. cbn. unfold freezeBackendsMap. rewrite orThrowMap_eq.
    pose proof (ak_freeze (backendFd_ s) k) as Hu.
    destruct (bpf_map_freeze (backendFd_ s) k) as [r k']. destruct Hu as (E1 & E2 & E3).
    split_and!; [by destruct r|apply E1..|by apply E2|cbn [fst snd]; rewrite E3; by destruct r].
  - intros k. cbn. unfold freezeConfigMap. rewrite orThrowMap_eq.
    pose proof (ak_freeze (configFd_ s) k) as Hu.
    destruct (bpf_map_freeze (configFd_ s) k) as [r k']. destruct Hu as (E1 & E2 & E3).
    split_and!; [by destruct r|apply E1..|by apply E2, not_eq_sym|cbn [fst snd]; rewrite E3; by destruct r].
Defined.
End discharge.

(** ** The configuration from the command line to the program *)

Section pipeline.
Context {K : Type} `{InterfaceLaws K} `{AddressParser}.
Context {W : Type} `{MapLaws W UdpDsrConfigValue UdpDsrBackendValue}.

(** What the XDP program finds in the table. *)
Definition tableLookup (w : W) (i : Z) : option UdpDsrBackendValue :=
  if (0 <=? i) && (i <? 64) then Some (image_table w i) else None.

Lemma synchronizable_accepted c w :
  synchronizable c ->
  synchronizeDsrConfig c w = writeAndVerify (dsr_config c) emptyDsrBackend (dsr_backends c) w.
Proof.
  intros [Hv Hn Hr Hp Ha Hl Hu]. unfold synchronizeDsrConfig, kDsrMaxBackends.
  destruct (Z.ltb_spec 64 (len (dsr_backends c))); [lia|]. rewrite Hv, Hn, Hr, Ha, !Z.eqb_refl.
  destruct (Z.eqb_spec (vipPort (dsr_config c)) 0); [done|]. cbn [negb orb].
  destruct (existsb invalidBackend (dsr_backends c)) eqn:He; [|done].
  apply existsb_exists in He as (b & Hb & Hbad). rewrite Forall_forall in Hu.
  apply list_elem_of_In in Hb. specialize (Hu b Hb). unfold usable in Hu. congruence.
Qed.

Lemma synchronizable_refused c w :
  ~ synchronizable c -> exists what, synchronizeDsrConfig c w = (Throw (InvalidArgument what), w).
Proof.
  intros Hn. unfold synchronizeDsrConfig.
  destruct (Z.ltb_spec kDsrMaxBackends (len (dsr_backends c))) as [|Hl]; [by eexists|].
  destruct (_ || _) eqn:Hc; [by eexists|].
  destruct (existsb invalidBackend (dsr_backends c)) eqn:He; [by eexists|].
  destruct Hn. bool_to_prop. unfold kDsrMaxBackends in Hl. split; try done; try lia.
  apply Forall_forall. intros b Hb. unfold usable. destruct (invalidBackend b) eqn:Hi; [|done].
  assert (existsb invalidBackend (dsr_backends c) = true); [|congruence].
  apply existsb_exists. exists b. split; [by apply list_elem_of_In|done].
Qed.

Lemma exact_image_verdict redirectPacket c (w : W) p :
  synchronizable c -> exact_image (dsr_config c) emptyDsrBackend (dsr_backends c) w ->
  dsrVerdict redirectPacket (Some (image_config w)) (tableLookup w) p <> VInvalidConfig.
Proof.
  intros [Hv Hn Hr Hp Ha Hl Hu] [Hc Ht]. unfold dsrVerdict, verdict. rewrite Hc.
  destruct (supportedPacket p); [|done]. cbn [negb].
  assert (Hvalid : invalidDsrConfig (dsr_config c) = false).
  { unfold invalidDsrConfig. rewrite Hv, Hn, Hr. unfold kDsrSchemaVersion. cbn.
    destruct (Z.ltb_spec 64 (len (dsr_backends c))); [lia|done]. }
  rewrite Hvalid. destruct (_ || _); [done|].
  destruct (Z.eqb_spec (backendCount (dsr_config c)) 0) as [|Hne]; [done|].
  pose proof (len_nonneg (dsr_backends c)).
  set (h := fnv1a _). pose proof (Z.mod_pos_bound h (backendCount (dsr_config c)) ltac:(lia)) as Hh.
  set (i := h mod _) in *. unfold targetVerdict, tableLookup.
  destruct (Z.leb_spec 0 i); [|lia]. destruct (Z.ltb_spec i 64); [|lia]. cbn [andb].
  rewrite <-(Z2Nat.id i) by lia. rewrite Ht by lia. unfold expectedBackend.
  destruct (lookup_lt_is_Some_2 (dsr_backends c) (Z.to_nat i)) as [b Hb]; [unfold len in *; lia|].
  rewrite Hb. cbn. rewrite Forall_lookup in Hu. rewrite (Hu _ _ Hb). by destruct (_ =? _).
Qed.

(** C21: a configuration goes from its literals to the XDP program unharmed.
    What [parseDsrConfiguration] returns passes the checks of
    [synchronizeDsrConfig], which refuses any other configuration that fails
    them before it touches a map.  Whichever operation of the store fails, a map
    is frozen only when both hold exactly the configuration and its backends,
    padded to 64 with zeros; a synchronisation that returns leaves both frozen,
    and then the program finds no packet's configuration invalid. *)
Theorem dsr_configuration_exact ingress vip targets k k' c w :
  parseDsrConfiguration ingress vip targets k = (Ret c, k') -> unfrozen w ->
  let '(o, w') := synchronizeDsrConfig c w in
  synchronizeDsrConfig c w = writeAndVerify (dsr_config c) emptyDsrBackend (dsr_backends c) w /\
  synchronized (dsr_config c) emptyDsrBackend (dsr_backends c) o w' /\
  (o = Ret tt -> forall redirectPacket p,
     dsrVerdict redirectPacket (Some (image_config w')) (tableLookup w') p <> VInvalidConfig) /\
  (forall c', ~ synchronizable c' ->
     exists what, synchronizeDsrConfig c' w = (Throw (InvalidArgument what), w)).
Proof using All.
  intros Hparse Hu. pose proof (wp_parseDsrConfiguration ingress vip targets k) as Hc.
  unfold wp in Hc. rewrite Hparse in Hc. cbn [fst snd] in Hc.
  pose proof (synchronizable_accepted c w Hc) as Ha.
  pose proof (wp_writeAndVerify (dsr_config c) emptyDsrBackend (dsr_backends c) w Hu) as Hs.
  unfold wp in Hs. rewrite <-Ha in Hs. destruct (synchronizeDsrConfig c w) as [o w'] eqn:E.
  cbn [fst snd] in Hs. split_and!; [done|done| |].
  - intros -> redirectPacket p. apply exact_image_verdict with c; [done|]. by apply Hs.
  - intros c' Hc'. by apply synchronizable_refused.
Qed.
End pipeline.

(** ** A scripted host *)

Module ScriptedHost.
(** Two interfaces: [eth0] with index 2 and [eth1] with index 3. *)
Definition indexOf (name : bytes) : Z := if bool_decide (name = bs "eth0") then 2 else 3.

#[export] Instance interfaces : InterfaceOps unit := {
  if_socket k := (inl 5, k);
  if_close _ k := k;
  if_index _ name k := (inl (indexOf name), k);
  if_flags _ _ k := (inl 3, k);
  if_mtu _ _ k := (inl 1500, k);
  if_hwaddr _ name k := (inl (1, [2; 0; 0; 0; 0; indexOf name; 0; 0]), k)
}.
#[export] Instance interfaces_laws : InterfaceLaws unit.
Proof. intros fd name k. cbn. unfold indexOf. by case_bool_decide. Defined.

(** Every address is 10.0.0.1. *)
#[export] Instance addresses : AddressParser := fun _ => Some 16777226.

(** Two maps behind descriptors 3 and 4. *)
Record maps := mkMaps {
  m_config : UdpDsrConfigValue;
  m_table : gmap Z UdpDsrBackendValue;
  m_frozen : gset Z
}.
Definition zeroConfig : UdpDsrConfigValue := mkUdpDsrConfigValue 0 0 0 0 0.

#[export] Instance calls : BpfCalls maps := {
  bpf_map_get_info _ w := (inr EBADF, w);
  bpf_map_freeze fd w := (inl tt, mkMaps (m_config w) (m_table w) ({[fd]} ∪ m_frozen w));
  bpf_map_create _ _ _ _ _ _ w := (inr EPERM, w);
  bpf_close _ w := w;
  bpf_strerror _ := bs "error"
}.
#[export] Instance config_elements : BpfElements maps UdpDsrConfigValue := {
  bpf_map_update_elem fd _ c w :=
    if fd =? 3 then (inl tt, mkMaps c (m_table w) (m_frozen w)) else (inr EBADF, w);
  bpf_map_lookup_elem fd _ w := (if fd =? 3 then inl (m_config w) else inr EBADF, w)
}.
#[export] Instance table_elements : BpfElements maps UdpDsrBackendValue := {
  bpf_map_update_elem fd i b w :=
    if fd =? 4 then (inl tt, mkMaps (m_config w) (<[i := b]> (m_table w)) (m_frozen w)) else (inr EBADF, w);
  bpf_map_lookup_elem fd i w :=
    (if fd =? 4 then inl (default emptyDsrBackend (m_table w !! i)) else inr EBADF, w)
}.
#[export] Instance arrays : ArrayKernel maps UdpDsrConfigValue UdpDsrBackendValue.
Proof.
  refine {| array_config w fd := if fd =? 3 then m_config w else zeroConfig;
            array_table w fd i := if fd =? 4 then default emptyDsrBackend (m_table w !! i) else emptyDsrBackend;
            is_frozen w fd := bool_decide (fd ∈ m_frozen w) |}.
  - intros fd c w. cbn. destruct (Z.eqb_spec fd 3) as [->|]; [|done]. split; [|done].
    intros fd' Hne. by destruct (Z.eqb_spec fd' 3).
  - intros fd i b w. cbn. destruct (Z.eqb_spec fd 4) as [->|]; [|done]. split_and!; [done| |done].
    intros fd' j Hne. destruct (Z.eqb_spec fd' 4) as [->|]; [|done]. cbn.
    destruct Hne; [done|]. by rewrite lookup_insert_ne.
  - intros fd w. cbn. split; [|done]. intros c. by destruct (fd =? 3); intros [= <-].
  - intros fd i w. cbn. split; [|done]. intros _ b. by destruct (fd =? 4); intros [= <-].
  - intros fd w. cbn. split_and!; [done| |].
    + intros fd' Hne. apply bool_decide_ext. set_solver.
    + apply bool_decide_eq_true_2. set_solver.
Defined.

Definition store : MapStore := mkMapStore 3 4 5.
Definition blank : maps := mkMaps zeroConfig ∅ ∅.
Definition parsed : outcome DsrConfiguration :=
  (parseDsrConfiguration (bs "eth0") (bs "10.0.0.1:53") [bs "eth1@02:00:00:00:00:09"] tt).1.
Definition expected : DsrConfiguration :=
  mkDsrConfiguration XdpExample.config [mkUdpDsrBackendValue 3 [2; 0; 0; 0; 0; 9] [2; 0; 0; 0; 0; 3]].
End ScriptedHost.

Import ScriptedHost.
#[local] Instance store_access : MapAccess maps UdpDsrConfigValue UdpDsrBackendValue := mapStoreAccess store.
#[local] Instance store_laws : MapLaws maps UdpDsrConfigValue UdpDsrBackendValue :=
  map_store_laws store ltac:(discriminate).

(** One target is parsed, written, verified and frozen. *)
Lemma dsr_configuration_exact_witness :
  parseDsrConfiguration (bs "eth0") (bs "10.0.0.1:53") [bs "eth1@02:00:00:00:00:09"] tt = (Ret expected, tt) /\
  (synchronizeDsrConfig expected blank).1 = Ret tt /\
  frozen (synchronizeDsrConfig expected blank).2 /\
  image_config (synchronizeDsrConfig expected blank).2 = XdpExample.config.
Proof.
  assert (Hp : parseDsrConfiguration (bs "eth0") (bs "10.0.0.1:53") [bs "eth1@02:00:00:00:00:09"] tt =
               (Ret expected, tt)) by (vm_compute; reflexivity).
  assert (Ho : (synchronizeDsrConfig expected blank).1 = Ret tt) by (vm_compute; reflexivity).
  pose proof (dsr_configuration_exact _ _ _ tt tt expected blank Hp (conj eq_refl eq_refl)) as Hd.
  destruct (synchronizeDsrConfig expected blank) as [o w']. cbn [fst snd] in Ho |- *. subst o.
  destruct Hd as (_ & (_ & Hret & _) & _). destruct (Hret eq_refl) as [Hf [Hc _]]. by split_and!.
Defined.
