(* ===== verification/XdpAttachment.v ===== *)
(** * Loading and attaching an XDP program
    (src/src/xdp/XdpAttachment.h, XdpAttachment.cpp)

    An attachment owns a loaded object and its link to an interface.  It reads
    the object file, checks the object against its profile, loads it, fills its
    maps through the stores, attaches the program without replacing another one
    and detaches only its own.  The file ends with the kernel's promises about
    XDP links and the theorem on the life of an attachment. *)
From S2P Require Import Prelude Os XdpSchema BpfKernel MapStore ConfigSync RuntimeStore.

(** ** Data *)

Inductive XdpAttachMode := kGeneric | kNative.
Inductive XdpObjectProfile := kLegacy | kMapsV1 | kUdpDsrV2 | kUdpRuntimeV3.

#[export] Instance attach_mode_eq_dec : EqDecision XdpAttachMode.
Proof. solve_decision. Defined.
#[export] Instance object_profile_eq_dec : EqDecision XdpObjectProfile.
Proof. solve_decision. Defined.

Record XdpAttachment := mkXdpAttachment {
  runtimeMaps_ : option RuntimeMapStore;
  objectBytes_ : bytes;
  object_ : option bpf_object;
  programFd_ : Z;
  programId_ : Z;
  interfaceIndex_ : Z;
  mode_ : XdpAttachMode;
  attached_ : bool;
  profile_ : XdpObjectProfile
}.

Definition newXdpAttachment : XdpAttachment :=
  mkXdpAttachment None [] None (-1) 0 0 kGeneric false kLegacy.

Definition set_runtimeMaps (m : option RuntimeMapStore) (a : XdpAttachment) : XdpAttachment :=
  mkXdpAttachment m (objectBytes_ a) (object_ a) (programFd_ a) (programId_ a) (interfaceIndex_ a)
    (mode_ a) (attached_ a) (profile_ a).
Definition set_object (b : bytes) (o : option bpf_object) (a : XdpAttachment) : XdpAttachment :=
  mkXdpAttachment (runtimeMaps_ a) b o (programFd_ a) (programId_ a) (interfaceIndex_ a)
    (mode_ a) (attached_ a) (profile_ a).
Definition set_program (fd id : Z) (a : XdpAttachment) : XdpAttachment :=
  mkXdpAttachment (runtimeMaps_ a) (objectBytes_ a) (object_ a) fd id (interfaceIndex_ a)
    (mode_ a) (attached_ a) (profile_ a).
Definition set_link (ifindex : Z) (mode : XdpAttachMode) (attached : bool) (a : XdpAttachment)
    : XdpAttachment :=
  mkXdpAttachment (runtimeMaps_ a) (objectBytes_ a) (object_ a) (programFd_ a) (programId_ a) ifindex
    mode attached (profile_ a).
Definition set_profile (p : XdpObjectProfile) (a : XdpAttachment) : XdpAttachment :=
  mkXdpAttachment (runtimeMaps_ a) (objectBytes_ a) (object_ a) (programFd_ a) (programId_ a)
    (interfaceIndex_ a) (mode_ a) (attached_ a) p.

(** ** System calls on XDP links *)

Definition XDP_FLAGS_UPDATE_IF_NOEXIST : Z := 1.
Definition XDP_FLAGS_SKB_MODE : Z := 2.
Definition XDP_FLAGS_DRV_MODE : Z := 4.

Class XdpCalls (K : Type) := {
  (** the interface and the flags; the ID of the attached program or 0 *)
  bpf_xdp_query_id : Z -> Z -> K -> (Z + Z) * K;
  (** the interface, the program's descriptor and the flags *)
  bpf_xdp_attach : Z -> Z -> Z -> K -> (unit + Z) * K;
  (** the interface, the flags and [old_prog_fd] *)
  bpf_xdp_detach : Z -> Z -> Z -> K -> (unit + Z) * K;
  bpf_prog_get_fd_by_id : Z -> K -> (Z + Z) * K;
  (** the ID in [struct bpf_prog_info] *)
  bpf_prog_get_info : Z -> K -> (Z + Z) * K;
  (** [fcntl(fd, F_DUPFD_CLOEXEC, least)] *)
  dup_fd_cloexec : Z -> Z -> K -> (Z + Z) * K;
  (** the index or 0, and [errno] *)
  xdp_if_nametoindex : bytes -> K -> (Z * Z) * K;
  write_cerr : bytes -> K -> K
}.

Definition xdpAttachFlags (mode : XdpAttachMode) : Z :=
  match mode with kGeneric => XDP_FLAGS_SKB_MODE | kNative => XDP_FLAGS_DRV_MODE end.

Definition xdpAttachModeName (mode : XdpAttachMode) : bytes :=
  match mode with kGeneric => bs "generic" | kNative => bs "native" end.

Section attachment.
Context {K : Type} `{FileOps K} `{Libbpf K} `{BpfCalls K} `{XdpCalls K}.
Context `{BpfElements K UdpRuntimeSnapshot} `{BpfElements K Z} `{BpfElements K (list UdpDsrStatsValue)}.
Context `{BpfElements K XdpConfigValue} `{BpfElements K XdpBackendValue} `{BpfElements K (list Z)}.
Context `{BpfElements K UdpDsrConfigValue} `{BpfElements K UdpDsrBackendValue}.

Definition xdpErrorHint (error : Z) : bytes :=
  if (error =? EPERM) || (error =? EACCES) then
    bs "；请检查 sudo、CAP_BPF/CAP_NET_ADMIN、容器限制及 memlock 限额"
  else if (error =? EOPNOTSUPP) || (error =? EINVAL) then
    bs "；请检查内核/网卡 XDP 支持及对象；native 不支持时可显式选择 --mode generic"
  else if (error =? EBUSY) || (error =? EEXIST) then
    bs "；设备可能已有程序或程序已被替换，拒绝覆盖/卸载其他程序"
  else if error =? ENOMEM then bs "；请检查可用内存及 memlock 限额"
  else [].

Definition throwXdpSystemError {St A} (operation : bytes) (error : Z) : M St A :=
  mthrow (RuntimeError (operation ++ bs ": " ++ bpf_strerror error ++ xdpErrorHint error)).

Definition orThrowXdp {A} (operation : bytes) (op : K -> (A + Z) * K) : M K A :=
  result <- mworld op ;;
  match result with
  | inl a => mret a
  | inr error => throwXdpSystemError operation error
  end.

(** ** Links *)

(** The link of a removed interface is gone with it. *)
Definition queryAttachedProgramId (ifindex : Z) (mode : XdpAttachMode) : M K Z :=
  result <- mworld (bpf_xdp_query_id ifindex (xdpAttachFlags mode)) ;;
  match result with
  | inl id => mret id
  | inr error =>
      if error =? ENODEV then mret 0 else throwXdpSystemError (bs "查询 XDP 程序") error
  end.

(** The descriptor for the comparison is at least 3, for 0 means not to
    compare. *)
Definition detachExpectedProgramFd (ifindex : Z) (mode : XdpAttachMode) (fd id : Z) : M K unit :=
  current <- queryAttachedProgramId ifindex mode ;;
  if current =? 0 then mret tt
  else if negb (current =? id) then
    mthrow (RuntimeError (bs "程序 ID 不匹配，拒绝卸载其他程序（当前 " ++ to_string current ++
                          bs "，预期 " ++ to_string id ++ bs "）"))
  else
    comparisonFd <- orThrowXdp (bs "保留条件卸载程序 FD") (dup_fd_cloexec fd 3) ;;
    result <- mworld (bpf_xdp_detach ifindex (xdpAttachFlags mode) comparisonFd) ;;
    mmodify (bpf_close comparisonFd) ;;;
    match result with
    | inl _ => mret tt
    | inr error =>
        if error =? ENODEV then mret tt else throwXdpSystemError (bs "条件卸载 XDP") error
    end.

Definition resolveInterfaceIndex (device : bytes) : M K Z :=
  result <- mworld (xdp_if_nametoindex device) ;;
  let '(index, errno) := result in
  if index =? 0 then
    throwXdpSystemError (bs "找不到网络设备 " ++ device) (if errno =? 0 then ENODEV else errno)
  else mret index.

Definition attachProgram (ifindex : Z) (mode : XdpAttachMode) : M (XdpAttachment * K) unit :=
  programFd <- own programFd_ ;;
  attached <- own attached_ ;;
  if (programFd <? 0) || attached then
    mthrow (RuntimeError (bs "无可挂载对象或已经挂载"))
  else
    outside (orThrowXdp (bs "挂载 XDP")
      (bpf_xdp_attach ifindex programFd (Z.lor (xdpAttachFlags mode) XDP_FLAGS_UPDATE_IF_NOEXIST))) ;;;
    update (set_link ifindex mode true).

Definition detachProgram : M (XdpAttachment * K) unit :=
  a <- own (fun a => a) ;;
  if negb (attached_ a) then mret tt
  else
    outside (detachExpectedProgramFd (interfaceIndex_ a) (mode_ a) (programFd_ a) (programId_ a)) ;;;
    update (fun a => set_link (interfaceIndex_ a) (mode_ a) false a).

(** The command that removes a given program. *)
Definition detachExpectedProgram (ifindex : Z) (mode : XdpAttachMode) (expectedProgramId : Z)
    : M K unit :=
  current <- queryAttachedProgramId ifindex mode ;;
  if current =? 0 then mret tt
  else
    fd <- orThrowXdp (bs "打开预期程序 ID " ++ to_string expectedProgramId)
            (bpf_prog_get_fd_by_id expectedProgramId) ;;
    mfinally (detachExpectedProgramFd ifindex mode fd expectedProgramId) (bpf_close fd).

Definition destroyXdpAttachment (a : XdpAttachment) (k : K) : K :=
  let k1 :=
    if attached_ a then
      match detachProgram (a, k) with
      | (Throw e, (_, k')) => write_cerr (bs "XDP 清理失败：" ++ what bpf_strerror e) k'
      | (_, (_, k')) => k'
      end
    else k in
  let k2 := match object_ a with Some object => bpf_object__close object k1 | None => k1 end in
  match runtimeMaps_ a with Some s => destroyRuntimeMapStore s k2 | None => k2 end.

(** ** Loading *)

Definition kMaxObjectBytes : Z := 16 * 1024 * 1024.

(** [while (offset < objectBytes_.size())]: every read that counts adds a byte;
    [fuel] bounds the interruptions as well. *)
Fixpoint readObjectBytes (fuel : nat) (path : bytes) (fd size : Z) (contents : bytes) : M K bytes :=
  if size <=? len contents then mret contents
  else
    match fuel with
    | O => mdiverge
    | S fuel' =>
        count <- mworld (os_read fd (size - len contents)) ;;
        match count with
        | inr errno =>
            if errno =? EINTR then readObjectBytes fuel' path fd size contents
            else throwXdpSystemError (bs "读取对象 " ++ path) errno
        | inl [] => mthrow (RuntimeError (bs "读取对象时文件被截断：" ++ path))
        | inl chunk => readObjectBytes fuel' path fd size (contents ++ chunk)
        end
    end.

Definition readObjectFile (fuel : nat) (path : bytes) (fd : Z) : M K bytes :=
  info <- orThrowXdp (bs "检查对象 " ++ path) (os_fstat fd) ;;
  if negb (st_isreg info) then mthrow (RuntimeError (bs "对象必须是普通文件：" ++ path))
  else if (st_size info <=? 0) || (kMaxObjectBytes <? st_size info) then
    mthrow (RuntimeError (bs "对象大小必须大于 0 且不超过 16 MiB：" ++ path))
  else readObjectBytes fuel path fd (st_size info) [].

Definition programName (profile : XdpObjectProfile) : bytes :=
  match profile with
  | kUdpRuntimeV3 => bs "xdp_udp_rt"
  | kUdpDsrV2 => bs "xdp_udp_dsr"
  | kMapsV1 => bs "xdp_maps_pass"
  | kLegacy => bs "xdp_pass"
  end.

Definition profileError (profile : XdpObjectProfile) : bytes :=
  match profile with
  | kUdpRuntimeV3 => bs "对象应仅包含 xdp_udp_rt 及规定 v3 maps"
  | kUdpDsrV2 => bs "对象应仅包含 xdp section 的 xdp_udp_dsr 程序及规定 maps"
  | kMapsV1 => bs "对象应仅包含 xdp section 的 xdp_maps_pass 程序及规定 maps"
  | kLegacy => bs "对象应仅包含 xdp section 的 xdp_pass 程序且无 maps"
  end.

(** The only program of the object, if it is the profile's. *)
Definition selectProgram (profile : XdpObjectProfile) (object : bpf_object) (k : K) : option bpf_program :=
  match bpf_object_programs object k with
  | [program] =>
      if bool_decide (bpf_program__name program k = programName profile) &&
         bool_decide (bpf_program__section_name program k = bs "xdp") &&
         (bpf_program__type program k =? BPF_PROG_TYPE_XDP) &&
         negb (bool_decide (profile = kLegacy) && bool_decide (bpf_object_maps object k <> []))
      then Some program else None
  | _ => None
  end.

Definition validateProfileMaps (profile : XdpObjectProfile) (object : bpf_object) : M K unit :=
  match profile with
  | kUdpRuntimeV3 => validateRuntimeMapObject object
  | kMapsV1 => validateConfigMapObject object
  | kUdpDsrV2 => validateDsrMapObject object
  | kLegacy => mret tt
  end.

(** A method of the member [runtimeMaps_]. *)
Definition withRuntimeMaps (m : M (RuntimeMapStore * K) unit) : M (XdpAttachment * K) unit :=
  maps <- own runtimeMaps_ ;;
  match maps with
  | None => mthrow (LogicError (bs "runtime profile 未加载"))
  | Some s => zoom (fun _ => s) (fun s' => set_runtimeMaps (Some s')) m
  end.

Definition synchronizeMaps (profile : XdpObjectProfile) (object : bpf_object)
    (backends : list XdpBackendValue) (dsr : DsrConfiguration)
    (runtime : option UdpRuntimeSnapshot) : M (XdpAttachment * K) unit :=
  match profile with
  | kLegacy => mret tt
  | kMapsV1 =>
      maps <- outside (newMapStore object) ;;
      outside (@synchronizeXdpConfig K (mapStoreAccess maps) backends)
  | kUdpDsrV2 =>
      maps <- outside (newDsrMapStore object) ;;
      outside (@synchronizeDsrConfig K (mapStoreAccess maps) dsr)
  | kUdpRuntimeV3 =>
      match runtime with
      | None => mthrow (InvalidArgument (bs "缺少 runtime 初始快照"))
      | Some snapshot =>
          maps <- outside (newRuntimeMapStore object) ;;
          update (set_runtimeMaps (Some maps)) ;;;
          withRuntimeMaps (publishSnapshot snapshot)
      end
  end.

(** What is done with the bytes of the object. *)
Definition loadObjectBytes (path : bytes) (profile : XdpObjectProfile) (contents : bytes)
    (backends : list XdpBackendValue) (dsr : DsrConfiguration)
    (runtime : option UdpRuntimeSnapshot) : M (XdpAttachment * K) unit :=
  opened <- call (bpf_object__open_mem contents) ;;
  match opened with
  | inr error => throwXdpSystemError (bs "解析 BPF 对象 " ++ path) error
  | inl object =>
      update (set_object contents (Some object)) ;;;
      program <- outside (mgets (selectProgram profile object)) ;;
      match program with
      | None => mthrow (RuntimeError (profileError profile))
      | Some program =>
          outside (validateProfileMaps profile object) ;;;
          outside (orThrowXdp (bs "加载 BPF 对象 " ++ path) (bpf_object__load object)) ;;;
          programFd <- outside (mgets (bpf_program__fd program)) ;;
          update (fun a => set_program programFd (programId_ a) a) ;;;
          id <- outside (orThrowXdp (bs "读取已加载程序 ID") (bpf_prog_get_info programFd)) ;;
          update (set_program programFd id) ;;;
          synchronizeMaps profile object backends dsr runtime ;;;
          update (set_profile profile)
      end
  end.

(** The bytes of a failed read are not looked at again and are left out. *)
Definition loadObject (fuel : nat) (path : bytes) (profile : XdpObjectProfile)
    (backends : list XdpBackendValue) (dsr : DsrConfiguration)
    (runtime : option UdpRuntimeSnapshot) : M (XdpAttachment * K) unit :=
  object <- own object_ ;;
  if bool_decide (is_Some object) then mthrow (RuntimeError (bs "不能重复加载对象"))
  else
    fd <- outside (orThrowXdp (bs "打开对象 " ++ path) (os_open path [O_RDONLY; O_CLOEXEC; O_NONBLOCK])) ;;
    mfinally
      (contents <- outside (readObjectFile fuel path fd) ;;
       update (set_object contents None) ;;;
       loadObjectBytes path profile contents backends dsr runtime)
      (fun s => (s.1, os_close fd s.2)).

(** ** The maps of a loaded object *)

Definition publishRuntime (snapshot : UdpRuntimeSnapshot) : M (XdpAttachment * K) unit :=
  withRuntimeMaps (publishSnapshot snapshot).

Definition readRuntimeStats (a : XdpAttachment) : M K UdpDsrStatsValue :=
  match runtimeMaps_ a with
  | None => mthrow (LogicError (bs "runtime profile 未加载"))
  | Some s => readRuntimeStatistics s
  end.

(** A profile other than the legacy one is set only with an object. *)
Definition attachmentPassPackets (a : XdpAttachment) : M K Z :=
  match profile_ a, object_ a with
  | kMapsV1, Some object => maps <- newMapStore object ;; readPassPackets maps
  | _, _ => mthrow (RuntimeError (bs "未启用 maps 模式"))
  end.

Definition readDsrStats (a : XdpAttachment) : M K UdpDsrStatsValue :=
  match profile_ a, object_ a with
  | kUdpDsrV2, Some object => maps <- newDsrMapStore object ;; readDsrStatistics maps
  | _, _ => mthrow (RuntimeError (bs "未启用 udp-dsr 模式"))
  end.
End attachment.

(** ** What the kernel promises about links

    [links] is the history of the links of all interfaces as this process
    changed them and was told of their absence, [programs] maps the open
    descriptors of programs to their IDs.  Other processes may change the links
    in between: a query tells nothing about the next call.  A detach that does
    not compare may remove any program. *)

Inductive LinkEvent :=
| Attached (ifindex flags id : Z)
| Replaced (ifindex flags : Z)
| Detached (ifindex flags id : Z)
(** The kernel answered that there is no program, or no such interface. *)
| Absent (ifindex flags : Z).

(** What the result of a query and the error of a detach tell. *)
Definition told_absent (ifindex flags : Z) (r : Z + Z) : list LinkEvent :=
  match r with
  | inl id => if id =? 0 then [Absent ifindex flags] else []
  | inr error => if error =? ENODEV then [Absent ifindex flags] else []
  end.

Class LinkKernel (K : Type) `{Libbpf K} `{BpfCalls K} `{XdpCalls K} := {
  links : K -> list LinkEvent;
  programs : K -> gmap Z Z;
  lk_query : forall ifindex flags k, let '(r, k') := bpf_xdp_query_id ifindex flags k in
    links k' = links k ++ told_absent ifindex flags r /\ programs k' = programs k;
  lk_attach : forall ifindex fd flags k, let '(r, k') := bpf_xdp_attach ifindex fd flags k in
    programs k' = programs k /\
    match r with
    | inl _ => exists id, programs k !! fd = Some id /\
        links k' = links k ++ (if has_any flags XDP_FLAGS_UPDATE_IF_NOEXIST then []
                               else [Replaced ifindex flags]) ++ [Attached ifindex flags id]
    | inr _ => links k' = links k
    end;
  lk_detach : forall ifindex flags old k, let '(r, k') := bpf_xdp_detach ifindex flags old k in
    programs k' = programs k /\
    match r with
    | inl _ => exists id, (old <> 0 -> programs k !! old = Some id) /\
        links k' = links k ++ [Detached ifindex flags id]
    | inr error => links k' = links k ++ told_absent ifindex flags (inr error)
    end;
  lk_fd_by_id : forall id k, let '(r, k') := bpf_prog_get_fd_by_id id k in
    links k' = links k /\
    match r with
    | inl fd => programs k !! fd = None /\ programs k' = <[fd := id]> (programs k)
    | inr _ => programs k' = programs k
    end;
  lk_dup : forall fd least id k, programs k !! fd = Some id ->
    let '(r, k') := dup_fd_cloexec fd least k in
    links k' = links k /\
    match r with
    | inl fd' => least <= fd' /\ programs k !! fd' = None /\ programs k' = <[fd' := id]> (programs k)
    | inr _ => programs k' = programs k
    end;
  lk_close : forall fd k,
    links (bpf_close fd k) = links k /\ programs (bpf_close fd k) = delete fd (programs k);
  lk_object_close : forall object k, links (bpf_object__close object k) = links k;
  lk_cerr : forall text k,
    links (write_cerr text k) = links k /\ programs (write_cerr text k) = programs k
}.

Section life.
Context {K : Type} `{LinkKernel K}.

(** How detaching the program [id] ends: the link was removed, or the kernel
    told that there is none; after an exception nothing was changed. *)
Definition detach_events (ifindex flags id : Z) (o : outcome unit) (events : list LinkEvent) : Prop :=
  match o with
  | Ret _ => events = [Detached ifindex flags id] \/ events = [Absent ifindex flags]
  | Throw _ => events = []
  | Diverge => False
  end.
Definition detaches (ifindex flags id : Z) (o : outcome unit) (k k' : K) : Prop :=
  programs k' = programs k /\
  exists events, links k' = links k ++ events /\ detach_events ifindex flags id o events.

Lemma detaches_throw ifindex flags id e k k' :
  programs k' = programs k -> links k' = links k -> detaches ifindex flags id (Throw e) k k'.
Proof. intros Hp Hl. split; [done|]. exists []. by rewrite app_nil_r. Qed.
Lemma detaches_event ifindex flags id event k k' :
  programs k' = programs k -> links k' = links k ++ [event] ->
  event = Detached ifindex flags id \/ event = Absent ifindex flags -> detaches ifindex flags id (Ret tt) k k'.
Proof. intros Hp Hl [->| ->]; (split; [done|]; eexists; split; [exact Hl|]; first [by left|by right]). Qed.

Lemma wp_orThrowXdp {A} operation (op : K -> (A + Z) * K) (Q : outcome A -> K -> Prop) k :
  (match op k with
   | (inl a, k') => Q (Ret a) k'
   | (inr error, k') => forall w, Q (Throw (RuntimeError w)) k'
   end) -> wp (orThrowXdp operation op) Q k.
Proof.
  intros HQ. unfold orThrowXdp. apply wp_bind, wp_world. destruct (op k) as [[a|error] k']; cbn [fst snd].
  - by apply wp_ret.
  - apply HQ.
Qed.

(** No program: the kernel said so. *)
Lemma wp_queryAttachedProgramId ifindex mode k :
  wp (queryAttachedProgramId ifindex mode) (fun o k' => programs k' = programs k /\
    match o with
    | Ret id => links k' = links k ++ (if id =? 0 then [Absent ifindex (xdpAttachFlags mode)] else [])
    | Throw _ => links k' = links k
    | Diverge => False
    end) k.
Proof.
  unfold queryAttachedProgramId. apply wp_bind, wp_world.
  pose proof (lk_query ifindex (xdpAttachFlags mode) k) as Hq.
  destruct (bpf_xdp_query_id _ _ k) as [[id|error] k1]; destruct Hq as [L P]; cbn [fst snd told_absent] in *.
  - by apply wp_ret.
  - destruct (error =? ENODEV); [by apply wp_ret|]. rewrite app_nil_r in L. by split.
Qed.

(** The only link it may remove is the expected program's. *)
Lemma wp_detachExpectedProgramFd ifindex mode fd id k :
  programs k !! fd = Some id ->
  wp (detachExpectedProgramFd ifindex mode fd id) (fun o k' =>
    detaches ifindex (xdpAttachFlags mode) id o k k') k.
Proof.
  intros Hfd. unfold detachExpectedProgramFd. apply wp_bind.
  eapply wp_mono; [apply wp_queryAttachedProgramId|]. intros [current|e|] k1 [P1 L1]; [| |done].
  2:{ by apply detaches_throw. }
  destruct (current =? 0).
  { apply wp_ret. by apply (detaches_event _ _ _ (Absent ifindex (xdpAttachFlags mode))); [..|right]. }
  rewrite app_nil_r in L1. destruct (negb _); [by apply wp_throw, detaches_throw|].
  apply wp_bind, wp_orThrowXdp.
  assert (Hfd1 : programs k1 !! fd = Some id) by (rewrite P1; exact Hfd).
  pose proof (lk_dup fd 3 id k1 Hfd1) as Hdup.
  destruct (dup_fd_cloexec fd 3 k1) as [[c|error] k2].
  2:{ destruct Hdup. intros w. apply detaches_throw; congruence. }
  destruct Hdup as (L2 & Hc & Hnew & P2). apply wp_bind, wp_world.
  pose proof (lk_detach ifindex (xdpAttachFlags mode) c k2) as Hdet.
  destruct (bpf_xdp_detach _ _ c k2) as [r k3]. destruct Hdet as [P3 Hr]. cbn [fst snd].
  apply wp_bind, wp_modify. destruct (lk_close c k3) as [L4 P4].
  assert (P5 : programs (bpf_close c k3) = programs k).
  { rewrite P4, P3, P2, <-P1. by apply delete_insert_id. }
  destruct r as [[]|error].
  - apply wp_ret. destruct Hr as (id' & Hid & L3). rewrite P2, lookup_insert_eq in Hid.
    specialize (Hid ltac:(lia)); injection Hid as <-.
    apply (detaches_event _ _ _ (Detached ifindex (xdpAttachFlags mode) id)); [done|congruence|by left].
  - cbn [told_absent] in Hr. destruct (error =? ENODEV).
    + apply wp_ret, (detaches_event _ _ _ (Absent ifindex (xdpAttachFlags mode))); [done|congruence|by right].
    + rewrite app_nil_r in Hr. apply wp_throw, detaches_throw; congruence.
Qed.

(** The events of one attachment and the link it holds after them: it attaches
    its own program, without replacing another one, only while it holds no
    link, and detaches only its own program from the link it holds.  It gives a
    link up without detaching it only when the kernel told that this very link
    is gone. *)
Inductive history (id : Z) : list LinkEvent -> option (Z * Z) -> Prop :=
| history_start : history id [] None
| history_attach events ifindex flags :
    history id events None ->
    history id (events ++ [Attached ifindex (Z.lor flags XDP_FLAGS_UPDATE_IF_NOEXIST) id])
      (Some (ifindex, flags))
| history_detach events ifindex flags :
    history id events (Some (ifindex, flags)) ->
    history id (events ++ [Detached ifindex flags id]) None
| history_gone events ifindex flags :
    history id events (Some (ifindex, flags)) ->
    history id (events ++ [Absent ifindex flags]) None.

(** A link that is held was attached. *)
Lemma history_attached id events ifindex flags :
  history id events (Some (ifindex, flags)) ->
  Attached ifindex (Z.lor flags XDP_FLAGS_UPDATE_IF_NOEXIST) id ∈ events.
Proof. inversion 1. apply elem_of_app. right. by apply list_elem_of_singleton. Qed.

(** Every link was one of the attachment's own program. *)
Lemma history_id id events link ifindex flags id' :
  history id events link -> Attached ifindex flags id' ∈ events -> id' = id.
Proof.
  intros Hh. induction Hh as [|events i f _ IH|events i f _ IH|events i f _ IH];
    [by intros ?%not_elem_of_nil|..]; intros [?|[= ? ? ?]%list_elem_of_singleton]%elem_of_app; auto.
Qed.

Definition currentLink (a : XdpAttachment) : option (Z * Z) :=
  if attached_ a then Some (interfaceIndex_ a, xdpAttachFlags (mode_ a)) else None.

(** The attachment [a] since the links were [l0], with the descriptors [p0]. *)
Record living (l0 : list LinkEvent) (p0 : gmap Z Z) (fd id : Z) (a : XdpAttachment) (k : K) : Prop := {
  lv_fd : programFd_ a = fd;
  lv_id : programId_ a = id;
  lv_programs : programs k = p0;
  lv_links : exists events, links k = l0 ++ events /\ history id events (currentLink a)
}.

Lemma has_any_noexist mode :
  has_any (Z.lor (xdpAttachFlags mode) XDP_FLAGS_UPDATE_IF_NOEXIST) XDP_FLAGS_UPDATE_IF_NOEXIST = true.
Proof. by destruct mode. Qed.

Lemma wp_attachProgram l0 p0 fd id ifindex mode a k :
  p0 !! fd = Some id -> living l0 p0 fd id a k ->
  wp (attachProgram ifindex mode) (fun o s => living l0 p0 fd id s.1 s.2 /\
    match o with
    | Ret _ => currentLink s.1 = Some (ifindex, xdpAttachFlags mode)
    | Throw _ => s.1 = a /\ links s.2 = links k
    | Diverge => False
    end) (a, k).
Proof.
  intros Hfd Hl. pose proof Hl as [Lf Li Lp (events & Le & Lh)]. unfold attachProgram.
  apply wp_bind, wp_own, wp_bind, wp_own. cbn [fst snd].
  destruct ((programFd_ a <? 0) || attached_ a) eqn:Hg; [by apply wp_throw|]. bool_to_prop.
  apply wp_bind, wp_outside_spec, wp_orThrowXdp. cbn [fst snd].
  pose proof (lk_attach ifindex (programFd_ a) (Z.lor (xdpAttachFlags mode) XDP_FLAGS_UPDATE_IF_NOEXIST) k) as Hk.
  rewrite has_any_noexist in Hk. cbn [app] in Hk.
  destruct (bpf_xdp_attach _ _ _ k) as [[[]|error] k1]; destruct Hk as [P1 L1].
  - destruct L1 as (i & Hi & L1). rewrite Lp, Lf, Hfd in Hi. injection Hi as <-.
    apply wp_update. cbn [fst snd]. split; [|done]. split; [done|done|cbn; congruence|].
    exists (events ++ [Attached ifindex (Z.lor (xdpAttachFlags mode) XDP_FLAGS_UPDATE_IF_NOEXIST) id]).
    cbn [fst snd]. rewrite L1, Le, (assoc_L (++)). split; [done|]. apply history_attach.
    unfold currentLink in Lh. by destruct (attached_ a).
  - intros w. cbn [fst snd]. split; [|done]. split; [done|done|congruence|]. exists events.
    by rewrite L1, Le.
Qed.

Lemma wp_detachProgram l0 p0 fd id a k :
  p0 !! fd = Some id -> living l0 p0 fd id a k ->
  wp detachProgram (fun o s => living l0 p0 fd id s.1 s.2 /\
    (exists new, links s.2 = links k ++ new) /\
    match o with
    | Ret _ => currentLink s.1 = None
    | Throw _ => s.1 = a /\ links s.2 = links k
    | Diverge => False
    end) (a, k).
Proof.
  intros Hfd Hl. pose proof Hl as [Lf Li Lp (events & Le & Lh)]. unfold detachProgram, currentLink in *.
  apply wp_bind, wp_own. cbn [fst snd]. destruct (attached_ a) eqn:Hat; cbn [negb].
  2:{ apply wp_ret. cbn [fst snd]. rewrite Hat. split; [done|]. split; [|done]. exists []. by rewrite app_nil_r. }
  apply wp_bind, wp_outside_spec. cbn [fst snd].
  eapply wp_mono; [apply (wp_detachExpectedProgramFd _ _ _ (programId_ a)); congruence|].
  intros o k1 [P1 (new & L1 & Hnew)]. destruct o as [[]|e|]; [| |done].
  - apply wp_update. cbn [fst snd set_link attached_]. split; [|split; [by exists new|done]].
    split; [done|done|cbn; congruence|]. cbn [fst snd]. unfold currentLink. cbn [set_link attached_]. exists (events ++ new).
    split; [by rewrite L1, Le, (assoc_L (++))|].
    destruct Hnew as [->| ->]; [rewrite Li; by apply history_detach|by apply history_gone].
  - cbn [fst snd]. cbn in Hnew. subst new. rewrite app_nil_r in L1. split_and!; try done; [|exists []; by rewrite app_nil_r].
    split; [done|done|congruence|]. exists events. unfold currentLink. by rewrite Hat, L1.
Qed.

(** ** A life: attaching and detaching in any order, then destruction *)

Inductive AttachmentStep :=
| StepAttach (ifindex : Z) (mode : XdpAttachMode)
| StepDetach.

(** The caller goes on after an exception. *)
Definition runStep (step : AttachmentStep) (s : XdpAttachment * K) : XdpAttachment * K :=
  match step with
  | StepAttach ifindex mode => (attachProgram ifindex mode s).2
  | StepDetach => (detachProgram s).2
  end.

Lemma living_steps l0 p0 fd id steps a k :
  p0 !! fd = Some id -> living l0 p0 fd id a k ->
  let s := foldl (fun s step => runStep step s) (a, k) steps in living l0 p0 fd id s.1 s.2.
Proof.
  intros Hfd. revert a k. induction steps as [|step steps IH]; intros a k Hl; [done|].
  cbn [foldl]. destruct (runStep step (a, k)) as [a1 k1] eqn:E. apply IH.
  destruct step as [ifindex mode|]; cbn [runStep] in E.
  - destruct (wp_attachProgram l0 p0 fd id ifindex mode a k Hfd Hl) as [Hl1 _]. by rewrite E in Hl1.
  - destruct (wp_detachProgram l0 p0 fd id a k Hfd Hl) as [Hl1 _]. by rewrite E in Hl1.
Qed.

Lemma living_destroyed l0 p0 fd id a k :
  p0 !! fd = Some id -> living l0 p0 fd id a k ->
  exists events link, links (destroyXdpAttachment a k) = l0 ++ events /\ history id events link.
Proof.
  intros Hfd Hl. unfold destroyXdpAttachment.
  set (k1 := if attached_ a then _ else k).
  assert (exists events link, links k1 = l0 ++ events /\ history id events link)
    as (events & link & Hlinks & Hh).
  { subst k1. destruct (attached_ a); [|destruct (lv_links _ _ _ _ _ _ Hl) as (? & ? & ?); eauto].
    pose proof (wp_detachProgram l0 p0 fd id a k Hfd Hl) as Hd. unfold wp in Hd.
    destruct (detachProgram (a, k)) as [o [a1 k1]]. destruct Hd as [Hl1 _].
    destruct (lv_links _ _ _ _ _ _ Hl1) as (events & Le & Lh). cbn [fst snd] in Le.
    exists events, (currentLink a1). split; [|done]. destruct o; try done. by destruct (lk_cerr (bs "XDP 清理失败：" ++ what bpf_strerror e) k1) as [-> _]. }
  exists events, link. split; [|done].
  set (k2 := match object_ a with Some object => _ | None => k1 end).
  assert (links k2 = l0 ++ events) as Hk2.
  { subst k2. destruct (object_ a); [by rewrite lk_object_close|done]. }
  destruct (runtimeMaps_ a) as [s|]; [|done]. unfold destroyRuntimeMapStore.
  destruct (0 <=? activeFd_ s); [by destruct (lk_close (activeFd_ s) k2) as [-> _]|done].
Qed.
Lemma wp_detachExpectedProgram ifindex mode id k :
  wp (detachExpectedProgram ifindex mode id) (fun o k' =>
    detaches ifindex (xdpAttachFlags mode) id o k k') k.
Proof.
  unfold detachExpectedProgram. apply wp_bind.
  eapply wp_mono; [apply wp_queryAttachedProgramId|]. intros [current|e|] k1 [P1 L1]; [| |done].
  2:{ by apply detaches_throw. }
  destruct (current =? 0).
  { apply wp_ret. by apply (detaches_event _ _ _ (Absent ifindex (xdpAttachFlags mode))); [..|right]. }
  rewrite app_nil_r in L1. apply wp_bind, wp_orThrowXdp. pose proof (lk_fd_by_id id k1) as Hf.
  destruct (bpf_prog_get_fd_by_id id k1) as [[fd|error] k2]; destruct Hf as [L2 Hf].
  2:{ intros w. apply detaches_throw; congruence. }
  destruct Hf as [Hnew P2]. apply wp_finally.
  eapply wp_mono; [apply (wp_detachExpectedProgramFd ifindex mode fd id)|].
  { rewrite P2. apply lookup_insert_eq. }
  intros o k3 [P3 (events & L3 & He)]. destruct (lk_close fd k3) as [L4 P4].
  split; [rewrite P4, P3, P2, <-P1; by apply delete_insert_id|].
  exists events. split; [congruence|done].
Qed.

(** C22: an attachment only ever touches its own links.  Whatever attempts to
    attach and detach are made on a loaded program, in any order, whichever of
    them fail and whatever other processes do to the links in between, the
    changes this process makes are those of [history]: it never replaces
    another program, it attaches only while it holds no link, it detaches only
    its own program and only from the link it holds, it gives a link up only
    when it detached it or was told that it is gone, and its record of the link
    is the one of the history; no descriptor is left open.  The same holds with
    the destructor at the end.  The command that detaches a program by its ID
    removes at most that program's link and leaves no descriptor open either; it
    succeeds only when it removed the link or was told that there is none. *)
Theorem attachment_touches_own_links steps a k :
  programs k !! programFd_ a = Some (programId_ a) -> attached_ a = false ->
  let s := foldl (fun s step => runStep step s) (a, k) steps in
  programs s.2 = programs k /\
  (exists events, links s.2 = links k ++ events /\ history (programId_ a) events (currentLink s.1)) /\
  (exists events link, links (destroyXdpAttachment s.1 s.2) = links k ++ events /\
     history (programId_ a) events link) /\
  (forall ifindex mode id, let '(o, k') := detachExpectedProgram ifindex mode id k in
     detaches ifindex (xdpAttachFlags mode) id o k k').
Proof.
  intros Hfd Hat s.
  assert (Hl : living (links k) (programs k) (programFd_ a) (programId_ a) a k).
  { split; [done..|]. exists []. rewrite app_nil_r. split; [done|]. unfold currentLink. rewrite Hat.
    constructor. }
  pose proof (living_steps _ _ _ _ steps a k Hfd Hl) as Hs. cbv zeta in Hs. fold s in Hs.
  split_and!.
  - apply Hs.
  - apply Hs.
  - apply (living_destroyed (links k) (programs k) (programFd_ a)); [done|]. by destruct s.
  - intros ifindex mode id. pose proof (wp_detachExpectedProgram ifindex mode id k) as Hd. unfold wp in Hd.
    by destruct (detachExpectedProgram ifindex mode id k).
Qed.
End life.

(** ** A scripted kernel: program 7 behind descriptor 0, other programs allowed *)

Module ScriptedLinks.
Record world := mkWorld {
  w_links : list LinkEvent;
  w_programs : gmap Z Z;
  w_current : gmap (Z * Z) Z;
  w_next : Z
}.

#[export] Instance library : Libbpf world := {
  bpf_object__open_mem _ w := (inr EINVAL, w);
  bpf_object__load _ w := (inr EINVAL, w);
  bpf_object__close _ w := w;
  bpf_object_maps _ _ := [];
  bpf_object_programs _ _ := [];
  bpf_object__find_map_by_name _ _ _ := None;
  bpf_map__name _ _ := [];
  bpf_map__type _ _ := 0;
  bpf_map__key_size _ _ := 0;
  bpf_map__value_size _ _ := 0;
  bpf_map__max_entries _ _ := 0;
  bpf_map__map_flags _ _ := 0;
  bpf_map__inner_map _ _ := None;
  bpf_map__fd _ _ := -1;
  bpf_program__name _ _ := [];
  bpf_program__section_name _ _ := [];
  bpf_program__type _ _ := 0;
  bpf_program__fd _ _ := -1;
  libbpf_num_possible_cpus _ := 1
}.

#[export] Instance calls : BpfCalls world := {
  bpf_map_get_info _ w := (inr EBADF, w);
  bpf_map_freeze _ w := (inr EBADF, w);
  bpf_map_create _ _ _ _ _ _ w := (inr EPERM, w);
  bpf_close fd w := mkWorld (w_links w) (delete fd (w_programs w)) (w_current w) (w_next w);
  bpf_strerror _ := bs "error"
}.

(** The link of an interface and mode; the lowest bit of the flags is
    [XDP_FLAGS_UPDATE_IF_NOEXIST]. *)
Definition slot (ifindex flags : Z) : Z * Z := (ifindex, Z.land flags 6).

Definition open_fd (id least : Z) (w : world) : (Z + Z) * world :=
  let fd := Z.max least (w_next w) in
  if decide (w_programs w !! fd = None) then
    (inl fd, mkWorld (w_links w) (<[fd := id]> (w_programs w)) (w_current w) (fd + 1))
  else (inr EMFILE, w).

#[export] Instance xdp_calls : XdpCalls world := {
  bpf_xdp_query_id ifindex flags w :=
    let id := default 0 (w_current w !! slot ifindex flags) in
    (inl id, mkWorld (w_links w ++ told_absent ifindex flags (inl id)) (w_programs w) (w_current w) (w_next w));
  bpf_xdp_attach ifindex fd flags w :=
    match w_programs w !! fd, w_current w !! slot ifindex flags with
    | Some id, None =>
        (inl tt, mkWorld (w_links w ++ (if has_any flags XDP_FLAGS_UPDATE_IF_NOEXIST then []
                                        else [Replaced ifindex flags]) ++ [Attached ifindex flags id])
                   (w_programs w) (<[slot ifindex flags := id]> (w_current w)) (w_next w))
    | _, _ => (inr EBUSY, w)
    end;
  bpf_xdp_detach ifindex flags old w :=
    match w_current w !! slot ifindex flags with
    | Some id =>
        if decide (old = 0 \/ w_programs w !! old = Some id) then
          (inl tt, mkWorld (w_links w ++ [Detached ifindex flags id]) (w_programs w)
                     (delete (slot ifindex flags) (w_current w)) (w_next w))
        else (inr EEXIST, w)
    | None => (inr ENOENT, w)
    end;
  bpf_prog_get_fd_by_id id w := open_fd id 0 w;
  bpf_prog_get_info fd w := (match w_programs w !! fd with Some id => inl id | None => inr EBADF end, w);
  dup_fd_cloexec fd least w :=
    match w_programs w !! fd with Some id => open_fd id least w | None => (inr EBADF, w) end;
  xdp_if_nametoindex _ w := ((2, 0), w);
  write_cerr _ w := w
}.

#[export] Instance kernel : LinkKernel world.
Proof.
  refine {| links := w_links; programs := w_programs |}.
  - done.
  - intros ifindex fd flags w. cbn.
    destruct (w_programs w !! fd) as [id|]; [|done]. destruct (w_current w !! _); [done|]. eauto.
  - intros ifindex flags old w. cbn. destruct (w_current w !! _) as [id|].
    2: { by rewrite app_nil_r. }
    case_decide as Hd; [|by rewrite app_nil_r]. split; [done|]. exists id. split; [|done]. intros Hne. by destruct Hd.
  - intros id w. cbn. unfold open_fd. case_decide; done.
  - intros fd least id w Hfd. cbn. rewrite Hfd. unfold open_fd. case_decide; [|done].
    split_and!; try done. cbn. lia.
  - done.
  - done.
  - done.
Defined.

Definition start : world := mkWorld [] {[0 := 7]} {[(5, 2) := 9]} 0.
Definition loaded : XdpAttachment := set_program 0 7 newXdpAttachment.
(** Interface 5 has another program. *)
Definition steps : list AttachmentStep :=
  [StepAttach 5 kGeneric; StepAttach 2 kGeneric; StepAttach 2 kGeneric; StepDetach; StepAttach 2 kNative].
Lemma start_loaded : programs start !! programFd_ loaded = Some (programId_ loaded).
Proof. vm_compute. reflexivity. Qed.
End ScriptedLinks.

Import ScriptedLinks.

(** Descriptor 0 is compared, another program's link survives and the destructor
    removes the last link. *)
Lemma attachment_touches_own_links_witness :
  let s := foldl (fun s step => runStep step s) (loaded, start) steps in
  links (destroyXdpAttachment s.1 s.2) =
    [Attached 2 3 7; Detached 2 2 7; Attached 2 5 7; Detached 2 4 7] /\
  programs s.2 = {[0 := 7]} /\
  exists events, links s.2 = events /\ history 7 events (currentLink s.1).
Proof.
  intros s. destruct (attachment_touches_own_links steps loaded start start_loaded eq_refl)
    as (Hp & (events & He & Hh) & _). split; [vm_compute; reflexivity|]. split; [exact Hp|].
  exists events. split; [exact He|exact Hh].
Defined.
