(* ===== verification/RuntimeConfig.v ===== *)
(** * The configuration file of the runtime mode
    (src/src/control/RuntimeDsrConfig.h, RuntimeDsrConfig.cpp)

    Reading the file once with checks that it did not change, parsing its lines
    into literals, and resolving the literals against the host's interfaces. *)
From S2P Require Import Prelude Os XdpSchema XdpProgram ConfigSync.

(** ** Data *)

Definition kMaxFileBytes : Z := 64 * 1024.

Record RuntimeTargetText := mkRuntimeTargetText {
  tt_id : bytes;
  tt_egress : bytes;
  tt_destinationMac : bytes;
  tt_probeEndpoint : bytes
}.

Record RuntimeTarget := mkRuntimeTarget {
  rt_id : bytes;
  rt_egress : bytes;
  rt_backend : UdpDsrBackendValue;
  rt_probeAddress : Z;
  rt_probePort : Z
}.

Record RuntimeDsrConfiguration := mkRuntimeDsrConfiguration {
  rc_vipAddress : Z;
  rc_vipPort : Z;
  rc_targets : list RuntimeTarget
}.

#[export] Instance runtime_target_text_eq_dec : EqDecision RuntimeTargetText.
Proof. solve_decision. Defined.
#[export] Instance runtime_target_eq_dec : EqDecision RuntimeTarget.
Proof. solve_decision. Defined.

(** ** Lines and fields *)

(** [std::getline] until it fails: what follows the last newline is a line only
    if it is not empty. *)
Fixpoint getlines_loop (line text : bytes) : list bytes :=
  match text with
  | [] => match line with [] => [] | _ => [line] end
  | c :: text' =>
      if code c =? 10 then line :: getlines_loop [] text' else getlines_loop (line ++ [c]) text'
  end.
Definition getlines (text : bytes) : list bytes := getlines_loop [] text.

(** [operator>>] on strings until it fails. *)
Definition isSpace (c : ascii) : bool := ((9 <=? code c) && (code c <=? 13)) || (code c =? 32).

Fixpoint tokens_loop (token text : bytes) : list bytes :=
  match text with
  | [] => match token with [] => [] | _ => [token] end
  | c :: text' =>
      if isSpace c then
        match token with [] => tokens_loop [] text' | _ => token :: tokens_loop [] text' end
      else tokens_loop (token ++ [c]) text'
  end.
Definition tokens (text : bytes) : list bytes := tokens_loop [] text.

(** ** Parsing *)

Definition isRuntimeTargetIdCharacter (c : ascii) : bool :=
  let n := code c in
  ((65 <=? n) && (n <=? 90)) || ((97 <=? n) && (n <=? 122)) || ((48 <=? n) && (n <=? 57)) ||
  (n =? 95) || (n =? 45).

Definition isValidRuntimeTargetId (id : bytes) : bool :=
  bool_decide (id <> []) && (len id <=? 32) && forallb isRuntimeTargetIdCharacter id.

Section parse.
Context `{AddressParser}.

(** The bytes of a MAC literal, the first of which has to be even. *)
Fixpoint combineMacBytes (text : bytes) (indices : list nat) (combined : Z) : outcome Z :=
  match indices with
  | [] => Ret combined
  | index :: indices' =>
      match macByte text index with
      | None => Throw (InvalidArgument (bs "target MAC 必须为单播"))
      | Some byte =>
          if (index =? 0)%nat && negb (Z.land byte 1 =? 0) then
            Throw (InvalidArgument (bs "target MAC 必须为单播"))
          else combineMacBytes text indices' (Z.lor combined byte)
      end
  end.

Definition validateRuntimeTargetLiteral (target : RuntimeTargetText) : outcome unit :=
  if negb (isValidRuntimeTargetId (tt_id target)) then Throw (InvalidArgument (bs "无效 target ID"))
  else if negb (validInterfaceName (tt_egress target)) then
    Throw (InvalidArgument (bs "无效 target 出口"))
  else if negb (len (tt_destinationMac target) =? 17) then
    Throw (InvalidArgument (bs "无效 target MAC"))
  else
    match combineMacBytes (tt_destinationMac target) (seq 0 6) 0 with
    | Ret combined =>
        if combined =? 0 then Throw (InvalidArgument (bs "target MAC 不能全零"))
        else
          match parseXdpBackends [tt_probeEndpoint target] with
          | Ret _ => Ret tt
          | Throw e => Throw e
          | Diverge => Diverge
          end
    | Throw e => Throw e
    | Diverge => Diverge
    end.

(** The targets so far and whether the schema line was seen. *)
Definition RuntimeParse : Type := list RuntimeTargetText * bool.

Definition parseRuntimeFields (fields : list bytes) (st : RuntimeParse) : outcome RuntimeParse :=
  let '(targets, schemaSeen) := st in
  if bool_decide (default [] (head fields) = bs "schema=1") then
    if schemaSeen || (1 <? len fields) then
      Throw (InvalidArgument (bs "schema 重复或存在额外字段"))
    else Ret (targets, true)
  else
    match fields with
    | [first; link; probe] =>
        if negb (starts_with (bs "target=") first) then
          Throw (InvalidArgument (bs "未知或不完整 runtime 配置行"))
        else
          match find_char "@" link with
          | None => Throw (InvalidArgument (bs "target 缺少 EGRESS@MAC"))
          | Some separator =>
              let target := mkRuntimeTargetText (drop 7 first) (take separator link)
                              (drop (S separator) link) probe in
              match validateRuntimeTargetLiteral target with
              | Ret _ =>
                  if bool_decide (tt_id target ∈ tt_id <$> targets) then
                    Throw (InvalidArgument (bs "重复 target ID"))
                  else if 64 <? len targets + 1 then
                    Throw (InvalidArgument (bs "target 超过64个"))
                  else Ret (targets ++ [target], schemaSeen)
              | Throw e => Throw e
              | Diverge => Diverge
              end
          end
    | _ => Throw (InvalidArgument (bs "未知或不完整 runtime 配置行"))
    end.

(** A carriage return at the end of the line is dropped. *)
Definition dropCarriageReturn (line : bytes) : bytes :=
  match last line with
  | Some c => if code c =? 13 then take (pred (length line)) line else line
  | None => line
  end.

Definition isBlank (c : ascii) : bool := (code c =? 32) || (code c =? 9).

Definition parseRuntimeLine (line : bytes) (st : RuntimeParse) : outcome RuntimeParse :=
  let line := dropCarriageReturn line in
  if (1024 <? len line) || bool_decide (is_Some (find_char (chr 13) line)) then
    Throw (InvalidArgument (bs "runtime 配置行过长或含裸CR"))
  else
    match find_if (fun c => negb (isBlank c)) line with
    | None => Ret st
    | Some begin =>
        if bool_decide (line !! begin = Some "#"%char) then Ret st
        else parseRuntimeFields (tokens (drop begin line)) st
    end.

Fixpoint parseRuntimeLines (lines : list bytes) (count : Z) (st : RuntimeParse)
    : outcome RuntimeParse :=
  match lines with
  | [] => Ret st
  | line :: lines' =>
      if 256 <? count + 1 then Throw (InvalidArgument (bs "runtime 配置超过256行"))
      else
        match parseRuntimeLine line st with
        | Ret st' => parseRuntimeLines lines' (count + 1) st'
        | Throw e => Throw e
        | Diverge => Diverge
        end
  end.

Definition invalidTextCharacter (c : ascii) : bool :=
  let n := code c in
  (n =? 0) || (127 <? n) || ((n <? 32) && negb (n =? 10) && negb (n =? 13) && negb (n =? 9)).

Definition parseRuntimeConfigText (text : bytes) : outcome (list RuntimeTargetText) :=
  if kMaxFileBytes <? len text then Throw (InvalidArgument (bs "runtime 配置超过64KiB"))
  else if existsb invalidTextCharacter text then
    Throw (InvalidArgument (bs "runtime 配置必须为有效 ASCII 文本"))
  else
    match parseRuntimeLines (getlines text) 0 ([], false) with
    | Ret (targets, schemaSeen) =>
        if schemaSeen : bool then Ret targets
        else Throw (InvalidArgument (bs "缺少 schema=1"))
    | Throw e => Throw e
    | Diverge => Diverge
    end.
End parse.

(** ** Reading the file *)

Definition sameFileVersion (before after : FileStat) : bool :=
  (st_dev before =? st_dev after) && (st_ino before =? st_ino after) &&
  (st_size before =? st_size after) && bool_decide (st_mtim before = st_mtim after) &&
  bool_decide (st_ctim before = st_ctim after).

Section load.
Context {W : Type} `{FileOps W} `{InterfaceOps W} `{AddressParser}.

(** [for (;;)]: a read that counts adds a byte; [fuel] bounds the interruptions
    as well. *)
Fixpoint readRuntimeBytes (fuel : nat) (fd : Z) (contents : bytes) : M W bytes :=
  match fuel with
  | O => mdiverge
  | S fuel' =>
      count <- mworld (os_read fd 4096) ;;
      match count with
      | inr errno =>
          if errno =? EINTR then readRuntimeBytes fuel' fd contents
          else mthrow (InvalidArgument (bs "读取 runtime 配置失败"))
      | inl [] => mret contents
      | inl chunk =>
          if kMaxFileBytes <? len (contents ++ chunk) then
            mthrow (InvalidArgument (bs "runtime 配置读取时超过64KiB"))
          else readRuntimeBytes fuel' fd (contents ++ chunk)
      end
  end.

Definition readRuntimeFileBody (fuel : nat) (fd : Z) : M W bytes :=
  before <- mworld (os_fstat fd) ;;
  match before with
  | inr _ => mthrow (InvalidArgument (bs "runtime 配置必须为不超过64KiB的普通文件"))
  | inl before =>
      if negb (st_isreg before) || (st_size before <? 0) || (kMaxFileBytes <? st_size before) then
        mthrow (InvalidArgument (bs "runtime 配置必须为不超过64KiB的普通文件"))
      else
        contents <- readRuntimeBytes fuel fd [] ;;
        after <- mworld (os_fstat fd) ;;
        match after with
        | inr _ => mthrow (InvalidArgument (bs "runtime 配置读取期间变化，请原子替换后重试"))
        | inl after =>
            if negb (sameFileVersion before after) || negb (len contents =? st_size before) then
              mthrow (InvalidArgument (bs "runtime 配置读取期间变化，请原子替换后重试"))
            else mret contents
        end
  end.

Definition readRuntimeConfigFile (fuel : nat) (path : bytes) : M W bytes :=
  file <- mworld (os_open path [O_RDONLY; O_CLOEXEC; O_NONBLOCK; O_NOFOLLOW]) ;;
  match file with
  | inr errno => mthrow (InvalidArgument (bs "无法打开 runtime 配置：" ++ os_strerror errno))
  | inl fd => mfinally (readRuntimeFileBody fuel fd) (os_close fd)
  end.

(** ** Resolution *)

Definition probeKey (t : RuntimeTarget) : Z * Z * Z :=
  (ifindex (rt_backend t), rt_probeAddress t, rt_probePort t).

(** Entry by entry with the backend of the same index. *)
Fixpoint resolveProbes (vipAddress : Z) (entries : list (RuntimeTargetText * UdpDsrBackendValue))
    (targets : list RuntimeTarget) : outcome (list RuntimeTarget) :=
  match entries with
  | [] => Ret targets
  | (entry, backend) :: entries' =>
      match parseXdpBackends [tt_probeEndpoint entry] with
      | Ret endpoints =>
          let endpoint := endpoints !!! 0%nat in
          if xb_address endpoint =? vipAddress then
            Throw (InvalidArgument (bs "probe 必须使用独立地址，不能是共享VIP"))
          else
            let target := mkRuntimeTarget (tt_id entry) (tt_egress entry) backend
                            (xb_address endpoint) (xb_port endpoint) in
            if bool_decide (probeKey target ∈ probeKey <$> targets) then
              Throw (InvalidArgument (bs "重复出口探测端点"))
            else resolveProbes vipAddress entries' (targets ++ [target])
      | Throw e => Throw e
      | Diverge => Diverge
      end
  end.

Definition targetLink (entry : RuntimeTargetText) : bytes :=
  tt_egress entry ++ bs "@" ++ tt_destinationMac entry.

Definition loadRuntimeConfig (fuel : nat) (path ingress vip : bytes) : M W RuntimeDsrConfiguration :=
  text <- readRuntimeConfigFile fuel path ;;
  entries <- lift_outcome (parseRuntimeConfigText text) ;;
  dsr <- parseDsrConfiguration ingress vip (targetLink <$> entries) ;;
  let config := dsr_config dsr in
  targets <- lift_outcome (resolveProbes (vipAddress config) (zip entries (dsr_backends dsr)) []) ;;
  mret (mkRuntimeDsrConfiguration (vipAddress config) (vipPort config) targets).
End load.

(** ** Comparison *)

(** The name of the egress interface is not compared. *)
Definition sameRuntimeTarget (left right : RuntimeTarget) : bool :=
  bool_decide (rt_id left = rt_id right) && bool_decide (rt_backend left = rt_backend right) &&
  (rt_probeAddress left =? rt_probeAddress right) && (rt_probePort left =? rt_probePort right).

Fixpoint sameTargets (left right : list RuntimeTarget) : bool :=
  match left, right with
  | [], [] => true
  | l :: left', r :: right' => sameRuntimeTarget l r && sameTargets left' right'
  | _, _ => false
  end.

Definition sameRuntimeConfig (left right : RuntimeDsrConfiguration) : bool :=
  (rc_vipAddress left =? rc_vipAddress right) && (rc_vipPort left =? rc_vipPort right) &&
  sameTargets (rc_targets left) (rc_targets right).

(** ** What is accepted *)

Section accepted.
Context `{AddressParser}.

(** The literals a parse has collected. *)
Record literals_ok (targets : list RuntimeTargetText) : Prop := {
  lo_limit : len targets <= 64;
  lo_ids : NoDup (tt_id <$> targets);
  lo_valid : Forall (fun t => isValidRuntimeTargetId (tt_id t) = true /\
                              validInterfaceName (tt_egress t) = true) targets
}.

Lemma validateRuntimeTargetLiteral_valid t :
  validateRuntimeTargetLiteral t = Ret tt ->
  isValidRuntimeTargetId (tt_id t) = true /\ validInterfaceName (tt_egress t) = true.
Proof.
  unfold validateRuntimeTargetLiteral. destruct (isValidRuntimeTargetId _); [|done].
  by destruct (validInterfaceName _).
Qed.

Lemma validateRuntimeTargetLiteral_total t : validateRuntimeTargetLiteral t <> Diverge.
Proof.
  unfold validateRuntimeTargetLiteral. destruct (negb _); [done|]. destruct (negb _); [done|].
  destruct (negb _); [done|].
  assert (Hc : forall l c, combineMacBytes (tt_destinationMac t) l c <> Diverge).
  { induction l as [|i l IH]; intros c; cbn; [done|]. destruct (macByte _ _); [|done].
    destruct (_ && _); [done|apply IH]. }
  specialize (Hc (seq 0 6) 0). destruct (combineMacBytes _ _ _); [|done|done].
  destruct (_ =? _); [done|]. pose proof (parseXdpBackends_total [tt_probeEndpoint t]) as Hp.
  by destruct (parseXdpBackends _).
Qed.

Lemma parseRuntimeFields_ok fields targets seen :
  literals_ok targets ->
  match parseRuntimeFields fields (targets, seen) with
  | Ret st => literals_ok st.1
  | Throw _ => True
  | Diverge => False
  end.
Proof.
  intros Hok. unfold parseRuntimeFields. case_bool_decide; [by destruct (_ || _)|].
  destruct fields as [|first [|link [|probe [|? ?]]]]; try done.
  destruct (negb _); [done|]. destruct (find_char "@" link) as [n|]; [|done].
  set (t := mkRuntimeTargetText _ _ _ _).
  pose proof (validateRuntimeTargetLiteral_total t) as Htotal.
  destruct (validateRuntimeTargetLiteral t) as [[]|e|] eqn:Hv; [|done|done].
  apply validateRuntimeTargetLiteral_valid in Hv.
  case_bool_decide as Hid; [done|]. destruct (Z.ltb_spec 64 (len targets + 1)); [done|].
  destruct Hok as [O1 O2 O3]. split; cbn [fst].
  - rewrite len_app. unfold len in *. cbn. lia.
  - rewrite fmap_app. apply NoDup_app. split_and!; [done| |apply NoDup_singleton].
    intros x Hx Hx'. apply list_elem_of_singleton in Hx'. by subst x.
  - apply Forall_app. split; [done|]. by apply Forall_singleton.
Qed.

Lemma parseRuntimeLines_ok lines count targets seen :
  literals_ok targets ->
  match parseRuntimeLines lines count (targets, seen) with
  | Ret st => literals_ok st.1
  | Throw _ => True
  | Diverge => False
  end.
Proof.
  revert count targets seen. induction lines as [|line lines IH]; intros count targets seen Hok; [done|].
  cbn [parseRuntimeLines]. destruct (_ <? _); [done|].
  assert (Hline : match parseRuntimeLine line (targets, seen) with
                  | Ret st => literals_ok st.1 | Throw _ => True | Diverge => False end).
  { unfold parseRuntimeLine. destruct (_ || _); [done|]. destruct (find_if _ _); [|done].
    case_bool_decide; [done|]. by apply parseRuntimeFields_ok. }
  destruct (parseRuntimeLine line (targets, seen)) as [[targets' seen']|e|]; [|done|done]. by apply IH.
Qed.

Lemma parseRuntimeConfigText_ok text :
  match parseRuntimeConfigText text with
  | Ret targets => literals_ok targets
  | Throw _ => True
  | Diverge => False
  end.
Proof.
  unfold parseRuntimeConfigText. destruct (_ <? _); [done|]. destruct (existsb _ _); [done|].
  assert (Hnil : literals_ok []) by (split; [done|constructor|constructor]).
  pose proof (parseRuntimeLines_ok (getlines text) 0 [] false Hnil) as Hl.
  destruct (parseRuntimeLines _ _ _) as [[targets []]|e|]; done.
Qed.

(** What the rest of the runtime mode relies on. *)
Definition target_ok (vipAddress : Z) (t : RuntimeTarget) : Prop :=
  isValidRuntimeTargetId (rt_id t) = true /\ validInterfaceName (rt_egress t) = true /\
  usable (rt_backend t) /\ rt_probeAddress t <> 0 /\ rt_probePort t <> 0 /\
  rt_probeAddress t <> vipAddress.

Record runtime_configuration_ok (c : RuntimeDsrConfiguration) : Prop := {
  ro_vip : rc_vipAddress c <> 0;
  ro_port : rc_vipPort c <> 0;
  ro_limit : len (rc_targets c) <= 64;
  ro_ids : NoDup (rt_id <$> rc_targets c);
  ro_targets : Forall (target_ok (rc_vipAddress c)) (rc_targets c);
  ro_probes : NoDup (probeKey <$> rc_targets c)
}.

Lemma notUnicast_zero a : notUnicast (ntohl a) = false -> a <> 0.
Proof. by intros Hn ->. Qed.

Lemma resolveProbes_ok vip entries targets :
  Forall (fun e => isValidRuntimeTargetId (tt_id e.1) = true /\ validInterfaceName (tt_egress e.1) = true /\
                   usable e.2) entries ->
  Forall (target_ok vip) targets -> NoDup (probeKey <$> targets) ->
  match resolveProbes vip entries targets with
  | Ret l => Forall (target_ok vip) l /\ NoDup (probeKey <$> l) /\
             rt_id <$> l = (rt_id <$> targets) ++ ((fun e => tt_id e.1) <$> entries)
  | Throw _ => True
  | Diverge => False
  end.
Proof.
  revert targets. induction entries as [|[entry backend] entries IH]; intros targets He Ht Hn.
  { cbn. by rewrite app_nil_r. }
  apply Forall_cons in He as [(Hid & Heg & Hu) He]. cbn [resolveProbes].
  destruct (parseXdpBackends [_]) as [l|e|] eqn:Hp; [|done|by apply parseXdpBackends_total in Hp].
  apply parseXdpBackends_vip in Hp as (b & -> & Hb & Hport).
  cbn [lookup_total list_lookup_total]. destruct (Z.eqb_spec (xb_address b) vip) as [|Hvip]; [done|].
  case_bool_decide as Hk; [done|]. set (t := mkRuntimeTarget _ _ _ _ _) in *.
  assert (Ht' : Forall (target_ok vip) (targets ++ [t])).
  { apply Forall_app. split; [done|]. apply Forall_singleton. split_and!; try done.
    by apply notUnicast_zero. }
  assert (Hn' : NoDup (probeKey <$> targets ++ [t])).
  { rewrite fmap_app. apply NoDup_app. split_and!; [done| |apply NoDup_singleton].
    intros x Hx Hx'. apply list_elem_of_singleton in Hx'. by subst x. }
  specialize (IH _ He Ht' Hn'). destruct (resolveProbes _ _ _) as [l|e|]; [|done|done].
  destruct IH as (R1 & R2 & R3). split_and!; [done|done|]. rewrite R3, fmap_app, <-(assoc_L (++)). done.
Qed.

Lemma resolveProbes_total vip entries targets : resolveProbes vip entries targets <> Diverge.
Proof.
  revert targets. induction entries as [|[entry backend] entries IH]; intros targets; [done|]. cbn [resolveProbes].
  destruct (parseXdpBackends [_]) as [l|e|] eqn:Hp; [|done|by apply parseXdpBackends_total in Hp].
  destruct (_ =? _); [done|]. case_bool_decide; [done|apply IH].
Qed.
End accepted.

(** ** Loading *)

(** A regular file is read without interruption. *)
Class UninterruptedReads (W : Type) `{FileOps W} :=
  os_read_uninterrupted : forall fd limit w, (os_read fd limit w).1 <> inr EINTR.

(** One turn per byte that is allowed, and one for the end of the file. *)
Definition readFuel : nat := Z.to_nat (kMaxFileBytes + 2).

Section loaded.
Context {W : Type} `{FileContent W} `{!UninterruptedReads W} `{InterfaceLaws W} `{AddressParser}.

Lemma wp_readRuntimeBytes fuel fd contents w :
  len contents <= kMaxFileBytes -> kMaxFileBytes + 2 - len contents <= Z.of_nat fuel ->
  wp (readRuntimeBytes fuel fd contents) (fun o _ => match o with
    | Ret c => c = contents ++ content w fd /\ len c <= kMaxFileBytes
    | Throw _ => True
    | Diverge => False
    end) w.
Proof using All.
  revert contents w. induction fuel as [|fuel IH]; intros contents w Hlen Hfuel.
  { unfold kMaxFileBytes in *. lia. }
  cbn [readRuntimeBytes]. apply wp_bind, wp_world.
  pose proof (os_read_content fd 4096 w ltac:(lia)) as Hr. pose proof (os_read_uninterrupted fd 4096 w) as Hu.
  destruct (os_read fd 4096 w) as [[chunk|errno] w1]; cbn [fst snd] in Hu |- *.
  2:{ destruct (Z.eqb_spec errno EINTR); [congruence|done]. }
  destruct Hr as (Hc & _ & He). destruct chunk as [|c chunk].
  { apply wp_ret. rewrite He by done. by rewrite app_nil_r. }
  destruct (Z.ltb_spec kMaxFileBytes (len (contents ++ c :: chunk))) as [|Hle]; [done|].
  eapply wp_mono; [apply IH; [lia|]|].
  - rewrite len_app, len_cons in *. pose proof (len_nonneg chunk). lia.
  - intros [t|e|] w2 Ht; [|done|done]. by rewrite Hc, (assoc_L (++)).
Qed.

Lemma wp_readRuntimeConfigFile path w :
  wp (readRuntimeConfigFile readFuel path) (fun o w' => match o with
    | Ret text => exists fd w1 w2 w3, os_open path [O_RDONLY; O_CLOEXEC; O_NONBLOCK; O_NOFOLLOW] w = (inl fd, w1) /\
        w2 = (os_fstat fd w1).2 /\ text = content w2 fd /\ len text <= kMaxFileBytes /\ w' = os_close fd w3
    | Throw _ => True
    | Diverge => False
    end) w.
Proof using All.
  unfold readRuntimeConfigFile. apply wp_bind, wp_world.
  destruct (os_open path _ w) as [[fd|errno] w1]; cbn [fst snd]; [|done].
  apply wp_finally. unfold readRuntimeFileBody. apply wp_bind, wp_world.
  destruct (os_fstat fd w1) as [[before|errno] w2] eqn:Hs; cbn [fst snd]; [|done].
  destruct (_ || _); [done|]. apply wp_bind.
  assert (Hnil : len (@nil ascii) = 0) by done.
  eapply wp_mono; [apply wp_readRuntimeBytes; rewrite Hnil; unfold readFuel, kMaxFileBytes; lia|].
  intros [text|e|] w3 Ht; [|done|done]. apply wp_bind, wp_world.
  destruct (os_fstat fd w3) as [[after|errno] w4]; cbn [fst snd]; [|done].
  destruct (_ || _); [done|]. apply wp_ret. exists fd, w1, w2, w4. rewrite Hs. destruct Ht as [-> Ht].
  by split_and!.
Qed.

(** ** Where the values of the configuration come from *)

(** The result is the one of this run. *)
Lemma wp_at {A} (m : M W A) (Q : outcome A -> W -> Prop) w :
  wp m Q w -> wp m (fun o w' => Q o w' /\ m w = (o, w')) w.
Proof using Type. unfold wp. by destruct (m w). Qed.

(** The queries of the interfaces [names], one after the other, and their
    answers. *)
Inductive answers : list bytes -> list InterfaceInfo -> W -> W -> Prop :=
| answers_none w : answers [] [] w w
| answers_next name info names infos w w1 w2 :
    inspectInterface name w = (Ret info, w1) -> answers names infos w1 w2 ->
    answers (name :: names) (info :: infos) w w2.

(** The target of an entry of the file and of the answer for its egress. *)
Record target_from (e : RuntimeTargetText) (i : InterfaceInfo) (t : RuntimeTarget) : Prop := {
  tf_id : rt_id t = tt_id e;
  tf_egress : rt_egress t = tt_egress e;
  tf_index : ifindex (rt_backend t) = ii_index i;
  tf_source : sourceMac (rt_backend t) = ii_mac i;
  tf_destination : parseMac (tt_destinationMac e) = Ret (destinationMac (rt_backend t));
  tf_probe : exists endpoint, parseXdpBackends [tt_probeEndpoint e] = Ret [endpoint] /\
    rt_probeAddress t = xb_address endpoint /\ rt_probePort t = xb_port endpoint
}.

(** What [loadRuntimeConfig] returns, from which file, and from which answers of
    the host: the ingress is asked for first, then the egress of every entry,
    which is to be another interface. *)
Definition loaded_from (path ingress vip : bytes) (w : W) (c : RuntimeDsrConfiguration) (w' : W) : Prop :=
  exists fd w1 text entries endpoint input infos,
    os_open path [O_RDONLY; O_CLOEXEC; O_NONBLOCK; O_NOFOLLOW] w = (inl fd, w1) /\
    text = content (os_fstat fd w1).2 fd /\ len text <= kMaxFileBytes /\
    parseRuntimeConfigText text = Ret entries /\
    parseXdpBackends [vip] = Ret [endpoint] /\
    rc_vipAddress c = xb_address endpoint /\ rc_vipPort c = xb_port endpoint /\
    answers (ingress :: (tt_egress <$> entries)) (input :: infos) (readRuntimeConfigFile readFuel path w).2 w' /\
    Forall (fun i => ii_index i <> ii_index input) infos /\
    Forall3 target_from entries infos (rc_targets c).

Lemma find_if_all_false q name c : find_if q name = None -> c ∈ name -> q c = false.
Proof using Type.
  induction name as [|x name IH]; cbn [find_if]; [by intros _ ?%not_elem_of_nil|].
  destruct (q x) eqn:Hx; [done|]. destruct (find_if q name) eqn:E; [done|]. intros _ [->|Hc]%elem_of_cons; auto.
Qed.
Lemma validInterfaceName_at name : validInterfaceName name = true -> "@"%char ∉ name.
Proof using Type.
  unfold validInterfaceName. intros Hv Hin. rewrite negb_true_iff, !orb_false_iff in Hv.
  destruct Hv as [_ Hv]. case_bool_decide as Hs; [done|]. apply eq_None_not_Some in Hs.
  by apply (find_if_all_false _ _ "@"%char) in Hs.
Qed.

(** The link text is split where it was put together. *)
Lemma parseTargets_links entries l :
  Forall (fun t => isValidRuntimeTargetId (tt_id t) = true /\ validInterfaceName (tt_egress t) = true) entries ->
  parseTargets (targetLink <$> entries) = Ret l ->
  l.*1 = tt_egress <$> entries /\ Forall2 (fun e t => parseMac (tt_destinationMac e) = Ret t.2) entries l.
Proof using Type.
  intros He. revert l. induction He as [|e entries [_ He] _ IH]; intros l; [by intros [= <-]|].
  rewrite fmap_cons. cbn [parseTargets].
  assert (E : targetLink e = tt_egress e ++ "@"%char :: tt_destinationMac e) by done.
  assert (Hfind : find_char "@" (targetLink e) = Some (length (tt_egress e)))
    by (rewrite E; apply find_char_app; by apply validInterfaceName_at).
  assert (Htake : take (length (tt_egress e)) (targetLink e) = tt_egress e) by (rewrite E; apply take_app_length).
  assert (Hdrop : drop (S (length (tt_egress e))) (targetLink e) = tt_destinationMac e)
    by (rewrite E, <-Nat.add_1_r, <-drop_drop, drop_app_length; done).
  rewrite Hfind, Htake, Hdrop. clear E Hfind Htake Hdrop.
  destruct (parseMac _) as [mac|e'|] eqn:Hm; [|done..].
  destruct (parseTargets (targetLink <$> entries)) as [rest|e'|]; [|done..]. intros [= <-].
  destruct (IH rest eq_refl) as [R1 R2]. split; [cbn; by rewrite R1|]. by constructor.
Qed.

(** The backends of the targets, from the answers. *)
Definition linkBackend (t : bytes * list Z) (i : InterfaceInfo) : UdpDsrBackendValue :=
  mkUdpDsrBackendValue (ii_index i) t.2 (ii_mac i).

Lemma resolveTargets_answers input targets backends w :
  match resolveTargets input targets backends w with
  | (Ret l, w') => exists infos, answers targets.*1 infos w w' /\ length infos = length targets /\
      l = backends ++ zip_with linkBackend targets infos /\ Forall (fun i => ii_index i <> input) infos
  | _ => True
  end.
Proof using Type.
  revert backends w. induction targets as [|[name mac] targets IH]; intros backends w.
  { exists []. split; [constructor|]. rewrite app_nil_r. by split_and!. }
  cbn [resolveTargets]. unfold mbind. destruct (inspectInterface name w) as [[output|e|] w1] eqn:Hi; [|done..].
  destruct (Z.eqb_spec (ii_index output) input); [done|]. case_bool_decide; [done|].
  match goal with |- context [resolveTargets input targets ?b w1] => specialize (IH b w1) end.
  destruct (resolveTargets _ _ _ w1) as [[l|e|] w2]; [|done..].
  destruct IH as (infos & A1 & A2 & -> & A4). exists (output :: infos).
  split; [by econstructor|]. split; [cbn; congruence|]. split; [by rewrite <-(assoc_L (++))|by constructor].
Qed.

Lemma parseDsrConfiguration_answers ingress vip targets w :
  match parseDsrConfiguration ingress vip targets w with
  | (Ret c, w') => exists endpoint parsed input infos,
      parseXdpBackends [vip] = Ret [endpoint] /\ vipAddress (dsr_config c) = xb_address endpoint /\
      vipPort (dsr_config c) = xb_port endpoint /\ parseTargets targets = Ret parsed /\
      answers (ingress :: parsed.*1) (input :: infos) w w' /\ length infos = length parsed /\
      dsr_backends c = zip_with linkBackend parsed infos /\ Forall (fun i => ii_index i <> ii_index input) infos
  | _ => True
  end.
Proof using Type.
  unfold parseDsrConfiguration, lift_outcome. unfold mbind at 1.
  destruct (parseXdpBackends [vip]) as [l|e|] eqn:Hv; [|done..].
  apply parseXdpBackends_vip in Hv as (endpoint & -> & _). destruct (_ <? _); [done|]. unfold mbind at 1.
  destruct (parseTargets targets) as [parsed|e|] eqn:Ht; [|done..]. unfold mbind at 1.
  destruct (inspectInterface ingress w) as [[input|e|] w1] eqn:Hi; [|done..]. unfold mbind at 1.
  pose proof (resolveTargets_answers (ii_index input) parsed [] w1) as Hr.
  destruct (resolveTargets _ _ _ w1) as [[l|e|] w2]; [|done..]. destruct Hr as (infos & A1 & A2 & A3 & A4).
  exists endpoint, parsed, input, infos. split_and!; try done. by econstructor.
Qed.

Lemma resolveProbes_from vip entries targets infos l :
  Forall2 (fun e i => parseMac (tt_destinationMac e.1) = Ret (destinationMac e.2) /\
                      ifindex e.2 = ii_index i /\ sourceMac e.2 = ii_mac i) entries infos ->
  resolveProbes vip entries targets = Ret l ->
  exists new, l = targets ++ new /\ Forall3 target_from entries.*1 infos new.
Proof using Type.
  intros He. revert targets. induction He as [|[entry backend] i entries infos (Hm & Hi & Hs) _ IH]; intros targets.
  { intros [= <-]. exists []. rewrite app_nil_r. split; [done|constructor]. }
  cbn [resolveProbes]. destruct (parseXdpBackends [_]) as [b|e|] eqn:Hp; [|done..].
  pose proof Hp as Hp'. apply parseXdpBackends_vip in Hp' as (endpoint & -> & _).
  cbn [lookup_total list_lookup_total]. destruct (_ =? vip); [done|]. case_bool_decide; [done|]. intros Hl.
  destruct (IH _ Hl) as (new & -> & Hnew). eexists. rewrite <-(assoc_L (++)). split; [done|].
  cbn [fmap list_fmap app fst]. constructor; [|done]. split; try done. by exists endpoint.
Qed.

Lemma linked_backends entries parsed infos :
  Forall2 (fun e t => parseMac (tt_destinationMac e) = Ret t.2) entries parsed ->
  length infos = length parsed ->
  Forall2 (fun e i => parseMac (tt_destinationMac e.1) = Ret (destinationMac e.2) /\
                      ifindex e.2 = ii_index i /\ sourceMac e.2 = ii_mac i)
    (zip entries (zip_with linkBackend parsed infos)) infos.
Proof using Type.
  intros Hp. revert infos. induction Hp as [|e t entries parsed Ht _ IH]; intros [|i infos] Hl; try done.
  cbn [zip_with]. constructor; [done|]. apply IH. by injection Hl.
Qed.

(** The backends are usable. *)
Lemma resolved_probes_ok vip entries dsr_targets l :
  Forall (fun t => isValidRuntimeTargetId (tt_id t) = true /\ validInterfaceName (tt_egress t) = true) entries ->
  Forall usable dsr_targets -> length dsr_targets = length entries ->
  resolveProbes vip (zip entries dsr_targets) [] = Ret l ->
  Forall (target_ok vip) l /\ NoDup (probeKey <$> l) /\ rt_id <$> l = tt_id <$> entries.
Proof using Type.
  intros He Hu Hlen Hl.
  assert (Hz : Forall (fun e => isValidRuntimeTargetId (tt_id e.1) = true /\
    validInterfaceName (tt_egress e.1) = true /\ usable e.2) (zip entries dsr_targets)).
  { apply Forall_forall. intros [entry b] Hin. pose proof (elem_of_zip_l _ _ _ _ Hin) as Hin1.
    apply elem_of_zip_r in Hin as Hin2.
    destruct (proj1 (Forall_forall _ _) He _ Hin1). pose proof (proj1 (Forall_forall _ _) Hu _ Hin2). by split_and!. }
  pose proof (resolveProbes_ok vip _ [] Hz ltac:(constructor) ltac:(constructor)) as Hr. rewrite Hl in Hr.
  destruct Hr as (R1 & R2 & R3). split; [done|]. split; [done|]. cbn [app fmap list_fmap] in R3. rewrite R3.
  change (fun e => tt_id e.1) with (tt_id ∘ (@fst RuntimeTargetText UdpDsrBackendValue)).
  by rewrite list_fmap_compose, fst_zip by lia.
Qed.

Lemma wp_loadRuntimeConfig path ingress vip w :
  wp (loadRuntimeConfig readFuel path ingress vip) (fun o w' => match o with
    | Ret c => runtime_configuration_ok c /\ loaded_from path ingress vip w c w'
    | Throw _ => True
    | Diverge => False
    end) w.
Proof using All.
  unfold loadRuntimeConfig. apply wp_bind.
  eapply wp_mono; [apply (wp_at _ _ _ (wp_readRuntimeConfigFile path w))|].
  intros [text|e|] w1 [Hf Hread]; [|done|done]. destruct Hf as (fd & w2 & w3 & w4 & Ho & -> & Hc & Hlen & _).
  apply wp_bind, wp_outcome. pose proof (parseRuntimeConfigText_ok text) as Hp.
  destruct (parseRuntimeConfigText text) as [entries|e|] eqn:Hparse; [|done|done].
  destruct Hp as [P1 P2 P3]. apply wp_bind.
  eapply wp_mono; [apply (wp_at _ _ _ (wp_parseDsrConfiguration ingress vip (targetLink <$> entries) w1))|].
  intros [dsr|e|] w5 [Hd Hdsr]; [|done|done]. destruct Hd as [D1 D2 D3 D4 D5 D6 D7].
  pose proof (parseDsrConfiguration_answers ingress vip (targetLink <$> entries) w1) as Ha. rewrite Hdsr in Ha.
  destruct Ha as (endpoint & parsed & input & infos & V1 & V2 & V3 & Ht & Ha & Hl & Hb & Hne).
  apply parseTargets_links in Ht as [Hnames Hmacs]; [|done].
  pose proof (Forall2_length _ _ _ Hmacs) as Hlp.
  assert (Hdl : length (dsr_backends dsr) = length entries).
  { rewrite Hb, length_zip_with. lia. }
  pose proof (linked_backends entries parsed infos Hmacs Hl) as Hlink. rewrite <-Hb in Hlink.
  apply wp_bind, wp_outcome.
  destruct (resolveProbes _ _ _) as [l|e|] eqn:Hr; [|done|].
  2: { by apply resolveProbes_total in Hr. }
  destruct (resolved_probes_ok _ _ _ _ P3 D7 Hdl Hr) as (R1 & R2 & Hids).
  destruct (resolveProbes_from _ _ _ _ _ Hlink Hr) as (new & -> & Hfrom). rewrite fst_zip in Hfrom by lia. cbn [app] in *.
  apply wp_ret. split.
  - split; cbn; try done; [by apply notUnicast_zero| |by rewrite Hids].
    assert (length new = length entries) by (rewrite <-(length_fmap rt_id), Hids; apply length_fmap).
    unfold len in *. congruence.
  - exists fd, w2, text, entries, endpoint, input, infos.
    rewrite Hread, <-Hnames. by split_and!.
Qed.

(** C40: a runtime configuration that is loaded is valid and is the file's.
    Reading ends after a bounded number of turns; when a configuration is
    returned, its text is the whole content of the opened file, at most 64 KiB,
    parsed without error, and its VIP is the one given.  Its targets are those of
    the entries of the text, one for one and in their order: each has the
    identifier and the egress of its entry, the interface index and the source
    address that the host answered for that egress, the destination address that
    the entry's MAC literal denotes and the probe address and port that its
    probe literal denotes; the egress is never the ingress.  There are at most 64
    with distinct identifiers and distinct probe end points, each with a usable
    backend and a probe address of its own that is not the VIP. *)
Theorem loadRuntimeConfig_sound path ingress vip (w : W) :
  let '(o, w') := loadRuntimeConfig readFuel path ingress vip w in
  o <> Diverge /\
  forall c, o = Ret c -> runtime_configuration_ok c /\ loaded_from path ingress vip w c w'.
Proof using All.
  pose proof (wp_loadRuntimeConfig path ingress vip w) as Hl. unfold wp in Hl.
  destruct (loadRuntimeConfig readFuel path ingress vip w) as [[c|e|] w']; [|done|done].
  split; [done|]. by intros c' [= <-].
Qed.
End loaded.

(** ** A scripted file that may change between two loads *)

Module ScriptedFiles.
(** The contents that the file has the next times it is opened, and what is
    left to read; [eth1] is the ingress. *)
Record Files := mkFiles { f_texts : list bytes; f_size : Z; f_left : bytes }.

#[export] Instance files : FileOps Files := {
  os_open _ _ f := 
    let text := default [] (head (f_texts f)) in (inl 3, mkFiles (tail (f_texts f)) (len text) text);
  os_fstat _ f := (inl (mkFileStat true (f_size f) 1 1 (0, 0) (0, 0)), f);
  os_read _ limit f :=
    (inl (take (Z.to_nat limit) (f_left f)), mkFiles (f_texts f) (f_size f) (drop (Z.to_nat limit) (f_left f)));
  os_close _ f := f;
  os_strerror _ := bs "error"
}.
#[export] Instance files_content : FileContent Files.
Proof.
  refine {| content f _ := f_left f |}. intros fd limit f Hl. cbn. split_and!.
  - by rewrite take_drop.
  - unfold len. rewrite length_take. lia.
  - intros Ht. destruct (f_left f) as [|c r]; [done|]. by destruct (Z.to_nat limit) eqn:E; [lia|].
Defined.
#[export] Instance files_uninterrupted : UninterruptedReads Files.
Proof. by intros fd limit f. Qed.

#[export] Instance interfaces : InterfaceOps Files := {
  if_socket f := (inl 5, f);
  if_close _ f := f;
  if_index _ name f := (inl (ScriptedHost.indexOf name), f);
  if_flags _ _ f := (inl 3, f);
  if_mtu _ _ f := (inl 1500, f);
  if_hwaddr _ name f := (inl (1, [2; 0; 0; 0; 0; ScriptedHost.indexOf name; 0; 0]), f)
}.
#[export] Instance interfaces_laws : InterfaceLaws Files.
Proof. intros fd name f. cbn. unfold ScriptedHost.indexOf. by case_bool_decide. Defined.

(** The last digit tells the addresses apart. *)
#[export] Instance addresses : AddressParser := fun text =>
  if bool_decide (last text = Some "1"%char) then Some 16777226 else Some 33554442.

Definition line (s : bytes) : bytes := s ++ [chr 10].
Definition one : bytes :=
  line (bs "schema=1") ++ line (bs "target=a eth0@02:00:00:00:00:09 10.0.0.2:80").
Definition two : bytes := one ++ line (bs "target=b eth0@02:00:00:00:00:08 10.0.0.2:81").

Definition start : Files := mkFiles [one; two] 0 [].
Definition loading := loadRuntimeConfig readFuel (bs "/rt.conf") (bs "eth1") (bs "10.0.0.1:53") start.
Definition loaded : RuntimeDsrConfiguration :=
  match loading.1 with Ret c => c | _ => mkRuntimeDsrConfiguration 0 0 [] end.
Lemma loading_returns : loading = (Ret loaded, loading.2).
Proof. vm_compute. reflexivity. Qed.
End ScriptedFiles.

Import ScriptedFiles.

(** Two targets behind one interface, told apart by their MAC addresses and
    probes. *)
Definition second : Files := mkFiles [two] 0 [].
Definition loading2 := loadRuntimeConfig readFuel (bs "/rt.conf") (bs "eth1") (bs "10.0.0.1:53") second.
Definition loaded2 : RuntimeDsrConfiguration := 
  match loading2.1 with Ret c => c | _ => mkRuntimeDsrConfiguration 0 0 [] end.
Lemma loading2_returns : loading2 = (Ret loaded2, loading2.2).
Proof. vm_compute. reflexivity. Qed.

Lemma loadRuntimeConfig_sound_witness :
  loading2.1 = Ret loaded2 /\ rt_id <$> rc_targets loaded2 = [bs "a"; bs "b"] /\
  ((fun t => last (destinationMac (rt_backend t))) <$> rc_targets loaded2) = [Some 9; Some 8] /\
  runtime_configuration_ok loaded2 /\ loaded_from (bs "/rt.conf") (bs "eth1") (bs "10.0.0.1:53") second loaded2 loading2.2.
Proof.
  pose proof (loadRuntimeConfig_sound (bs "/rt.conf") (bs "eth1") (bs "10.0.0.1:53") second) as Hl.
  fold loading2 in Hl. rewrite loading2_returns in Hl. destruct Hl as [_ Hl].
  split; [by rewrite loading2_returns|]. split; [vm_compute; reflexivity|]. split; [vm_compute; reflexivity|].
  by apply (Hl loaded2 eq_refl).
Defined.
