(* ===== verification/RuntimeService.v ===== *)
(** * The control loop of the runtime mode
    (src/src/control/RuntimeDsrService.h, RuntimeDsrService.cpp)

    One process probes the targets of a configuration, publishes the healthy
    ones as a snapshot, reloads the configuration on SIGHUP and stops on the
    other signals.  The attachment is reached through the interface
    [RuntimeAttachment], the probes through the checker's collaborators, the
    configuration through the files and interfaces of the host, and the rest is
    [RuntimeSystem].  The four worlds do not share state.  The field [w_requests]
    of the world is not state of the program: it is the log of the times at which
    a publication was asked for, so that their spacing can be stated. *)
From S2P Require Import Prelude Os XdpSchema UdpProbe ConfigSync RuntimeConfig XdpAttachment.

(** ** Interfaces *)

(** What the loop uses of [XdpAttachment]. *)
Class RuntimeAttachment (A : Type) := {
  ra_loadObject : bytes -> UdpRuntimeSnapshot -> M A unit;
  (** [attachProgram(resolveInterfaceIndex(ingress), mode)] *)
  ra_attachProgram : bytes -> XdpAttachMode -> M A unit;
  ra_publishRuntime : UdpRuntimeSnapshot -> M A unit;
  ra_detachProgram : M A unit;
  ra_readRuntimeStats : M A UdpDsrStatsValue;
  ra_programId : A -> Z
}.

Definition SIGHUP : Z := 1.
Definition SIGPIPE : Z := 13.
Definition O_NONBLOCK_FLAG : Z := 2048.
Definition POLLOUT : Z := 4.
(** [POLLERR | POLLHUP | POLLNVAL] *)
Definition pollFailure : Z := 56.

Class RuntimeSystem (Y : Type) := {
  (** the time; the program does not see it but through [sys_now] *)
  sys_clock : Y -> Z;
  sys_now : Y -> Z * Y;
  sys_absolute : bytes -> Y -> (bytes + Z) * Y;
  sys_signalfd : Y -> (Z + Z) * Y;
  sys_close : Z -> Y -> Y;
  (** [fcntl] on the standard output *)
  sys_getfl : Y -> (Z + Z) * Y;
  sys_setfl : Z -> Y -> (unit + Z) * Y;
  sys_write : bytes -> Y -> (Z + Z) * Y;
  (** [sigtimedwait] without waiting: the stop signal that was pending *)
  sys_sigtimedwait : Y -> (Z + Z) * Y;
  (** a read of [signalfd_siginfo]: the signal, or [None] if it was short *)
  sys_read_signal : Z -> Y -> (option Z + Z) * Y;
  (** [poll] for 20 ms on the output, and on the signals and the output *)
  sys_poll_output : Y -> (unit + Z) * Y;
  sys_poll : Z -> Z -> Y -> (Z * Z + Z) * Y;
  sys_strerror : Z -> bytes
}.

(** [w_requests] is for the statements: the times of the calls of
    [publishRuntime], which nothing in the program reads. *)
Record World (A P F Y : Type) := mkWorld {
  w_attachment : A;
  w_probes : P;
  w_files : F;
  w_system : Y;
  w_requests : list Z
}.
Arguments mkWorld {A P F Y}.
Arguments w_attachment {A P F Y}.
Arguments w_probes {A P F Y}.
Arguments w_files {A P F Y}.
Arguments w_system {A P F Y}.
Arguments w_requests {A P F Y}.

(** ** State *)

Record SignalState := mkSignalState {
  reload : bool;
  stop : bool;
  brokenPipe : bool
}.

(** The variables of the loop and of its [try] blocks. *)
Record Control := mkControl {
  configuration : RuntimeDsrConfiguration;
  checker : UdpProbeChecker;
  applied : UdpRuntimeSnapshot;
  signalState : SignalState;
  nextPublish : Z;
  pendingOutput_ : bytes;
  committed : bool;
  publishAttempted : bool
}.

Definition set_configuration v (c : Control) : Control :=
  mkControl v (checker c) (applied c) (signalState c) (nextPublish c) (pendingOutput_ c)
    (committed c) (publishAttempted c).
Definition set_checker v (c : Control) : Control :=
  mkControl (configuration c) v (applied c) (signalState c) (nextPublish c) (pendingOutput_ c)
    (committed c) (publishAttempted c).
Definition set_applied v (c : Control) : Control :=
  mkControl (configuration c) (checker c) v (signalState c) (nextPublish c) (pendingOutput_ c)
    (committed c) (publishAttempted c).
Definition set_signalState v (c : Control) : Control :=
  mkControl (configuration c) (checker c) (applied c) v (nextPublish c) (pendingOutput_ c)
    (committed c) (publishAttempted c).
Definition set_nextPublish v (c : Control) : Control :=
  mkControl (configuration c) (checker c) (applied c) (signalState c) v (pendingOutput_ c)
    (committed c) (publishAttempted c).
Definition set_pendingOutput v (c : Control) : Control :=
  mkControl (configuration c) (checker c) (applied c) (signalState c) (nextPublish c) v
    (committed c) (publishAttempted c).
Definition set_attempt b1 b2 (c : Control) : Control :=
  mkControl (configuration c) (checker c) (applied c) (signalState c) (nextPublish c)
    (pendingOutput_ c) b1 b2.

(** ** Pure parts *)

Definition buildProbeTargets (c : RuntimeDsrConfiguration) : list ProbeTarget :=
  (fun t => mkProbeTarget (rt_id t) (rt_egress t) (XdpSchema.ifindex (rt_backend t))
              (XdpSchema.sourceMac (rt_backend t)) (XdpSchema.destinationMac (rt_backend t))
              (rt_probeAddress t) (rt_probePort t)) <$> rc_targets c.

Definition activeBackend (t : ProbeTarget) : UdpDsrBackendValue :=
  mkUdpDsrBackendValue (UdpProbe.ifindex t) (UdpProbe.destinationMac t) (UdpProbe.sourceMac t).

Definition buildRuntimeSnapshot (c : RuntimeDsrConfiguration) (checker : UdpProbeChecker)
    (generation : Z) : outcome UdpRuntimeSnapshot :=
  let active := activeBackend <$> copyHealthyProbeTargets checker in
  if kDsrMaxBackends <? len active then Throw (LogicError (bs "runtime 健康目标超界"))
  else
    Ret (mkUdpRuntimeSnapshot kRuntimeSchemaVersion (len active) generation (rc_vipAddress c)
           (rc_vipPort c) 0 (active ++ replicate (64 - length active) emptyDsrBackend)).

Definition nextRuntimeGeneration (applied : UdpRuntimeSnapshot) : outcome Z :=
  if rs_generation applied =? UINT64_MAX then
    Throw (RuntimeControlError (bs "runtime generation 已耗尽"))
  else Ret (rs_generation applied + 1).

Definition haveSameActiveTargets (first second : UdpRuntimeSnapshot) : bool :=
  (rs_backendCount first =? rs_backendCount second) &&
  bool_decide (rs_backends first = rs_backends second).

Definition formatAppliedSnapshotFields (applied : UdpRuntimeSnapshot) : bytes :=
  bs " generation=" ++ to_string (rs_generation applied) ++
  bs " active_backends=" ++ to_string (rs_backendCount applied).

Definition sanitizeErrorReason (reason : bytes) : bytes :=
  take 512 ((fun c => if code c <=? 32 then "_"%char else c) <$> reason).

Definition formatRuntimeStatisticsLine (s : UdpDsrStatsValue) : bytes :=
  bs "XDP_STATS schema=3 total_packets=" ++ to_string (totalPackets s) ++
  bs " pass_packets=" ++ to_string (passPackets s) ++
  bs " redirect_requests=" ++ to_string (redirectRequests s) ++
  bs " drop_packets=" ++ to_string (dropPackets s) ++
  bs " unsupported_packets=" ++ to_string (unsupportedPackets s) ++
  bs " no_backend_packets=" ++ to_string (noBackendPackets s) ++
  bs " invalid_config_packets=" ++ to_string (invalidConfigPackets s) ++
  bs " helper_error_packets=" ++ to_string (helperErrorPackets s).

Section loop.
Context {A P F Y : Type} `{RuntimeAttachment A} `{ProbeCollaborators P}.
Context `{FileOps F} `{InterfaceOps F} `{AddressParser} `{RuntimeSystem Y}.

Abbreviation WA := (World A P F Y).
Abbreviation service := (M (Control * WA)).

(** Code of one of the four worlds. *)
Definition onAttachment {X} (m : M A X) : M WA X :=
  fun w => let '(o, a) := m (w_attachment w) in
           (o, mkWorld a (w_probes w) (w_files w) (w_system w) (w_requests w)).
Definition onProbes {X} (m : M P X) : M WA X :=
  fun w => let '(o, p) := m (w_probes w) in
           (o, mkWorld (w_attachment w) p (w_files w) (w_system w) (w_requests w)).
Definition onFiles {X} (m : M F X) : M WA X :=
  fun w => let '(o, f) := m (w_files w) in
           (o, mkWorld (w_attachment w) (w_probes w) f (w_system w) (w_requests w)).
Definition onSystem {X} (m : M Y X) : M WA X :=
  fun w => let '(o, y) := m (w_system w) in
           (o, mkWorld (w_attachment w) (w_probes w) (w_files w) y (w_requests w)).

Definition system {X} (op : Y -> X * Y) : service X := outside (onSystem (mworld op)).
Definition now : service Z := system sys_now.

(** ** RuntimeOutput *)

(** [for (attempt = 0; attempt < 64 && !pendingOutput_.empty(); ++attempt)] *)
Fixpoint flushAttempts (attempts : nat) : service unit :=
  match attempts with
  | O => mret tt
  | S attempts' =>
      pending <- own pendingOutput_ ;;
      if bool_decide (pending = []) then mret tt
      else
        count <- system (sys_write pending) ;;
        match count with
        | inr errno =>
            if errno =? EINTR then flushAttempts attempts'
            else if (errno =? EAGAIN) || (errno =? EWOULDBLOCK) then mret tt
            else mthrow (RuntimeControlError (bs "runtime 输出失败"))
        | inl n =>
            if n <=? 0 then mthrow (RuntimeControlError (bs "runtime 输出失败"))
            else
              update (fun c => set_pendingOutput (drop (Z.to_nat n) (pendingOutput_ c)) c) ;;;
              flushAttempts attempts'
        end
  end.
Definition flushPendingOutput : service unit := flushAttempts 64.

Definition appendOutputLine (line : bytes) : service unit :=
  pending <- own pendingOutput_ ;;
  if 64 * 1024 <? len pending + len line + 1 then
    mthrow (RuntimeControlError (bs "runtime 输出队列超过64KiB"))
  else
    update (fun c => set_pendingOutput (pendingOutput_ c ++ line ++ [chr 10]) c) ;;;
    flushPendingOutput.

(** [fuel] bounds the rounds of at most 20 ms until the deadline. *)
Fixpoint drainLoop (fuel : nat) (deadline : Z) : service unit :=
  pending <- own pendingOutput_ ;;
  if bool_decide (pending = []) then mret tt
  else
    match fuel with
    | O => mdiverge
    | S fuel' =>
        flushPendingOutput ;;;
        pending <- own pendingOutput_ ;;
        if bool_decide (pending = []) then mret tt
        else
          t <- now ;;
          if deadline <=? t then
            mthrow (RuntimeControlError (bs "停止后 runtime 输出背压超时"))
          else
            polled <- system sys_poll_output ;;
            match polled with
            | inr errno =>
                if errno =? EINTR then drainLoop fuel' deadline
                else mthrow (RuntimeControlError (bs "runtime 输出等待失败"))
            | inl _ => drainLoop fuel' deadline
            end
    end.

Definition drainOutputOnStop (fuel : nat) : service unit :=
  t <- now ;;
  drainLoop fuel (t + seconds 1).

(** ** Signals *)

Definition noteStop (signal : Z) : service unit :=
  update (fun c => set_signalState (mkSignalState (reload (signalState c)) true
    (brokenPipe (signalState c) || (signal =? SIGPIPE))) c).
Definition noteReload : service unit :=
  update (fun c => set_signalState (mkSignalState true (stop (signalState c))
    (brokenPipe (signalState c))) c).

(** [for (count = 0; count < 64; ++count)] *)
Fixpoint readSignals (count : nat) (fd : Z) : service unit :=
  match count with
  | O => mret tt
  | S count' =>
      information <- system (sys_read_signal fd) ;;
      match information with
      | inr errno =>
          if errno =? EINTR then readSignals count' fd
          else if errno =? EAGAIN then mret tt
          else mthrow (RuntimeControlError (bs "runtime 信号读取失败"))
      | inl None => mthrow (RuntimeControlError (bs "runtime 信号读取失败"))
      | inl (Some signal) =>
          (if signal =? SIGHUP then noteReload else noteStop signal) ;;;
          readSignals count' fd
      end
  end.

Definition consumeRuntimeSignals (fd : Z) : service unit :=
  stopped <- system sys_sigtimedwait ;;
  match stopped with
  | inl signal => noteStop signal
  | inr errno =>
      if negb (errno =? EAGAIN) && negb (errno =? EINTR) then
        mthrow (RuntimeControlError (bs "runtime 停止信号检查失败"))
      else readSignals 64 fd
  end.

Definition waitForRuntimeSignalsOrOutput (fd : Z) : service unit :=
  pending <- own pendingOutput_ ;;
  polled <- system (sys_poll fd (if bool_decide (pending = []) then 0 else POLLOUT)) ;;
  match polled with
  | inr errno =>
      if errno =? EINTR then mret tt else mthrow (RuntimeControlError (bs "runtime poll 失败"))
  | inl (signals, output) =>
      if has_any (Z.lor signals output) pollFailure then
        mthrow (RuntimeControlError (bs "runtime 输出或信号描述符失效"))
      else mret tt
  end.
(** ** Publication of a change in health *)

Definition reportFailedPublish (reason : bytes) : service unit :=
  applied <- own applied ;;
  appendOutputLine (bs "XDP_PUBLISH status=failed reason=" ++ reason ++
                    formatAppliedSnapshotFields applied).

(** [attachment.publishRuntime(snapshot)] *)
Definition requestPublication (snapshot : UdpRuntimeSnapshot) : M WA unit :=
  fun w => onAttachment (ra_publishRuntime snapshot)
    (mkWorld (w_attachment w) (w_probes w) (w_files w) (w_system w)
      (w_requests w ++ [sys_clock (w_system w)])).

(** The body of the [try] block. *)
Definition publishSnapshotOfHealth (snapshot : UdpRuntimeSnapshot) : service unit :=
  outside (requestPublication snapshot) ;;;
  update (set_attempt true false) ;;;
  update (set_applied snapshot) ;;;
  appendOutputLine (bs "XDP_PUBLISH status=applied reason=health" ++
                    formatAppliedSnapshotFields snapshot).

(** A [RuntimePublishError] is rethrown if it is committed, a
    [RuntimeControlError] always, anything else after the commit. *)
Definition publishHandler (e : exn) : service unit :=
  match e with
  | RuntimePublishError _ true => mthrow e
  | RuntimePublishError _ false => reportFailedPublish (bs "health")
  | RuntimeControlError _ => mthrow e
  | _ =>
      committed <- own committed ;;
      if committed : bool then mthrow e else reportFailedPublish (bs "health")
  end.

(** [false]: the loop is to end. *)
Definition publishChangedHealthySnapshot (fd : Z) : service bool :=
  t <- now ;;
  c <- own (fun c => c) ;;
  if t <? nextPublish c then mret true
  else
    generation <- lift_outcome (nextRuntimeGeneration (applied c)) ;;
    snapshot <- lift_outcome (buildRuntimeSnapshot (configuration c) (checker c) generation) ;;
    if haveSameActiveTargets snapshot (applied c) then mret true
    else
      consumeRuntimeSignals fd ;;;
      stopped <- own (fun c => stop (signalState c)) ;;
      if stopped : bool then mret false
      else
        t <- now ;;
        update (set_nextPublish (t + seconds 1)) ;;;
        update (set_attempt false false) ;;;
        mcatch (publishSnapshotOfHealth snapshot) publishHandler ;;;
        mret true.

(** ** Reloading *)

(** The candidate's checker closes its sockets unless it was moved. *)
Definition orDestroyCandidate {X} (candidate : UdpProbeChecker) (m : service X) : service X :=
  mcatch m (fun e =>
    effect (fun w => mkWorld (w_attachment w) (destroyUdpProbeChecker candidate (w_probes w))
                       (w_files w) (w_system w) (w_requests w)) ;;;
    mthrow e).
Definition destroyChecker (c : UdpProbeChecker) : service unit :=
  effect (fun w => mkWorld (w_attachment w) (destroyUdpProbeChecker c (w_probes w))
                     (w_files w) (w_system w) (w_requests w)).

(** Up to the publication; [false] if a stop signal came first. *)
Definition publishCandidateConfiguration (fd : Z) (candidate : RuntimeDsrConfiguration)
    (candidateChecker : UdpProbeChecker) : service (option UdpRuntimeSnapshot) :=
  applied <- own applied ;;
  generation <- lift_outcome (nextRuntimeGeneration applied) ;;
  snapshot <- lift_outcome (buildRuntimeSnapshot candidate candidateChecker generation) ;;
  consumeRuntimeSignals fd ;;;
  stopped <- own (fun c => stop (signalState c)) ;;
  if stopped : bool then mret None
  else
    t <- now ;;
    update (set_nextPublish (t + seconds 1)) ;;;
    update (set_attempt false true) ;;;
    outside (requestPublication snapshot) ;;;
    update (set_attempt true true) ;;;
    mret (Some snapshot).

(** The body of the [try] block; [false]: the loop is to end. *)
Definition reloadConfiguration (fuel : nat) (path ingress vip : bytes) (fd : Z) : service bool :=
  candidate <- outside (onFiles (loadRuntimeConfig fuel path ingress vip)) ;;
  c <- own (fun c => c) ;;
  if sameRuntimeConfig candidate (configuration c) then
    appendOutputLine (bs "XDP_RELOAD status=unchanged" ++ formatAppliedSnapshotFields (applied c)) ;;;
    mret true
  else
    candidateChecker <- outside (onProbes
      (newUdpProbeChecker (buildProbeTargets candidate) (copyProbeSnapshots (checker c)))) ;;
    published <- orDestroyCandidate candidateChecker
      (publishCandidateConfiguration fd candidate candidateChecker) ;;
    match published with
    | None => destroyChecker candidateChecker ;;; mret false
    | Some snapshot =>
        update (set_applied snapshot) ;;;
        update (set_configuration candidate) ;;;
        old <- own checker ;;
        update (set_checker candidateChecker) ;;;
        destroyChecker old ;;;
        appendOutputLine (bs "XDP_PUBLISH status=applied reason=reload" ++
                          formatAppliedSnapshotFields snapshot) ;;;
        appendOutputLine (bs "XDP_RELOAD status=applied configured_backends=" ++
                          to_string (len (rc_targets candidate)) ++
                          formatAppliedSnapshotFields snapshot) ;;;
        mret true
    end.

Definition reportRejectedReload (e : exn) : service unit :=
  applied <- own applied ;;
  appendOutputLine (bs "XDP_RELOAD status=rejected reason=" ++
                    sanitizeErrorReason (what sys_strerror e) ++ formatAppliedSnapshotFields applied).

Definition reloadHandler (e : exn) : service bool :=
  match e with
  | RuntimePublishError _ true => mthrow e
  | RuntimePublishError _ false =>
      reportFailedPublish (bs "reload") ;;; reportRejectedReload e ;;; mret true
  | RuntimeControlError _ => mthrow e
  | _ =>
      c <- own (fun c => c) ;;
      if committed c then mthrow e
      else
        mwhen (publishAttempted c) (reportFailedPublish (bs "reload")) ;;;
        reportRejectedReload e ;;;
        mret true
  end.

Definition reloadWhenDue (fuel : nat) (path ingress vip : bytes) (fd : Z) (t : Z) : service bool :=
  c <- own (fun c => c) ;;
  if reload (signalState c) && (nextPublish c <=? t) then
    update (fun c => set_signalState (mkSignalState false (stop (signalState c))
                                        (brokenPipe (signalState c))) c) ;;;
    update (set_attempt false false) ;;;
    mcatch (reloadConfiguration fuel path ingress vip fd) reloadHandler
  else mret true.

(** ** The loop *)

Definition formatTransition (t : ProbeTransition) : bytes :=
  bs "XDP_HEALTH target=" ++ pt_id t ++ bs " from=" ++ probeStateName (pt_from t) ++
  bs " to=" ++ probeStateName (pt_to t) ++ bs " reason=" ++ pt_reason t.

Definition pollChecker (t : Z) : service (list ProbeTransition) :=
  zoom checker set_checker (fun s =>
    let '(o, (c, p)) := pollProbeTransitions t (s.1, w_probes s.2) in
    (o, (c, mkWorld (w_attachment s.2) p (w_files s.2) (w_system s.2) (w_requests s.2)))).

Definition stopRequested : service bool := own (fun c => stop (signalState c)).

(** One pass of [while (!signalState.stop)]; [false]: the loop is to end. *)
Definition controlTurn (fuel : nat) (path ingress vip : bytes) (fd : Z) : service bool :=
  consumeRuntimeSignals fd ;;;
  stopped <- stopRequested ;;
  if stopped : bool then mret false
  else
    t <- now ;;
    transitions <- pollChecker t ;;
    mfor transitions (fun x => appendOutputLine (formatTransition x)) ;;;
    consumeRuntimeSignals fd ;;;
    stopped <- stopRequested ;;
    if stopped : bool then mret false
    else
      goesOn <- reloadWhenDue fuel path ingress vip fd t ;;
      if negb goesOn then mret false
      else
        goesOn <- publishChangedHealthySnapshot fd ;;
        if negb goesOn then mret false
        else
          flushPendingOutput ;;;
          waitForRuntimeSignalsOrOutput fd ;;;
          mret true.

(** [turns] passes at most. *)
Fixpoint controlLoop (turns fuel : nat) (path ingress vip : bytes) (fd : Z) : service unit :=
  stopped <- stopRequested ;;
  if stopped : bool then mret tt
  else
    match turns with
    | O => mdiverge
    | S turns' =>
        goesOn <- controlTurn fuel path ingress vip fd ;;
        if goesOn : bool then controlLoop turns' fuel path ingress vip fd else mret tt
    end.
(** ** The whole mode *)

Definition programIdText : service bytes :=
  w <- world ;;
  mret (to_string (ra_programId (w_attachment w))).

Definition formatLink (ingress : bytes) (mode : XdpAttachMode) (id : bytes) : bytes :=
  bs " dev=" ++ ingress ++ bs " mode=" ++ xdpAttachModeName mode ++ bs " prog_id=" ++ id.

(** The body of the [try] block. *)
Definition attachedPhase (turns fuel drain : nat) (path ingress vip : bytes) (mode : XdpAttachMode)
    (fd : Z) : service Z :=
  id <- programIdText ;;
  c <- own (fun c => c) ;;
  appendOutputLine (bs "READY" ++ formatLink ingress mode id ++
    bs " schema=3 profile=udp-dsr-runtime configured_backends=" ++
    to_string (len (rc_targets (configuration c))) ++ formatAppliedSnapshotFields (applied c)) ;;;
  t <- now ;;
  update (set_nextPublish (t + seconds 1)) ;;;
  controlLoop turns fuel path ingress vip fd ;;;
  outside (onAttachment ra_detachProgram) ;;;
  last <- own checker ;;
  update (set_checker emptyChecker) ;;;
  destroyChecker last ;;;
  stats <- outside (onAttachment ra_readRuntimeStats) ;;
  appendOutputLine (formatRuntimeStatisticsLine stats) ;;;
  id <- programIdText ;;
  appendOutputLine (bs "DETACHED" ++ formatLink ingress mode id) ;;;
  drainOutputOnStop drain ;;;
  state <- own signalState ;;
  mret (if brokenPipe state then 1 else 0).

(** [catch (...)]: detach, ignore a failure of that, and go on with the
    exception. *)
Definition detachOnFailure {X} (m : service X) : service X :=
  mcatch m (fun e =>
    mcatch (outside (onAttachment ra_detachProgram)) (fun _ => mret tt) ;;;
    mthrow e).

Definition withOutput {X} (m : service X) : service X :=
  flags <- system sys_getfl ;;
  match flags with
  | inr _ => mthrow (RuntimeError (bs "无法设置 runtime 非阻塞输出"))
  | inl originalFlags =>
      changed <- system (sys_setfl (Z.lor originalFlags O_NONBLOCK_FLAG)) ;;
      match changed with
      | inr _ => mthrow (RuntimeError (bs "无法设置 runtime 非阻塞输出"))
      | inl _ =>
          mfinally m (fun s =>
            (s.1, mkWorld (w_attachment s.2) (w_probes s.2) (w_files s.2)
                    (sys_setfl originalFlags (w_system s.2)).2 (w_requests s.2)))
      end
  end.

Definition withSignalFd {X} (m : Z -> service X) : service X :=
  opened <- system sys_signalfd ;;
  match opened with
  | inr _ => mthrow (RuntimeError (bs "无法创建 runtime signalfd"))
  | inl fd =>
      mfinally (m fd) (fun s =>
        (s.1, mkWorld (w_attachment s.2) (w_probes s.2) (w_files s.2)
                (sys_close fd (w_system s.2)) (w_requests s.2)))
  end.

(** Everything with a live checker. *)
Definition checkedPhase (turns fuel drain : nat) (object path ingress vip : bytes)
    (mode : XdpAttachMode) : service Z :=
  c <- own (fun c => c) ;;
  snapshot <- lift_outcome (buildRuntimeSnapshot (configuration c) (checker c) 1) ;;
  update (set_applied snapshot) ;;;
  withSignalFd (fun fd =>
    withOutput (
      outside (onAttachment (ra_loadObject object snapshot)) ;;;
      outside (onAttachment (ra_attachProgram ingress mode)) ;;;
      detachOnFailure (attachedPhase turns fuel drain path ingress vip mode fd))).

Definition noSnapshot : UdpRuntimeSnapshot := mkUdpRuntimeSnapshot 0 0 0 0 0 0 [].

(** The checker that is left when the variables go out of scope. *)
Definition liveChecker (c : Control) : UdpProbeChecker := checker c.

Definition runRuntimeDsrControlLoop (turns fuel drain : nat)
    (object ingress vip configurationPath : bytes) (mode : XdpAttachMode) : M WA Z :=
  path <- onSystem (orThrow (bs "absolute") (sys_absolute configurationPath)) ;;
  configuration <- onFiles (loadRuntimeConfig fuel path ingress vip) ;;
  checker <- onProbes (newUdpProbeChecker (buildProbeTargets configuration) []) ;;
  fun w =>
    let start := mkControl configuration checker noSnapshot (mkSignalState false false false) 0 []
                   false false in
    let '(o, (c, w')) := checkedPhase turns fuel drain object path ingress vip mode (start, w) in
    (o, mkWorld (w_attachment w') (destroyUdpProbeChecker (liveChecker c) (w_probes w'))
          (w_files w') (w_system w') (w_requests w')).
End loop.
