(* ===== verification/XdpLayout.v ===== *)
(** * The memory of the map values (src/src/xdp/MapSchema.h, UdpDsrSchema.h,
    UdpRuntimeSchema.h)

    The values cross the boundary between the program, the kernel and the eBPF
    programs as bytes, and the program compares them with [memcmp].  Here are the
    layouts that the compiler gives the structures, the assertions of the headers,
    and what an object's bytes say about its value. *)
From S2P Require Import Prelude XdpSchema BpfKernel RuntimeStore MapStore RuntimeConfig RuntimeService.

(** ** The layout of a C structure (x86-64 System V, little-endian) *)

#[local] Set Warnings "-register-all".
Inductive ctype :=
| CInt (size : Z)
| CArray (element : ctype) (count : nat)
| CStruct (fields : list (string * ctype)).

Fixpoint alignof (t : ctype) : Z :=
  match t with
  | CInt n => n
  | CArray t _ => alignof t
  | CStruct fields => foldr (fun field a => Z.max (alignof field.2) a) 1 fields
  end.

Definition roundUp (n a : Z) : Z := (n + a - 1) / a * a.

Fixpoint sizeof (t : ctype) : Z :=
  match t with
  | CInt n => n
  | CArray t count => sizeof t * Z.of_nat count
  | CStruct fields =>
      roundUp (foldl (fun off field => roundUp off (alignof field.2) + sizeof field.2) 0 fields)
        (foldr (fun field a => Z.max (alignof field.2) a) 1 fields)
  end.

(** Each field with its offset. *)
Fixpoint layoutFrom (off : Z) (fields : list (string * ctype)) : list (string * Z * ctype) :=
  match fields with
  | [] => []
  | (name, t) :: fields' =>
      let off := roundUp off (alignof t) in
      (name, off, t) :: layoutFrom (off + sizeof t) fields'
  end.
Definition layoutOf (t : ctype) : list (string * Z * ctype) :=
  match t with CStruct fields => layoutFrom 0 fields | _ => [] end.

Definition fieldOf (t : ctype) (name : string) : option (Z * ctype) :=
  '(_, off, f) ← find (fun entry => bool_decide (entry.1.1 = name)) (layoutOf t); Some (off, f).
Definition offsetof (t : ctype) (name : string) : Z := default (-1) (fst <$> fieldOf t name).

(** ** The structures and the assertions of the headers *)

Definition u8_t := CInt 1.
Definition u16_t := CInt 2.
Definition u32_t := CInt 4.
Definition u64_t := CInt 8.
Definition mac_t := CArray u8_t 6.

Definition xdpConfig_t := CStruct [("schemaVersion", u32_t); ("backendCount", u32_t)]%string.
Definition xdpBackend_t := CStruct [("address", u32_t); ("port", u16_t); ("reserved", u16_t)]%string.
Definition xdpStats_t := CStruct [("passPackets", u64_t)]%string.
Definition dsrConfig_t := CStruct
  [("schemaVersion", u32_t); ("backendCount", u32_t); ("vipAddress", u32_t); ("vipPort", u16_t);
   ("reserved", u16_t)]%string.
Definition dsrBackend_t := CStruct
  [("ifindex", u32_t); ("destinationMac", mac_t); ("sourceMac", mac_t)]%string.
Definition dsrStats_t := CStruct
  [("totalPackets", u64_t); ("passPackets", u64_t); ("redirectRequests", u64_t);
   ("dropPackets", u64_t); ("unsupportedPackets", u64_t); ("noBackendPackets", u64_t);
   ("invalidConfigPackets", u64_t); ("helperErrorPackets", u64_t)]%string.
Definition snapshot_t := CStruct
  [("schemaVersion", u32_t); ("backendCount", u32_t); ("generation", u64_t); ("vipAddress", u32_t);
   ("vipPort", u16_t); ("reserved", u16_t); ("backends", CArray dsrBackend_t 64)]%string.

Definition offsets (t : ctype) (l : list (string * Z)) : bool :=
  forallb (fun entry => offsetof t entry.1 =? entry.2) l.

(** MapSchema.h *)
Definition mapSchemaAssertions : bool :=
  (sizeof xdpConfig_t =? 8) && (alignof xdpConfig_t =? 4) &&
  offsets xdpConfig_t [("schemaVersion", 0); ("backendCount", 4)]%string &&
  (sizeof xdpBackend_t =? 8) && (alignof xdpBackend_t =? 4) &&
  offsets xdpBackend_t [("address", 0); ("port", 4); ("reserved", 6)]%string &&
  (sizeof xdpStats_t =? 8) && (alignof xdpStats_t =? 8) && offsets xdpStats_t [("passPackets", 0)]%string.

(** UdpDsrSchema.h *)
Definition dsrSchemaAssertions : bool :=
  (sizeof dsrConfig_t =? 16) && (alignof dsrConfig_t =? 4) &&
  offsets dsrConfig_t
    [("schemaVersion", 0); ("backendCount", 4); ("vipAddress", 8); ("vipPort", 12); ("reserved", 14)]%string &&
  (sizeof dsrBackend_t =? 16) && (alignof dsrBackend_t =? 4) &&
  offsets dsrBackend_t [("ifindex", 0); ("destinationMac", 4); ("sourceMac", 10)]%string &&
  (sizeof dsrStats_t =? 64) && (alignof dsrStats_t =? 8) &&
  offsets dsrStats_t
    [("totalPackets", 0); ("passPackets", 8); ("redirectRequests", 16); ("dropPackets", 24);
     ("unsupportedPackets", 32); ("noBackendPackets", 40); ("invalidConfigPackets", 48);
     ("helperErrorPackets", 56)]%string.

(** UdpRuntimeSchema.h *)
Definition runtimeSchemaAssertions : bool :=
  (sizeof snapshot_t =? runtimeSnapshotSize) && (alignof snapshot_t =? 8) &&
  offsets snapshot_t
    [("schemaVersion", 0); ("backendCount", 4); ("generation", 8); ("vipAddress", 16);
     ("vipPort", 20); ("reserved", 22); ("backends", 24)]%string.

(** The structure of each map of the three schemas, in the order of the lists. *)
Definition mapValueTypes : list (list MapSpec * list ctype) :=
  [(configMapSpecs, [xdpConfig_t; xdpBackend_t; xdpStats_t]);
   (dsrMapSpecs, [dsrConfig_t; dsrBackend_t; dsrStats_t]);
   (runtimeMapSpecs, [u32_t; snapshot_t; dsrStats_t])].

(** ** Reading an object *)

(** [n] bytes at [off] *)
Definition slice (off n : Z) (b : list Z) : list Z := take (Z.to_nat n) (drop (Z.to_nat off) b).

Definition field (t : ctype) (name : string) (b : list Z) : list Z :=
  match fieldOf t name with Some (off, f) => slice off (sizeof f) b | None => [] end.

Fixpoint elements (size : Z) (count : nat) (b : list Z) : list (list Z) :=
  match count with
  | O => []
  | S count' => slice 0 size b :: elements size count' (drop (Z.to_nat size) b)
  end.

Definition intField (t : ctype) (name : string) (b : list Z) : Z := loadLittle (field t name b).

Definition xdpConfigAt (b : list Z) : XdpConfigValue :=
  mkXdpConfigValue (intField xdpConfig_t "schemaVersion"%string b) (intField xdpConfig_t "backendCount"%string b).
Definition xdpBackendAt (b : list Z) : XdpBackendValue :=
  mkXdpBackendValue (intField xdpBackend_t "address"%string b) (intField xdpBackend_t "port"%string b)
    (intField xdpBackend_t "reserved"%string b).
Definition dsrConfigAt (b : list Z) : UdpDsrConfigValue :=
  mkUdpDsrConfigValue (intField dsrConfig_t "schemaVersion"%string b) (intField dsrConfig_t "backendCount"%string b)
    (intField dsrConfig_t "vipAddress"%string b) (intField dsrConfig_t "vipPort"%string b)
    (intField dsrConfig_t "reserved"%string b).
Definition dsrBackendAt (b : list Z) : UdpDsrBackendValue :=
  mkUdpDsrBackendValue (intField dsrBackend_t "ifindex"%string b) (field dsrBackend_t "destinationMac"%string b)
    (field dsrBackend_t "sourceMac"%string b).
Definition snapshotAt (b : list Z) : UdpRuntimeSnapshot :=
  mkUdpRuntimeSnapshot (intField snapshot_t "schemaVersion"%string b) (intField snapshot_t "backendCount"%string b)
    (intField snapshot_t "generation"%string b) (intField snapshot_t "vipAddress"%string b)
    (intField snapshot_t "vipPort"%string b) (intField snapshot_t "reserved"%string b)
    (dsrBackendAt <$> elements (sizeof dsrBackend_t) 64 (field snapshot_t "backends"%string b)).

(** [memcmp]: the sign of the first difference *)
Fixpoint memcmp (a b : list Z) : Z :=
  match a, b with
  | x :: a', y :: b' => if x =? y then memcmp a' b' else if x <? y then -1 else 1
  | _, _ => 0
  end.

(** ** Objects without padding *)

Definition object (t : ctype) (b : list Z) : Prop := len b = sizeof t /\ Forall is_byte b.

(** The fields follow each other without a gap up to [end_]. *)
Fixpoint contiguous (off : Z) (layout : list (string * Z * ctype)) (end_ : Z) : bool :=
  match layout with
  | [] => off =? end_
  | (_, o, t) :: layout' => (o =? off) && (0 <=? sizeof t) && contiguous (off + sizeof t) layout' end_
  end.
Definition packed (t : ctype) : bool := contiguous 0 (layoutOf t) (sizeof t).

Definition fieldSlices (layout : list (string * Z * ctype)) (b : list Z) : list (list Z) :=
  (fun entry => slice entry.1.2 (sizeof entry.2) b) <$> layout.

Arguments slice : simpl never.

Lemma slice_eq_drop off n b b' :
  0 <= off -> 0 <= n -> slice off n b = slice off n b' ->
  drop (Z.to_nat (off + n)) b = drop (Z.to_nat (off + n)) b' ->
  drop (Z.to_nat off) b = drop (Z.to_nat off) b'.
Proof.
  intros Ho Hn Hs Hd. unfold slice in Hs.
  rewrite <-(take_drop (Z.to_nat n) (drop (Z.to_nat off) b)),
    <-(take_drop (Z.to_nat n) (drop (Z.to_nat off) b')), Hs, !drop_drop.
  by replace (Z.to_nat off + Z.to_nat n)%nat with (Z.to_nat (off + n)) by lia; rewrite Hd.
Qed.

Lemma contiguous_inj layout off b b' :
  0 <= off -> contiguous off layout (len b) = true -> len b' = len b ->
  fieldSlices layout b = fieldSlices layout b' -> drop (Z.to_nat off) b = drop (Z.to_nat off) b'.
Proof.
  revert off. induction layout as [|[[name o] t] layout IH]; intros off Ho Hc Hlen Hs; cbn in Hc.
  - apply Z.eqb_eq in Hc as ->. unfold len in *. by rewrite !drop_ge by lia.
  - apply andb_true_iff in Hc as [[->%Z.eqb_eq Ht%Z.leb_le]%andb_true_iff Hc].
    injection Hs as Hs Hs'. apply (slice_eq_drop _ (sizeof t)); [done..|].
    apply IH; [lia|done..].
Qed.

(** The bytes of the fields are all the bytes. *)
Lemma packed_inj t b b' :
  packed t = true -> object t b -> object t b' ->
  fieldSlices (layoutOf t) b = fieldSlices (layoutOf t) b' -> b = b'.
Proof.
  intros Hp [Hb _] [Hb' _] Hs. apply (contiguous_inj _ 0) in Hs; [done|done| |congruence].
  by rewrite Hb.
Qed.

Lemma slice_bytes off n b : Forall is_byte b -> Forall is_byte (slice off n b).
Proof. intros Hb. by apply Forall_take, Forall_drop. Qed.
Lemma slice_length off n b b' : len b = len b' -> length (slice off n b) = length (slice off n b').
Proof. unfold len, slice. rewrite !length_take, !length_drop. lia. Qed.

Lemma elements_inj size count b b' :
  0 <= size -> len b = size * Z.of_nat count -> len b' = len b ->
  elements size count b = elements size count b' -> b = b'.
Proof.
  intros Hs. revert b b'. induction count as [|count IH]; intros b b' Hb Hb' He.
  - unfold len in *. destruct b, b'; try done; cbn in *; lia.
  - injection He as He1 He2. unfold slice in He1. rewrite !drop_0 in He1.
    rewrite <-(take_drop (Z.to_nat size) b), <-(take_drop (Z.to_nat size) b'), He1. f_equal.
    apply IH; [..|done]; unfold len in *; rewrite !length_drop; lia.
Qed.

Lemma memcmp_zero a b : length a = length b -> memcmp a b = 0 <-> a = b.
Proof.
  revert b. induction a as [|x a IH]; intros [|y b] Hl; cbn; try done.
  destruct (Z.eqb_spec x y) as [->|Hn].
  - rewrite IH by (cbn in Hl; lia). naive_solver.
  - destruct (x <? y); split; intros Hc; (done || congruence).
Qed.

(** Comparing the bytes is comparing the values that they hold. *)
Definition bytes_decide {V} (t : ctype) (at_ : list Z -> V) : Prop :=
  forall b b', object t b -> object t b' -> memcmp b b' = 0 <-> at_ b = at_ b'.

Lemma bytes_decide_intro {V} t (at_ : list Z -> V) :
  packed t = true ->
  (forall b b', object t b -> object t b' -> at_ b = at_ b' ->
     fieldSlices (layoutOf t) b = fieldSlices (layoutOf t) b') ->
  bytes_decide t at_.
Proof.
  intros Hp Hf b b' Hb Hb'. rewrite memcmp_zero; [split; [by intros ->|]|].
  - intros Hat. by apply (packed_inj t); [..|apply Hf].
  - destruct Hb as [Hb _], Hb' as [Hb' _]. unfold len in *. lia.
Qed.

Lemma int_slice_inj t off n b b' :
  object t b -> object t b' ->
  loadLittle (slice off n b) = loadLittle (slice off n b') -> slice off n b = slice off n b'.
Proof.
  intros [Hl Hb] [Hl' Hb']. apply loadLittle_inj; [by apply slice_bytes..|].
  apply slice_length. congruence.
Qed.

Ltac same_slices :=
  intros b b' Hb Hb' Hat; cbn; injection Hat; intros; f_equal/=;
  repeat match goal with
  | |- [] = [] => reflexivity
  | |- _ :: _ = _ :: _ => f_equal
  end; try (by eapply int_slice_inj; [exact Hb|exact Hb'|assumption]); try assumption.

Lemma xdpConfig_bytes : bytes_decide xdpConfig_t xdpConfigAt.
Proof. apply bytes_decide_intro; [done|]. same_slices. Qed.
Lemma xdpBackend_bytes : bytes_decide xdpBackend_t xdpBackendAt.
Proof. apply bytes_decide_intro; [done|]. same_slices. Qed.
Lemma dsrConfig_bytes : bytes_decide dsrConfig_t dsrConfigAt.
Proof. apply bytes_decide_intro; [done|]. same_slices. Qed.
Lemma dsrBackend_bytes : bytes_decide dsrBackend_t dsrBackendAt.
Proof. apply bytes_decide_intro; [done|]. same_slices. Qed.

(** *** The table of backends inside a snapshot *)

Lemma elements_objects t count b :
  0 <= sizeof t -> object (CArray t count) b -> Forall (object t) (elements (sizeof t) count b).
Proof.
  intros Ht [Hl Hb]. cbn [sizeof] in Hl. revert b Hl Hb.
  induction count as [|count IH]; intros b Hl Hb; cbn [elements]; constructor.
  - split; [|by apply slice_bytes]. unfold len, slice in *. rewrite length_take, length_drop. lia.
  - apply IH; [|by apply Forall_drop]. unfold len in *. rewrite length_drop. lia.
Qed.

Lemma objects_fmap_inj {V} t (at_ : list Z -> V) l l' :
  bytes_decide t at_ -> Forall (object t) l -> Forall (object t) l' -> at_ <$> l = at_ <$> l' -> l = l'.
Proof.
  intros Hd Hl. revert l'. induction Hl as [|b l Hb _ IH]; intros [|b' l'] Hl' He; try done.
  apply Forall_cons in Hl' as [Hb' Hl']. injection He as He1 He2. f_equal; [|by apply IH].
  apply (Hd b b' Hb Hb') in He1. apply memcmp_zero; [|done].
  destruct Hb as [Hb _], Hb' as [Hb' _]. unfold len in *. lia.
Qed.

Definition backendsAt (b : list Z) : list UdpDsrBackendValue :=
  dsrBackendAt <$> elements (sizeof dsrBackend_t) 64 b.

Lemma backends_bytes : bytes_decide (CArray dsrBackend_t 64) backendsAt.
Proof.
  intros b b' Hb Hb'. rewrite memcmp_zero; [split; [by intros ->|]|].
  2: { destruct Hb as [Hb _], Hb' as [Hb' _]. unfold len in *. lia. }
  intros He. apply (objects_fmap_inj dsrBackend_t) in He; [|apply dsrBackend_bytes|by apply elements_objects..].
  eapply elements_inj; [|apply Hb| |exact He]; [done|]. destruct Hb as [-> _], Hb' as [-> _]. done.
Qed.

Lemma snapshot_backends_field b : field snapshot_t "backends" b = slice 24 1024 b.
Proof.
  unfold field. assert (fieldOf snapshot_t "backends" = Some (24, CArray dsrBackend_t 64)) as -> by reflexivity.
  by assert (sizeof (CArray dsrBackend_t 64) = 1024) as -> by reflexivity.
Qed.

Lemma snapshot_backends b : object snapshot_t b ->
  object (CArray dsrBackend_t 64) (field snapshot_t "backends" b).
Proof.
  intros [Hl Hb]. rewrite snapshot_backends_field. split; [|by apply slice_bytes].
  assert (sizeof (CArray dsrBackend_t 64) = 1024) as -> by reflexivity.
  assert (sizeof snapshot_t = 1048) as E by reflexivity. rewrite E in Hl. clear E.
  unfold len, slice in *. rewrite length_take, length_drop. lia.
Qed.

Lemma snapshot_slices b :
  fieldSlices (layoutOf snapshot_t) b =
  [slice 0 4 b; slice 4 4 b; slice 8 8 b; slice 16 4 b; slice 20 2 b; slice 22 2 b; slice 24 1024 b].
Proof.
  unfold fieldSlices.
  assert (layoutOf snapshot_t = [("schemaVersion", 0, u32_t); ("backendCount", 4, u32_t);
    ("generation", 8, u64_t); ("vipAddress", 16, u32_t); ("vipPort", 20, u16_t); ("reserved", 22, u16_t);
    ("backends", 24, CArray dsrBackend_t 64)]%string) as -> by reflexivity.
  cbn [fmap list_fmap fst snd].
  by assert (sizeof (CArray dsrBackend_t 64) = 1024) as -> by reflexivity.
Qed.

Lemma snapshot_bytes : bytes_decide snapshot_t snapshotAt.
Proof.
  apply bytes_decide_intro; [by vm_compute|]. intros b b' Hb Hb' Hat. rewrite !snapshot_slices.
  pose proof (int_slice_inj snapshot_t) as Hi.
  rewrite (Hi 0 4 b b' Hb Hb' (f_equal rs_schemaVersion Hat)).
  rewrite (Hi 4 4 b b' Hb Hb' (f_equal rs_backendCount Hat)).
  rewrite (Hi 8 8 b b' Hb Hb' (f_equal rs_generation Hat)).
  rewrite (Hi 16 4 b b' Hb Hb' (f_equal rs_vipAddress Hat)).
  rewrite (Hi 20 2 b b' Hb Hb' (f_equal rs_vipPort Hat)).
  rewrite (Hi 22 2 b b' Hb Hb' (f_equal rs_reserved Hat)).
  do 6 f_equal.
  pose proof (snapshot_backends _ Hb) as Ho. pose proof (snapshot_backends _ Hb') as Ho'.
  pose proof (f_equal rs_backends Hat : backendsAt _ = backendsAt _) as Hbe.
  apply (backends_bytes _ _ Ho Ho'), memcmp_zero in Hbe.
  - by rewrite <-!snapshot_backends_field, Hbe.
  - destruct Ho as [Ho _], Ho' as [Ho' _]. unfold len in *. lia.
Qed.

(** *** The comparisons of the program *)

Lemma haveSameActiveTargets_bytes b b' :
  object snapshot_t b -> object snapshot_t b' ->
  haveSameActiveTargets (snapshotAt b) (snapshotAt b') =
  (rs_backendCount (snapshotAt b) =? rs_backendCount (snapshotAt b')) &&
  (memcmp (field snapshot_t "backends" b) (field snapshot_t "backends" b') =? 0).
Proof.
  intros Hb Hb'. unfold haveSameActiveTargets. f_equal.
  pose proof (backends_bytes _ _ (snapshot_backends _ Hb) (snapshot_backends _ Hb')) as Hd.
  apply eq_true_iff_eq. rewrite bool_decide_eq_true, Z.eqb_eq. symmetry. exact Hd.
Qed.

Lemma sameRuntimeTarget_bytes left right b b' :
  object dsrBackend_t b -> object dsrBackend_t b' ->
  rt_backend left = dsrBackendAt b -> rt_backend right = dsrBackendAt b' ->
  sameRuntimeTarget left right =
  bool_decide (rt_id left = rt_id right) && (memcmp b b' =? 0) &&
  (rt_probeAddress left =? rt_probeAddress right) && (rt_probePort left =? rt_probePort right).
Proof.
  intros Hb Hb' Hl Hr. unfold sameRuntimeTarget. do 3 f_equal.
  apply eq_true_iff_eq. rewrite bool_decide_eq_true, Z.eqb_eq, Hl, Hr. symmetry. by apply dsrBackend_bytes.
Qed.

(** C29: the bytes of the map values.  The layouts of the structures are those
    that the headers assert, and the sizes of the maps are those of their values.
    No structure has padding, so comparing two objects with [memcmp] compares the
    values they hold: for the configurations, the backends, the snapshots, and in
    the two comparisons that decide whether a snapshot is published and whether a
    reloaded configuration is new.  A value-initialised object is the empty one. *)
Theorem memcmp_compares_values :
  mapSchemaAssertions && dsrSchemaAssertions && runtimeSchemaAssertions = true /\
  Forall (fun entry => valueSize <$> entry.1 = sizeof <$> entry.2) mapValueTypes /\
  bytes_decide xdpConfig_t xdpConfigAt /\ bytes_decide xdpBackend_t xdpBackendAt /\
  bytes_decide dsrConfig_t dsrConfigAt /\ bytes_decide dsrBackend_t dsrBackendAt /\
  bytes_decide snapshot_t snapshotAt /\
  (forall b b', object snapshot_t b -> object snapshot_t b' ->
     haveSameActiveTargets (snapshotAt b) (snapshotAt b') =
     (rs_backendCount (snapshotAt b) =? rs_backendCount (snapshotAt b')) &&
     (memcmp (field snapshot_t "backends" b) (field snapshot_t "backends" b') =? 0)) /\
  (forall left right b b', object dsrBackend_t b -> object dsrBackend_t b' ->
     rt_backend left = dsrBackendAt b -> rt_backend right = dsrBackendAt b' ->
     sameRuntimeTarget left right =
     bool_decide (rt_id left = rt_id right) && (memcmp b b' =? 0) &&
     (rt_probeAddress left =? rt_probeAddress right) && (rt_probePort left =? rt_probePort right)) /\
  dsrBackendAt (replicate 16 0) = emptyDsrBackend /\ snapshotAt (replicate 1048 0) = emptySnapshot.
Proof.
  split_and!; [by vm_compute|repeat constructor; by vm_compute|..];
    eauto using xdpConfig_bytes, xdpBackend_bytes, dsrConfig_bytes, dsrBackend_bytes, snapshot_bytes,
      haveSameActiveTargets_bytes, sameRuntimeTarget_bytes; by vm_compute.
Qed.

(** Two snapshots that differ in one byte of a backend. *)
Definition sampleBytes (last : Z) : list Z :=
  [3; 0; 0; 0; 1; 0; 0; 0; 7; 0; 0; 0; 0; 0; 0; 0; 10; 0; 0; 1; 0; 53; 0; 0] ++
  [2; 0; 0; 0; 2; 0; 0; 0; 0; 1; 2; 0; 0; 0; 0; last] ++ replicate 1008 0.

Lemma memcmp_compares_values_witness :
  object snapshot_t (sampleBytes 1) /\ object snapshot_t (sampleBytes 2) /\
  memcmp (sampleBytes 1) (sampleBytes 2) = -1 /\
  haveSameActiveTargets (snapshotAt (sampleBytes 1)) (snapshotAt (sampleBytes 2)) = false /\
  rs_vipAddress (snapshotAt (sampleBytes 1)) = 16777226.
Proof.
  assert (Ho : forall n, 0 <= n < 256 -> object snapshot_t (sampleBytes n)).
  { intros n Hn. split; [by vm_compute|]. unfold sampleBytes. rewrite !Forall_app. unfold is_byte.
    split_and!; [repeat constructor; lia..|by apply Forall_replicate]. }
  split_and!; [by apply Ho|by apply Ho|by vm_compute| |by vm_compute].
  destruct memcmp_compares_values as (_ & _ & _ & _ & _ & _ & _ & Hs & _).
  rewrite (Hs _ _ (Ho 1 ltac:(lia)) (Ho 2 ltac:(lia))). by vm_compute.
Defined.
