(* ===== verification/RuntimeServiceSafety.v ===== *)
(** * The control loop of the runtime mode: invariant and preservation

    What the attachment and the system promise, the two checkers that live side
    by side during a reload, the invariant of the loop and the lemmas that every
    part of a pass keeps it. *)
From S2P Require Import Prelude Os XdpSchema XdpProgram UdpProbe UdpProbeSafety UdpProbeTheorems.
From S2P Require Import ConfigSync RuntimeStore RuntimeConfig XdpAttachment RuntimeService.

(** ** Promises *)

(** [ra_active] is the snapshot the XDP program sees, [ra_attached] the
    attachment's record of its link; [ra_loaded] says that [ra_loadObject]
    returned; [ra_good] is what can be said of the attachment also after a
    failure; [ra_held] that a program was attached in the mode, whatever became
    of it. *)
Class RuntimeAttachmentLaws (A : Type) `{RuntimeAttachment A} := {
  ra_fresh : A -> Prop;
  ra_good : A -> Prop;
  ra_loaded : A -> Prop;
  ra_active : A -> option UdpRuntimeSnapshot;
  ra_attached : A -> bool;
  ra_held : XdpAttachMode -> A -> Prop;
  ral_fresh : forall a, ra_fresh a -> ra_good a /\ ra_attached a = false /\ ~ ra_loaded a;
  ral_good : forall a, ra_loaded a -> ra_good a;
  ral_load : forall object v a, ra_fresh a -> let '(o, a') := ra_loadObject object v a in
    o <> Diverge /\ ra_good a' /\ ra_attached a' = false /\
    match o with
    | Ret _ => ra_loaded a' /\ ra_active a' = Some v /\ publishable v /\ rs_generation v = 1
    | _ => ~ ra_loaded a'
    end;
  ral_attach : forall ingress mode a, ra_loaded a ->
    let '(o, a') := ra_attachProgram ingress mode a in
    o <> Diverge /\ ra_loaded a' /\ ra_active a' = ra_active a /\
    ra_attached a' = (if o is Ret _ then true else ra_attached a) /\
    (o = Ret tt -> ra_held mode a');
  ral_publish : forall v0 v a, ra_loaded a -> ra_active a = Some v0 ->
    let '(o, a') := ra_publishRuntime v a in
    o <> Diverge /\ ra_loaded a' /\ ra_attached a' = ra_attached a /\
    (forall mode, ra_held mode a -> ra_held mode a') /\
    match o with
    | Ret _ | Throw (RuntimePublishError _ true) =>
        ra_active a' = Some v /\ rs_generation v = rs_generation v0 + 1 /\ publishable v
    | _ => ra_active a' = Some v0
    end;
  ral_detach : forall a, ra_loaded a -> let '(o, a') := ra_detachProgram a in
    o <> Diverge /\ ra_loaded a' /\ ra_active a' = ra_active a /\
    ra_attached a' = (if o is Ret _ then false else ra_attached a) /\
    (forall mode, ra_held mode a -> ra_held mode a');
  ral_stats : forall a, ra_loaded a -> let '(o, a') := ra_readRuntimeStats a in
    o <> Diverge /\ ra_loaded a' /\ ra_active a' = ra_active a /\ ra_attached a' = ra_attached a /\
    (forall mode, ra_held mode a -> ra_held mode a')
}.

(** The clock does not go back; a reading is the time at which it was taken. *)
Class SystemLaws (Y : Type) `{RuntimeSystem Y} := {
  sl_now : forall y, let '(t, y') := sys_now y in sys_clock y <= t /\ t = sys_clock y';
  sl_absolute : forall path y, sys_clock y <= sys_clock (sys_absolute path y).2;
  sl_signalfd : forall y, sys_clock y <= sys_clock (sys_signalfd y).2;
  sl_close : forall fd y, sys_clock y <= sys_clock (sys_close fd y);
  sl_getfl : forall y, sys_clock y <= sys_clock (sys_getfl y).2;
  sl_setfl : forall flags y, sys_clock y <= sys_clock (sys_setfl flags y).2;
  sl_write : forall b y, sys_clock y <= sys_clock (sys_write b y).2;
  sl_sigtimedwait : forall y, sys_clock y <= sys_clock (sys_sigtimedwait y).2;
  sl_read_signal : forall fd y, sys_clock y <= sys_clock (sys_read_signal fd y).2;
  sl_poll_output : forall y, sys_clock y <= sys_clock (sys_poll_output y).2;
  sl_poll : forall fd events y, sys_clock y <= sys_clock (sys_poll fd events y).2
}.

(** ** Two checkers *)

Section checkers.
Context {P : Type} `{ProbeLaws P}.

Abbreviation handles l := (list_to_set (C := gset Z) (open_handles l)).

Lemma cancelProbes_log l (p : P) h : plog (cancelProbes l p).2 h = plog p h.
Proof.
  revert p. induction l as [|x l IH]; intros p; [done|]. cbn [cancelProbes]. unfold cancelProbe.
  destruct (0 <=? UdpProbe.handle x).
  - specialize (IH (closeProbeSocket (UdpProbe.handle x) p)).
    destruct (cancelProbes l _) as [l' p']. cbn in *. rewrite IH. apply pl_close.
  - specialize (IH p). by destruct (cancelProbes l p).
Qed.

(** A second checker on top of the first. *)
Lemma sockets_ok_app base l k (p0 p1 : P) :
  sockets_ok base l p0 -> sockets_ok (psockets p0) k p1 -> sockets_ok base (l ++ k) p1.
Proof.
  intros [N1 O1 D1] [N2 O2 D2]. rewrite O1 in O2, D2. split; rewrite open_handles_app.
  - apply NoDup_app. split_and!; [done|set_solver|done].
  - rewrite O2, list_to_set_app_L. set_solver.
  - rewrite list_to_set_app_L. set_solver.
Qed.

(** Either of the two may go. *)
Lemma sockets_ok_drop base l k (p : P) :
  sockets_ok base (l ++ k) p ->
  sockets_ok base l (cancelProbes k p).2 /\ sockets_ok base k (cancelProbes l p).2.
Proof.
  intros [N O D]. rewrite open_handles_app in N, O, D. rewrite list_to_set_app_L in O, D.
  apply NoDup_app in N as (N1 & N2 & N3). split.
  - destruct (cancelProbes_closes (base ∪ handles l) k p) as [Hc _].
    { split; [done|rewrite O; set_solver|set_solver]. }
    split; [done|done|set_solver].
  - destruct (cancelProbes_closes (base ∪ handles k) l p) as [Hc _].
    { split; [done|rewrite O; set_solver|set_solver]. }
    split; [done|done|set_solver].
Qed.

(** The traffic on the sockets of [base] is left alone. *)
Definition log_kept (base : gset Z) (g : Z -> list ProbeEvent) (p : P) : Prop :=
  base ⊆ psockets p /\ forall h, h ∈ base -> plog p h = g h.

Lemma prepareProbe_log previous t base g (s : UdpProbeChecker * P) :
  log_kept base g s.2 -> wp (prepareProbe previous t) (fun _ s' => log_kept base g s'.2) s.
Proof.
  intros [Hs Hg]. unfold prepareProbe. wp_step. wp_step.
  destruct (importSnapshot t previous) as [x|e|]; [|done|done].
  wp_step. wp_step. wp_step. wp_step. cbn [fst snd].
  pose proof (pl_open t s.2) as Ho. destruct (openProbeSocket t s.2) as [[h|e|] p1]; cbn [fst snd]; [| |done].
  2: { destruct Ho as [Hp Hl]. split; [by rewrite Hp|]. intros h Hh. rewrite Hl; [by apply Hg|set_solver]. }
  assert (log_kept base g p1).
  { destruct (Z.leb_spec 0 h); [destruct Ho as (Hn & Hp & _ & Hl)|destruct Ho as [Hp Hl]];
      (split; [set_solver|]); intros h' Hh'; (rewrite Hl; [by apply Hg|set_solver]). }
  wp_step. wp_step. destruct (h <? 0); done.
Qed.

Lemma newUdpProbeChecker_log targets previous (p : P) :
  wp (newUdpProbeChecker targets previous) (fun o p' =>
    (forall c, o = Ret c -> psockets p ⊆ psockets p') /\
    forall h, h ∈ psockets p -> plog p' h = plog p h) p.
Proof.
  unfold newUdpProbeChecker. destruct (64 <? len targets); [done|]. destruct (negb _); [done|].
  unfold wp, orCancel, mcatch.
  assert (Hk : wp (mfor targets (prepareProbe previous))
    (fun _ s' => log_kept (psockets p) (plog p) s'.2) (emptyChecker, p)).
  { apply (wp_for _ _ (fun s' => log_kept (psockets p) (plog p) s'.2)); [done| |done].
    intros t s' _ Hs'. eapply wp_mono; [by apply prepareProbe_log|]. intros [] s'' Hl; done. }
  unfold wp in Hk. destruct (mfor _ _ (emptyChecker, p)) as [[[]|e|] [c p']]; cbn [fst snd] in *.
  - destruct Hk. split; [by intros ? [= <-]|done].
  - unfold cancelAllProbes.
    pose proof (cancelProbes_log (probes_ c) p') as Hl. destruct (cancelProbes (probes_ c) p') as [l p2].
    cbn [fst snd] in *. split; [by intros ? [=]|]. intros h Hh. rewrite Hl. by apply Hk.
  - destruct Hk. split; [by intros ? [=]|done].
Qed.

Lemma destroyUdpProbeChecker_eq c (p : P) : destroyUdpProbeChecker c p = (cancelProbes (probes_ c) p).2.
Proof. unfold destroyUdpProbeChecker, cancelAllProbes. by destruct (cancelProbes (probes_ c) p). Qed.

Lemma destroy_sockets base c (p : P) :
  sockets_ok base (probes_ c) p -> psockets (destroyUdpProbeChecker c p) = base.
Proof. intros Hs. rewrite destroyUdpProbeChecker_eq. by apply cancelProbes_closes. Qed.

Lemma destroyed_sockets base (c : UdpProbeChecker) (p : P) :
  sockets_ok base (probes_ c) p -> sockets_ok base (probes_ emptyChecker) (destroyUdpProbeChecker c p).
Proof.
  intros Hs. apply destroy_sockets in Hs. split; cbn; [constructor|rewrite Hs; set_solver|set_solver].
Qed.

(** The live checker of the loop, with the sockets of [base] open besides. *)
Definition live (base : gset Z) (c : UdpProbeChecker) (p : P) : Prop :=
  exists imports, checker_ok imports base ((c, []), p).

Lemma live_sockets base c p : live base c p -> sockets_ok base (probes_ c) p.
Proof. intros [imports Hc]. apply Hc. Qed.

(** A checker whose sockets and traffic survived. *)
Lemma checker_kept imports base base' c p p' :
  checker_ok imports base ((c, []), p) -> sockets_ok base' (probes_ c) p' ->
  (forall h, h ∈ psockets p -> plog p' h = plog p h) ->
  checker_ok imports base' ((c, []), p').
Proof.
  intros [Hp Hs Hi Hc] Hs' Hl. split; [|done|done|done]. cbn [fst snd] in *.
  apply Forall2_same_length_lookup. split; [by eapply Forall2_length|].
  intros i s0 x Hs0 Hx. pose proof (Forall2_lookup_lr _ _ _ _ _ _ Hp Hs0 Hx) as Hok.
  eapply probe_ok_quiet; [exact Hok|]. apply Hl. rewrite (so_open _ _ _ Hs).
  apply elem_of_union_r, elem_of_list_to_set, list_elem_of_filter.
  split; [apply (po_handle _ _ _ Hok)|]. apply list_elem_of_fmap. exists x. split; [done|].
  by eapply list_elem_of_lookup_2.
Qed.

(** During a reload: the live checker and a candidate. *)
Record side_by_side (base : gset Z) (c k : UdpProbeChecker) (p : P) : Prop := {
  ss_keep : live base c (destroyUdpProbeChecker k p);
  ss_switch : live base k (destroyUdpProbeChecker c p);
  ss_both : sockets_ok base (probes_ c ++ probes_ k) p
}.

Lemma newUdpProbeChecker_beside base c targets previous (p : P) :
  live base c p ->
  match newUdpProbeChecker targets previous p with
  | (Ret k, p') => side_by_side base c k p' /\ target <$> copyProbeSnapshots k = targets
  | (Throw _, p') => live base c p'
  | (Diverge, _) => False
  end.
Proof.
  intros [imports Hc]. pose proof (newUdpProbeChecker_spec targets previous p) as Hn.
  pose proof (newUdpProbeChecker_log targets previous p) as Hl. unfold wp in Hl.
  destruct (newUdpProbeChecker targets previous p) as [[k|e|] p']; cbn [fst snd] in Hl; [| |done].
  - destruct Hn as (Hk & Ht & _). destruct Hl as [_ Hl]. split; [|done].
    pose proof (co_sockets _ _ _ Hc) as Hs. pose proof (co_sockets _ _ _ Hk) as Hks. cbn [fst snd] in Hs, Hks.
    pose proof (sockets_ok_app _ _ _ _ _ Hs Hks) as Hboth.
    destruct (sockets_ok_drop _ _ _ _ Hboth) as [Hd1 Hd2]. split; [| |done].
    + exists imports. rewrite destroyUdpProbeChecker_eq. eapply checker_kept; [done|done|].
      intros h Hh. rewrite cancelProbes_log. by apply Hl.
    + exists (snapshot <$> probes_ k). rewrite destroyUdpProbeChecker_eq.
      eapply checker_kept; [done|done|]. intros h _. apply cancelProbes_log.
  - exists imports. destruct Hl as [_ Hl]. eapply checker_kept; [done| |done].
    destruct (co_sockets _ _ _ Hc) as [S1 S2 S3]. split; [done|by rewrite Hn|done].
Qed.

(** A poll keeps the targets and the sockets. *)
Lemma pollProbeTransitions_live t base c (p : P) :
  live base c p ->
  match pollProbeTransitions t (c, p) with
  | (Ret _, (c', p')) => live base c' p' /\
      target <$> copyProbeSnapshots c' = target <$> copyProbeSnapshots c
  | (Throw _, (c', p')) => sockets_ok base (probes_ c') p'
  | (Diverge, _) => False
  end.
Proof.
  intros [imports Hc]. pose proof (pollProbeTransitions_body t imports base (c, p) Hc) as Hb.
  pose proof (pollBody_polled t imports base _ Hc) as [(_ & _ & Hm & Hr) _]. unfold pollRun in *.
  destruct (pollProbeTransitions t (c, p)) as [[ts|e|] [c' p']]; cbn [fst snd] in Hb; [| |done].
  - destruct Hb as [Ho Hb]. specialize (Hr tt Ho). rewrite Hb in Hr, Hm. split.
    + exists imports. by destruct Hr.
    + destruct Hm as [Hlen (new & _ & Hm)]. cbn [fst snd] in *. unfold copyProbeSnapshots.
      rewrite <-!list_fmap_compose. apply list_eq_same_length with (length (probes_ c'));
        [by rewrite !length_fmap|by rewrite !length_fmap|].
      intros i x y _ Hx Hy. rewrite list_lookup_fmap in Hx, Hy.
      destruct (probes_ c !! i) as [q|] eqn:Hq; [|done]. destruct (Hm i q Hq) as (q' & Hq' & Ht & _).
      rewrite Hq' in Hx. cbn in Hx, Hy. congruence.
  - destruct Hb as [Hs Hf]. assert (He : open_handles (probes_ c') = []).
    { unfold open_handles. apply list_filter_none. apply Forall_fmap. eapply Forall_impl; [exact Hf|].
      intros x [Hx _]. cbn. lia. }
    split; rewrite He; [constructor|rewrite Hs; set_solver|set_solver].
Qed.
End checkers.

(** ** Parts that only use the system *)

Section loop.
#[local] Set Default Proof Using "Type*".
Context {A P F Y : Type} `{RuntimeAttachmentLaws A} `{ProbeLaws P}.
Context `{FileContent F} `{!UninterruptedReads F} `{InterfaceLaws F} `{AddressParser} `{SystemLaws Y}.

Abbreviation WA := (World A P F Y).
Abbreviation service := (M (Control * WA)).
Abbreviation state := (Control * WA)%type.
Abbreviation clock s := (sys_clock (w_system (snd s))).

(** The variables that the invariant does not look at. *)
Record same_core (s s' : state) : Prop := {
  sc_configuration : configuration s'.1 = configuration s.1;
  sc_checker : checker s'.1 = checker s.1;
  sc_applied : applied s'.1 = applied s.1;
  sc_probes : w_probes s'.2 = w_probes s.2
}.

Record quiet (s s' : state) : Prop := {
  qu_core : same_core s s';
  qu_next : nextPublish s'.1 = nextPublish s.1;
  qu_attachment : w_attachment s'.2 = w_attachment s.2;
  qu_requests : w_requests s'.2 = w_requests s.2;
  qu_clock : clock s <= clock s'
}.

Lemma same_core_trans s s' s'' : same_core s s' -> same_core s' s'' -> same_core s s''.
Proof. intros [] []. split; congruence. Qed.

Lemma unseen_refl s : quiet s s.
Proof. by split. Qed.

Lemma unseen_trans s s' s'' : quiet s s' -> quiet s' s'' -> quiet s s''.
Proof. intros [] []. split; [by eapply same_core_trans|congruence..|lia]. Qed.

(** The computation ends and changes nothing but the output queue, the signal
    state and the system. *)
Definition quietly {X} (m : service X) : Prop :=
  forall s, wp m (fun o s' => o <> Diverge /\ quiet s s') s.

Lemma quietly_ret {X} (x : X) : quietly (mret x).
Proof. intros s. split; [done|apply unseen_refl]. Qed.
Lemma quietly_throw {X} e : quietly (X := X) (mthrow e).
Proof. intros s. split; [done|apply unseen_refl]. Qed.
Lemma quietly_own {X} (f : Control -> X) : quietly (own f).
Proof. intros s. split; [done|apply unseen_refl]. Qed.
Lemma quietly_world : quietly world.
Proof. intros s. split; [done|apply unseen_refl]. Qed.

Lemma quietly_bind {X Z'} (m : service X) (f : X -> service Z') :
  quietly m -> (forall x, quietly (f x)) -> quietly (mbind m f).
Proof.
  intros Hm Hf s. apply wp_bind. eapply wp_mono; [apply Hm|]. intros [x|e|] s' [Hd Hq]; [|done|done].
  eapply wp_mono; [apply Hf|]. intros o s'' [Hd' Hq']. split; [done|by eapply unseen_trans].
Qed.

Lemma quietly_system {X} (op : Y -> X * Y) : (forall y, sys_clock y <= sys_clock (op y).2) -> quietly (system op).
Proof.
  intros Hop s. unfold wp, system, outside, onSystem, mworld. specialize (Hop (w_system s.2)).
  destruct (op (w_system s.2)) as [x y]. cbn. split; [done|]. by split.
Qed.

Lemma quietly_pending f : quietly (update (fun c => set_pendingOutput (f c) c)).
Proof. intros s. split; [done|]. by split. Qed.
Lemma quietly_signal f : quietly (update (fun c => set_signalState (f c) c)).
Proof. intros s. split; [done|]. by split. Qed.
Lemma quietly_attempt b1 b2 : quietly (update (set_attempt b1 b2)).
Proof. intros s. split; [done|]. by split. Qed.

Lemma quietly_for {X} (l : list X) (m : X -> service unit) : (forall x, quietly (m x)) -> quietly (mfor l m).
Proof.
  intros Hm. induction l as [|x l IH]; [apply quietly_ret|]. apply quietly_bind; [apply Hm|done].
Qed.

Ltac quiet_step :=
  lazymatch goal with
  | |- quietly (mret _) => apply quietly_ret
  | |- quietly (mthrow _) => apply quietly_throw
  | |- quietly (own _) => apply quietly_own
  | |- quietly world => apply quietly_world
  | |- quietly (mbind _ _) => apply quietly_bind; [|intros ?]
  | |- quietly (system sys_now) => apply quietly_system; intros y; pose proof (sl_now y); destruct (sys_now y); cbn; lia
  | |- quietly (system _) => apply quietly_system; intros ?; eauto using sl_write, sl_sigtimedwait,
      sl_read_signal, sl_poll_output, sl_poll, sl_getfl, sl_setfl, sl_signalfd
  | |- quietly (update (fun c => set_pendingOutput _ c)) => apply (quietly_pending (fun c => _))
  | |- quietly (if ?b then _ else _) => destruct b
  | |- quietly (match ?x with _ => _ end) => destruct x
  end.

Lemma quietly_now : quietly now.
Proof. unfold now. repeat quiet_step. Qed.

Lemma quietly_flush n : quietly (flushAttempts n).
Proof. induction n as [|n IH]; cbn [flushAttempts]; repeat quiet_step; done. Qed.
Lemma quietly_append line : quietly (appendOutputLine line).
Proof. unfold appendOutputLine. repeat quiet_step. apply quietly_flush. Qed.

Lemma quietly_note_stop signal : quietly (noteStop signal).
Proof. unfold noteStop. apply (quietly_signal (fun c => mkSignalState _ _ _)). Qed.
Lemma quietly_note_reload : quietly noteReload.
Proof. unfold noteReload. apply (quietly_signal (fun c => mkSignalState _ _ _)). Qed.

Lemma quietly_readSignals n fd : quietly (readSignals n fd).
Proof.
  induction n as [|n IH]; cbn [readSignals]; repeat quiet_step;
    first [done|apply quietly_note_stop|apply quietly_note_reload].
Qed.

Lemma quietly_consume fd : quietly (consumeRuntimeSignals fd).
Proof.
  unfold consumeRuntimeSignals. repeat quiet_step; [apply quietly_note_stop|apply quietly_readSignals].
Qed.

Lemma quietly_wait fd : quietly (waitForRuntimeSignalsOrOutput fd).
Proof. unfold waitForRuntimeSignalsOrOutput. repeat quiet_step. Qed.

Lemma quietly_report reason : quietly (reportFailedPublish reason).
Proof. unfold reportFailedPublish. repeat quiet_step. apply quietly_append. Qed.
Lemma quietly_rejected e : quietly (reportRejectedReload e).
Proof. unfold reportRejectedReload. repeat quiet_step. apply quietly_append. Qed.

(** A reading of the clock lies between the states. *)
Lemma wp_now (Q : outcome Z -> state -> Prop) s :
  (forall t s', quiet s s' -> clock s <= t /\ t = clock s' -> Q (Ret t) s') -> wp now Q s.
Proof.
  intros HQ. unfold wp, now, system, outside, onSystem, mworld.
  pose proof (sl_now (w_system s.2)) as Hn. destruct (sys_now (w_system s.2)) as [t y]. cbn.
  apply HQ; [|done]. split; [by split|done..|cbn; lia].
Qed.

(** ** The invariant *)

(** The times [l], each at least a second after the one before it and the first
    not before [lo]; from [hi] on there may be another one. *)
Fixpoint spaced (lo : Z) (l : list Z) (hi : Z) : Prop :=
  match l with
  | [] => hi = lo
  | u :: l' => lo <= u /\ spaced (u + seconds 1) l' hi
  end.

Lemma spaced_snoc lo l hi u :
  spaced lo l hi -> hi <= u -> spaced lo (l ++ [u]) (u + seconds 1).
Proof.
  revert lo. induction l as [|x l IH]; intros lo; cbn [app spaced]; [intros -> ?; done|].
  intros [Hx Hl] Hu. split; [done|]. by apply IH.
Qed.

(** A state of the loop: the time, the requests so far, when the next one is
    due, the snapshot the program sees, and the mode of the attachment; the
    control loop was set going at [si_start]. *)
Record Since := mkSince {
  si_start : Z;
  si_time : Z;
  si_requests : list Z;
  si_next : Z;
  si_snapshot : UdpRuntimeSnapshot;
  si_mode : XdpAttachMode
}.

(** Since [i], snapshots were requested at times at least a second apart, and
    the program sees [v]: the first snapshot, or a requested one. *)
Definition requested (i : Since) (v : UdpRuntimeSnapshot) (due : Z) (requests : list Z) (t : Z) : Prop :=
  exists l, requests = si_requests i ++ l /\ spaced (si_next i) l due /\
    Forall (fun u => si_time i <= u <= t) l /\
    rs_generation v <= rs_generation (si_snapshot i) + len l /\ (l = [] -> v = si_snapshot i).

(** The XDP program sees [v], which is valid; its generation counts the
    publications, of which there were no more than seconds passed since the start;
    the next one is not due before [due]. *)
Record attached_at (i : Since) (v : UdpRuntimeSnapshot) (due : Z) (s : state) : Prop := {
  ao_loaded : ra_loaded (w_attachment s.2);
  ao_held : ra_held (si_mode i) (w_attachment s.2);
  ao_active : ra_active (w_attachment s.2) = Some v;
  ao_attached : ra_attached (w_attachment s.2) = true;
  ao_valid : publishable v;
  ao_generation : 1 <= rs_generation v;
  ao_rate : si_start i + seconds 1 * rs_generation v <= due;
  ao_requests : requested i v due (w_requests s.2) (clock s);
  ao_time : si_time i <= clock s
}.
Record attached_ok (i : Since) (v : UdpRuntimeSnapshot) (s : state) : Prop := {
  ao_at : attached_at i v (nextPublish s.1) s;
  ao_next : nextPublish s.1 <= clock s + seconds 1
}.

(** Only these parts of the state matter. *)
Lemma attached_same i v s s' :
  attached_ok i v s -> w_attachment s'.2 = w_attachment s.2 -> w_requests s'.2 = w_requests s.2 ->
  w_system s'.2 = w_system s.2 -> nextPublish s'.1 = nextPublish s.1 -> attached_ok i v s'.
Proof.
  intros [[A1 A2 A3 A4 A5 A6 A7 A8 A9] A10] E1 E2 E3 E4.
  split; [split|]; rewrite ?E1, ?E2, ?E3, ?E4; done.
Qed.

Record turn_ok (base : gset Z) (t0 : Since) (s : state) : Prop := {
  to_attached : attached_ok t0 (applied s.1) s;
  to_configuration : runtime_configuration_ok (configuration s.1);
  to_targets : target <$> copyProbeSnapshots (checker s.1) = buildProbeTargets (configuration s.1);
  to_live : live base (checker s.1) (w_probes s.2)
}.

(** What is left when an exception leaves the loop. *)
Record fail_ok (base : gset Z) (t0 : Since) (s : state) : Prop := {
  fo_attached : exists v, attached_ok t0 v s;
  fo_sockets : sockets_ok base (probes_ (checker s.1)) (w_probes s.2)
}.

Lemma turn_fails base t0 s : turn_ok base t0 s -> fail_ok base t0 s.
Proof. intros [Ha _ _ Hl]. split; [eauto|by eapply live_sockets]. Qed.

Lemma attached_quiet t0 v s s' : attached_ok t0 v s -> quiet s s' -> attached_ok t0 v s'.
Proof.
  intros [[A1 A2 A3 A4 A5 A6 A7 (l & L1 & L2 & L3 & L4) A8] A9] [_ Q1 Q2 Q3 Q4].
  split; [|rewrite Q1; lia]. split; rewrite ?Q2, ?Q1; try done; [|lia].
  exists l. rewrite Q3. split; [done|]. split; [done|]. split; [|done].
  eapply Forall_impl; [exact L3|]. cbn beta. lia.
Qed.

Lemma turn_quiet base t0 s s' : turn_ok base t0 s -> quiet s s' -> turn_ok base t0 s'.
Proof.
  intros [T1 T2 T3 T4] Hq. pose proof (attached_quiet _ _ _ _ T1 Hq) as Ha.
  destruct Hq as [[C1 C2 C3 C4] _ _ _ _]. split; rewrite ?C1, ?C2, ?C3, ?C4; done.
Qed.

(** How a part of the loop ends. *)
Definition turn_post (base : gset Z) (t0 : Since) {X} (o : outcome X) (s : state) : Prop :=
  match o with
  | Ret _ => turn_ok base t0 s
  | Throw _ => fail_ok base t0 s
  | Diverge => False
  end.

(** How the body of a [try] block ends: only an exception that says it is
    committed may leave a snapshot the loop does not know. *)
Definition try_post (base : gset Z) (t0 : Since) {X} (o : outcome X) (s : state) : Prop :=
  match o with
  | Ret _ => turn_ok base t0 s
  | Throw (RuntimePublishError _ true) => fail_ok base t0 s
  | Throw _ => turn_ok base t0 s
  | Diverge => False
  end.

Lemma turn_try base t0 {X} (o : outcome X) s :
  o <> Diverge -> turn_ok base t0 s -> try_post base t0 o s.
Proof.
  intros Hd Ht. pose proof (turn_fails _ _ _ Ht). destruct o as [x|e|]; [done| |done].
  by destruct e as [| | | | | | | | | |? []].
Qed.

Lemma turn_turn base t0 {X} (o : outcome X) s :
  o <> Diverge -> turn_ok base t0 s -> turn_post base t0 o s.
Proof. intros Hd Ht. pose proof (turn_fails _ _ _ Ht). by destruct o. Qed.

(** Sequencing after a quiet part. *)
Lemma wp_quietly {X Z'} base t0 (m : service X) (f : X -> service Z') (Q : outcome Z' -> state -> Prop) s :
  quietly m -> turn_ok base t0 s ->
  (forall e s', turn_ok base t0 s' -> Q (Throw e) s') ->
  (forall x s', quiet s s' -> turn_ok base t0 s' -> wp (f x) Q s') ->
  wp (mbind m f) Q s.
Proof.
  intros Hm Ht HQ Hf. apply wp_bind. eapply wp_mono; [apply Hm|]. intros o s' [Hd Hq].
  pose proof (turn_quiet _ _ _ _ Ht Hq) as Ht'. destruct o as [x|e|]; [by apply Hf|by apply HQ|done].
Qed.

Lemma wp_quietly_last {X} base t0 (m : service X) s :
  quietly m -> turn_ok base t0 s -> wp m (fun o s' => o <> Diverge /\ turn_ok base t0 s') s.
Proof.
  intros Hm Ht. eapply wp_mono; [apply Hm|]. intros o s' [Hd Hq]. split; [done|by eapply turn_quiet].
Qed.
(** ** Publication *)

(** The next request was put off by a second, but this one is still to come. *)
Definition scheduled (i : Since) (v : UdpRuntimeSnapshot) (s : state) : Prop :=
  exists due, attached_at i v due s /\ due <= clock s /\ nextPublish s.1 = clock s + seconds 1.

Lemma wp_schedule i v s (Q : outcome unit -> state -> Prop) t :
  attached_ok i v s -> nextPublish s.1 <= t -> t = clock s ->
  (forall s', same_core s s' -> scheduled i v s' -> Q (Ret tt) s') ->
  wp (update (set_nextPublish (t + seconds 1))) Q s.
Proof.
  intros [Ha _] Hdue Ht HQ. apply wp_update. apply HQ; [by split|]. exists (nextPublish s.1).
  cbn [fst snd nextPublish set_nextPublish]. split; [by destruct Ha; split|]. by rewrite <-Ht.
Qed.

(** The request is noted, and the program sees the old snapshot or the new one. *)
Lemma requested_again i v0 v due requests t :
  requested i v0 due requests t -> due <= t -> si_time i <= t ->
  v = v0 \/ rs_generation v = rs_generation v0 + 1 ->
  requested i v (t + seconds 1) (requests ++ [t]) t.
Proof.
  intros (l & -> & L2 & L3 & L4 & _) Hdue Ht Hv. exists (l ++ [t]). rewrite (assoc_L (++)).
  split; [done|]. split; [by apply (spaced_snoc _ _ due)|].
  split; [apply Forall_app; split; [done|]; by constructor|].
  split; [|intros E; by apply app_nil in E as [_ ?]].
  unfold len in *. rewrite length_app. cbn [length]. destruct Hv as [->|Hv]; lia.
Qed.

Lemma wp_publish i v0 v s :
  scheduled i v0 s ->
  wp (outside (requestPublication v)) (fun o s' => same_core s s' /\
    match o with
    | Ret _ | Throw (RuntimePublishError _ true) => attached_ok i v s'
    | Throw _ => attached_ok i v0 s'
    | Diverge => False
    end) s.
Proof.
  intros (due & [A1 A2 A3 A4 A5 A6 A7 A8 A9] & Hdue & Hnext).
  unfold wp, outside, requestPublication, onAttachment.
  cbn [w_attachment w_probes w_files w_system w_requests].
  pose proof (ral_publish v0 v (w_attachment s.2) A1 A3) as Hp.
  destruct (ra_publishRuntime v (w_attachment s.2)) as [o a]. destruct Hp as (Hd & Hl & Ha & Hheld & Hcase).
  cbn [fst snd]. split; [by split|]. set (s' := (s.1, _)).
  assert (Hafter : forall v', ra_active a = Some v' -> publishable v' ->
    v' = v0 \/ rs_generation v' = rs_generation v0 + 1 -> attached_ok i v' s').
  { intros v' E V G. subst s'. split; cbn [fst snd w_attachment w_system w_requests]; [|lia]. rewrite Hnext.
    split; cbn [fst snd w_attachment w_system w_requests]; try done; try congruence; [by apply Hheld|..].
    - destruct G as [->|G]; lia.
    - unfold seconds in *. destruct G as [->|G]; lia.
    - by apply (requested_again i v0 v' due). }
  assert (Hnew : ra_active a = Some v /\ rs_generation v = rs_generation v0 + 1 /\ publishable v -> attached_ok i v s')
    by (intros (E & G & V); auto).
  destruct o as [x|e|]; [by apply Hnew| |done]. destruct e as [| | | | | | | | | |what []]; auto.
Qed.

Lemma turn_core base t0 s s' :
  turn_ok base t0 s -> same_core s s' -> attached_ok t0 (applied s.1) s' -> turn_ok base t0 s'.
Proof. intros [T1 T2 T3 T4] [C1 C2 C3 C4] Ha. split; rewrite ?C1, ?C2, ?C3, ?C4; done. Qed.

Lemma fail_core base t0 s s' v :
  turn_ok base t0 s -> same_core s s' -> attached_ok t0 v s' -> fail_ok base t0 s'.
Proof.
  intros [T1 T2 T3 T4] [C1 C2 C3 C4] Ha. split; [by exists v|]. rewrite C2, C4. by eapply live_sockets.
Qed.

Lemma wp_publishSnapshotOfHealth base t0 v s0 s :
  turn_ok base t0 s0 -> same_core s0 s -> scheduled t0 (applied s0.1) s ->
  wp (publishSnapshotOfHealth v) (try_post base t0) s.
Proof.
  intros Ht Hc0 Hsch. unfold publishSnapshotOfHealth. apply wp_bind.
  eapply wp_mono; [by apply wp_publish|]. intros o s1 [Hc1 Ha].
  pose proof (same_core_trans _ _ _ Hc0 Hc1) as Hc. destruct o as [[]|e|]; [| |done].
  - apply wp_bind, wp_update, wp_bind, wp_update. cbn [fst snd].
    set (s2 := (_, _)). assert (Ht2 : turn_ok base t0 s2).
    { destruct Ht as [_ T2 T3 T4], Hc as [C1 C2 C3 C4], Ha as [[] ?].
      split; subst s2; cbn; rewrite ?C1, ?C2, ?C4; try done. }
    eapply wp_mono; [apply wp_quietly_last; [apply quietly_append|exact Ht2]|].
    intros o s3 [Hd Ht3]. by apply turn_try.
  - destruct e as [| | | | | | | | | |what []]; cbn; try (by eapply turn_core). by eapply fail_core.
Qed.

Lemma wp_publishHandler base t0 e s :
  match e with RuntimePublishError _ true => fail_ok base t0 s | _ => turn_ok base t0 s end ->
  wp (publishHandler e) (turn_post base t0) s.
Proof.
  intros He. assert (Hreport : turn_ok base t0 s -> wp (reportFailedPublish (bs "health")) (turn_post base t0) s).
  { intros Ht. eapply wp_mono; [apply wp_quietly_last; [apply quietly_report|done]|].
    intros o s' [Hd Ht']. by apply turn_turn. }
  destruct e as [| | | | | | | | | |what []]; cbn [publishHandler];
    try (apply wp_throw; first [done|by apply turn_fails]);
    try (apply wp_bind, wp_own; destruct (committed s.1); [apply wp_throw; by apply turn_fails|by apply Hreport]).
  by apply Hreport.
Qed.

Lemma wp_publishChangedHealthySnapshot base t0 fd s :
  turn_ok base t0 s -> wp (publishChangedHealthySnapshot fd) (turn_post base t0) s.
Proof.
  intros Ht. unfold publishChangedHealthySnapshot. apply wp_bind, wp_now. intros t s1 Hq1 Htime.
  pose proof (turn_quiet _ _ _ _ Ht Hq1) as Ht1. apply wp_bind, wp_own.
  destruct (Z.ltb_spec t (nextPublish s1.1)) as [|Hdue]; [by apply wp_ret|].
  apply wp_bind, wp_outcome. destruct (nextRuntimeGeneration _) eqn:Hg; [|by apply turn_fails|].
  2: { unfold nextRuntimeGeneration in Hg. by destruct (_ =? _). }
  apply wp_bind, wp_outcome. destruct (buildRuntimeSnapshot _ _ _) as [v|e|] eqn:Hb; [|by apply turn_fails|].
  2: { unfold buildRuntimeSnapshot in Hb. by destruct (_ <? _). }
  destruct (haveSameActiveTargets v _); [by apply wp_ret|].
  eapply (wp_quietly base t0); [apply quietly_consume|done|intros e s' Ht'; by apply turn_fails|].
  intros [] s2 Hq2 Ht2. apply wp_bind, wp_own. destruct (stop (signalState s2.1)); [by apply wp_ret|].
  apply wp_bind, wp_now. intros t3 s3 Hq3 Htime3. pose proof (turn_quiet _ _ _ _ Ht2 Hq3) as Ht3.
  apply wp_bind. apply (wp_schedule t0 (applied s3.1)); [apply Ht3| |lia|].
  { rewrite (qu_next _ _ Hq3), (qu_next _ _ Hq2). pose proof (qu_clock _ _ Hq2).
    pose proof (qu_clock _ _ Hq1). lia. }
  intros s4 Hc4 Hs4. apply wp_bind, wp_update. cbn [fst snd]. set (s5 := (_, _)).
  assert (Hc5 : same_core s3 s5) by (destruct Hc4; by split).
  assert (Hs5 : scheduled t0 (applied s3.1) s5) by (destruct Hs4 as (due & [] & ? & ?); exists due; by split).
  apply wp_bind, wp_catch. eapply wp_mono; [by apply (wp_publishSnapshotOfHealth base t0 v s3)|].
  intros [[]|e|] s6 Ho; [by apply wp_ret| |done].
  eapply wp_mono; [apply (wp_publishHandler base t0); by destruct e as [| | | | | | | | | |what []]|].
  intros [[]|e'|] s7 Hs7; [by apply wp_ret|done|done].
Qed.

(** ** Reloading *)

(** While the candidate [k] lives. *)
Record candidate_ok (base : gset Z) (t0 : Since) (k : UdpProbeChecker) (s : state) : Prop := {
  ca_attached : attached_ok t0 (applied s.1) s;
  ca_configuration : runtime_configuration_ok (configuration s.1);
  ca_targets : target <$> copyProbeSnapshots (checker s.1) = buildProbeTargets (configuration s.1);
  ca_sockets : side_by_side base (checker s.1) k (w_probes s.2)
}.

Lemma candidate_core base t0 k s s' :
  candidate_ok base t0 k s -> same_core s s' -> attached_ok t0 (applied s.1) s' -> candidate_ok base t0 k s'.
Proof. intros [T1 T2 T3 T4] [C1 C2 C3 C4] Ha. split; rewrite ?C1, ?C2, ?C3, ?C4; done. Qed.

(** How the publication of a candidate ends. *)
Definition offered (t0 : Since) (o : outcome (option UdpRuntimeSnapshot)) (s : state) : Prop :=
  match o with
  | Ret (Some v) => attached_ok t0 v s
  | Throw (RuntimePublishError _ true) => exists v, attached_ok t0 v s
  | Ret None | Throw _ => attached_ok t0 (applied s.1) s
  | Diverge => False
  end.

Lemma offered_throw t0 e s :
  attached_ok t0 (applied s.1) s -> offered t0 (Throw e) s.
Proof. intros Ha. destruct e as [| | | | | | | | | |what []]; try done. by eexists. Qed.

Lemma attached_core t0 s s' :
  attached_ok t0 (applied s.1) s -> quiet s s' -> attached_ok t0 (applied s'.1) s'.
Proof. intros Ha Hq. rewrite (sc_applied _ _ (qu_core _ _ Hq)). by eapply attached_quiet. Qed.

Lemma wp_publishCandidateConfiguration t0 fd conf k s :
  attached_ok t0 (applied s.1) s -> nextPublish s.1 <= clock s ->
  wp (publishCandidateConfiguration fd conf k) (fun o s' => same_core s s' /\ offered t0 o s') s.
Proof.
  intros Ha Hdue. assert (Hrefl : same_core s s) by done. unfold publishCandidateConfiguration.
  apply wp_bind, wp_own, wp_bind, wp_outcome.
  destruct (nextRuntimeGeneration _) eqn:Hg; [|split; [done|by apply offered_throw]|].
  2: { unfold nextRuntimeGeneration in Hg. by destruct (_ =? _). }
  apply wp_bind, wp_outcome.
  destruct (buildRuntimeSnapshot _ _ _) as [v|e|] eqn:Hb; [|split; [done|by apply offered_throw]|].
  2: { unfold buildRuntimeSnapshot in Hb. by destruct (_ <? _). }
  apply wp_bind. eapply wp_mono; [apply quietly_consume|]. intros o s1 [Hd1 Hq1].
  pose proof (attached_core _ _ _ Ha Hq1) as Ha1. pose proof (qu_core _ _ Hq1) as Hc1.
  destruct o as [[]|e|]; [|split; [done|by apply offered_throw]|done].
  apply wp_bind, wp_own. destruct (stop (signalState s1.1)); [by apply wp_ret|].
  apply wp_bind, wp_now. intros t2 s2 Hq2 Htime.
  pose proof (attached_core _ _ _ Ha1 Hq2) as Ha2. pose proof (same_core_trans _ _ _ Hc1 (qu_core _ _ Hq2)) as Hc2.
  apply wp_bind. apply (wp_schedule t0 (applied s2.1)); [done| |lia|].
  { rewrite (qu_next _ _ Hq2), (qu_next _ _ Hq1). pose proof (qu_clock _ _ Hq1). lia. }
  intros s3 Hc3 Hs3. pose proof (same_core_trans _ _ _ Hc2 Hc3) as Hc.
  apply wp_bind, wp_update. cbn [fst snd]. set (s4 := (_, _)).
  assert (Hc4 : same_core s s4) by (destruct Hc; by split).
  assert (Hs4 : scheduled t0 (applied s2.1) s4) by (destruct Hs3 as (due & [] & ? & ?); exists due; by split).
  apply wp_bind. eapply wp_mono; [by apply wp_publish|].
  intros [[]|e|] s5 [Hc5 Ha5]; [| |done].
  - apply wp_bind, wp_update, wp_ret. cbn [fst snd]. split; [|by eapply attached_same].
    destruct (same_core_trans _ _ _ Hc4 Hc5). by split.
  - split; [by eapply same_core_trans|].
    assert (applied s5.1 = applied s2.1) as E by (rewrite (sc_applied _ _ Hc5); apply (sc_applied _ _ Hc3)).
    destruct e as [| | | | | | | | | |what []]; cbn [offered]; rewrite ?E; try done. by eexists.
Qed.
Lemma wp_files {X} (m : M F X) (Q : outcome X -> state -> Prop) s :
  wp m (fun o _ => forall s', quiet s s' -> Q o s') (w_files s.2) -> wp (outside (onFiles m)) Q s.
Proof.
  unfold wp, outside, onFiles. destruct (m (w_files s.2)) as [o f]. intros HQ. apply HQ.
  split; [by split|done..|cbn; lia].
Qed.

Lemma wp_destroyChecker c (Q : outcome unit -> state -> Prop) s :
  Q (Ret tt) (s.1, mkWorld (w_attachment s.2) (destroyUdpProbeChecker c (w_probes s.2))
                     (w_files s.2) (w_system s.2) (w_requests s.2)) -> wp (destroyChecker c) Q s.
Proof. done. Qed.

(** The candidate is published and takes over. *)
Lemma switch_ok base t0 conf k v s :
  candidate_ok base t0 k s -> runtime_configuration_ok conf ->
  target <$> copyProbeSnapshots k = buildProbeTargets conf ->
  forall s', same_core s s' -> attached_ok t0 v s' ->
  turn_ok base t0 (set_checker k (set_configuration conf (set_applied v s'.1)),
    mkWorld (w_attachment s'.2) (destroyUdpProbeChecker (checker s'.1) (w_probes s'.2))
      (w_files s'.2) (w_system s'.2) (w_requests s'.2)).
Proof.
  intros [_ _ _ T4] Hconf Htg s' [C1 C2 C3 C4] Ha. split; cbn; try done.
  - by eapply attached_same.
  - rewrite C2, C4. apply T4.
Qed.

(** The candidate is dropped. *)
Lemma drop_ok base t0 k s :
  candidate_ok base t0 k s -> forall s', same_core s s' -> forall v, attached_ok t0 v s' ->
  let s'' := (s'.1, mkWorld (w_attachment s'.2) (destroyUdpProbeChecker k (w_probes s'.2))
                      (w_files s'.2) (w_system s'.2) (w_requests s'.2)) in
  fail_ok base t0 s'' /\ (v = applied s'.1 -> turn_ok base t0 s'').
Proof.
  intros [_ T2 T3 T4] s' [C1 C2 C3 C4] v Ha s''.
  assert (Hl : live base (checker s'.1) (destroyUdpProbeChecker k (w_probes s'.2)))
    by (rewrite C2, C4; apply T4).
  assert (Ha'' : attached_ok t0 v s'') by (by eapply attached_same).
  split; [split; [by exists v|by eapply live_sockets]|].
  intros ->. split; cbn; rewrite ?C1, ?C2; try done. by rewrite C2 in Hl.
Qed.

Lemma wp_reloadConfiguration base t0 path ingress vip fd s :
  turn_ok base t0 s -> nextPublish s.1 <= clock s ->
  wp (reloadConfiguration readFuel path ingress vip fd) (try_post base t0) s.
Proof using All.
  intros Ht Hdue. unfold reloadConfiguration. apply wp_bind, wp_files.
  eapply wp_mono; [apply wp_loadRuntimeConfig|]. intros o f Ho s1 Hq1.
  pose proof (turn_quiet _ _ _ _ Ht Hq1) as Ht1. destruct o as [conf|e|]; [|by apply turn_try|done].
  destruct Ho as [Hconf _]. apply wp_bind, wp_own.
  destruct (sameRuntimeConfig _ _).
  { apply (wp_quietly base t0); [apply quietly_append|done| |].
    - intros e s2 Ht2. by apply turn_try.
    - intros [] s2 _ Ht2. by apply wp_ret. }
  apply wp_bind. unfold wp at 1, outside, onProbes.
  pose proof (newUdpProbeChecker_beside base (checker s1.1) (buildProbeTargets conf)
    (copyProbeSnapshots (checker s1.1)) (w_probes s1.2) (to_live _ _ _ Ht1)) as Hnew.
  destruct (newUdpProbeChecker _ _ _) as [[k|e|] p]; cbn [fst snd]; [| |done].
  2: { apply turn_try; [done|]. destruct Ht1 as [T1 T2 T3 _]. split; [by eapply attached_same|done..]. }
  destruct Hnew as [Hside Htg]. set (s2 := (s1.1, _)).
  assert (Hcand : candidate_ok base t0 k s2) by (destruct Ht1; split; [by eapply attached_same|done..]).
  assert (Hdue2 : nextPublish s2.1 <= clock s2).
  { subst s2. cbn. rewrite (qu_next _ _ Hq1). pose proof (qu_clock _ _ Hq1). lia. }
  apply wp_bind. unfold orDestroyCandidate. apply wp_catch.
  eapply wp_mono; [apply (wp_publishCandidateConfiguration t0); [apply Hcand|done]|].
  intros [[v|]|e|] s3 [Hc3 Ho3]; [| | |done].
  - apply wp_bind, wp_update, wp_bind, wp_update, wp_bind, wp_own, wp_bind, wp_update, wp_bind, wp_destroyChecker.
    pose proof (switch_ok base t0 conf k v s2 Hcand Hconf Htg s3 Hc3 Ho3) as Ht4.
    cbn [fst snd checker set_configuration set_applied]. set (s4 := (_, _)) in *.
    apply (wp_quietly base t0); [apply quietly_append|exact Ht4|intros e s' Ht'; by apply turn_try|].
    intros [] s5 _ Ht5.
    apply (wp_quietly base t0); [apply quietly_append|exact Ht5|intros e s' Ht'; by apply turn_try|].
    intros [] s6 _ Ht6. by apply wp_ret.
  - apply wp_bind, wp_destroyChecker, wp_ret.
    apply (drop_ok base t0 k s2 Hcand s3 Hc3 (applied s3.1)); done.
  - apply wp_bind, wp_effect, wp_throw. cbn [offered] in Ho3.
    destruct e as [| | | | | | | | | |what []]; cbn [try_post];
      try (apply (drop_ok base t0 k s2 Hcand s3 Hc3 (applied s3.1)); done).
    destruct Ho3 as [v Hv]. apply (drop_ok base t0 k s2 Hcand s3 Hc3 v Hv).
Qed.

Lemma wp_reloadHandler base t0 e s :
  match e with RuntimePublishError _ true => fail_ok base t0 s | _ => turn_ok base t0 s end ->
  wp (reloadHandler e) (turn_post base t0) s.
Proof.
  intros He.
  assert (Hreject : forall s', turn_ok base t0 s' ->
    wp (reportRejectedReload e ;;; mret true) (turn_post base t0) s').
  { intros s' Ht. apply (wp_quietly base t0); [apply quietly_rejected|done| |].
    - intros e' s2 Ht2. by apply turn_turn.
    - intros [] s2 _ Ht2. by apply wp_ret. }
  assert (Hreport : turn_ok base t0 s ->
    wp (reportFailedPublish (bs "reload") ;;; reportRejectedReload e ;;; mret true) (turn_post base t0) s).
  { intros Ht. apply (wp_quietly base t0); [apply quietly_report|done| |].
    - intros e' s2 Ht2. by apply turn_turn.
    - intros [] s2 _ Ht2. by apply Hreject. }
  destruct e as [| | | | | | | | | |what []]; cbn [reloadHandler];
    try (apply wp_throw; first [done|by apply turn_fails]);
    try (apply wp_bind, wp_own; destruct (committed s.1); [apply wp_throw; by apply turn_fails|];
         destruct (publishAttempted s.1); cbn [mwhen]; [by apply Hreport|apply wp_bind, wp_ret; by apply Hreject]).
  by apply Hreport.
Qed.
Lemma wp_reloadWhenDue base t0 path ingress vip fd t s :
  turn_ok base t0 s -> t <= clock s ->
  wp (reloadWhenDue readFuel path ingress vip fd t) (turn_post base t0) s.
Proof using All.
  intros Ht Htime. unfold reloadWhenDue. apply wp_bind, wp_own.
  destruct (_ && _) eqn:Hdue; [|by apply wp_ret]. bool_to_prop.
  apply wp_bind, wp_update, wp_bind, wp_update. cbn [fst snd]. set (s1 := (_, _)).
  assert (Ht1 : turn_ok base t0 s1) by (destruct Ht; split; [by eapply attached_same|done..]).
  assert (Hdue1 : nextPublish s1.1 <= clock s1) by (subst s1; cbn; lia).
  apply wp_catch. eapply wp_mono; [by apply wp_reloadConfiguration|].
  intros [x|e|] s2 Hs2; [done| |done]. apply wp_reloadHandler.
  by destruct e as [| | | | | | | | | |what []].
Qed.

(** ** The passes *)

Lemma wp_pollChecker base t0 t s :
  turn_ok base t0 s -> wp (pollChecker t) (turn_post base t0) s.
Proof.
  intros [T1 T2 T3 T4]. unfold pollChecker. apply wp_zoom. unfold wp. cbn [fst snd].
  pose proof (pollProbeTransitions_live t base (checker s.1) (w_probes s.2) T4) as Hp.
  destruct (pollProbeTransitions t (checker s.1, w_probes s.2)) as [[ts|e|] [c p]]; cbn [fst snd]; [| |done].
  - destruct Hp as [Hl Htg]. split; cbn; [by eapply attached_same|done|congruence|done].
  - split; cbn; [|done]. exists (applied s.1). by eapply attached_same.
Qed.

Lemma wp_controlTurn base t0 path ingress vip fd s :
  turn_ok base t0 s -> wp (controlTurn readFuel path ingress vip fd) (turn_post base t0) s.
Proof using All.
  intros Ht. unfold controlTurn.
  apply (wp_quietly base t0); [apply quietly_consume|done|intros e s1 Ht1; by apply turn_fails|].
  intros [] s1 _ Ht1. apply wp_bind, wp_own. destruct (stop _); [by apply wp_ret|].
  apply wp_bind, wp_now. intros t s2 Hq2 Htime. pose proof (turn_quiet _ _ _ _ Ht1 Hq2) as Ht2.
  assert (Htime2 : t <= clock s2) by lia. clear Htime.
  apply wp_bind. eapply wp_mono; [apply wp_conj; [by apply (wp_pollChecker base t0)|]|].
  { apply (wp_zoom _ _ _ (fun _ s' => w_system s'.2 = w_system s2.2)). unfold wp. cbn [fst snd].
    by destruct (pollProbeTransitions t (checker s2.1, w_probes s2.2)) as [? [? ?]]. }
  intros [ts|e|] s3 [Ht3 Hy3]; [|done|done].
  apply (wp_quietly base t0); [apply quietly_for; intros x; apply quietly_append|done|intros e s4 Ht4; by apply turn_fails|].
  intros [] s4 Hq4 Ht4.
  apply (wp_quietly base t0); [apply quietly_consume|done|intros e s5 Ht5; by apply turn_fails|].
  intros [] s5 Hq5 Ht5. apply wp_bind, wp_own. destruct (stop _); [by apply wp_ret|].
  apply wp_bind. eapply wp_mono; [apply wp_reloadWhenDue; [done|]|].
  { pose proof (qu_clock _ _ Hq4). pose proof (qu_clock _ _ Hq5). rewrite Hy3 in *. lia. }
  intros [[]|e|] s6 Ht6; [|by apply wp_ret|done|done]. cbn [negb].
  apply wp_bind. eapply wp_mono; [by apply wp_publishChangedHealthySnapshot|].
  intros [[]|e|] s7 Ht7; [|by apply wp_ret|done|done]. cbn [negb].
  apply (wp_quietly base t0); [apply quietly_flush|done|intros e s8 Ht8; by apply turn_fails|].
  intros [] s8 _ Ht8.
  apply (wp_quietly base t0); [apply quietly_wait|done|intros e s9 Ht9; by apply turn_fails|].
  intros [] s9 _ Ht9. by apply wp_ret.
Qed.

(** Exhausted turns are the loop going on. *)
Lemma wp_controlLoop base t0 turns path ingress vip fd s :
  turn_ok base t0 s ->
  wp (controlLoop turns readFuel path ingress vip fd) (fun o s' => match o with
    | Throw _ => fail_ok base t0 s'
    | _ => turn_ok base t0 s'
    end) s.
Proof using All.
  revert s. induction turns as [|turns IH]; intros s Ht; cbn [controlLoop]; apply wp_bind, wp_own.
  - by destruct (stop _).
  - destruct (stop _); [by apply wp_ret|]. apply wp_bind. eapply wp_mono; [by apply wp_controlTurn|].
    intros [[]|e|] s1 Ht1; [by apply IH|by apply wp_ret|done|done].
Qed.

(** ** After the loop *)

(** What can be said of the attachment in every state from the first
    publication on. *)
Definition seen_ok (t0 : Z) (a : A) (t : Z) : Prop :=
  forall v, ra_loaded a -> ra_active a = Some v ->
    publishable v /\ 1 <= rs_generation v /\ (rs_generation v - 1) * seconds 1 <= t - t0.

Record end_ok (base : gset Z) (i : Since) (s : state) : Prop := {
  eo_loaded : ra_loaded (w_attachment s.2);
  eo_held : ra_held (si_mode i) (w_attachment s.2);
  eo_seen : seen_ok (si_start i) (w_attachment s.2) (clock s);
  eo_requests : exists v due, ra_active (w_attachment s.2) = Some v /\
    requested i v due (w_requests s.2) (clock s);
  eo_sockets : sockets_ok base (probes_ (checker s.1)) (w_probes s.2)
}.

Lemma fail_end base t0 s : fail_ok base t0 s -> end_ok base t0 s.
Proof.
  intros [(v & [[A1 A2 A3 A4 A5 A6 A7 A8 A9] A10]) Hs]. split; [done|done| |by eexists _, _|done]. intros v' _ Hv'.
  assert (v' = v) as -> by congruence. split_and!; [done|done|]. unfold seconds in *. lia.
Qed.

Lemma requested_later i v due requests t t' :
  requested i v due requests t -> t <= t' -> requested i v due requests t'.
Proof.
  intros (l & L1 & L2 & L3 & L4) Ht. exists l. do 2 (split; [done|]). split; [|done].
  eapply Forall_impl; [exact L3|]. cbn beta. lia.
Qed.

Lemma end_quiet base t0 s s' : end_ok base t0 s -> quiet s s' -> end_ok base t0 s'.
Proof.
  intros [Hld Hh Hs (v0 & due & Hv0 & Hr) Hso] [[C1 C2 C3 C4] Q1 Q2 Q3 Q4].
  split; [by rewrite Q2|by rewrite Q2| | |by rewrite C2, C4].
  - intros v. rewrite Q2. intros Hl Ha. destruct (Hs v Hl Ha) as (? & ? & ?). split_and!; [done|done|lia].
  - exists v0, due. rewrite Q2, Q3. split; [done|]. by eapply requested_later.
Qed.

Lemma wp_end_quietly {X} base t0 (m : service X) s :
  quietly m -> end_ok base t0 s ->
  wp m (fun o s' => o <> Diverge /\ end_ok base t0 s' /\ w_attachment s'.2 = w_attachment s.2) s.
Proof.
  intros Hm He. eapply wp_mono; [apply Hm|]. intros o s' [Hd Hq]. split_and!; [done|by eapply end_quiet|].
  apply (qu_attachment _ _ Hq).
Qed.

Lemma wp_detach base t0 s :
  end_ok base t0 s ->
  wp (outside (onAttachment ra_detachProgram)) (fun o s' => end_ok base t0 s' /\ s'.1 = s.1 /\
    match o with
    | Ret _ => ra_attached (w_attachment s'.2) = false
    | Throw e => ra_detachProgram (w_attachment s.2) = (Throw e, w_attachment s'.2)
    | Diverge => False
    end) s.
Proof.
  intros [Hld Hh Hs (v0 & due & Hv0 & Hr) Hso]. unfold wp, outside, onAttachment.
  pose proof (ral_detach (w_attachment s.2) Hld) as Hd.
  destruct (ra_detachProgram (w_attachment s.2)) as [o a]. destruct Hd as (Hn & Hl & Ha & Hat & Hheld).
  cbn [fst snd]. split_and!; [|done|by destruct o].
  split; [done|by apply Hheld| | |done]; cbn [fst snd w_attachment w_system w_requests].
  - intros v Hv Hav. apply (Hs v); [done|by rewrite <-Ha].
  - exists v0, due. by rewrite Ha.
Qed.

(** Looking at the clock takes time, so the rounds until the deadline are
    bounded. *)
Definition drains (n : nat) : Prop :=
  (forall y : Y, sys_clock y < sys_clock (sys_now y).2) /\ seconds 1 < Z.of_nat n.

Lemma quiet_drainLoop n deadline s :
  wp (drainLoop n deadline) (fun o s' => quiet s s' /\
    ((forall y : Y, sys_clock y < sys_clock (sys_now y).2) ->
     Z.max 0 (deadline - clock s) < Z.of_nat n -> o <> Diverge)) s.
Proof.
  revert s. induction n as [|n IH]; intros s1; cbn [drainLoop]; apply wp_bind, wp_own;
    (case_bool_decide; [by split; [apply unseen_refl|]|]).
  { apply wp_diverge. split; [apply unseen_refl|]. intros _ Hn. lia. }
  apply wp_bind. eapply wp_mono; [apply quietly_flush|]. intros [[]|e|] s2 [Hd2 Hq2]; [|done|done].
  apply wp_bind, wp_own. case_bool_decide; [done|].
  apply wp_bind. unfold now, system, onSystem. unfold wp at 1, outside, mworld.
  pose proof (sl_now (w_system s2.2)) as Ht. destruct (sys_now (w_system s2.2)) as [t3 y3] eqn:Hnow.
  cbn [fst snd w_attachment w_probes w_files]. set (s3 := (s2.1, _)).
  assert (Hq3 : quiet s2 s3) by (split; [by split|done..|cbn; lia]).
  destruct (Z.leb_spec deadline t3); [split; [by eapply unseen_trans|done]|].
  apply wp_bind. eapply wp_mono; [apply quietly_system; intros y; apply sl_poll_output|].
  intros o4 s4 [Hd4 Hq4]. assert (Hq : quiet s1 s4) by (do 2 (eapply unseen_trans; [done|]); done).
  assert (Hnext : wp (drainLoop n deadline) (fun o s' => quiet s1 s' /\
    ((forall y : Y, sys_clock y < sys_clock (sys_now y).2) ->
     Z.max 0 (deadline - clock s1) < Z.of_nat (S n) -> o <> Diverge)) s4).
  { eapply wp_mono; [apply IH|]. intros o s5 [Hq5 Hd5]. split; [by eapply unseen_trans|].
    intros Htick Hn. apply Hd5; [done|]. pose proof (Htick (w_system s2.2)) as Hlt. rewrite Hnow in Hlt.
    pose proof (qu_clock _ _ Hq2). pose proof (qu_clock _ _ Hq4). cbn [fst snd w_system s3] in *. lia. }
  destruct o4 as [[[]|errno]|e|]; [exact Hnext| |by split|done].
  destruct (_ =? _); [exact Hnext|by split].
Qed.

Lemma quiet_drain n s :
  wp (drainOutputOnStop n) (fun o s' => quiet s s' /\ (drains n -> o <> Diverge)) s.
Proof.
  unfold drainOutputOnStop. apply wp_bind, wp_now. intros t s1 Hq1 Ht.
  eapply wp_mono; [apply quiet_drainLoop|]. intros o s2 [Hq2 Hd]. split; [by eapply unseen_trans|].
  intros [Htick Hn]. apply Hd; [done|]. unfold seconds in *. lia.
Qed.
End loop.
