(* ===== verification/RuntimeServiceTheorems.v ===== *)
(** * What the runtime mode guarantees

    A pass of the control loop keeps the published, the applied and the probed
    configuration in agreement and asks for publications a second apart; a whole
    run gives back what it took.  Both hold
    for every attachment that keeps the promises of the interface (see
    [AttachmentSafety]); a scripted host instantiates them. *)
From S2P Require Import Prelude Os XdpSchema XdpProgram UdpProbe UdpProbeSafety UdpProbeTheorems.
From S2P Require Import BpfKernel ConfigSync RuntimeStore RuntimeConfig XdpAttachment.
From S2P Require Import RuntimeService.
From S2P Require Import RuntimeServiceSafety.

Section run.
#[local] Set Default Proof Using "Type*".
Context {A P F Y : Type} `{RuntimeAttachmentLaws A} `{ProbeLaws P}.
Context `{FileContent F} `{!UninterruptedReads F} `{InterfaceLaws F} `{AddressParser} `{SystemLaws Y}.

(** The rounds in which the output is drained at the end. *)
Context (drain : nat).

Abbreviation WA := (World A P F Y).
Abbreviation service := (M (Control * WA)).
Abbreviation state := (Control * WA)%type.
Abbreviation clock s := (sys_clock (w_system (snd s))).

(** ** The phases of a run *)

(** The requests [l] of a run that began at [t0]. *)
Definition paced (t0 : Z) (l : list Z) (t : Z) : Prop :=
  Forall (fun u => t0 + seconds 1 <= u <= t) l /\
  forall k u u', l !! k = Some u -> l !! S k = Some u' -> u + seconds 1 <= u'.

Lemma spaced_from lo l hi u : spaced lo l hi -> u ∈ l -> lo <= u.
Proof.
  revert lo. induction l as [|x l IH]; intros lo; [by intros _ ?%not_elem_of_nil|].
  intros [Hx Hl] Hu. apply elem_of_cons in Hu as [->|Hu]; [done|]. specialize (IH _ Hl Hu).
  unfold seconds in *. lia.
Qed.
Lemma spaced_gaps lo l hi k u u' :
  spaced lo l hi -> l !! k = Some u -> l !! S k = Some u' -> u + seconds 1 <= u'.
Proof.
  revert lo k. induction l as [|x l IH]; intros lo k; [done|]. intros [Hx Hl].
  destruct k as [|k]; [|by eapply IH]. intros [= <-] Hu. eapply spaced_from; [exact Hl|].
  by eapply list_elem_of_lookup_2.
Qed.
Lemma spaced_paced t0 t1 t l hi :
  t0 <= t1 -> spaced (t1 + seconds 1) l hi -> Forall (fun u => t1 <= u <= t) l -> paced t0 l t.
Proof.
  intros Ht Hs Hl. split.
  - rewrite Forall_forall in Hl |- *. intros u Hu. pose proof (spaced_from _ _ _ _ Hs Hu). specialize (Hl u Hu). lia.
  - intros k u u'. by eapply spaced_gaps.
Qed.

Section origin.
(** The sockets that are open, the time and the requests before the run, and the
    mode it is to attach in. *)
Context (base : gset Z) (t0 : Z) (r0 : list Z) (mode : XdpAttachMode).

(** Attached, before the first pass. *)
Record started (s : state) : Prop := {
  sd_loaded : ra_loaded (w_attachment s.2);
  sd_held : ra_held mode (w_attachment s.2);
  sd_active : ra_active (w_attachment s.2) = Some (applied s.1);
  sd_attached : ra_attached (w_attachment s.2) = true;
  sd_valid : publishable (applied s.1);
  sd_generation : rs_generation (applied s.1) = 1;
  sd_clock : t0 <= clock s;
  sd_requests : w_requests s.2 = r0;
  sd_configuration : runtime_configuration_ok (configuration s.1);
  sd_targets : target <$> copyProbeSnapshots (checker s.1) = buildProbeTargets (configuration s.1);
  sd_live : live base (checker s.1) (w_probes s.2)
}.

Lemma started_quiet s s' : started s -> quiet s s' -> started s'.
Proof.
  intros [S1 S2 S3 S4 S5 S6 S7 S8 S9 S10 S11] [[C1 C2 C3 C4] Q1 Q2 Q3 Q4].
  split; rewrite ?C1, ?C2, ?C3, ?C4, ?Q2, ?Q3; try done. lia.
Qed.

(** The control loop is set going at [t]. *)
Definition loop_start (t : Z) (v : UdpRuntimeSnapshot) : Since :=
  mkSince t0 t r0 (t + seconds 1) v mode.

(** After the start of the loop, or what would have been. *)
Definition run_end (s : state) : Prop :=
  exists t v, t0 <= t /\ rs_generation v = 1 /\ end_ok base (loop_start t v) s.

Lemma run_end_quiet s s' : run_end s -> quiet s s' -> run_end s'.
Proof. intros (t & v & Ht & Hv & He) Hq. exists t, v. do 2 (split; [done|]). by eapply end_quiet. Qed.

Lemma requested_nothing t v : requested (loop_start t v) v (t + seconds 1) r0 t.
Proof. exists []. cbn. rewrite app_nil_r. do 3 (split; [done|]). split; [unfold len; cbn [length]; lia|done]. Qed.

Lemma started_end s : started s -> run_end s.
Proof.
  intros [S1 S2 S3 S4 S5 S6 S7 S8 S9 S10 S11]. exists (clock s), (applied s.1). do 2 (split; [done|]).
  split; [done|done| | |by eapply live_sockets].
  - intros v _ Hv. assert (v = applied s.1) as -> by congruence. rewrite S6. split_and!; [done|done|].
    unfold seconds. cbn [loop_start si_start]. lia.
  - exists (applied s.1), (clock s + seconds 1). split; [done|]. rewrite S8. apply requested_nothing.
Qed.

Lemma started_turn s t :
  started s -> t0 <= t -> t = clock s ->
  turn_ok base (loop_start t (applied s.1)) (set_nextPublish (t + seconds 1) s.1, s.2).
Proof.
  intros [S1 S2 S3 S4 S5 S6 S7 S8 S9 S10 S11] Ht ->.
  split; cbn [fst snd applied configuration checker set_nextPublish]; try done.
  split; cbn [fst snd nextPublish set_nextPublish]; [|lia]. split; try done.
  - rewrite S6. done.
  - rewrite S6. cbn [loop_start si_start]. unfold seconds. lia.
  - cbn [fst snd]. rewrite S8. apply requested_nothing.
Qed.

(** Ended: the attachment is detached if the run returns. *)
Definition phase_post {X} (o : outcome X) (s : state) : Prop :=
  run_end s /\ (forall x, o = Ret x -> ra_attached (w_attachment s.2) = false) /\
  (o = Diverge -> drains (Y := Y) drain -> ra_attached (w_attachment s.2) = true).

Lemma phase_throw {X} e s : run_end s -> phase_post (@Throw X e) s.
Proof. intros He. split; [done|]. split; [by intros ? [=]|done]. Qed.

Lemma wp_run_quietly {X} (m : service X) s :
  quietly m -> run_end s ->
  wp m (fun o s' => o <> Diverge /\ run_end s' /\ w_attachment s'.2 = w_attachment s.2) s.
Proof.
  intros Hm (t & v & Ht & Hv & He). eapply wp_mono; [by apply (wp_end_quietly base _ m s Hm He)|].
  intros o s' (Hd & He' & Ha). split; [done|]. split; [|done]. by exists t, v.
Qed.
Lemma wp_run_detach s :
  run_end s ->
  wp (outside (onAttachment ra_detachProgram)) (fun o s' => run_end s' /\ s'.1 = s.1 /\
    match o with
    | Ret _ => ra_attached (w_attachment s'.2) = false
    | Throw e => ra_detachProgram (w_attachment s.2) = (Throw e, w_attachment s'.2)
    | Diverge => False
    end) s.
Proof.
  intros (t & v & Ht & Hv & He). eapply wp_mono; [by apply (wp_detach base _ s He)|].
  intros o s' (He' & Hs & Ho). split; [|done]. by exists t, v.
Qed.

Lemma wp_phase_quietly {X Z'} (m : service X) (f : X -> service Z') s :
  quietly m -> run_end s -> ra_attached (w_attachment s.2) = false ->
  (forall x s', run_end s' -> ra_attached (w_attachment s'.2) = false ->
     wp (f x) phase_post s') ->
  wp (mbind m f) phase_post s.
Proof.
  intros Hm He Hat Hf. apply wp_bind. eapply wp_mono; [by apply wp_run_quietly|].
  intros [x|e|] s' (Hd & He' & Ha); [apply Hf; [done|congruence]|by apply phase_throw|done].
Qed.

(** From the detachment to the end. *)
Definition detachedPhase (ingress : bytes) : service Z :=
  last <- own checker ;;
  update (set_checker emptyChecker) ;;;
  destroyChecker last ;;;
  stats <- outside (onAttachment ra_readRuntimeStats) ;;
  appendOutputLine (formatRuntimeStatisticsLine stats) ;;;
  id <- programIdText ;;
  appendOutputLine (bs "DETACHED" ++ formatLink ingress mode id) ;;;
  drainOutputOnStop drain ;;;
  state <- own signalState ;;
  mret (if brokenPipe state then 1 else 0).

Lemma quietly_programId : quietly (A := A) (P := P) (F := F) (Y := Y) programIdText.
Proof. unfold programIdText. apply quietly_bind; [apply quietly_world|intros w; apply quietly_ret]. Qed.

Lemma wp_detachedPhase ingress s :
  run_end s -> ra_attached (w_attachment s.2) = false ->
  wp (detachedPhase ingress) phase_post s.
Proof.
  intros (t & v & Ht & Hv & [Hld Hh Hseen (v1 & due & Hv1 & Hr) Hs]) Hat. unfold detachedPhase.
  apply wp_bind, wp_own, wp_bind, wp_update, wp_bind, wp_destroyChecker.
  apply wp_bind. unfold wp at 1, outside, onAttachment. cbn [fst snd w_attachment].
  pose proof (ral_stats (w_attachment s.2) Hld) as Hst.
  destruct (ra_readRuntimeStats (w_attachment s.2)) as [o a]. destruct Hst as (Hd & Hl & Ha & Hat1 & Hheld).
  cbn [fst snd w_probes w_files w_system w_requests]. set (s1 := (_, mkWorld a _ _ _ _)).
  assert (He1 : run_end s1).
  { exists t, v. do 2 (split; [done|]). split; [done|by apply Hheld| | |by apply destroyed_sockets].
    - intros v' Hl' Hav. apply (Hseen v'); [done|by rewrite <-Ha].
    - exists v1, due. split; [by etrans|done]. }
  assert (Hat1' : ra_attached (w_attachment s1.2) = false) by (cbn; congruence).
  destruct o as [stats|e|]; [|by apply phase_throw|done].
  apply wp_phase_quietly; [apply quietly_append|done|done|]. intros [] s2 He2 Hat2.
  apply wp_phase_quietly; [apply quietly_programId|done|done|]. intros id s3 He3 Hat3.
  apply wp_phase_quietly; [apply quietly_append|done|done|]. intros [] s4 He4 Hat4.
  apply wp_bind. eapply wp_mono; [apply quiet_drain|]. intros o s5 [Hq5 Hd5].
  assert (He5 : run_end s5) by by eapply run_end_quiet.
  destruct o as [[]|e|]; [|by apply phase_throw|].
  2: { split; [done|]. split; [by intros ? [=]|]. intros _ Hdr. destruct (Hd5 Hdr eq_refl). }
  apply wp_bind, wp_own, wp_ret. split; [done|]. split; [|done]. intros _ _. by rewrite (qu_attachment _ _ Hq5).
Qed.

Lemma wp_attachedPhase turns path ingress vip fd s :
  started s ->
  wp (attachedPhase turns readFuel drain path ingress vip mode fd) phase_post s.
Proof using All.
  intros Hst. unfold attachedPhase.
  apply wp_bind. eapply wp_mono; [apply quietly_programId|]. intros o s1 [Hd1 Hq1].
  pose proof (started_quiet _ _ Hst Hq1) as Hst1. pose proof (started_end _ Hst1) as He1.
  destruct o as [id|e|]; [|by apply phase_throw|done]. apply wp_bind, wp_own.
  apply wp_bind. eapply wp_mono; [apply quietly_append|]. intros o s2 [Hd2 Hq2].
  pose proof (started_quiet _ _ Hst1 Hq2) as Hst2. pose proof (started_end _ Hst2) as He2.
  destruct o as [[]|e|]; [|by apply phase_throw|done].
  apply wp_bind, wp_now. intros t s3 Hq3 Htime.
  pose proof (started_quiet _ _ Hst2 Hq3) as Hst3.
  apply wp_bind, wp_update. pose proof (sd_clock _ Hst2) as Hc2.
  assert (Ht0 : t0 <= t) by lia. pose proof (started_turn s3 t Hst3 Ht0 ltac:(lia)) as Ht.
  apply wp_bind. eapply wp_mono; [apply (wp_controlLoop base); exact Ht|]. intros o s4 Hs4.
  assert (He4 : run_end s4).
  { exists t, (applied s3.1). split; [done|]. split; [apply (sd_generation _ Hst3)|].
    destruct o; apply fail_end; [by apply turn_fails|done|by apply turn_fails]. }
  destruct o as [[]|e|]; [|by apply phase_throw|].
  2: { split; [done|]. split; [by intros ? [=]|]. intros _ _. apply Hs4. }
  apply wp_bind. eapply wp_mono; [by apply wp_run_detach|]. intros o s5 (He5 & _ & Ho5).
  destruct o as [[]|e|]; [|by apply phase_throw|done].
  by apply wp_detachedPhase.
Qed.

(** What the run has left of its requests: they came at least a second after
    the start and after one another, and the generation that the program sees
    counts the first snapshot and some of them. *)
Definition requests_left (a : A) (requests : list Z) (t : Z) : Prop :=
  exists l, requests = r0 ++ l /\ paced t0 l t /\
    forall v, ra_loaded a -> ra_active a = Some v -> rs_generation v <= 1 + len l.

(** How a run ends: the sockets of the live checker and those of [base] are
    open, and an exception has detached the attachment or could not. *)
Record back_ok (s : state) : Prop := {
  bo_good : ra_good (w_attachment s.2);
  bo_seen : seen_ok t0 (w_attachment s.2) (clock s);
  bo_requests : requests_left (w_attachment s.2) (w_requests s.2) (clock s);
  bo_sockets : sockets_ok base (probes_ (checker s.1)) (w_probes s.2)
}.

Lemma end_back s : run_end s -> back_ok s.
Proof.
  intros (t & v & Ht & Hv & [Hl Hh Hs (v1 & due & Hv1 & (l & L1 & L2 & L3 & L4 & _)) Hso]).
  cbn [loop_start si_start si_requests si_next si_time si_snapshot] in *.
  split; [by apply ral_good|done| |done]. exists l. split; [done|]. split; [by eapply spaced_paced|].
  intros v' _ Hv'. assert (v' = v1) as -> by congruence. lia.
Qed.

Definition given_back {X} (o : outcome X) (s : state) : Prop :=
  back_ok s /\
  match o with
  | Ret _ => ra_attached (w_attachment s.2) = false /\ ra_held mode (w_attachment s.2)
  | Throw _ => ra_attached (w_attachment s.2) = false \/
      exists a e, ra_detachProgram a = (Throw e, w_attachment s.2)
  | Diverge => drains (Y := Y) drain -> ra_attached (w_attachment s.2) = true
  end.

Lemma wp_detachOnFailure (m : service Z) s :
  wp m phase_post s -> wp (detachOnFailure m) given_back s.
Proof.
  intros Hm. unfold detachOnFailure. apply wp_catch. eapply wp_mono; [exact Hm|].
  intros [x|e|] s1 (He & Hat & Hd1).
  { split; [by apply end_back|]. split; [by eapply Hat|]. destruct He as (t & v & _ & _ & He). apply He. }
  2: { split; [by apply end_back|]. exact (Hd1 eq_refl). }
  apply wp_bind, wp_catch. eapply wp_mono; [by apply wp_run_detach|].
  intros [[]|e'|] s2 (He2 & _ & Ho2); [| |done].
  - apply wp_throw. split; [by apply end_back|by left].
  - apply wp_ret, wp_throw. split; [by apply end_back|]. right. by eexists _, e'.
Qed.

(** The destructors of the output and of the signal descriptor. *)
Lemma given_back_system {X} (o : outcome X) s y :
  given_back o s -> clock s <= sys_clock y ->
  given_back o (s.1, mkWorld (w_attachment s.2) (w_probes s.2) (w_files s.2) y (w_requests s.2)).
Proof.
  intros [[Hg Hseen (l & L1 & [L2 L3] & L4) Hs] Ho] Hy. split; [|done].
  split; [done| | |done]; cbn [fst snd w_attachment w_system w_requests].
  - intros v Hl Ha. destruct (Hseen v Hl Ha) as (? & ? & ?). split_and!; [done|done|lia].
  - exists l. split; [done|]. split; [split; [|done]|done]. eapply Forall_impl; [exact L2|]. cbn beta. lia.
Qed.

(** Before the attachment is loaded. *)
Record prepared (s : state) : Prop := {
  pr_fresh : ra_fresh (w_attachment s.2);
  pr_clock : t0 <= clock s;
  pr_requests : w_requests s.2 = r0;
  pr_configuration : runtime_configuration_ok (configuration s.1);
  pr_targets : target <$> copyProbeSnapshots (checker s.1) = buildProbeTargets (configuration s.1);
  pr_live : live base (checker s.1) (w_probes s.2)
}.

Lemma prepared_quiet s s' : prepared s -> quiet s s' -> prepared s'.
Proof.
  intros [S1 S4 SR S5 S6 S7] [[C1 C2 C3 C4] Q1 Q2 Q3 Q4].
  split; rewrite ?C1, ?C2, ?C4, ?Q2, ?Q3; try done. lia.
Qed.

Lemma unloaded_back {X} e s :
  ra_good (w_attachment s.2) -> ~ ra_loaded (w_attachment s.2) ->
  ra_attached (w_attachment s.2) = false -> w_requests s.2 = r0 ->
  live base (checker s.1) (w_probes s.2) -> given_back (@Throw X e) s.
Proof.
  intros Hg Hn Hat Hr Hl. split; [|by left]. split; [done|done| |by eapply live_sockets].
  exists []. rewrite app_nil_r. split; [done|]. split; [by split|]. intros v Hld. by destruct (Hn Hld).
Qed.

Lemma prepared_back {X} e s : prepared s -> given_back (@Throw X e) s.
Proof. intros [S1 S4 SR S5 S6 S7]. destruct (ral_fresh _ S1) as (? & ? & ?). by apply unloaded_back. Qed.

(** Loading and attaching. *)
Lemma wp_linkedPhase object ingress (m : service Z) s :
  prepared s ->
  (forall s', started s' -> wp m given_back s') ->
  wp (outside (onAttachment (ra_loadObject object (applied s.1))) ;;;
      outside (onAttachment (ra_attachProgram ingress mode)) ;;; m) given_back s.
Proof.
  intros [S1 S4 SR S5 S6 S7] Hm. apply wp_bind. unfold wp at 1, outside, onAttachment.
  pose proof (ral_load object (applied s.1) (w_attachment s.2) S1) as Hl.
  destruct (ra_loadObject object (applied s.1) (w_attachment s.2)) as [o a1].
  destruct Hl as (Hd1 & Hg1 & Hat1 & Hl). cbn [fst snd].
  destruct o as [[]|e|]; [|by apply unloaded_back|done].
  destruct Hl as (Hl1 & Ha1 & Hv & Hg). apply wp_bind. unfold wp at 1, outside, onAttachment. cbn [fst snd w_attachment].
  pose proof (ral_attach ingress mode a1 Hl1) as Ht. destruct (ra_attachProgram ingress mode a1) as [o a2].
  destruct Ht as (Hd2 & Hl2 & Ha2 & Hat2 & Hh2). cbn [fst snd w_probes w_files w_system w_requests].
  destruct o as [[]|e|]; [| |done].
  - apply Hm. split; cbn; try done; [by apply Hh2|congruence].
  - split; [|left; cbn; congruence].
    split; [by apply ral_good| | |by eapply live_sockets]; cbn [fst snd w_attachment w_system w_requests].
    + intros v _ Hact. assert (v = applied s.1) as -> by congruence. rewrite Hg. split_and!; [done|done|].
      unfold seconds. lia.
    + exists []. rewrite app_nil_r. split; [done|]. split; [by split|]. intros v _ Hact.
      assert (v = applied s.1) as -> by congruence. by rewrite Hg.
Qed.

Lemma wp_withOutput (m : service Z) s :
  prepared s -> (forall s', quiet s s' -> prepared s' -> wp m given_back s') ->
  wp (withOutput m) given_back s.
Proof.
  intros Hp Hm. unfold withOutput. apply wp_bind.
  eapply wp_mono; [apply quietly_system; intros y; apply sl_getfl|]. intros o s1 [Hd1 Hq1].
  pose proof (prepared_quiet _ _ Hp Hq1) as Hp1. destruct o as [[flags|errno]|e|]; [| | |done];
    [|by apply wp_throw, prepared_back|by apply prepared_back].
  apply wp_bind. eapply wp_mono; [apply quietly_system; intros y; apply sl_setfl|]. intros o s2 [Hd2 Hq2].
  pose proof (prepared_quiet _ _ Hp1 Hq2) as Hp2. destruct o as [[[]|errno]|e|]; [| | |done];
    [|by apply wp_throw, prepared_back|by apply prepared_back].
  apply wp_finally. eapply wp_mono; [apply Hm; [by eapply unseen_trans|done]|].
  intros o s3 Hs3. apply given_back_system; [done|apply sl_setfl].
Qed.

Lemma wp_checkedPhase turns object path ingress vip s :
  prepared s ->
  wp (checkedPhase turns readFuel drain object path ingress vip mode) given_back s.
Proof using All.
  intros Hp. unfold checkedPhase. apply wp_bind, wp_own, wp_bind, wp_outcome.
  destruct (buildRuntimeSnapshot _ _ _) as [v|e|] eqn:Hb; [|by apply prepared_back|].
  2: { unfold buildRuntimeSnapshot in Hb. by destruct (_ <? _). }
  apply wp_bind, wp_update. cbn [fst snd]. set (s1 := (_, _)).
  assert (Hp1 : prepared s1) by (destruct Hp; by split).
  unfold withSignalFd. apply wp_bind.
  eapply wp_mono; [apply quietly_system; intros y; apply sl_signalfd|]. intros o s2 [Hd2 Hq2].
  pose proof (prepared_quiet _ _ Hp1 Hq2) as Hp2. destruct o as [[fd|errno]|e|]; [| | |done];
    [|by apply wp_throw, prepared_back|by apply prepared_back].
  apply wp_finally. eapply wp_mono; [apply wp_withOutput; [done|]|].
  - intros s3 Hq3 Hp3. assert (E : applied s3.1 = v).
    { rewrite (sc_applied _ _ (qu_core _ _ Hq3)). apply (sc_applied _ _ (qu_core _ _ Hq2)). }
    rewrite <-E. apply wp_linkedPhase; [done|]. intros s4 Hst. apply wp_detachOnFailure.
    by apply wp_attachedPhase.
  - intros o s3 Hs3. apply given_back_system; [done|apply sl_close].
Qed.
End origin.

Lemma wp_onSystem {X} (m : M Y X) (Q : outcome X -> WA -> Prop) w :
  wp m (fun o y => Q o (mkWorld (w_attachment w) (w_probes w) (w_files w) y (w_requests w))) (w_system w) ->
  wp (onSystem m) Q w.
Proof using Type. unfold wp, onSystem. by destruct (m (w_system w)). Qed.

Lemma wp_onFiles {X} (m : M F X) (Q : outcome X -> WA -> Prop) w :
  wp m (fun o f => Q o (mkWorld (w_attachment w) (w_probes w) f (w_system w) (w_requests w))) (w_files w) ->
  wp (onFiles m) Q w.
Proof using Type. unfold wp, onFiles. by destruct (m (w_files w)). Qed.

Lemma wp_onProbes {X} (m : M P X) (Q : outcome X -> WA -> Prop) w :
  wp m (fun o p => Q o (mkWorld (w_attachment w) p (w_files w) (w_system w) (w_requests w))) (w_probes w) ->
  wp (onProbes m) Q w.
Proof using Type. unfold wp, onProbes. by destruct (m (w_probes w)). Qed.

(** How the whole mode ends. *)
Definition mode_post (mode : XdpAttachMode) (w : WA) (o : outcome Z) (w' : WA) : Prop :=
  psockets (w_probes w') = psockets (w_probes w) /\ ra_good (w_attachment w') /\
  seen_ok (sys_clock (w_system w)) (w_attachment w') (sys_clock (w_system w')) /\
  requests_left (sys_clock (w_system w)) (w_requests w) (w_attachment w') (w_requests w')
    (sys_clock (w_system w')) /\
  match o with
  | Ret _ => ra_attached (w_attachment w') = false /\ ra_held mode (w_attachment w')
  | Throw _ => ra_attached (w_attachment w') = false \/
      exists a e, ra_detachProgram a = (Throw e, w_attachment w')
  | Diverge => drains (Y := Y) drain -> ra_attached (w_attachment w') = true
  end.

Lemma mode_unloaded mode (w w' : WA) e :
  ra_fresh (w_attachment w) -> w_attachment w' = w_attachment w -> w_requests w' = w_requests w ->
  psockets (w_probes w') = psockets (w_probes w) -> mode_post mode w (Throw e) w'.
Proof.
  intros Hfresh Ha Hr Hp. destruct (ral_fresh _ Hfresh) as (Hgood & Hat & Hunl). unfold mode_post. rewrite Ha, Hr.
  split; [done|]. split; [done|]. split; [by intros v Hl|]. split; [|by left].
  exists []. rewrite app_nil_r. split; [done|]. split; [by split|]. by intros v Hl.
Qed.

Lemma wp_runRuntimeDsrControlLoop turns object ingress vip path mode (w : WA) :
  ra_fresh (w_attachment w) ->
  wp (runRuntimeDsrControlLoop turns readFuel drain object ingress vip path mode) (mode_post mode w) w.
Proof using All.
  intros Hfresh. unfold runRuntimeDsrControlLoop. apply wp_bind, wp_onSystem. unfold orThrow. apply wp_bind, wp_world.
  pose proof (sl_absolute path (w_system w)) as Hclock.
  destruct (sys_absolute path (w_system w)) as [[absolute|errno] y]; cbn [fst snd] in Hclock |- *.
  2: { by apply wp_throw, mode_unloaded. }
  apply wp_ret, wp_bind, wp_onFiles. cbn [w_files w_attachment w_probes w_system w_requests].
  eapply wp_mono; [apply (wp_loadRuntimeConfig absolute ingress vip)|].
  intros [conf|e|] f Hload; [|by apply mode_unloaded|done]. destruct Hload as [Hconf _].
  apply wp_bind, wp_onProbes. cbn [w_files w_attachment w_probes w_system w_requests].
  pose proof (newUdpProbeChecker_spec (buildProbeTargets conf) [] (w_probes w)) as Hnew. unfold wp at 1.
  destruct (newUdpProbeChecker _ _ (w_probes w)) as [[c|e|] p]; cbn [fst snd]; [|by apply mode_unloaded|done].
  destruct Hnew as (Hok & Htg & _). unfold wp.
  set (start := mkControl _ _ _ _ _ _ _ _). cbn [w_attachment w_probes w_files w_system w_requests].
  assert (Hp : prepared (psockets (w_probes w)) (sys_clock (w_system w)) (w_requests w)
    (start, mkWorld (w_attachment w) p f y (w_requests w))).
  { split; try done. by exists (snapshot <$> probes_ c). }
  pose proof (wp_checkedPhase _ _ _ mode turns object absolute ingress vip _ Hp) as Hc. unfold wp in Hc.
  destruct (checkedPhase _ _ _ _ _ _ _ _ _) as [o [c' w']]. destruct Hc as [[Hg Hs Hr Hso] Ho]. cbn [fst snd] in *.
  split; [by apply destroy_sockets|]. split; [exact Hg|]. split; [exact Hs|]. split; [exact Hr|by destruct o].
Qed.

(** The loop as it stands before a pass. *)
Definition pass_start (i : Since) (s : state) : Since :=
  mkSince (si_start i) (clock s) (w_requests s.2) (nextPublish s.1) (applied s.1) (si_mode i).

Lemma turn_restarted base i s : turn_ok base i s -> turn_ok base (pass_start i s) s.
Proof.
  intros [[[A1 A2 A3 A4 A5 A6 A7 A8 A9] A10] T2 T3 T4]. split; [|done..].
  split; [|done]. split; try done. exists []. cbn. rewrite app_nil_r. do 3 (split; [done|]). split; [unfold len; cbn [length]; lia|done].
Qed.

(** C7: one pass of the control loop.  Before and after every pass that
    returns, the snapshot the XDP program sees is the one the loop believes
    applied, it is valid and its generation is at most the number of seconds
    since the start; the configuration is a valid one and the checker probes
    exactly its targets on sockets of its own.  A pass always ends, and when it
    ends with an exception - also with one between a commit and the loop's record
    of it - the snapshot the program sees is still valid and within the rate,
    and no socket is open but the checker's.  In either case the pass asked for a
    publication only when it was due, which is at least a second after the
    request before, in this pass or an earlier one, successful or not: its
    requests [l] are spaced by seconds from [nextPublish] before to [nextPublish]
    after it.  Without a request the program sees what it saw; with them, its
    generation grew by at most their number. *)
Theorem controlTurn_consistent base i path ingress vip fd s :
  turn_ok base i s ->
  let '(o, s') := controlTurn readFuel path ingress vip fd s in
  turn_post base i o s' /\
  exists l v, w_requests s'.2 = w_requests s.2 ++ l /\
    spaced (nextPublish s.1) l (nextPublish s'.1) /\ Forall (fun u => clock s <= u <= clock s') l /\
    ra_active (w_attachment s'.2) = Some v /\
    rs_generation v <= rs_generation (applied s.1) + len l /\ (l = [] -> v = applied s.1).
Proof using All - drain.
  intros Ht. pose proof (wp_controlTurn base i path ingress vip fd s Ht) as Hc.
  pose proof (wp_controlTurn base _ path ingress vip fd s (turn_restarted base i s Ht)) as Hp. unfold wp in Hc, Hp.
  destruct (controlTurn readFuel path ingress vip fd s) as [o s']. split; [exact Hc|].
  assert (Hv : exists v, attached_ok (pass_start i s) v s') by (destruct o; [by eexists; apply Hp|apply Hp|done]).
  destruct Hv as (v & [[_ _ A3 _ _ _ _ (l & L1 & L2 & L3 & L4 & L5) _] _]).
  exists l, v. done.
Qed.

(** C8: a run of the runtime mode gives back what it took.  For every number
    of passes and every behaviour of the host, when the run ends the probe
    sockets that are open are those that were open before it; a run that returns
    had attached its program in the mode asked for and has detached it, and one
    that throws has detached it or failed trying; and from the first publication
    on the snapshot the XDP program sees is valid, and its generation is at most
    one more than the seconds that have passed.  Whatever the attachment promises
    of its links holds at the end as well.  The publications that were asked for
    after the first, successful or not, came at least a second after the start
    of the run and at least a second after one another, and the generation the
    program sees is at most one more than their number.  A run that has not
    ended - given enough rounds for its output - is one that is still attached. *)
Theorem runtime_mode_gives_back turns object ingress vip path mode (w : WA) :
  ra_fresh (w_attachment w) ->
  let '(o, w') := runRuntimeDsrControlLoop turns readFuel drain object ingress vip path mode w in
  psockets (w_probes w') = psockets (w_probes w) /\ ra_good (w_attachment w') /\
  seen_ok (sys_clock (w_system w)) (w_attachment w') (sys_clock (w_system w')) /\
  (exists l, w_requests w' = w_requests w ++ l /\
    Forall (fun u => sys_clock (w_system w) + seconds 1 <= u <= sys_clock (w_system w')) l /\
    (forall k u u', l !! k = Some u -> l !! S k = Some u' -> u + seconds 1 <= u') /\
    forall v, ra_loaded (w_attachment w') -> ra_active (w_attachment w') = Some v ->
      rs_generation v <= 1 + len l) /\
  match o with
  | Ret _ => ra_attached (w_attachment w') = false /\ ra_held mode (w_attachment w')
  | Throw _ => ra_attached (w_attachment w') = false \/
      exists a e, ra_detachProgram a = (Throw e, w_attachment w')
  | Diverge => drains (Y := Y) drain -> ra_attached (w_attachment w') = true
  end.
Proof using All.
  intros Hfresh.
  pose proof (wp_runRuntimeDsrControlLoop turns object ingress vip path mode w Hfresh) as Hr.
  unfold wp in Hr. destruct (runRuntimeDsrControlLoop turns readFuel drain object ingress vip path mode w) as [o w'].
  destruct Hr as (Hp & Hg & Hs & (l & L1 & [L2 L3] & L4) & Ho). do 3 (split; [done|]). split; [|exact Ho].
  by exists l.
Qed.
End run.


(** ** A scripted host: one target, two reloads of its configuration *)

Module ScriptedRuntime.
Import UdpProbeTheorems.ScriptedNetwork RuntimeConfig.ScriptedFiles.

(** The attachment accepts what the store of the source accepts. *)
Record Attachment := mkAttachment {
  at_snapshot : option UdpRuntimeSnapshot;
  at_link : bool;
  at_held : option XdpAttachMode
}.

Definition accepted (v : UdpRuntimeSnapshot) (generation : Z) : bool :=
  (0 <=? generation) && (if validateCandidateSnapshot v generation is Ret _ then true else false).

#[export] Instance attachment : RuntimeAttachment Attachment := {
  ra_loadObject _ v a :=
    if accepted v 0 then (Ret tt, mkAttachment (Some v) false None)
    else (Throw (RuntimeError (bs "load")), mkAttachment None false None);
  ra_attachProgram _ mode a := (Ret tt, mkAttachment (at_snapshot a) true (Some mode));
  ra_publishRuntime v a :=
    match at_snapshot a with
    | Some v0 =>
        if accepted v (rs_generation v0) then (Ret tt, mkAttachment (Some v) (at_link a) (at_held a))
        else (Throw (InvalidArgument (bs "snapshot")), a)
    | None => (Throw (LogicError (bs "runtime")), a)
    end;
  ra_detachProgram a := (Ret tt, mkAttachment (at_snapshot a) false (at_held a));
  ra_readRuntimeStats a := (Ret zeroStats, a);
  ra_programId _ := 7
}.

Lemma accepted_valid v g : accepted v g = true -> publishable v /\ rs_generation v = g + 1.
Proof.
  unfold accepted. intros Ha. apply andb_prop in Ha as [Hg Hv]. apply Z.leb_le in Hg.
  pose proof (validateCandidateSnapshot_valid v g Hg) as Hc.
  destruct (validateCandidateSnapshot v g) as [[]|e|]; [|done|done]. by destruct Hc as (? & _ & ?).
Qed.

#[export] Instance attachment_laws : RuntimeAttachmentLaws Attachment.
Proof.
  refine {| ra_fresh a := a = mkAttachment None false None; ra_good _ := True;
            ra_loaded a := is_Some (at_snapshot a); ra_active := at_snapshot; ra_attached := at_link;
            ra_held mode a := at_held a = Some mode |}.
  - intros a ->. split; [done|]. split; [done|]. by intros [? ?].
  - done.
  - intros object v a _. cbn -[accepted]. destruct (accepted v 0) eqn:Ha; cbn.
    + apply accepted_valid in Ha as [Hp Hg]. do 4 (split; [done|]). split; [done|]. by split.
    + do 3 (split; [done|]). by intros [? ?].
  - by intros ingress mode a.
  - intros v0 v a _ Hv0. cbn -[accepted] in *. rewrite Hv0. destruct (accepted v (rs_generation v0)) eqn:Ha; cbn.
    + apply accepted_valid in Ha as [Hp Hg]. do 4 (split; [done|]). done.
    + done.
  - by intros a.
  - by intros a.
Defined.

(** Stop signals arrive after [y_quiet] checks; a reading of the clock takes
    600 ms; the output takes everything. *)
Record System := mkSystem {
  y_time : Z;
  y_quiet : nat;
  y_signals : list Z;
  y_output : bytes
}.
#[export] Instance system_ops : RuntimeSystem System := {
  sys_clock := y_time;
  sys_now y := (y_time y + 600000000,
                mkSystem (y_time y + 600000000) (y_quiet y) (y_signals y) (y_output y));
  sys_absolute path y := (inl (bs "/" ++ path), y);
  sys_signalfd y := (inl 9, y);
  sys_close _ y := y;
  sys_getfl y := (inl 1, y);
  sys_setfl _ y := (inl tt, y);
  sys_write text y := (inl (len text), mkSystem (y_time y) (y_quiet y) (y_signals y) (y_output y ++ text));
  sys_sigtimedwait y :=
    match y_quiet y with
    | O => (inl 15, y)
    | S n => (inr EAGAIN, mkSystem (y_time y) n (y_signals y) (y_output y))
    end;
  sys_read_signal _ y :=
    match y_signals y with
    | [] => (inr EAGAIN, y)
    | signal :: rest => (inl (Some signal), mkSystem (y_time y) (y_quiet y) rest (y_output y))
    end;
  sys_poll_output y := (inl tt, y);
  sys_poll _ _ y := (inl (0, 0), y);
  sys_strerror _ := bs "error"
}.
#[export] Instance system_laws : SystemLaws System.
Proof.
  split; intros; cbn; try lia.
  - by destruct (y_quiet _).
  - by destruct (y_signals _).
Defined.

Abbreviation WA := (World Attachment (Network * ProbeNonceSequence) Files System).
Definition network : Network * ProbeNonceSequence :=
  (mkNetwork {[1]} ∅ [] 1600000000 5, mkProbeNonceSequence 506097522914230528 0).
Definition host : WA :=
  mkWorld (mkAttachment None false None) network (mkFiles [one; two] 0 []) (mkSystem 0 5 [SIGHUP] []) [].

Definition run : outcome Z * WA :=
  runRuntimeDsrControlLoop 30 readFuel 20 (bs "rt.o") (bs "eth1") (bs "10.0.0.1:53") (bs "rt.conf")
    kGeneric host.

(** A loop at its first pass with a reload due. *)

Definition probing := newUdpProbeChecker (buildProbeTargets loaded) [] network.
Definition probed : UdpProbeChecker := returned emptyChecker probing.1.
Definition first : UdpRuntimeSnapshot := returned noSnapshot (buildRuntimeSnapshot loaded probed 1).

Definition start : Control * WA :=
  (mkControl loaded probed first (mkSignalState false false false) (seconds 1) [] false false,
   mkWorld (mkAttachment (Some first) true (Some kGeneric)) probing.2 loading.2
     (mkSystem (seconds 1) 5 [SIGHUP] []) []).
Definition turn := controlTurn readFuel (bs "/rt.conf") (bs "eth1") (bs "10.0.0.1:53") 9 start.

Lemma probing_returns : probing = (Ret probed, probing.2).
Proof. vm_compute. reflexivity. Qed.
Lemma first_accepted : accepted first 0 = true.
Proof. vm_compute. reflexivity. Qed.

Definition since : Since := mkSince 0 (seconds 1) [] (seconds 1) first kGeneric.
Lemma start_ok : turn_ok {[1]} since start.
Proof.
  pose proof (wp_loadRuntimeConfig (bs "/rt.conf") (bs "eth1") (bs "10.0.0.1:53") ScriptedFiles.start) as Hl.
  unfold wp in Hl. fold loading in Hl. rewrite loading_returns in Hl. destruct Hl as [Hconf _].
  pose proof (newUdpProbeChecker_spec (buildProbeTargets loaded) [] network) as Hn.
  fold probing in Hn. rewrite probing_returns in Hn. destruct Hn as (Hok & Htg & _).
  pose proof (accepted_valid _ _ first_accepted) as [Hv Hg].
  split; [|exact Hconf|exact Htg|].
  - split; [|done]. split; try done; [by eexists|rewrite Hg; done..|].
    exists []. do 3 (split; [done|]). done.
  - exists (snapshot <$> probes_ probed). exact Hok.
Qed.
End ScriptedRuntime.

Import UdpProbeTheorems.ScriptedNetwork RuntimeConfig.ScriptedFiles.
Import ScriptedRuntime.

(** The pass reloads the second configuration and publishes the second
    generation. *)
Lemma controlTurn_consistent_witness :
  turn.1 = Ret true /\ turn_ok {[1]} since turn.2 /\ w_requests turn.2.2 = [2200000000] /\
  rs_generation (applied turn.2.1) = 2 /\ length (rc_targets (configuration turn.2.1)) = 2%nat.
Proof.
  pose proof (controlTurn_consistent {[1]} since (bs "/rt.conf") (bs "eth1") (bs "10.0.0.1:53") 9 start start_ok)
    as Ht. fold turn in Ht.
  assert (Ho : turn.1 = Ret true) by (vm_compute; reflexivity).
  assert (Hg : w_requests turn.2.2 = [2200000000] /\ rs_generation (applied turn.2.1) = 2 /\ length (rc_targets (configuration turn.2.1)) = 2%nat)
    by (vm_compute; by split_and!).
  destruct turn as [o s]. cbn [fst snd] in *. subst o. split; [reflexivity|]. split; [exact (proj1 Ht)|exact Hg].
Defined.

(** The whole run: a target becomes healthy, the configuration is reloaded, a
    signal stops the loop. *)
Lemma runtime_mode_gives_back_witness :
  run.1 = Ret 0 /\ psockets (w_probes run.2) = {[1]} /\ ra_attached (w_attachment run.2) = false /\
  ra_held kGeneric (w_attachment run.2) /\ length (w_requests run.2) = 1%nat /\
  exists v, ra_active (w_attachment run.2) = Some v /\ rs_generation v = 2 /\ rs_backendCount v = 1 /\
    publishable v.
Proof.
  pose proof (runtime_mode_gives_back 20 30 (bs "rt.o") (bs "eth1") (bs "10.0.0.1:53") (bs "rt.conf")
    kGeneric host eq_refl) as Hr. fold run in Hr.
  assert (Ho : run.1 = Ret 0) by (vm_compute; reflexivity).
  assert (Hl1 : length (w_requests run.2) = 1%nat) by (vm_compute; reflexivity).
  assert (Ha : (fun v => (rs_generation v, rs_backendCount v)) <$> ra_active (w_attachment run.2) = Some (2, 1))
    by (vm_compute; reflexivity).
  destruct run as [o w]. cbn [fst snd] in *. subst o. destruct Hr as (Hs & _ & Hseen & _ & Hd & Hh).
  split; [reflexivity|]. split; [exact Hs|]. split; [exact Hd|]. split; [exact Hh|]. split; [exact Hl1|].
  destruct (ra_active (w_attachment w)) as [v|] eqn:Hv; [|discriminate]. injection Ha as Hg Hb.
  exists v. split; [done|]. split; [exact Hg|]. split; [exact Hb|].
  assert (Hl : ra_loaded (w_attachment w)) by (by exists v). exact (proj1 (Hseen v Hl Hv)).
Defined.
