(* ===== verification/MetricsService.v ===== *)
(** * The metrics switch of a service (src/src/control/MetricsService.h, .cpp)

    The optional collector and output of a service, and the provider of the
    backends' health that the output calls.  The referenced [selection_] of the
    service is part of the world of every method. *)
From S2P Require Import Prelude Config Core TcpHealth Metrics HealthSelection.

(** ** The standard streams and clocks

    [write_stderr] is write(2) on the standard error descriptor, [error_message]
    is [std::generic_category().message]. *)
Class ServiceOps (K : Type) := {
  std_out : bytes -> K -> K;
  std_err : bytes -> K -> K;
  steady_now : K -> Z * K;
  write_stderr : bytes -> K -> Z * K;
  error_message : Z -> bytes
}.

#[export] Instance selection_ops {K} `{ServiceOps K} : SelectionOps K := {
  sel_log := std_err;
  sel_now := steady_now
}.

Abbreviation Selection := (HealthSelection RoundRobinScheduler).

(** ** MetricsService *)

Record MetricsService := mkMetricsService {
  finalized_ : bool;
  collector_ : option MetricsSnapshot;
  output_ : option MetricsOutput
}.

Definition set_finalized (m : MetricsService) : MetricsService :=
  mkMetricsService true (collector_ m) (output_ m).
Definition set_collector (d : MetricsSnapshot) (m : MetricsService) : MetricsService :=
  mkMetricsService (finalized_ m) (Some d) (output_ m).
Definition set_output (o : MetricsOutput) (m : MetricsService) : MetricsService :=
  mkMetricsService (finalized_ m) (collector_ m) (Some o).

Definition metricsEnabled (m : MetricsService) : bool := bool_decide (collector_ m <> None).

Section metrics_service.
Context {K : Type} `{ServiceOps K}.
Context (config_ : Config).

(** The world of the methods: the referenced selection and the system. *)
Abbreviation SK := (option Selection * K)%type.

(** The new contents of the span. *)
Definition copyBackendHealthSnapshot (selection_ : option Selection)
    (span : list BackendHealthSnapshot) : outcome (list BackendHealthSnapshot) :=
  match selection_ with
  | Some h => copyBackendHealth h span
  | None =>
      Ret ((fun _ => if bool_decide (healthCheck config_ = kHealthOff) then defaultBackendHealth
                     else mkBackendHealthSnapshot bhUnknown false) <$> span)
  end.

(** The output with its default options: the steady clock and write(2); the
    provider never diverges. *)
#[export] Instance metrics_ops : MetricsOps SK := {
  m_now s := let '(t, k) := steady_now s.2 in (inl t, (s.1, k));
  m_write line s := let '(n, k) := write_stderr line s.2 in (inl n, (s.1, k));
  m_health span s :=
    (match copyBackendHealthSnapshot s.1 span with
     | Ret l => inl l
     | Throw e => inr e
     | Diverge => inl span
     end, s)
}.

(** [MetricsKind] has two values, so the exception for any other one is
    unreachable; [selection_] is still null. *)
Definition newMetricsService : M K MetricsService :=
  match metrics config_ with
  | kMetricsOff => mret (mkMetricsService false None None)
  | kMetricsStderr =>
      collector <- lift_outcome (newMetricsCollector (protocol config_) (len (backends config_))) ;;
      startTime <- mworld steady_now ;;
      mret (mkMetricsService false (Some collector)
              (Some (mkMetricsOutput startTime 0 0 false false true)))
  end.

(** Called when the service is enabled, so that there is a collector. *)
Definition recordServiceEvent (e : StatEvent) : M (MetricsService * SK) unit :=
  m <- own id ;;
  match collector_ m with
  | Some d => update (set_collector (recordStatEvent e d).2)
  | None => mret tt
  end.

(** [if (output_) output_->...]; the output refers to the collector. *)
Definition withOutput (emit : MetricsSnapshot -> M (MetricsOutput * SK) unit)
    : M (MetricsService * SK) unit :=
  m <- own id ;;
  match output_ m, collector_ m with
  | Some o, Some d => zoom (fun m => default o (output_ m)) set_output (emit d)
  | _, _ => mret tt
  end.

Definition emitServiceReady : M (MetricsService * SK) unit :=
  withOutput (emitReadySnapshot formatMetricsSnapshot).

Definition emitServicePeriodic : M (MetricsService * SK) unit :=
  withOutput (emitPeriodicSnapshotIfDue formatMetricsSnapshot).

Definition finishMetrics (error : bool) : M (MetricsService * SK) unit :=
  m <- own id ;;
  if negb (bool_decide (output_ m <> None)) || finalized_ m then mret tt
  else
    update set_finalized ;;;
    mwhen error (recordServiceEvent (stat kError)) ;;;
    withOutput (fun d => emitFinalSnapshot formatMetricsSnapshot d error).
End metrics_service.
