(* ===== verification/ServiceRuntime.v ===== *)
(** * The members and shared callbacks of the service runtimes

    [TcpServiceRuntime] (src/src/control/TcpService.cpp) and [UdpServiceRuntime]
    (src/src/control/UdpService.cpp) have the same members and the same backend
    selection, statistics and maintenance callbacks. *)
From S2P Require Import Prelude Config Core TcpHealth Metrics HealthSelection MetricsService.

Record Service := mkService {
  selection_ : option Selection;
  metrics_ : MetricsService
}.

Definition set_selection (h : option Selection) (sv : Service) : Service :=
  mkService h (metrics_ sv).
Definition set_metrics (m : MetricsService) (sv : Service) : Service :=
  mkService (selection_ sv) m.

(** An operation of the system below the service. *)
Definition below {K A} (op : K -> A * K) (s : Service * K) : A * (Service * K) :=
  let '(a, k) := op s.2 in (a, (s.1, k)).
Definition below_ {K} (op : K -> K) (s : Service * K) : Service * K := (s.1, op s.2).

Section service.
Context {K : Type} `{ServiceOps K} `{TcpProbeOps K}.
Context (config_ : Config).

(** A method of the selection; a null selection has no behaviour, and the
    theorems show that the case does not occur. *)
Definition inSelection {A} (m : M (Selection * K) A) : M (Service * K) A :=
  fun s =>
    match selection_ s.1 with
    | Some h => let '(o, (h', k)) := m (h, s.2) in (o, (set_selection (Some h') s.1, k))
    | None => (Diverge, s)
    end.

(** A method of the metrics, which reads the selection through its reference. *)
Definition inMetrics {A} (m : M (MetricsService * (option Selection * K)) A) : M (Service * K) A :=
  fun s =>
    let '(o, (m', (h, k))) := m (metrics_ s.1, (selection_ s.1, s.2)) in (o, (mkService h m', k)).

(** [selection_->enabled()] *)
Definition selectionOn (sv : Service) : bool :=
  match selection_ sv with Some h => selectionEnabled h | None => false end.

Definition selectServiceBackend : M (Service * K) (option Endpoint) := inSelection selectBackend.

Definition onStatistics (e : StatEvent) : M (Service * K) unit := inMetrics (recordServiceEvent e).

Definition onMaintenance : M (Service * K) unit :=
  sv <- own id ;;
  mwhen (selectionOn sv) (inSelection pollSelectionProbes) ;;;
  inMetrics (emitServicePeriodic config_).

(** [selection_ = std::make_unique<HealthSelection>(config_)] *)
Definition makeSelection : M (Service * K) unit :=
  h <- outside (newHealthSelection config_ createBackendScheduler) ;;
  update (set_selection (Some h)).

Definition finishService (error : bool) : M (Service * K) unit := inMetrics (finishMetrics config_ error).

(** The members are destroyed: only the selection holds resources. *)
Definition destroyService (sv : Service) : M K unit :=
  match selection_ sv with
  | Some h => destroyHealthSelection h
  | None => mret tt
  end.

(** The runtime object around its lifecycle: constructed, run, destroyed on
    every way out. *)
Definition runServiceObject {A} (lifecycle : M (Service * K) A) : M K A :=
  m <- newMetricsService config_ ;;
  fun k =>
    let '(o, (sv, k')) := lifecycle (mkService None m, k) in
    (o, (destroyService sv k').2).
End service.
