(* ===== verification/TcpService.v ===== *)
(** * The TCP service (src/src/control/TcpService.cpp)

    The callbacks that connect the TCP reactor with the selection of backends,
    the metrics and the log, and the lifecycle around the reactor. *)
From S2P Require Import Prelude Config Core TcpHealth Metrics HealthSelection TcpState TcpReactor.
From S2P Require Import MetricsService ServiceRuntime.

(** The reactor runs over a world that contains the service. *)
#[export] Instance service_tcp_ops {K} `{TcpOps K} : TcpOps (Service * K) := {
  t_now := below t_now;
  t_read_signal := below t_read_signal;
  t_epoll_wait timeout := below (t_epoll_wait timeout);
  t_epoll_ctl op f t m := below (t_epoll_ctl op f t m);
  t_accept l := below (t_accept l);
  t_socket := below t_socket;
  t_connect f e := below (t_connect f e);
  t_socket_error f := below (t_socket_error f);
  t_send f d := below (t_send f d);
  t_recv f n := below (t_recv f n);
  t_shutdown f := below (t_shutdown f);
  t_close f := below_ (t_close f);
  t_errno s := t_errno s.2;
  t_order l s := t_order l s.2
}.

#[export] Instance service_tcp_setup_ops {K} `{TcpSetupOps K} : TcpSetupOps (Service * K) := {
  ts_block_signals := below ts_block_signals;
  ts_restore_signals := below_ ts_restore_signals;
  ts_signalfd := below ts_signalfd;
  ts_epoll_create := below ts_epoll_create;
  ts_socket := below ts_socket;
  ts_reuse_address f := below (ts_reuse_address f);
  ts_bind f e := below (ts_bind f e);
  ts_listen f := below (ts_listen f)
}.

Section tcp_service.
Context {K : Type} `{ServiceOps K} `{TcpProbeOps K} `{TcpOps K} `{TcpSetupOps K}.
Context (config_ : Config).

Definition onReady : M (Service * K) unit :=
  effect (std_out (bs "TCP 服务已启动：" ++ formatEndpoint (listen config_) ++ [newline])) ;;;
  inMetrics (emitServiceReady config_).

Definition stoppingLine (e : StopEvent) : bytes :=
  bs "TCP draining pending_c2b=" ++ to_string (stop_pending e).1 ++
  bs " pending_b2c=" ++ to_string (stop_pending e).2 ++
  bs " deadline_ns=" ++ to_string (deadlineNs e) ++ [newline].

Definition onStopping (e : StopEvent) : M (Service * K) unit := effect (std_err (stoppingLine e)).

Definition sessionLine (message : Z -> bytes) (e : SessionEvent) : bytes :=
  bs "session=" ++ to_string (se_id e) ++ bs " backend=" ++ formatEndpoint (se_backend e) ++
  bs " reason=" ++ se_reason e ++
  (if se_accepted e then []
   else bs " sent_c2b=" ++ to_string (se_sent e).1 ++ bs " sent_b2c=" ++ to_string (se_sent e).2) ++
  (if se_error e =? 0 then []
   else bs " errno=" ++ to_string (se_error e) ++ bs " " ++ message (se_error e)) ++
  [newline].

Definition onSession (e : SessionEvent) : M (Service * K) unit :=
  effect (std_err (sessionLine (error_message (K := K)) e)).

Definition diagnosticLine (message : Z -> bytes) (operation : bytes) (error : Z) : bytes :=
  operation ++ bs " errno=" ++ to_string error ++ bs " " ++ message error ++ [newline].

Definition onDiagnostic (operation : bytes) (error : Z) : M (Service * K) unit :=
  effect (std_err (diagnosticLine (error_message (K := K)) operation error)).

(** The callbacks bound when the service is in the state [sv]. *)
Definition bindTcpCallbacks (sv : Service) : TcpReactorCallbacks (Service * K) := {|
  backendSelector := Some selectServiceBackend;
  maintenanceCallback :=
    if selectionOn sv || metricsEnabled (metrics_ sv) then Some (onMaintenance config_) else None;
  statisticsCallback := if metricsEnabled (metrics_ sv) then Some onStatistics else None;
  readyCallback := Some onReady;
  stoppingCallback := Some onStopping;
  sessionCallback := Some onSession;
  diagnosticCallback := Some onDiagnostic;
  observationCallback := None
|}.

(** [fuel] and [turns] bound the reactor's loops, see [TcpReactor]. *)
Context (fuel turns : nat).

Definition stoppedLine : bytes :=
  bs "TCP 服务已停止：已尝试有界排空用户态待发队列，不保证在途数据送达" ++ [newline].

Definition runTcpServiceLifecycle : M (Service * K) Z :=
  mcatch
    (makeSelection config_ ;;;
     sv <- own (fun sv => sv) ;;
     result <- runTcpReactor (bindTcpCallbacks sv) defaultTcpReactorOptions fuel turns (listen config_) ;;
     effect (std_err stoppedLine) ;;;
     finishService config_ false ;;;
     mret result)
    (fun e => finishService config_ true ;;; mthrow e).

Definition runTcpService : M K Z :=
  if negb (bool_decide (protocol config_ = kTcp)) then
    mthrow (InvalidArgument (bs "TCP 入口仅支持 TCP 协议"))
  else runServiceObject config_ runTcpServiceLifecycle.
End tcp_service.
