(* ===== verification/UdpService.v ===== *)
(** * The UDP service (src/src/control/UdpService.cpp)

    The callbacks that connect the UDP reactor with the selection of backends,
    the metrics and the log, and the lifecycle around the reactor. *)
From S2P Require Import Prelude Config Core TcpHealth Metrics HealthSelection UdpReactor.
From S2P Require Import MetricsService ServiceRuntime.

(** The reactor runs over a world that contains the service. *)
#[export] Instance service_udp_ops {K} `{UdpOps K} : UdpOps (Service * K) := {
  u_now := below u_now;
  u_read_signal := below u_read_signal;
  u_epoll_wait timeout := below (u_epoll_wait timeout);
  u_epoll_add f t := below (u_epoll_add f t);
  u_epoll_del f := below (u_epoll_del f);
  u_alloc := below u_alloc;
  u_socket := below u_socket;
  u_bind f e := below (u_bind f e);
  u_connect f e := below (u_connect f e);
  u_recvmsg f n := below (u_recvmsg f n);
  u_send f d := below (u_send f d);
  u_sendmsg f d to control := below (u_sendmsg f d to control);
  u_socket_error f := below (u_socket_error f);
  u_close f := below_ (u_close f);
  u_order l s := u_order l s.2
}.

#[export] Instance service_udp_setup_ops {K} `{UdpSetupOps K} : UdpSetupOps (Service * K) := {
  us_block_signals := below us_block_signals;
  us_restore_signals := below_ us_restore_signals;
  us_signalfd := below us_signalfd;
  us_epoll_create := below us_epoll_create;
  us_socket := below us_socket;
  us_pktinfo f := below (us_pktinfo f);
  us_bind f e := below (us_bind f e)
}.

Section udp_service.
Context {K : Type} `{ServiceOps K} `{TcpProbeOps K} `{UdpOps K} `{UdpSetupOps K}.
Context (config_ : Config).

Definition onReady : M (Service * K) unit :=
  effect (std_out (bs "UDP 服务已启动：" ++ formatEndpoint (listen config_) ++ [newline])) ;;;
  inMetrics (emitServiceReady config_).

Definition flowLine (e : UdpFlowEvent) : bytes :=
  bs "flow=" ++ to_string (fe_id e) ++ bs " backend=" ++ formatEndpoint (fe_backend e) ++
  bs " reason=" ++ fe_reason e ++
  (if fe_error e =? 0 then [] else bs " errno=" ++ to_string (fe_error e)) ++ [newline].

Definition onFlow (e : UdpFlowEvent) : M (Service * K) unit := effect (std_err (flowLine e)).

Definition diagnosticLine (reason : bytes) (error : Z) : bytes :=
  bs "UDP " ++ reason ++ (if error =? 0 then [] else bs " errno=" ++ to_string error) ++ [newline].

Definition onDiagnostic (reason : bytes) (error : Z) : M (Service * K) unit :=
  effect (std_err (diagnosticLine reason error)).

(** The callbacks bound when the service is in the state [sv]. *)
Definition bindUdpCallbacks (sv : Service) : UdpReactorCallbacks (Service * K) := {|
  backendSelector := Some selectServiceBackend;
  maintenanceCallback :=
    if selectionOn sv || metricsEnabled (metrics_ sv) then Some (onMaintenance config_) else None;
  statisticsCallback := if metricsEnabled (metrics_ sv) then Some onStatistics else None;
  readyCallback := Some onReady;
  flowCallback := Some onFlow;
  diagnosticCallback := Some onDiagnostic;
  observationCallback := None
|}.

(** [turns] bounds the observed part of the reactor's loop, see [UdpReactor]. *)
Context (turns : nat).

Definition stoppedLine : bytes :=
  bs "UDP 服务已停止：全部 flow 已关闭（不保证在途数据排空）" ++ [newline].

Definition runUdpServiceLifecycle : M (Service * K) Z :=
  mcatch
    (makeSelection config_ ;;;
     sv <- own (fun sv => sv) ;;
     result <- runUdpReactor (bindUdpCallbacks sv) defaultUdpReactorOptions turns (listen config_) ;;
     effect (std_err stoppedLine) ;;;
     finishService config_ false ;;;
     mret result)
    (fun e =>
       finishService config_ true ;;;
       effect (std_err stoppedLine) ;;;
       mthrow e).

Definition runUdpService : M K Z :=
  if negb (bool_decide (protocol config_ = kUdp)) then
    mthrow (InvalidArgument (bs "UDP 入口仅支持 UDP 协议"))
  else runServiceObject config_ runUdpServiceLifecycle.
End udp_service.
