(* ===== verification/Cli.v ===== *)
(** * The service program (src/src/control/Service.cpp and src/src/cli/main.cpp)

    The dispatch on the protocol and the command line: the options, the exit
    status and what is printed. *)
From S2P Require Import Prelude Os Config Metrics TcpHealth TcpReactor UdpReactor MetricsService.
From S2P Require Import ServiceRuntime TcpService UdpService.

Section program.
Context {K : Type} `{FileOps K} `{ServiceOps K} `{TcpProbeOps K}.
Context `{TcpOps K} `{TcpSetupOps K} `{UdpOps K} `{UdpSetupOps K}.
(** Bounds of the reactors' loops. *)
Context (fuel turns : nat).

(** [Protocol] has two values, so the exception for any other is unreachable. *)
Definition runConfiguredService (config : Config) : M K Z :=
  match protocol config with
  | kTcp => runTcpService config fuel turns
  | kUdp => runUdpService config turns
  end.

Definition helpText : bytes :=
  bs "用法：l4lb --help | --check-config <path> | --run <path>" ++ [newline] ++
  bs "TCP 代理：固定轮询，无失败重试。UDP 按 flow 固定后端，尽力转发。" ++
  bs "TCP/UDP 均可运行。路径相对于当前工作目录。" ++ [newline] ++
  bs "health_check 默认 off；tcp_connect 仅检查 TCP 握手。Unknown " ++
  bs "预热期拒绝新会话/flow。" ++ [newline] ++
  bs "metrics 默认 off，可选 stderr（单行 metrics JSON，独立于 " ++
  bs "health_check）；同步 stderr 可能阻塞业务。" ++ [newline] ++
  bs "UDP 仅在启用 health_check=tcp_connect 时需在相同 IP/端口提供代表 " ++
  bs "UDP 服务的 TCP 健康端点；既有 " ++
  bs "flow 不迁移。" ++ [newline] ++
  bs "ready 仅表示监听就绪，不保证后端可达或 Healthy。" ++ [newline] ++
  bs "TCP 停止仅尝试在固定 1 秒内排空用户态 pending，不保证送达；" ++
  bs "UDP 停止关闭 " ++
  bs "flows，不保证排空。同步输出阻塞时不保证进程按时退出。" ++ [newline].

Definition usageLine : bytes := bs "用法错误：请使用 l4lb --help 查看帮助" ++ [newline].

Definition configErrorLine (error : ConfigError) : bytes :=
  bs "配置错误：" ++
  (if err_eof error then bs "EOF（第 " ++ to_string (err_line error) ++ bs " 行）："
   else if negb (err_line error =? 0) then bs "第 " ++ to_string (err_line error) ++ bs " 行："
   else []) ++
  err_message error ++ [newline].

Definition serviceErrorLine (e : exn) : bytes :=
  bs "服务错误：" ++ what (error_message (K := K)) e ++ [newline].

Definition validLine (config : Config) : bytes :=
  bs "配置有效：" ++
  (if bool_decide (protocol config = kTcp) then bs "TCP" else bs "UDP") ++
  bs "，后端数量=" ++ to_string (len (backends config)) ++ [newline].

(** The arguments that are not a usage error. *)
Definition validArguments (option path : bytes) : bool :=
  (bool_decide (option = bs "--check-config") || bool_decide (option = bs "--run")) &&
  negb (bool_decide (path = [])) && negb (starts_with (bs "--") path).

(** [catch (const std::exception&)]; [SessionFailure] is not one. *)
Definition catchServiceError (m : M K Z) : M K Z :=
  mcatch m
    (fun e => match e with
              | SessionFailure _ _ => mthrow e
              | e => mmodify (std_err (serviceErrorLine e)) ;;; mret 1
              end).

(** What follows the check of the arguments. *)
Definition runCommand (option path : bytes) : M K Z :=
  result <- loadConfig path ;;
  match result with
  | inr error => mmodify (std_err (configErrorLine error)) ;;; mret 1
  | inl config =>
      if bool_decide (option = bs "--run") then catchServiceError (runConfiguredService config)
      else mmodify (std_out (validLine config)) ;;; mret 0
  end.

(** The exit status; [args] is argv without the name of the program. *)
Definition main (args : list bytes) : M K Z :=
  match args with
  | [option] =>
      if bool_decide (option = bs "--help") then mmodify (std_out helpText) ;;; mret 0
      else mmodify (std_err usageLine) ;;; mret 2
  | [option; path] =>
      if validArguments option path then runCommand option path
      else mmodify (std_err usageLine) ;;; mret 2
  | _ => mmodify (std_err usageLine) ;;; mret 2
  end.
End program.
