(* ===== verification/SelectionSafety.v ===== *)
(** * The descriptors of the health checks

    The documented behaviour of the descriptors that the health checker opens and
    closes, next to those of a reactor in the same process, and the proof that
    the checker owns exactly the descriptors in its fields from its construction
    to its destruction. *)
From S2P Require Import Prelude Config Core HealthState TcpHealth Metrics HealthSelection.
From S2P Require Import MetricsService.

(** ** The descriptors of the process

    Ghost state: [held] are the open descriptors that do not belong to the
    sockets of a reactor, [reactor_fds] those that do; [aside] relates worlds
    between which nothing happened to a reactor's sockets. *)
Class ProgramGhost (K : Type) := {
  held : K -> gset Z;
  reactor_fds : K -> gset Z;
  aside : K -> K -> Prop
}.

Definition idle {K} `{ProgramGhost K} (k k' : K) : Prop := aside k k' /\ held k' = held k.

(** A new descriptor is not one that is open. *)
Definition opened_aside {K} `{ProgramGhost K} (f : Z) (k k' : K) : Prop :=
  0 <= f /\ (f ∉ held k) /\ (f ∉ reactor_fds k) /\ aside k k' /\ held k' = ({[f]} ∪ held k).

Definition opens {K} `{ProgramGhost K} (op : K -> (Z + Z) * K) : Prop :=
  forall k, match op k with (inl f, k') => opened_aside f k k' | (inr _, k') => idle k k' end.

Class ProgramKernel (K : Type) `{ServiceOps K} `{TcpProbeOps K} `{ProgramGhost K} := {
  pk_refl : forall k, aside k k;
  pk_trans : forall k k' k'', aside k k' -> aside k' k'' -> aside k k'';
  pk_reactor : forall k k', aside k k' -> reactor_fds k' = reactor_fds k;
  pk_out : forall text k, idle k (std_out text k);
  pk_err : forall text k, idle k (std_err text k);
  pk_steady : forall k, idle k (steady_now k).2;
  pk_write : forall text k, idle k (write_stderr text k).2;
  pk_now : forall k, idle k (probe_now k).2;
  pk_connect : forall f e k, idle k (probe_connect f e k).2;
  pk_socket_error : forall f k, idle k (probe_socket_error f k).2;
  pk_epoll_add : forall f t k, idle k (probe_epoll_add f t k).2;
  pk_epoll_del : forall f k, idle k (probe_epoll_del f k);
  pk_epoll_poll : forall k, idle k (probe_epoll_poll k).2;
  pk_socket : opens probe_socket;
  pk_epoll_create : opens probe_epoll_create;
  pk_close : forall f k, f ∈ held k ->
    aside k (probe_close f k) /\ held (probe_close f k) = held k ∖ {[f]}
}.

Section descriptors.
Context {K : Type} `{ProgramKernel K}.

Lemma idle_refl k : idle k k.
Proof using All. split; [apply pk_refl|done]. Qed.
Lemma idle_trans k k' k'' : idle k k' -> idle k' k'' -> idle k k''.
Proof using All. intros [? E] [? E']. split; [by eapply pk_trans|congruence]. Qed.

(** ** Slots

    [slots_ok Y e l k]: the held descriptors are those of [Y], [e], and the
    non-negative ones of the list [l], each of them once, and none belongs to a
    reactor. *)
Record slots_ok (Y : gset Z) (e : Z) (l : list Z) (k : K) : Prop := {
  sl_held : forall f, f ∈ held k <-> f ∈ Y \/ f = e \/ (f ∈ l /\ 0 <= f);
  sl_epoll : e ∉ Y;
  sl_fresh : forall f, f ∈ l -> 0 <= f -> (f ∉ Y) /\ f <> e;
  sl_once : forall i j f, l !! i = Some f -> l !! j = Some f -> 0 <= f -> i = j;
  sl_apart : held k ## reactor_fds k
}.

Lemma slots_idle Y e l k k' : slots_ok Y e l k -> idle k k' -> slots_ok Y e l k'.
Proof using All.
  intros [? ? ? ? ?] [Ha Hh]. apply pk_reactor in Ha. split; rewrite ?Hh, ?Ha; done.
Qed.

(** A new descriptor, not in a slot yet. *)
Lemma slots_opened Y e l k k' f :
  slots_ok Y e l k -> opened_aside f k k' -> slots_ok ({[f]} ∪ Y) e l k'.
Proof using All.
  intros [Hh He Hf Ho Ha] (Hp & Hn & Hr & Has & Hh'). apply pk_reactor in Has.
  pose proof (proj2 (Hh f)) as Hback. split; rewrite ?Hh', ?Has; try done.
  - intros g. rewrite elem_of_union, Hh. set_solver.
  - intros [->%elem_of_singleton|?]%elem_of_union; [|done]. apply Hn, Hh. by right; left.
  - intros g Hg Hg0. destruct (Hf g Hg Hg0) as [? ?]. split; [|done].
    intros [->%elem_of_singleton|?]%elem_of_union; [|done]. apply Hn, Hh. by right; right.
  - set_solver.
Qed.

(** It takes a free slot. *)
Lemma slots_adopt Y e l k f i old :
  slots_ok ({[f]} ∪ Y) e l k -> (f ∉ Y) -> l !! i = Some old -> old < 0 -> 0 <= f ->
  slots_ok Y e (<[i := f]> l) k.
Proof using All.
  intros [Hh He Hf Ho Ha] Hn Hi Hold Hp.
  assert (Hlt : (i < length l)%nat) by by eapply lookup_lt_Some.
  assert (Hfl : f ∉ l). { intros Hin. destruct (Hf f Hin Hp) as [Hx _]. apply Hx. set_solver. }
  assert (Hin : forall g, 0 <= g -> g ∈ <[i:=f]> l <-> g = f \/ g ∈ l).
  { intros g Hg. rewrite !list_elem_of_lookup. split.
    - intros [j [(-> & -> & _)|[? ?]]%list_lookup_insert_Some]; [by left|right; by exists j].
    - intros [->|[j Hj]]; [exists i; by apply list_lookup_insert_eq|].
      exists j. rewrite list_lookup_insert_ne; [done|]. intros ->. rewrite Hi in Hj. simplify_eq. lia. }
  split; try done.
  - intros g. rewrite Hh. split.
    + intros [[->%elem_of_singleton|?]%elem_of_union|[?|[? ?]]]; [|by left|by right; left|].
      * right; right. split; [apply Hin; auto|done].
      * right; right. split; [apply Hin; auto|done].
    + intros [?|[?|[Hg Hg0]]]; [left; set_solver|by right; left|].
      apply Hin in Hg as [->|?]; [left; set_solver|by right; right|done].
  - set_solver.
  - intros g Hg Hg0. apply Hin in Hg as [->|Hg]; [|destruct (Hf g Hg Hg0); set_solver|done].
    split; [done|]. intros ->. apply He. set_solver.
  - intros a b g [(-> & -> & _)|[Hna Hla]]%list_lookup_insert_Some
      [(-> & Hgf & _)|[Hnb Hlb]]%list_lookup_insert_Some Hg0; try done.
    + apply list_elem_of_lookup_2 in Hlb. done.
    + subst. apply list_elem_of_lookup_2 in Hla. done.
    + by eapply Ho.
Qed.

(** A slot's descriptor is closed. *)
Lemma slots_closed Y e l k k' f i :
  slots_ok Y e l k -> l !! i = Some f -> 0 <= f ->
  aside k k' -> held k' = held k ∖ {[f]} -> slots_ok Y e (<[i := -1]> l) k'.
Proof using All.
  intros [Hh He Hf Ho Ha] Hi Hp Has Hh'. apply pk_reactor in Has.
  assert (Hlt : (i < length l)%nat) by by eapply lookup_lt_Some.
  destruct (Hf f (list_elem_of_lookup_2 _ _ _ Hi) Hp) as [HfY Hfe].
  assert (Hin : forall g, 0 <= g -> g ∈ <[i:=-1]> l <-> g <> f /\ g ∈ l).
  { intros g Hg. rewrite !list_elem_of_lookup. split.
    - intros [j [(-> & <- & _)|[Hne Hj]]%list_lookup_insert_Some]; [lia|].
      split; [|by exists j]. intros ->. by apply Hne, (Ho _ _ f).
    - intros [Hne [j Hj]]. exists j. rewrite list_lookup_insert_ne; [done|]. intros ->. congruence. }
  split; rewrite ?Hh', ?Has; try done.
  - intros g. rewrite elem_of_difference, Hh, elem_of_singleton. split.
    + intros [[?|[?|[? ?]]] ?]; [by left|by right; left|]. right; right. split; [by apply Hin|done].
    + intros [?|[->|[Hg Hg0]]]; [split; [by left|set_solver]|split; [by right; left|done]|].
      apply Hin in Hg as [? ?]; [|done]. split; [by right; right|done].
  - intros g Hg Hg0. apply Hin in Hg as [_ Hg]; [|done]. by apply Hf.
  - intros a b g [(? & ? & _)|[Hna Hla]]%list_lookup_insert_Some
      [(? & ? & _)|[Hnb Hlb]]%list_lookup_insert_Some Hg0; try lia. by eapply Ho.
  - set_solver.
Qed.

Lemma slots_closable Y e l k i f :
  slots_ok Y e l k -> l !! i = Some f -> 0 <= f -> f ∈ held k.
Proof using All. intros Hs Hi Hp. apply (sl_held _ _ _ _ Hs). right; right. split; [|done]. by eapply list_elem_of_lookup_2. Qed.

(** A slot without a descriptor stays without one. *)
Lemma slots_empty Y e l k i f g :
  slots_ok Y e l k -> l !! i = Some f -> f < 0 -> g < 0 -> slots_ok Y e (<[i := g]> l) k.
Proof using All.
  intros [Hh He Hf Ho Ha] Hi Hneg Hg.
  assert (Hlt : (i < length l)%nat) by by eapply lookup_lt_Some.
  assert (Hin : forall x, 0 <= x -> x ∈ <[i:=g]> l <-> x ∈ l).
  { intros x Hx. rewrite !list_elem_of_lookup. split.
    - intros [j [(-> & -> & _)|[? ?]]%list_lookup_insert_Some]; [lia|by exists j].
    - intros [j Hj]. exists j. rewrite list_lookup_insert_ne; [done|]. intros ->.
      rewrite Hi in Hj. simplify_eq. lia. }
  split; try done.
  - intros x. rewrite Hh. destruct (decide (0 <= x)) as [Hx|Hx]; [by rewrite Hin|].
    naive_solver lia.
  - intros x Hx Hx0. apply Hf; [by apply Hin|done].
  - intros a b x [(? & ? & _)|[Hna Hla]]%list_lookup_insert_Some
      [(? & ? & _)|[Hnb Hlb]]%list_lookup_insert_Some Hx; try lia. by eapply Ho.
Qed.
End descriptors.

(** ** The checker *)

Section checker_descriptors.
Context {K : Type} `{ProgramKernel K}.
Definition slots (c : TcpHealthChecker) : list Z := fd <$> probes_ c.

(** The checker owns its descriptors, next to those of [Y]. *)
Definition fds_ok (Y : gset Z) (c : TcpHealthChecker) (k : K) : Prop :=
  slots_ok Y (epollFd_ c) (slots c) k.

(** The checker has [n] probes and owns its descriptors, and no reactor was
    touched since [k0]. *)
Definition owning (Y : gset Z) (n : nat) (k0 : K) (s : TcpHealthChecker * K) : Prop :=
  length (probes_ s.1) = n /\ fds_ok Y s.1 s.2 /\ aside k0 s.2.

Lemma slots_set_probe i p c : slots (set_probe i p c) = <[i := fd p]> (slots c).
Proof. unfold slots, set_probe. cbn. apply list_fmap_insert. Qed.

Lemma slots_lookup i c : (i < length (probes_ c))%nat -> slots c !! i = Some (fd (probes_ c !!! i)).
Proof.
  intros Hi. unfold slots. rewrite list_lookup_fmap. by rewrite (list_lookup_lookup_total_lt _ _ Hi).
Qed.

Lemma owning_idle Y n k0 c k k' : owning Y n k0 (c, k) -> idle k k' -> owning Y n k0 (c, k').
Proof using All.
  intros (Hn & Hf & Ha) Hi. split; [done|]. split; [by eapply slots_idle|].
  eapply pk_trans; [exact Ha|apply Hi].
Qed.

Lemma owning_same Y n k0 c c' k :
  owning Y n k0 (c, k) -> length (probes_ c') = length (probes_ c) -> slots c' = slots c ->
  epollFd_ c' = epollFd_ c -> owning Y n k0 (c', k).
Proof. intros (Hn & Hf & Ha) Hl Hs He. unfold owning, fds_ok. cbn in *. rewrite Hs, He. by rewrite Hl. Qed.

(** Closing the descriptor of probe [i], if there is one. *)
Lemma owning_close Y n k0 c k i p :
  owning Y n k0 (c, k) -> (i < n)%nat -> fd p = -1 ->
  owning Y n k0 (set_probe i p c,
    if 0 <=? fd (probes_ c !!! i) then probe_close (fd (probes_ c !!! i)) k else k).
Proof using All.
  intros (Hn & Hf & Ha) Hi Hp. cbn [fst snd] in *.
  pose proof (slots_lookup i c ltac:(lia)) as Hl.
  split; [cbn; by rewrite length_insert|]. unfold fds_ok. cbn [fst snd]. rewrite slots_set_probe, Hp.
  change (epollFd_ (set_probe i p c)) with (epollFd_ c).
  destruct (Z.leb_spec 0 (fd (probes_ c !!! i))).
  - destruct (pk_close (fd (probes_ c !!! i)) k) as [Hca Hch]; [by eapply slots_closable|].
    split; [by eapply slots_closed|by eapply pk_trans].
  - split; [by eapply slots_empty|done].
Qed.

Context (callback : option (HealthChange -> M K unit)).
Context (callback_idle : forall f, callback = Some f -> forall change k, idle k (f change k).2).

Lemma complete_owning Y n k0 i success reason error time s :
  owning Y n k0 s -> (i < n)%nat ->
  wp (completeBackendProbe callback i success reason error time) (fun _ s' => owning Y n k0 s') s.
Proof using All.
  intros Ho Hi. destruct s as [c k]. unfold completeBackendProbe. wp_step. wp_step.
  unfold id. cbn [fst]. set (p := probes_ c !!! i).
  assert (Hk : exists k1, wp (if 0 <=? fd p then
       effect (probe_epoll_del (fd p)) ;;; effect (probe_close (fd p))
     else mret tt) (fun o s' => o = Ret tt /\ s' = (c, k1)) (c, k) /\
     forall p', fd p' = -1 -> owning Y n k0 (set_probe i p' c, k1)).
  { destruct (0 <=? fd p) eqn:Hp.
    - eexists. split; [do 3 wp_step; done|]. intros p' Hp'.
      pose proof (owning_idle _ _ _ _ _ _ Ho (pk_epoll_del (fd p) k)) as Ho1.
      pose proof (owning_close _ _ _ _ _ i p' Ho1 Hi Hp') as Ho2. fold p in Ho2. by rewrite Hp in Ho2.
    - exists k. split; [wp_step; done|]. intros p' Hp'.
      pose proof (owning_close _ _ _ _ _ i p' Ho Hi Hp') as Ho2. fold p in Ho2. by rewrite Hp in Ho2. }
  destruct Hk as (k1 & Hw & Ho1).
  wp_step. eapply wp_mono; [exact Hw|]. intros _ _ (-> & ->).
  destruct (applyProbeResult (state p) success) as [changed st]. wp_step. wp_step. cbn [fst snd].
  set (p' := mkProbe _ _ _ _ _). specialize (Ho1 p' eq_refl).
  destruct callback as [f|] eqn:Hf; [|by wp_step].
  wp_step. wp_step; [|done]. apply wp_outside. cbn [fst snd].
  eapply owning_idle; [exact Ho1|by apply callback_idle].
Qed.

Lemma connected_owning Y n k0 i time newFd c connected s :
  owning Y n k0 s -> (i < n)%nat ->
  wp (startConnected callback i time newFd c connected) (fun _ s' => owning Y n k0 s') s.
Proof using All.
  intros Ho Hi. unfold startConnected. destruct connected as [[]|error]; [by apply complete_owning|].
  wp_step; [by apply complete_owning|]. wp_step; [by wp_step|]. wp_step. wp_step.
  destruct s as [c1 k1]. cbn [fst snd].
  match goal with |- wp _ _ (?c2, _) => set (c' := c2) end.
  assert (Ho1 : owning Y n k0 (c', k1)).
  { eapply owning_same; [exact Ho| | |done].
    - unfold c'. cbn. by rewrite length_insert.
    - unfold c'. change (slots (set_nextToken ?t ?c)) with (slots c). rewrite slots_set_probe. cbn.
      apply list_insert_id. apply slots_lookup. destruct Ho as [Hn _]. cbn in Hn. lia. }
  wp_step. wp_step. cbn [fst snd].
  pose proof (owning_idle _ _ _ _ _ _ Ho1 (pk_epoll_add newFd (nextProbeToken_ c) k1)) as Ho2.
  destruct (probe_epoll_add newFd (nextProbeToken_ c) k1) as [[[]|errno] k2]; cbn [fst snd] in *;
    [by wp_step|by apply complete_owning].
Qed.

Lemma start_owning Y n k0 i time s :
  owning Y n k0 s -> (i < n)%nat ->
  wp (startBackendProbe callback i time) (fun _ s' => owning Y n k0 s') s.
Proof using All.
  intros Ho Hi. destruct s as [c k]. unfold startBackendProbe. wp_step. wp_step. cbn [snd fst].
  pose proof (pk_socket k) as Hs. set (old := fd (probes_ c !!! i)).
  assert (Hclose : forall k1 (Q : outcome unit -> TcpHealthChecker * K -> Prop),
    Q (Ret tt) (c, if 0 <=? old then probe_close old k1 else k1) ->
    wp (if 0 <=? old then effect (probe_close old) else mret tt) Q (c, k1)).
  { intros k1 Q HQ. by destruct (0 <=? old). }
  destruct (probe_socket k) as [[newFd|errno] k1]; cbn [fst snd].
  2: { wp_step. wp_step. cbn [fst]. fold old. wp_step. apply Hclose. wp_step. wp_step. cbn [fst snd].
       apply complete_owning; [|done]. unfold old. apply owning_close; [|done|done].
       by eapply owning_idle. }
  wp_step. wp_step. cbn [fst]. fold old. wp_step. apply Hclose. wp_step. wp_step. cbn [fst snd].
  set (k2 := if 0 <=? old then probe_close old k1 else k1).
  set (p := mkProbe _ newFd _ _ _).
  assert (Ho2 : owning Y n k0 (set_probe i p c, k2)).
  { destruct Ho as (Hn & Hf & Ha). pose proof (slots_opened _ _ _ _ _ _ Hf Hs) as Hf1.
    assert (HnY : newFd ∉ Y).
    { intros HY. destruct Hs as (_ & Hnew & _). apply Hnew, (sl_held _ _ _ _ Hf). by left. }
    pose proof Hs as (Hpos & _ & _ & Ha1 & _). cbn [fst snd] in *.
    assert (Ho1 : owning ({[newFd]} ∪ Y) n k0 (c, k1)) by (split_and!; [done|done|by eapply pk_trans]).
    pose proof (owning_close _ _ _ _ _ i (mkProbe newHealthState (-1) 0 0 0) Ho1 Hi eq_refl)
      as (_ & Hf2 & Ha2). fold old in Hf2, Ha2. fold k2 in Hf2, Ha2. cbn [fst snd] in *.
    split; [cbn; by rewrite length_insert|]. split; [|done]. unfold fds_ok in *. cbn [fst snd].
    rewrite slots_set_probe in *. cbn [fd p] in *.
    rewrite <-(list_insert_insert_eq (slots c) i newFd (-1)).
    eapply (slots_adopt Y (epollFd_ c)); [exact Hf2|done|apply list_lookup_insert_eq|lia|done].
    unfold slots. rewrite length_fmap. lia. }
  wp_step. wp_step. unfold id. cbn [fst]. wp_step. wp_step. cbn [fst snd].
  apply connected_owning; [|done]. cbn [fst snd]. eapply owning_idle; [exact Ho2|apply pk_connect].
Qed.

Lemma ready_owning Y n k0 i events time s :
  owning Y n k0 s -> (i < n)%nat ->
  wp (completeReadyProbe callback events i time) (fun _ s' => owning Y n k0 s') s.
Proof using All.
  intros Ho Hi. induction events as [|e events IH]; cbn [completeReadyProbe]; [by wp_step|].
  wp_step. wp_step. wp_step; [exact IH|]. wp_step. wp_step. destruct s as [c k]. cbn [fst snd].
  pose proof (owning_idle _ _ _ _ _ _ Ho (pk_socket_error (fd (probes_ c !!! i)) k)) as Ho1.
  destruct (probe_socket_error _ k) as [[error|errno] k1]; cbn [fst snd] in *;
    by apply complete_owning.
Qed.

(** One poll opens and closes only the checker's own descriptors. *)
Lemma poll_owning Y c k :
  fds_ok Y c k ->
  wp (pollHealthProbes callback) (fun _ s' => fds_ok Y s'.1 s'.2 /\ aside k s'.2) (c, k).
Proof using All.
  intros Hf. set (n := length (probes_ c)).
  assert (Ho : owning Y n k (c, k)) by (split_and!; [done|done|apply pk_refl]).
  assert (Hfin : forall s', owning Y n k s' -> fds_ok Y s'.1 s'.2 /\ aside k s'.2) by (by intros s' (_ & ? & ?)).
  unfold pollHealthProbes. wp_step. wp_step. wp_step. wp_step. cbn [fst snd].
  pose proof (owning_idle _ _ _ _ _ _ (owning_idle _ _ _ _ _ _ Ho (pk_now k)) (pk_epoll_poll _)) as Ho1.
  destruct (probe_epoll_poll (probe_now k).2) as [[events|errno] k1]; cbn [fst snd] in *.
  2: { wp_step; wp_step; by apply Hfin. }
  wp_step; [wp_step; by apply Hfin|]. wp_step. wp_step. cbn [fst snd].
  apply (wp_for _ _ (fun s' => owning Y n k s')); [exact Ho1| |exact Hfin].
  intros i s' [_ Hi]%elem_of_seq Ho'. fold n in Hi.
  eapply (wp_mono _ (fun _ s'' => owning Y n k s'')).
  - unfold pollBackendProbe. wp_step. wp_step.
    wp_step; [by apply complete_owning; [|lia]|]. wp_step; [by apply ready_owning; [|lia]|].
    wp_step. wp_step; [by apply start_owning; [|lia]|done].
  - intros [[]|e|] s'' Hs''; [done|by apply Hfin..].
Qed.
End checker_descriptors.

(** ** The selection *)

Section selection_descriptors.
Context {K : Type} `{ProgramKernel K}.

Definition selection_fds (Y : gset Z) (h : Selection) (k : K) : Prop :=
  match checker_ h with
  | None => held k = Y /\ held k ## reactor_fds k
  | Some c => fds_ok Y c k
  end.

Lemma socket_not_negative k newFd k' : probe_socket k = (inl newFd, k') -> 0 <= newFd.
Proof using All. intros E. pose proof (pk_socket k) as Hs. rewrite E in Hs. by destruct Hs. Qed.

Lemma selection_fds_idle Y h k k' : selection_fds Y h k -> idle k k' -> selection_fds Y h k'.
Proof using All.
  unfold selection_fds. intros Hf [Ha Hh]. destruct (checker_ h) as [c|]; [by eapply slots_idle|].
  by rewrite Hh, (pk_reactor _ _ Ha).
Qed.

Lemma selection_fds_apart Y h k : selection_fds Y h k -> held k ## reactor_fds k.
Proof. unfold selection_fds. destruct (checker_ h); [apply sl_apart|by intros [_ ?]]. Qed.

(** Only the descriptors of the process matter. *)
Lemma selection_fds_moved Y h k k' :
  selection_fds Y h k -> held k' = held k -> held k' ## reactor_fds k' -> selection_fds Y h k'.
Proof.
  unfold selection_fds. intros Hf Hh Ha. destruct (checker_ h) as [c|].
  - destruct Hf as [K1 K2 K3 K4 K5]. split; rewrite ?Hh; try done. by rewrite Hh in Ha.
  - rewrite Hh in *. by destruct Hf.
Qed.

(** Another part of the program opens and closes a descriptor. *)
Lemma selection_fds_opened Y h k k' f :
  selection_fds Y h k -> opened_aside f k k' -> selection_fds ({[f]} ∪ Y) h k'.
Proof using All.
  unfold selection_fds. intros Hf Ho. destruct (checker_ h) as [c|]; [by eapply slots_opened|].
  destruct Hf as [<- Ha], Ho as (_ & _ & Hr & Has & ->). split; [done|].
  rewrite (pk_reactor _ _ Has). set_solver.
Qed.

Lemma selection_fds_closed Y h k k' f :
  selection_fds ({[f]} ∪ Y) h k -> (f ∉ Y) -> aside k k' -> held k' = held k ∖ {[f]} ->
  selection_fds Y h k'.
Proof using All.
  unfold selection_fds. intros Hf Hn Has Hh. pose proof (pk_reactor _ _ Has) as Hr.
  destruct (checker_ h) as [c|].
  - destruct Hf as [K1 K2 K3 K4 K5]. split; rewrite ?Hh, ?Hr; try done; [|set_solver..].
    intros g. rewrite elem_of_difference, K1, elem_of_union, elem_of_singleton. split; [naive_solver|].
    intros Hg. split; [naive_solver|]. intros ->.
    destruct Hg as [?|[->|[Hg Hg0]]]; [done|set_solver|]. destruct (K3 f Hg Hg0). set_solver.
  - destruct Hf as [E Ha]. rewrite Hh, E, Hr in *. split; [|set_solver].
    apply set_eq. set_solver.
Qed.

Lemma selection_fds_ext Y h h' k :
  selection_fds Y h k -> checker_ h' = checker_ h -> selection_fds Y h' k.
Proof. unfold selection_fds. by intros ? ->. Qed.

Lemma health_change_idle config f :
  Some (onHealthChange config) = Some f -> forall change (k : K), idle k (f change k).2.
Proof using All. intros [= <-] change k. apply pk_err. Qed.

(** A step inside the selection: its descriptors stay its own, and no reactor
    is touched. *)
Definition selecting (Y : gset Z) (k0 : K) {A} (o : outcome A) (s : Selection * K) : Prop :=
  selection_fds Y s.1 s.2 /\ aside k0 s.2.

Lemma selecting_idle Y k0 {A B} (o : outcome A) (o' : outcome B) h h' k k' :
  selecting Y k0 o (h, k) -> idle k k' -> checker_ h' = checker_ h -> selecting Y k0 o' (h', k').
Proof using All.
  intros [Hf Ha] Hi He. split.
  - eapply selection_fds_ext; [|exact He]. by eapply selection_fds_idle.
  - eapply pk_trans; [exact Ha|apply Hi].
Qed.

Lemma poll_selecting Y h k :
  selection_fds Y h k -> wp pollSelectionProbes (selecting Y k) (h, k).
Proof using All.
  intros Hf. unfold pollSelectionProbes. wp_step. wp_step. unfold id. cbn [fst].
  destruct (checker_ h) as [c|] eqn:Hc; [|wp_step; split; [done|apply pk_refl]].
  wp_step. cbn [fst snd]. rewrite Hc. cbn [default]. unfold selection_fds in Hf. rewrite Hc in Hf.
  eapply wp_mono; [apply poll_owning; [apply health_change_idle|exact Hf]|].
  intros o [c' k'] [Hf' Ha]. by split.
Qed.

Lemma select_selecting Y h k :
  selection_fds Y h k -> wp selectBackend (selecting Y k) (h, k).
Proof using All.
  intros Hf. unfold selectBackend. wp_step. wp_step. unfold id. cbn [fst].
  destruct (checker_ h) as [c|] eqn:Hc.
  2: { destruct (selectNextBackendIndex (scheduler_ h)) as [i s]. wp_step. wp_step. wp_step.
       split; [by eapply selection_fds_ext|apply pk_refl]. }
  wp_step. eapply wp_mono; [by apply poll_selecting|].
  intros [[]|e|] [h1 k1] Hs; [|exact Hs..]. wp_step. wp_step. unfold id. cbn [fst].
  destruct (selectEligibleBackendIndex _ _) as [result s]. wp_step. wp_step. wp_step. wp_step.
  cbn [fst snd]. assert (Hs1 : forall A (o : outcome A), selecting Y k o (set_scheduler s h1, k1)).
  { intros A o. eapply selecting_idle; [exact Hs|apply idle_refl|done]. }
  destruct result as [[i|]|e|]; [by wp_step| |by apply Hs1..].
  wp_step. wp_step. cbn [fst snd]. pose proof (pk_steady k1) as Hi. cbn [sel_now selection_ops].
  destruct (steady_now k1) as [now k2]. cbn [fst snd] in *.
  wp_step. destruct (match lastUnavailableLogTime_ h1 with Some _ => _ | None => _ end).
  - wp_step. wp_step. wp_step. wp_step. cbn [fst snd].
    eapply selecting_idle; [exact Hs| |done]. eapply idle_trans; [exact Hi|apply pk_err].
  - wp_step. wp_step. eapply selecting_idle; [exact Hs|exact Hi|done].
Qed.

(** The constructor. *)
Lemma make_selection_spec config k :
  0 < len (backends config) <= 256 -> held k ## reactor_fds k ->
  wp (newHealthSelection config createBackendScheduler)
    (fun o k' => aside k k' /\
       match o with
       | Ret h => selection_ok h /\ config_ h = config /\ selection_fds (held k) h k'
       | Throw _ => held k' = held k
       | Diverge => False
       end) k.
Proof using All.
  intros Hn Hap. unfold newHealthSelection. wp_step. wp_step. unfold createBackendScheduler.
  destruct (scheduler config). unfold newRoundRobinScheduler. rewrite (proj2 (Z.eqb_neq _ _)) by lia.
  assert (Hrr : sched_valid (mkRoundRobinScheduler (len (backends config)) 0)) by (split; cbn; lia).
  assert (Hpool : pool (mkRoundRobinScheduler (len (backends config)) 0) = length (backends config))
    by (cbn; unfold len; lia).
  wp_step.
  { wp_step. split; [apply pk_refl|]. split; [by split_and!|done]. }
  unfold newTcpHealthChecker. wp_step. wp_step. wp_step. pose proof (pk_epoll_create k) as Hep.
  rewrite bool_decide_false by (intros E; rewrite E in Hn; unfold len in Hn; cbn in Hn; lia).
  replace (256 <? len (backends config)) with false by lia.
  change (ms 1000 <=? 0) with false. cbn [orb].
  destruct (probe_epoll_create k) as [[e|errno] k1]; cbn [fst snd].
  2: { wp_step. by destruct Hep. }
  wp_step. set (c := mkTcpHealthChecker _ _ _ _ _ _).
  destruct Hep as (Hp & Hnh & Hnr & Ha & Hh).
  assert (Hok : checker_ok c).
  { split; [unfold UINT64_MAX; cbn; lia|].
    assert (Hrep : forall i, (i < length (probes_ c))%nat ->
              probes_ c !!! i = mkProbe newHealthState (-1) 0 0 0).
    { intros i Hi. apply lookup_total_replicate_2. cbn in Hi. by rewrite length_replicate in Hi. }
    split.
    - intros i Hi. rewrite Hrep by done. split; [apply new_health_ok|by left].
    - intros i j Hi _ _. by rewrite Hrep. }
  assert (Hfds : fds_ok (held k) c k1).
  { assert (Hl : forall f, f ∈ slots c -> f = -1).
    { intros f. unfold slots, c. cbn. rewrite fmap_replicate. by intros [-> _]%elem_of_replicate. }
    split; cbn [epollFd_ c]; try done.
    - intros f. rewrite Hh, elem_of_union, elem_of_singleton. split; [naive_solver|].
      intros [?|[?|[Hf Hf0]]]; [by right|by left|]. apply Hl in Hf. lia.
    - intros f Hf Hf0. apply Hl in Hf. lia.
    - intros i j f Hi _ Hf0. apply list_elem_of_lookup_2, Hl in Hi. lia.
    - rewrite Hh, (pk_reactor _ _ Ha). set_solver. }
  assert (Hsel : selection_ok (mkHealthSelection config (mkRoundRobinScheduler (len (backends config)) 0) (Some c) None)).
  { split; [done|]. split; [done|]. split; [done|]. cbn. by rewrite length_replicate. }
  wp_step. wp_step. wp_step.
  - wp_step. wp_step. cbn [sel_log selection_ops].
    match goal with |- aside k (std_err ?text k1) /\ _ => destruct (pk_err text k1) as [Ha2 Hh2] end.
    split; [by eapply pk_trans|]. split; [done|]. split; [done|]. by eapply slots_idle.
  - wp_step. split; [done|]. split; [done|]. by split.
Qed.

(** The destructor gives everything back. *)
Lemma destroy_selection_spec Y h k :
  selection_fds Y h k ->
  wp (destroyHealthSelection h) (fun o k' => o = Ret tt /\ aside k k' /\ held k' = Y) k.
Proof using All.
  unfold selection_fds, destroyHealthSelection. destruct (checker_ h) as [c|].
  2: { intros [? ?]. wp_step. split; [done|]. split; [apply pk_refl|done]. }
  intros Hf. unfold destroyTcpHealthChecker. wp_step.
  assert (Hloop : forall (ps : list Probe) k0, slots_ok Y (epollFd_ c) (fd <$> ps) k0 ->
    wp (mfor ps (fun p => if 0 <=? fd p then mmodify (probe_close (fd p)) else mret tt))
      (fun o k' => o = Ret tt /\ aside k0 k' /\ slots_ok Y (epollFd_ c) [] k') k0).
  { clear Hf. induction ps as [|p ps IH]; intros k0 Hs; cbn [mfor].
    { wp_step. split; [done|]. split; [apply pk_refl|done]. }
    assert (Htail : forall k1, aside k0 k1 ->
      slots_ok Y (epollFd_ c) (<[0%nat := -1]> (fd <$> p :: ps)) k1 ->
      slots_ok Y (epollFd_ c) (fd <$> ps) k1).
    { intros k1 _ [Hh He Hfr Ho Ha]. split; try done.
      - intros f. rewrite Hh. cbn. rewrite elem_of_cons. naive_solver lia.
      - intros f Hin. apply Hfr. cbn. by right.
      - intros i j f Hi Hj Hf0. by assert (S i = S j) by (eapply Ho; done); simplify_eq. }
    wp_step. destruct (Z.leb_spec 0 (fd p)).
    - wp_step. destruct (pk_close (fd p) k0) as [Ha Hh]; [by apply (slots_closable _ _ _ _ 0 _ Hs)|].
      eapply wp_mono; [apply IH, Htail; [done|by apply (slots_closed _ _ _ _ _ (fd p) 0 Hs)]|].
      intros o k' (-> & Ha' & ?). split; [done|]. split; [by eapply pk_trans|done].
    - wp_step. eapply wp_mono; [apply IH, Htail; [apply pk_refl|]|done].
      by apply (slots_empty _ _ _ _ 0 (fd p) (-1) Hs). }
  eapply wp_mono; [apply Hloop, Hf|]. intros o k1 (-> & Ha & Hs). wp_step.
  destruct (pk_close (epollFd_ c) k1) as [Ha1 Hh1].
  { apply (sl_held _ _ _ _ Hs). by right; left. }
  split; [done|]. split; [by eapply pk_trans|]. rewrite Hh1.
  apply set_eq. intros f. rewrite elem_of_difference, elem_of_singleton, (sl_held _ _ _ _ Hs).
  pose proof (sl_epoll _ _ _ _ Hs). split; [|naive_solver]. intros [[?|[?|[Hf0%elem_of_nil _]]] ?]; done.
Qed.
End selection_descriptors.
