(* ===== verification/ServiceSafety.v ===== *)
(** * What the callbacks of a service do to its state and to the system

    The parts that the TCP and the UDP service share: a service whose selection
    owns its descriptors stays one, the metrics never throw, and nothing happens
    to the sockets of a reactor. *)
From S2P Require Import Prelude Config Core HealthState TcpHealth Metrics HealthSelection.
From S2P Require Import MetricsService ServiceRuntime SelectionSafety.

Section service_safety.
Context {K : Type} `{ProgramKernel K}.
Context (config_ : Config).

(** ** The metrics *)

Abbreviation SK := (option Selection * K)%type.

(** An emission returns, whatever it meets, and reads the selection only. *)
Definition emits (k0 : K) (h0 : option Selection) {A} (o : outcome unit) (s : A * SK) : Prop :=
  o = Ret tt /\ s.2.1 = h0 /\ idle k0 s.2.2.

Lemma wp_metrics_now (Q : outcome Z -> MetricsOutput * SK -> Prop) o h (k : K) :
  (forall t k', idle k k' -> Q (Ret t) (o, (h, k'))) ->
  wp (outside (may_throw (m_now (MetricsOps := metrics_ops config_)))) Q (o, (h, k)).
Proof using All.
  intros HQ. apply wp_may_throw. cbn [m_now metrics_ops fst snd]. pose proof (pk_steady k) as Hi.
  destruct (steady_now k) as [t k']. cbn [fst snd] in *. by apply HQ.
Qed.

Lemma emitSnapshot_emits d phase o h k :
  wp (emitSnapshot (H := metrics_ops config_) formatMetricsSnapshot d phase) (emits k h) (o, (h, k)).
Proof using All.
  unfold emitSnapshot. wp_step. wp_step. cbn [fst].
  destruct (enabled_ o); cbn [negb]; [|wp_step; split_and!; [done|done|apply idle_refl]].
  wp_step. wp_step. wp_step. unfold id. cbn [fst].
  destruct (addSaturatingCounter (seq_ o) 1 false) as [n sat]. wp_step. wp_step. wp_step. cbn [fst snd].
  apply wp_metrics_now. intros t k1 Hi1. wp_step. apply wp_may_throw. cbn [m_health metrics_ops fst snd].
  destruct (copyBackendHealthSnapshot config_ h _) as [l|e|]; cbn [fst snd];
    [|wp_step; by split_and!|].
  all: wp_step; wp_step;
    destruct (formatMetricsSnapshot _ phase) as [line|e|] eqn:Hl;
      [|wp_step; by split_and!|by apply formatMetricsSnapshot_returns in Hl].
  all: wp_step; [wp_step; by split_and!|]; wp_step; apply wp_may_throw;
    cbn [m_write metrics_ops fst snd]; pose proof (pk_write line k1) as Hi2;
    destruct (write_stderr line k1) as [r k2]; cbn [fst snd] in *;
    pose proof (idle_trans _ _ _ Hi1 Hi2).
  all: wp_steps; by split_and!.
Qed.

(** Setting the next deadline reads the clock and cannot fail. *)
Lemma schedule_emits k0 h0 o h k :
  h = h0 -> idle k0 k ->
  wp (now <- outside (may_throw (m_now (MetricsOps := metrics_ops config_))) ;;
      update (set_nextSnapshotTime (now + seconds 1))) (emits k0 h0) (o, (h, k)).
Proof using All.
  intros -> Hi. wp_step. apply wp_metrics_now. intros t k' Hi'. wp_step.
  split_and!; [done|done|by eapply idle_trans].
Qed.

Lemma emitReady_emits d o h k :
  wp (emitReadySnapshot (H := metrics_ops config_) formatMetricsSnapshot d) (emits k h) (o, (h, k)).
Proof using All.
  unfold emitReadySnapshot. wp_step. wp_step. wp_step; [wp_step; split; [done|split; [done|apply idle_refl]]|].
  wp_step. wp_step. wp_step. eapply wp_mono; [apply emitSnapshot_emits|].
  intros o1 [o' [h1 k1]] (-> & Hh & Hi). cbn in Hh, Hi. wp_step.
  eapply wp_mono; [by apply schedule_emits|]. by intros o2 s (-> & ? & ?).
Qed.

Lemma emitPeriodic_emits d o h k :
  wp (emitPeriodicSnapshotIfDue (H := metrics_ops config_) formatMetricsSnapshot d) (emits k h)
    (o, (h, k)).
Proof using All.
  unfold emitPeriodicSnapshotIfDue. wp_step. wp_step.
  wp_step; [wp_step; split; [done|split; [done|apply idle_refl]]|].
  wp_step. wp_step. apply wp_metrics_now. intros t k1 Hi1. wp_step; [wp_step; by split_and!|].
  wp_step. eapply wp_mono; [apply emitSnapshot_emits|].
  intros o1 [o' [h2 k2]] (-> & Hh & Hi2). cbn in Hh, Hi2.
  eapply wp_mono; [apply (schedule_emits k h); [done|by eapply idle_trans]|].
  by intros o2 s (-> & ? & ?).
Qed.

Lemma emitFinal_emits d error o h k :
  wp (emitFinalSnapshot (H := metrics_ops config_) formatMetricsSnapshot d error) (emits k h)
    (o, (h, k)).
Proof using All.
  unfold emitFinalSnapshot. wp_step. wp_step.
  wp_step; [wp_step; split; [done|split; [done|apply idle_refl]]|]. wp_step. wp_step. apply emitSnapshot_emits.
Qed.

(** ** The state of the service *)

(** The service has a selection that owns its descriptors next to those of [Y]. *)
Definition service_ok (Y : gset Z) (sv : Service) (k : K) : Prop :=
  exists h, selection_ sv = Some h /\ selection_ok h /\ HealthSelection.config_ h = config_ /\
    selection_fds Y h k.

(** The sessions or flows that the collector counts as active. *)
Definition live_of (sv : Service) : Z :=
  match collector_ (metrics_ sv) with Some d => sessionsActive d | None => 0 end.

Lemma live_off sv : metricsEnabled (metrics_ sv) = false -> live_of sv = 0.
Proof. unfold metricsEnabled, live_of. destruct (collector_ _); [|done]. intros E. done. Qed.

(** Nothing but the metrics output and the selection's own state moved. *)
Definition served (k0 : K) (sv0 : Service) (s : Service * K) : Prop :=
  aside k0 s.2 /\ collector_ (metrics_ s.1) = collector_ (metrics_ sv0) /\
  (forall Y, service_ok Y sv0 k0 -> service_ok Y s.1 s.2).

Lemma served_refl sv k : served k sv (sv, k).
Proof using All. split; [apply pk_refl|done]. Qed.

Lemma served_trans k0 sv0 s s' :
  served k0 sv0 s -> served s.2 s.1 s' -> served k0 sv0 s'.
Proof using All.
  intros (A1 & C1 & S1) (A2 & C2 & S2).
  split; [by eapply pk_trans|]. split; [congruence|auto].
Qed.

Lemma service_ok_idle Y sv sv' k k' :
  service_ok Y sv k -> idle k k' -> selection_ sv' = selection_ sv -> service_ok Y sv' k'.
Proof using All.
  intros (h & Hs & Hok & Hc & Hf) Hi He. exists h. rewrite He. split_and!; try done.
  by eapply selection_fds_idle.
Qed.

Lemma service_ok_apart Y sv k : service_ok Y sv k -> held k ## reactor_fds k.
Proof. intros (h & _ & _ & _ & Hf). by eapply selection_fds_apart. Qed.

Lemma service_ok_subset Y sv k : service_ok Y sv k -> Y ⊆ held k.
Proof.
  intros (h & _ & _ & _ & Hf). unfold selection_fds in Hf. destruct (checker_ h) as [c|].
  - intros f Hf'. apply (sl_held _ _ _ _ Hf). by left.
  - by destruct Hf as [-> _].
Qed.

Lemma service_ok_moved Y sv k k' :
  service_ok Y sv k -> held k' = held k -> held k' ## reactor_fds k' -> service_ok Y sv k'.
Proof.
  intros (h & ? & ? & ? & Hf) Hh Ha. exists h. split_and!; try done. by eapply selection_fds_moved.
Qed.

Lemma service_ok_opened Y sv k k' f :
  service_ok Y sv k -> opened_aside f k k' -> service_ok ({[f]} ∪ Y) sv k'.
Proof using All.
  intros (h & ? & ? & ? & Hf) Ho. exists h. split_and!; try done. by eapply selection_fds_opened.
Qed.

Lemma service_ok_closed Y sv k k' f :
  service_ok ({[f]} ∪ Y) sv k -> (f ∉ Y) -> aside k k' -> held k' = held k ∖ {[f]} ->
  service_ok Y sv k'.
Proof using All.
  intros (h & ? & ? & ? & Hf) Hn Ha Hh. exists h. split_and!; try done. by eapply selection_fds_closed.
Qed.

(** The result of a call that may have opened a descriptor. *)
Definition with_result (r : Z + Z) (Y : gset Z) : gset Z :=
  match r with inl f => {[f]} ∪ Y | inr _ => Y end.
Definition new_result (r : Z + Z) (Y : gset Z) : Prop :=
  match r with inl f => 0 <= f /\ (f ∉ Y) | inr _ => True end.

Lemma service_ok_opens Y sv k op :
  opens op -> service_ok Y sv k ->
  service_ok (with_result (op k).1 Y) sv (op k).2 /\ new_result (op k).1 Y /\ aside k (op k).2.
Proof using All.
  intros Hop Hok. pose proof (Hop k) as Ho. destruct (op k) as [[f|e] k']; cbn [fst snd].
  - split; [by eapply service_ok_opened|]. destruct Ho as (Hp & Hn & _ & Ha & _).
    split; [|done]. split; [done|]. intros HY. by apply Hn, (service_ok_subset _ _ _ Hok).
  - split; [by eapply service_ok_idle|]. split; [done|apply Ho].
Qed.

(** Closing it again. *)
Lemma service_ok_closes Y sv k r close :
  (forall f k, f ∈ held k -> (f ∉ reactor_fds k) ->
     aside k (close f k) /\ held (close f k) = held k ∖ {[f]}) ->
  service_ok (with_result r Y) sv k -> new_result r Y ->
  let k' := match r with inl f => close f k | inr _ => k end in
  service_ok Y sv k' /\ aside k k'.
Proof using All.
  intros Hclose Hok Hnew. destruct r as [f|e]; [|split; [done|apply pk_refl]]. cbn in *.
  assert (Hf : f ∈ held k) by (apply (service_ok_subset _ _ _ Hok); set_solver).
  destruct (Hclose f k Hf) as [Ha Hh]; [pose proof (service_ok_apart _ _ _ Hok); set_solver|].
  split; [|done]. destruct Hnew. by apply (service_ok_closed Y sv k _ f).
Qed.

Lemma served_idle sv k k' : idle k k' -> served k sv (sv, k').
Proof using All.
  intros Hi. split; [apply Hi|]. split; [done|]. intros Y Ho. by eapply service_ok_idle.
Qed.

Lemma effect_served (op : K -> K) sv k :
  idle k (op k) -> wp (effect op) (fun o s' => o = Ret tt /\ served k sv s') (sv, k).
Proof using All. intros Hi. apply wp_effect. split; [done|by apply served_idle]. Qed.

(** An emission through the service. *)
Lemma withOutput_served emit sv k :
  (forall d o, wp (emit d) (emits k (selection_ sv)) (o, (selection_ sv, k))) ->
  wp (inMetrics (withOutput emit))
    (fun o s' => o = Ret tt /\ served k sv s' /\ idle k s'.2 /\ selection_ s'.1 = selection_ sv) (sv, k).
Proof using All.
  intros He. unfold wp, inMetrics, withOutput, mbind, own, id. cbn [fst snd].
  assert (Hnone : (Ret tt : outcome unit) = Ret tt /\
    served k sv (mkService (selection_ sv) (metrics_ sv), k) /\ idle k k /\ selection_ sv = selection_ sv).
  { split_and!; [done| |apply idle_refl|done]. destruct sv. apply served_refl. }
  destruct (output_ (metrics_ sv)) as [o|] eqn:Ho; [|exact Hnone].
  destruct (collector_ (metrics_ sv)) as [d|] eqn:Hd; [|exact Hnone].
  specialize (He d o). unfold wp in He. unfold zoom. cbn [fst snd]. rewrite Ho. cbn [default].
  destruct (emit d (o, (selection_ sv, k))) as [r [o' [h' k']]].
  unfold emits in He. cbn [fst snd] in He. destruct He as (-> & -> & Hi). cbn [fst snd].
  split; [done|]. split; [|done]. split; [apply Hi|]. split; [done|].
  intros Y Hok. by eapply service_ok_idle.
Qed.

Lemma selection_served {A} (m : M (Selection * K) A) sv k Y0 :
  service_ok Y0 sv k ->
  (forall Y h, selection_ok h -> selection_fds Y h k ->
     wp m (fun o s' => o <> Diverge /\ selecting Y k o s' /\ selection_ok s'.1 /\
             HealthSelection.config_ s'.1 = HealthSelection.config_ h) (h, k)) ->
  wp (inSelection m) (fun o s' => o <> Diverge /\ served k sv s') (sv, k).
Proof using All.
  intros Hok0 Hm.
  assert (Hall : forall Y, service_ok Y sv k ->
    wp (inSelection m) (fun o s' => o <> Diverge /\ aside k s'.2 /\ metrics_ s'.1 = metrics_ sv /\
      service_ok Y s'.1 s'.2) (sv, k)).
  { intros Y (h & Hs & Hok & Hc & Hf). specialize (Hm Y h Hok Hf).
    unfold wp, inSelection in *. cbn [fst snd]. rewrite Hs.
    destruct (m (h, k)) as [o [h' k']]. cbn [fst snd] in *.
    destruct Hm as (Hn & [Hf' Ha] & Hok' & Hc'). split; [done|]. split; [done|]. split; [done|].
    exists h'. split_and!; try done. congruence. }
  unfold wp in *. destruct (Hall Y0 Hok0) as (Hn & Ha & Hm' & _). split; [done|].
  split; [done|]. split; [by rewrite Hm'|]. intros Y Hok. by destruct (Hall Y Hok) as (_ & _ & _ & ?).
Qed.

Lemma poll_served sv k Y :
  service_ok Y sv k ->
  wp (inSelection pollSelectionProbes) (fun o s' => o <> Diverge /\ served k sv s') (sv, k).
Proof using All.
  intros Hok. eapply selection_served; [exact Hok|]. intros Y' h Ho Hf.
  destruct (checker_ h) as [c|] eqn:Hc.
  - eapply wp_mono; [apply (wp_conj _ _ _ _ (poll_selecting Y' h k Hf)
                               (pollSelectionProbes_spec socket_not_negative h c k Hc Ho))|].
    intros o s' (Hs & Hn & Ho' & c' & Hh). split_and!; try done. by rewrite Hh.
  - unfold pollSelectionProbes. wp_step. wp_step. unfold id. cbn [fst]. rewrite Hc. wp_step.
    split; [done|]. split; [|done]. split; [done|apply pk_refl].
Qed.

(** ** The callbacks *)

Lemma recordStatEvent_live limit e d :
  limit <= 1024 -> countable_event limit e (sessionsActive d) ->
  sessionsActive (recordStatEvent e d).2 = sessionsActive d + live_change e.
Proof.
  intros Hlim Hcount. unfold countable_event, live_change in Hcount |- *. unfold recordStatEvent.
  assert (Hinc : forall get set n d', (forall v x, sessionsActive (set v x) = sessionsActive x) ->
            sessionsActive (incrementCounter get set n d') = sessionsActive d').
  { intros get set n d' Hset. unfold incrementCounter. destruct (addSaturatingCounter _ _ _).
    apply Hset. }
  destruct (kind e).
  1,2: destruct Hcount as [-> Hb]; [lia|]; cbn [negb Z.eqb Pos.eqb orb].
  1: replace (1024 <=? sessionsActive d) with false by lia.
  2: replace (sessionsActive d =? 0) with false by lia.
  1,2: cbn [snd]; rewrite Hinc by done; cbn [sessionsActive set_sessionsActive]; apply u64_small; lia.
  all: try destruct (negb _); cbn [snd]; rewrite ?Hinc by done; lia.
Qed.

Lemma selectServiceBackend_served sv k Y :
  service_ok Y sv k ->
  wp selectServiceBackend (fun o s' => o <> Diverge /\ served k sv s') (sv, k).
Proof using All.
  intros Hok. eapply selection_served; [exact Hok|]. intros Y' h Ho Hf.
  eapply wp_mono; [apply (wp_conj _ _ _ _ (select_selecting Y' h k Hf)
                             (selectBackend_spec socket_not_negative h k Ho))|].
  intros o s' (Hs & Ho' & Hc' & Hr). split_and!; try done. by destruct o.
Qed.

Lemma onMaintenance_served sv k Y :
  service_ok Y sv k ->
  wp (onMaintenance config_) (fun o s' => o <> Diverge /\ served k sv s') (sv, k).
Proof using All.
  intros Hok. unfold onMaintenance. wp_step. wp_step. wp_step.
  apply (wp_mono _ (fun o s' => o <> Diverge /\ served k sv s')).
  { wp_step. wp_step; [by eapply poll_served|]. split; [done|apply served_refl]. }
  intros [[]|e|] [sv1 k1] [Hn Hs]; [|by split|done].
  eapply wp_mono; [apply withOutput_served; intros d o; apply emitPeriodic_emits|].
  intros o s' (-> & Hs' & _). split; [done|]. by eapply served_trans.
Qed.

Lemma onStatistics_counts limit e sv (k : K) :
  limit <= 1024 -> countable_event limit e (live_of sv) ->
  wp (onStatistics e)
    (fun o s' => o = Ret tt /\ s'.2 = k /\ selection_ s'.1 = selection_ sv /\
       metricsEnabled (metrics_ s'.1) = metricsEnabled (metrics_ sv) /\
       (metricsEnabled (metrics_ sv) = true -> live_of s'.1 = live_of sv + live_change e)) (sv, k).
Proof.
  intros Hlim Hcount. unfold wp, onStatistics, inMetrics, recordServiceEvent, mbind, own, id. cbn [fst snd].
  unfold live_of, metricsEnabled in *. destruct (collector_ (metrics_ sv)) as [d|] eqn:Hd.
  - cbn. do 4 (split; [done|]). intros _. by apply (recordStatEvent_live limit).
  - cbn. do 3 (split; [done|]). rewrite Hd. by split; [|intros ?].
Qed.

(** ** The end of the lifecycle *)

Lemma finishService_spec error sv k :
  wp (finishService config_ error)
    (fun o s' => o = Ret tt /\ idle k s'.2 /\ selection_ s'.1 = selection_ sv /\
       live_of s'.1 = live_of sv) (sv, k).
Proof using All.
  unfold wp, finishService, inMetrics, finishMetrics, mbind, own, id. cbn [fst snd].
  assert (Hnone : (Ret tt : outcome unit) = Ret tt /\ idle k k /\ selection_ sv = selection_ sv /\
            live_of (mkService (selection_ sv) (metrics_ sv)) = live_of sv).
  { split_and!; try done. apply idle_refl. }
  destruct (output_ (metrics_ sv)) as [o|] eqn:Ho; [|exact Hnone].
  rewrite bool_decide_true by done. cbn [negb orb].
  destruct (finalized_ (metrics_ sv)); [exact Hnone|]. clear Hnone. unfold update. cbn [fst snd].
  set (m1 := set_finalized (metrics_ sv)).
  assert (Hrec : exists m2, mwhen error (recordServiceEvent (K := K) (stat kError))
            (m1, (selection_ sv, k)) = (Ret tt, (m2, (selection_ sv, k))) /\
            live_of (mkService (selection_ sv) m2) = live_of sv).
  { destruct error; [|by exists m1]. unfold mwhen, recordServiceEvent, mbind, own, id. cbn [fst snd].
    unfold live_of, m1. cbn [collector_ set_finalized metrics_].
    destruct (collector_ (metrics_ sv)) as [d|] eqn:Hd; [|eexists; split; [done|cbn; by rewrite Hd]].
    eexists. split; [reflexivity|]. cbn [collector_ set_collector].
    rewrite (recordStatEvent_live 1024) by (done || intros Hz; done). cbn. lia. }
  destruct Hrec as (m2 & -> & Hlive).
  pose proof (withOutput_served (fun d => emitFinalSnapshot (H := metrics_ops config_)
    formatMetricsSnapshot d error) (mkService (selection_ sv) m2) k) as Hw.
  unfold wp, inMetrics in Hw. cbn [fst snd metrics_ selection_] in Hw.
  specialize (Hw ltac:(intros d o'; apply emitFinal_emits)).
  destruct (withOutput _ _) as [r [m3 [h k']]]. cbn [fst snd] in *.
  destruct Hw as (-> & (_ & Hc & _) & Hi & Hh). split; [done|]. split; [done|]. split; [done|].
  rewrite <-Hlive. unfold live_of in *. cbn [fst snd metrics_ collector_] in *. by rewrite Hc.
Qed.

(** The metrics are marked as final before the last emission. *)
Lemma finishService_finalizes error sv k :
  let sv' := (finishService config_ error (sv, k)).2.1 in
  output_ (metrics_ sv') <> None -> finalized_ (metrics_ sv') = true.
Proof.
  unfold finishService, inMetrics, finishMetrics, mbind, own, id. cbn [fst snd].
  destruct (output_ (metrics_ sv)) as [o|] eqn:Ho; cbn [negb orb]; [|by cbn; rewrite Ho].
  rewrite bool_decide_true by done. cbn [negb orb].
  destruct (finalized_ (metrics_ sv)) eqn:Hf; [by cbn|]. unfold update. cbn [fst snd].
  assert (Hw : forall emit s, finalized_ s.1 = true ->
    finalized_ (withOutput (K := K) emit s).2.1 = true).
  { intros emit [m [h k']] Hm. unfold withOutput, mbind, own, id. cbn [fst snd] in *.
    destruct (output_ m), (collector_ m); try done. unfold zoom. by destruct (emit _ _) as [? [? ?]]. }
  assert (Hr : forall s, finalized_ s.1 = true ->
    exists s', mwhen error (recordServiceEvent (K := K) (stat kError)) s = (Ret tt, s') /\
      finalized_ s'.1 = true).
  { intros [m k'] Hm. destruct error; [|by eexists]. unfold mwhen, recordServiceEvent, mbind, own, id.
    cbn [fst snd] in *. destruct (collector_ m); by eexists. }
  match goal with |- context [mwhen error _ ?s] => destruct (Hr s) as (s' & -> & Hs'); [done|] end.
  match goal with |- context [withOutput ?e s'] => specialize (Hw e s' Hs'); destruct (withOutput e s') as [? [? [? ?]]] end.
  by intros _.
Qed.

Lemma newMetricsService_spec k :
  wp (newMetricsService config_)
    (fun o k' => idle k k' /\
       match o with Ret m => live_of (mkService None m) = 0 | Throw _ => True | Diverge => False end) k.
Proof using All.
  unfold newMetricsService. destruct (metrics config_); [wp_step; split; [apply idle_refl|done]|].
  wp_step. wp_step. unfold newMetricsCollector. destruct (_ || _); [split; [apply idle_refl|done]|].
  wp_step. wp_step. pose proof (pk_steady k) as Hi. destruct (steady_now k). by wp_step.
Qed.

(** ** The end of the lifecycle

    No socket of the reactor is open, no session is active, and the selection,
    if it was made, owns what else the service opened. *)
Definition settled (Y : gset Z) (s : Service * K) : Prop :=
  reactor_fds s.2 = ∅ /\ live_of s.1 = 0 /\
  (selection_ s.1 = None /\ held s.2 = Y \/ service_ok Y s.1 s.2).

Lemma settled_idle Y sv sv' k k' :
  settled Y (sv, k) -> idle k k' -> selection_ sv' = selection_ sv -> live_of sv' = live_of sv ->
  settled Y (sv', k').
Proof using All.
  unfold settled. cbn [fst snd]. intros (Hr & Hl & Hs) Hi Hse Hli.
  split; [by rewrite (pk_reactor _ _ (proj1 Hi))|]. split; [congruence|].
  destruct Hs as [[? ?]|Hok]; [left|right; by eapply service_ok_idle].
  destruct Hi as [_ Hh]. split; congruence.
Qed.

Definition ended (Y : gset Z) (s : Service * K) : Prop :=
  settled Y s /\ (output_ (metrics_ s.1) <> None -> finalized_ (metrics_ s.1) = true).

Lemma finish_ended error Y s :
  settled Y s -> wp (finishService config_ error) (fun o s' => o = Ret tt /\ ended Y s') s.
Proof using All.
  intros Hs. destruct s as [sv k]. pose proof (finishService_spec error sv k) as Hf.
  pose proof (finishService_finalizes error sv k) as Hz. unfold wp in *.
  destruct (finishService config_ error (sv, k)) as [o [sv' k']]. cbn [fst snd] in *.
  destruct Hf as (-> & Hi & Hse & Hl). split; [done|]. split; [|done]. by eapply settled_idle.
Qed.

Lemma makeSelection_spec sv k :
  0 < len (backends config_) <= 256 -> selection_ sv = None -> live_of sv = 0 -> reactor_fds k = ∅ ->
  wp (makeSelection config_)
    (fun o s' => aside k s'.2 /\ settled (held k) s' /\ metrics_ s'.1 = metrics_ sv /\
       match o with
       | Ret _ => service_ok (held k) s'.1 s'.2
       | Throw _ => True
       | Diverge => False
       end) (sv, k).
Proof using All.
  intros Hn Hsel Hl Hr. unfold makeSelection. wp_step. wp_step. cbn [fst snd].
  pose proof (make_selection_spec config_ k Hn) as Hm. unfold wp in Hm.
  destruct (newHealthSelection _ _ k) as [[h|e|] k']; cbn [fst snd] in *;
    (destruct Hm as (Ha & Hm); [rewrite Hr; set_solver|]); [| |done].
  - wp_step. destruct Hm as (Hok & Hc & Hf). cbn [fst snd set_selection selection_ metrics_].
    assert (Hs : service_ok (held k) (set_selection (Some h) sv) k') by by exists h.
    split; [done|]. split; [|done].
    split; [cbn; by rewrite (pk_reactor _ _ Ha)|]. split; [exact Hl|by right].
  - split; [done|]. split; [|done]. split; [cbn; by rewrite (pk_reactor _ _ Ha)|]. split; [done|by left].
Qed.

(** The destructor of the service gives back what its selection holds. *)
Lemma destroyService_spec Y sv k :
  settled Y (sv, k) -> wp (destroyService sv) (fun o k' => held k' = Y /\ reactor_fds k' = ∅) k.
Proof using All.
  intros (Hr & _ & Hs). cbn [fst snd] in *. unfold destroyService.
  destruct Hs as [[-> Hh]|(h & -> & _ & _ & Hf)]; [done|].
  eapply wp_mono; [by apply destroy_selection_spec|]. intros o k' (_ & Ha & Hh).
  split; [done|]. by rewrite (pk_reactor _ _ Ha).
Qed.

Lemma runServiceObject_done {A} (lifecycle : M (Service * K) A) k :
  reactor_fds k = ∅ ->
  (forall m k1, idle k k1 -> live_of (mkService None m) = 0 ->
     wp lifecycle (fun o s' => o <> Diverge -> ended (held k) s') (mkService None m, k1)) ->
  wp (runServiceObject config_ lifecycle)
    (fun o k' => o <> Diverge -> held k' = held k /\ reactor_fds k' = ∅) k.
Proof using All.
  intros Hr Hl. unfold runServiceObject. wp_step.
  eapply wp_mono; [apply newMetricsService_spec|]. intros [m|e|] k1 [Hi Hm]; [| |done].
  2: { intros _. destruct Hi as [Ha Hh]. by rewrite (pk_reactor _ _ Ha). }
  specialize (Hl m k1 Hi Hm). unfold wp in *. destruct (lifecycle _) as [o [sv k2]]. cbn [fst snd] in *.
  intros Hn. destruct (Hl Hn) as [Hs _]. by apply (destroyService_spec _ _ _ Hs).
Qed.
End service_safety.
