(* ===== verification/TcpServiceSafety.v ===== *)
(** * The TCP service keeps the promises that its reactor asks for

    The world of the reactor is the service and the system below it; the lemmas
    show that this world is a kernel in the sense of [TcpReactorSafety], that the
    bound callbacks are admissible there, and what the whole lifecycle leaves
    behind. *)
From S2P Require Import Prelude Config Core HealthState TcpHealth Metrics HealthSelection TcpState.
From S2P Require Import TcpReactor TcpReactorSafety MetricsService ServiceRuntime TcpService.
From S2P Require Import SelectionSafety ServiceSafety.

(** ** The system *)

(** The reactor's calls keep the descriptors [X] of the rest of the process. *)
Definition holding {K} `{ProgramGhost K} (G : TcpGhost K) (X : gset Z) : TcpGhost K := {|
  conn := conn; eintr_left := eintr_left; accepts_left := accepts_left; live := live;
  clock := clock; owner_ok k := held k = X /\ X ## dom (conn k)
|}.

(** The reactor's sockets, the other descriptors of the process, and the calls
    of the constructor. *)
Class TcpProgramKernel (K : Type) `{ServiceOps K} `{TcpProbeOps K} `{TcpOps K} `{TcpSetupOps K}
    `{ProgramGhost K} {G : TcpGhost K} := {
  #[export] tp_program :: ProgramKernel K;
  tp_kernel : forall X, @TcpKernel K _ (holding G X);
  tp_reactor : forall k, reactor_fds k = dom (conn k);
  tp_aside : forall k k', aside k k' ->
    conn k' = conn k /\ (eintr_left k' <= eintr_left k)%nat /\
    (accepts_left k' <= accepts_left k)%nat /\ clock k <= clock k';
  tp_block : forall k, idle k (ts_block_signals k).2;
  tp_restore : forall k, idle k (ts_restore_signals k);
  tp_signalfd : opens ts_signalfd;
  tp_epoll_create : opens ts_epoll_create;
  tp_socket : forall k,
    match ts_socket k with
    | (inl f, k') =>
        0 <= f /\ conn k !! f = None /\ (f ∉ held k) /\ conn k' = <[f := ([], [])]> (conn k) /\
        held k' = held k /\ (eintr_left k' <= eintr_left k)%nat /\
        (accepts_left k' <= accepts_left k)%nat
    | (inr _, k') => idle k k'
    end;
  tp_reuse_address : forall f k, idle k (ts_reuse_address f k).2;
  tp_bind : forall f e k, idle k (ts_bind f e k).2;
  tp_listen : forall f k, idle k (ts_listen f k).2;
  (** close(2) on a descriptor that is not one of the reactor's sockets *)
  tp_close : forall f k, f ∈ held k -> (f ∉ reactor_fds k) ->
    aside k (t_close f k) /\ held (t_close f k) = held k ∖ {[f]}
}.

Section tcp_service_safety.
Context {K : Type} `{TcpProgramKernel K}.
Context (config_ : Config).
(** The descriptors of the rest of the process, and whether the metrics are on. *)
Context (Y : gset Z) (on : bool).

Definition tcp_owner_ok (s : Service * K) : Prop :=
  service_ok config_ Y s.1 s.2 /\ metricsEnabled (metrics_ s.1) = on.

#[local] Instance service_ghost : TcpGhost (Service * K) := {
  conn s := conn s.2;
  eintr_left s := eintr_left s.2;
  accepts_left s := accepts_left s.2;
  live s := live_of s.1;
  clock s := clock s.2;
  owner_ok := tcp_owner_ok
}.

(** What a call of the reactor may do to the system, seen from the service. *)
Lemma lift_bounds sv k k' :
  @bounds_shrink K (holding G (held k)) k k' -> bounds_shrink (sv, k) (sv, k').
Proof using All.
  intros (He & Ha & Hc & Ho). split_and!; [done..|]. intros [Hok Hon]. split; [|done]. cbn [fst snd] in *.
  pose proof (service_ok_apart _ _ _ _ Hok) as Hap. rewrite tp_reactor in Hap.
  destruct Ho as [Hh Hap']; [done|]. eapply service_ok_moved; [exact Hok|exact Hh|].
  by rewrite Hh, tp_reactor.
Qed.

Lemma lift_quiet sv k k' : @quiet K (holding G (held k)) k k' -> quiet (sv, k) (sv, k').
Proof using All. intros (Hc & _ & Hb). split_and!; [done|done|by apply lift_bounds]. Qed.

Lemma lift_failed e sv k k' : @failed K (holding G (held k)) e k k' -> failed e (sv, k) (sv, k').
Proof using All. intros [Hq He]. split; [by apply lift_quiet|done]. Qed.

Lemma lift_opened f sv k k' : @opened K (holding G (held k)) f k k' -> opened f (sv, k) (sv, k').
Proof using All.
  intros (Hp & Hn & Hc & _ & Hb). split_and!; [done|done|done|done|by apply lift_bounds].
Qed.

#[local] Instance service_kernel : TcpKernel (Service * K).
Proof using All.
  split; intros; try destruct w as [sv k]; cbn [t_now t_read_signal t_epoll_wait t_epoll_ctl t_accept
    t_socket t_connect t_socket_error t_shutdown t_send t_recv t_close t_order service_tcp_ops
    conn live service_ghost]; unfold below, below_; cbn [fst snd].
  - pose proof (@k_now _ _ _ (tp_kernel (held k)) k) as Hk. destruct (t_now k). by apply lift_quiet.
  - pose proof (@k_clock _ _ _ (tp_kernel (held k)) k) as Hk. by destruct (t_now k).
  - pose proof (@k_read_signal _ _ _ (tp_kernel (held k)) k) as Hk.
    destruct (t_read_signal k) as [[?|?] ?]; [by apply lift_quiet|by apply lift_failed].
  - pose proof (@k_epoll_wait _ _ _ (tp_kernel (held k)) ms k) as Hk.
    destruct (t_epoll_wait ms k). by apply lift_quiet.
  - pose proof (@k_epoll_ctl _ _ _ (tp_kernel (held k)) op f t m k) as Hk.
    destruct (t_epoll_ctl op f t m k). by apply lift_quiet.
  - pose proof (@k_accept _ _ _ (tp_kernel (held k)) l k) as Hk.
    destruct (t_accept l k) as [[?|?] ?]; [|by apply lift_failed].
    destruct Hk. split; [by apply lift_opened|done].
  - pose proof (@k_socket _ _ _ (tp_kernel (held k)) k) as Hk.
    destruct (t_socket k) as [[?|?] ?]; [by apply lift_opened|by apply lift_failed].
  - pose proof (@k_connect _ _ _ (tp_kernel (held k)) f e k) as Hk.
    destruct (t_connect f e k). by apply lift_quiet.
  - pose proof (@k_socket_error _ _ _ (tp_kernel (held k)) f k) as Hk.
    destruct (t_socket_error f k). by apply lift_quiet.
  - pose proof (@k_shutdown _ _ _ (tp_kernel (held k)) f k) as Hk.
    destruct (t_shutdown f k) as [[?|?] ?]; [by apply lift_quiet|by apply lift_failed].
  - pose proof (@k_send _ _ _ (tp_kernel (held k)) f d k) as Hk.
    destruct (t_send f d k) as [[?|?] ?]; [|by apply lift_failed].
    destruct Hk as (? & ? & ? & _ & ?). split_and!; try done; [lia|lia|by apply lift_bounds].
  - pose proof (@k_recv _ _ _ (tp_kernel (held k)) f limit k) as Hk.
    destruct (t_recv f limit k) as [[?|?] ?]; [|by apply lift_failed].
    destruct Hk as (? & ? & ? & _ & ?). split_and!; try done. by apply lift_bounds.
  - destruct (@k_close _ _ _ (tp_kernel (held k)) f k) as (? & _ & ?); [done|].
    split_and!; [done|done|by apply lift_bounds].
  - apply (@k_order _ _ _ (tp_kernel (held k))).
Qed.

(** ** The callbacks *)

Lemma served_quiet sv k s' :
  served config_ k sv s' -> tcp_owner_ok (sv, k) -> quiet (sv, k) s' /\ tcp_owner_ok s'.
Proof using All.
  intros (Ha & Hc & Hs) [Hok Hon]. cbn [fst snd] in *.
  assert (Ho : tcp_owner_ok s') by (split; [by apply Hs|unfold metricsEnabled; by rewrite Hc]).
  destruct (tp_aside _ _ Ha) as (Hconn & He & Hacc & Hck).
  split; [|done]. split; [exact Hconn|]. split; [cbn; unfold live_of; by rewrite Hc|]. by split_and!.
Qed.

Lemma served_call {A} (m : M (Service * K) A) :
  (forall sv k, service_ok config_ Y sv k ->
     wp m (fun o s' => o <> Diverge /\ served config_ k sv s') (sv, k)) -> quiet_call m.
Proof using All.
  intros Hm [sv k] Ho. destruct (Hm sv k (proj1 Ho)) as [Hn Hs]. split; [done|].
  by apply served_quiet.
Qed.

Lemma log_call (op : K -> K) : (forall k, idle k (op k)) -> quiet_call (effect (C := Service) op).
Proof using All.
  intros Hi. apply served_call. intros sv k _.
  eapply wp_mono; [by apply (effect_served config_)|]. by intros o s' (-> & ?).
Qed.

Lemma ready_call : quiet_call (onReady (K := K) config_).
Proof using All.
  apply served_call. intros sv k _. unfold onReady. wp_step.
  eapply wp_mono; [apply (effect_served config_), pk_out|]. intros o [sv1 k1] (-> & Hs1).
  eapply wp_mono; [apply (withOutput_served config_); intros d o'; apply emitReady_emits|].
  intros o s' (-> & Hs' & _). split; [done|]. by eapply served_trans.
Qed.

(** The bound callbacks are admissible for a reactor of at most 1024 sessions. *)
Lemma bindTcpCallbacks_ok limit sv :
  limit <= 1024 -> metricsEnabled (metrics_ sv) = on ->
  callbacks_ok limit (bindTcpCallbacks (K := K) config_ sv).
Proof using All.
  intros Hlim Hon. split; cbn [backendSelector maintenanceCallback statisticsCallback readyCallback
    stoppingCallback sessionCallback diagnosticCallback observationCallback bindTcpCallbacks optional].
  - apply served_call. intros sv' k Hok. by eapply selectServiceBackend_served.
  - destruct (_ || _); [|done]. apply served_call. intros sv' k Hok. by eapply onMaintenance_served.
  - rewrite Hon. destruct on eqn:Eon; [|done]. intros e [sv' k] [Hok Hon'] Hcount. cbn [fst snd] in *.
    pose proof (onStatistics_counts limit e sv' k Hlim Hcount) as (Hr & Hk & Hs & Hm & Hl).
    destruct (onStatistics e (sv', k)) as [r [sv2 k2]]. cbn [fst snd] in *. subst k2 r.
    rewrite Eon in Hon'. split; [done|]. split; [done|]. split; [by apply Hl|].
    split_and!; [done|done|done|]. intros _. split; cbn [fst snd]; [|congruence].
    eapply service_ok_idle; [exact Hok|apply idle_refl|done].
  - apply ready_call.
  - intros e. apply log_call. intros k. apply pk_err.
  - intros e. apply log_call. intros k. apply pk_err.
  - intros o e. apply log_call. intros k. apply pk_err.
  - done.
Qed.
End tcp_service_safety.

(** ** The reactor inside the service *)

Section lifecycle.
Context {K : Type} `{TcpProgramKernel K}.
Context (config_ : Config) (fuel turns : nat).

(** The interruptions and connections to come fit the fuel and the session ids. *)
Definition within_bounds (k : K) : Prop :=
  1 + Z.of_nat (accepts_left k) < 2 ^ 64 /\
  kBufferLimit + 70 + Z.of_nat (eintr_left k) < Z.of_nat fuel.

Lemma within_aside k k' : aside k k' -> within_bounds k -> within_bounds k'.
Proof using All. intros Ha [? ?]. destruct (tp_aside _ _ Ha) as (_ & ? & ? & _). split; lia. Qed.

(** After the reactor: its sockets are closed, the service is as it was apart
    from what its callbacks did, and no session is counted as active. *)
Definition reactor_done (Y : gset Z) (sv : Service) (s : Service * K) : Prop :=
  conn s.2 = ∅ /\ service_ok config_ Y s.1 s.2 /\
  metricsEnabled (metrics_ s.1) = metricsEnabled (metrics_ sv) /\ live_of s.1 = 0.

Lemma runReactorObject_done Y sv k l o s' :
  service_ok config_ Y sv k -> live_of sv = 0 -> 0 <= l -> conn k = {[l := ([], [])]} ->
  within_bounds k ->
  runReactorObject (bindTcpCallbacks config_ sv) defaultTcpReactorOptions fuel turns l (sv, k)
    = (o, s') ->
  o <> Diverge -> reactor_done Y sv s'.
Proof using All.
  intros Hok Hlive Hl Hc [Hacc Hf] Hrun Hn. set (on := metricsEnabled (metrics_ sv)).
  destruct (@runReactorObject_releases (Service * K) _ (service_ghost config_ Y on)
    (service_kernel config_ Y on) (bindTcpCallbacks config_ sv) defaultTcpReactorOptions fuel
    (bindTcpCallbacks_ok config_ Y on 1024 sv ltac:(lia) eq_refl) turns l (sv, k) o s')
    as (Hc' & Hl' & Hok' & Hon'); [|done|done|].
  - split; try done.
  - split; [exact Hc'|]. split; [exact Hok'|]. split; [exact Hon'|].
    destruct on eqn:Eon; [|by apply live_off].
    apply Hl'. cbn. unfold on in Eon. by rewrite Eon.
Qed.

(** The state while the reactor object is being constructed. *)
Definition constructing (Y : gset Z) (c : gmap Z (bytes * bytes)) (sv : Service)
    (s : Service * K) : Prop :=
  s.1 = sv /\ service_ok config_ Y sv s.2 /\ conn s.2 = c /\ within_bounds s.2.

Lemma constructing_idle Y c sv k k' :
  constructing Y c sv (sv, k) -> idle k k' -> constructing Y c sv (sv, k').
Proof using All.
  intros (_ & Hok & Hc & Hb) Hi. cbn [fst snd] in *. split; [done|].
  split; [by eapply service_ok_idle|]. destruct Hi as [Ha _].
  split; [|by eapply within_aside]. cbn. destruct (tp_aside _ _ Ha) as (-> & _). done.
Qed.

Lemma step_constructing Y c sv what (op : K -> (unit + Z) * K) s :
  (forall k, idle k (op k).2) -> constructing Y c sv s ->
  wp (orThrow what (below op)) (fun o s' => o <> Diverge /\ constructing Y c sv s') s.
Proof using All.
  intros Hop Hs. destruct s as [sv' k]. assert (sv' = sv) as -> by apply Hs.
  unfold orThrow. wp_step. wp_step. unfold below. cbn [fst snd].
  pose proof (constructing_idle _ _ _ _ _ Hs (Hop k)) as Hs'.
  destruct (op k) as [[[]|e] k']; wp_step; by split.
Qed.

Lemma epoll_constructing Y c sv what op f t m s :
  constructing Y c sv s ->
  wp (orThrow what (t_epoll_ctl op f t m)) (fun o s' => o <> Diverge /\ constructing Y c sv s') s.
Proof using All.
  intros Hs. destruct s as [sv' k]. destruct Hs as (Hsv & Hok & Hc & Hb). cbn [fst snd] in *. subst sv'.
  unfold orThrow. wp_step. wp_step. cbn [t_epoll_ctl service_tcp_ops]. unfold below. cbn [fst snd].
  pose proof (@k_epoll_ctl _ _ _ (service_kernel config_ Y (metricsEnabled (metrics_ sv))) op f t m (sv, k))
    as (Hc' & _ & He & Ha & _ & Ho). cbn [t_epoll_ctl service_tcp_ops] in *. unfold below in *.
  cbn [fst snd] in *. destruct (t_epoll_ctl op f t m k) as [r k']. cbn [fst snd] in *.
  destruct (Ho (conj Hok eq_refl)) as [Hok' _]. cbn in Hok', Hc', He, Ha. destruct Hb.
  assert (Hs' : constructing Y c sv (sv, k')) by (split_and!; [done|done|cbn; congruence|split; cbn; lia]).
  destruct r as [[]|e]; wp_step; by split.
Qed.

Definition listening (l : Z + Z) : gmap Z (bytes * bytes) :=
  match l with inl f => {[f := ([], [])]} | inr _ => ∅ end.

Lemma member_nonnegative r Y : new_result r Y -> forall f, r = inl f -> (0 <=? member r) = true.
Proof. intros Hr f ->. cbn in *. lia. Qed.

(** Closing a member that is not a socket of the reactor. *)
Lemma closeMember_done Y r sv k :
  service_ok config_ (with_result r Y) sv k -> new_result r Y ->
  exists k', closeMember (member r) (sv, k) = (sv, k') /\ service_ok config_ Y sv k' /\
    conn k' = conn k.
Proof using All.
  intros Hok Hr. destruct (service_ok_closes config_ Y sv k r t_close tp_close Hok Hr) as [Hok' Ha].
  exists (match r with inl f => t_close f k | inr _ => k end).
  split; [|split; [done|apply (tp_aside _ _ Ha)]].
  unfold closeMember. destruct r as [f|e]; cbn in *; [|done].
  replace (0 <=? f) with true by lia. done.
Qed.

Lemma destroyMembers_done Y s e l sv0 sv k :
  service_ok config_ (with_result e (with_result s Y)) sv k ->
  new_result s Y -> new_result e (with_result s Y) -> conn k = listening l ->
  (forall f, l = inl f -> 0 <= f) ->
  metricsEnabled (metrics_ sv) = metricsEnabled (metrics_ sv0) -> live_of sv = 0 ->
  reactor_done Y sv0 (destroyMembers (member s) (member e) (member l) (sv, k)).
Proof using All.
  intros Hok Hs He Hc Hl Hon Hlive. unfold destroyMembers.
  assert (Hk1 : exists k1, closeMember (member l) (sv, k) = (sv, k1) /\
    service_ok config_ (with_result e (with_result s Y)) sv k1 /\ conn k1 = ∅).
  { unfold closeMember. destruct l as [f|x]; cbn in *; [|by exists k].
    replace (0 <=? f) with true by (specialize (Hl f eq_refl); lia). eexists. split; [done|].
    destruct (@k_close _ _ _ (service_kernel config_ (with_result e (with_result s Y))
      (metricsEnabled (metrics_ sv))) f (sv, k)) as (Hc' & _ & _ & _ & _ & Ho).
    { cbn. rewrite Hc. rewrite lookup_singleton_eq. done. }
    destruct (Ho (conj Hok eq_refl)) as [Hok' _]. split; [exact Hok'|].
    etrans; [exact Hc'|]. cbn. rewrite Hc. apply delete_singleton_eq. }
  destruct Hk1 as (k1 & -> & Hok1 & Hc1).
  destruct (closeMember_done _ e sv k1 Hok1 He) as (k2 & -> & Hok2 & Hc2).
  destruct (closeMember_done _ s sv k2 Hok2 Hs) as (k3 & -> & Hok3 & Hc3).
  cbn [ts_restore_signals service_tcp_setup_ops]. unfold below_. cbn [fst snd].
  pose proof (tp_restore k3) as Hi. split; [|split; [by eapply service_ok_idle|done]].
  cbn. destruct Hi as [Ha _]. destruct (tp_aside _ _ Ha) as (-> & _). congruence.
Qed.

Lemma setUpListener_constructing Y c sv endpoint s e l st :
  constructing Y c sv st ->
  wp (setUpListener endpoint s e l)
    (fun o st' => o <> Diverge /\ constructing Y c sv st' /\ (o = Ret tt -> (member l <? 0) = false)) st.
Proof using All.
  intros Hs. unfold setUpListener.
  wp_step; [by wp_step|]. wp_step; [by wp_step|]. wp_step; [by wp_step|].
  assert (Hgo : forall (o : outcome unit) st', o <> Diverge /\ constructing Y c sv st' ->
    o <> Diverge /\ constructing Y c sv st' /\ (o = Ret tt -> false = false)) by (by intros ? ? [? ?]).
  wp_step. eapply wp_mono; [apply step_constructing; [apply tp_reuse_address|exact Hs]|].
  intros [[]|x|] st1 [Hn1 Hs1]; [|exact (Hgo (Throw x) _ (conj Hn1 Hs1))|done].
  wp_step. eapply wp_mono; [apply step_constructing; [intros; apply tp_bind|exact Hs1]|].
  intros [[]|x|] st2 [Hn2 Hs2]; [|exact (Hgo (Throw x) _ (conj Hn2 Hs2))|done].
  wp_step. eapply wp_mono; [apply step_constructing; [apply tp_listen|exact Hs2]|].
  intros [[]|x|] st3 [Hn3 Hs3]; [|exact (Hgo (Throw x) _ (conj Hn3 Hs3))|done].
  wp_step. eapply wp_mono; [apply epoll_constructing; exact Hs3|].
  intros [[]|x|] st4 [Hn4 Hs4]; [|exact (Hgo (Throw x) _ (conj Hn4 Hs4))|done].
  eapply wp_mono; [apply epoll_constructing; exact Hs4|]. intros o st5 [Hn5 Hs5]. by apply Hgo.
Qed.

(** The listening socket is the reactor's first one. *)
Lemma listener_constructing Y sv k :
  constructing Y ∅ sv (sv, k) ->
  constructing Y (listening (ts_socket k).1) sv (sv, (ts_socket k).2) /\
  forall f, (ts_socket k).1 = inl f -> 0 <= f.
Proof using All.
  intros Hs. pose proof (tp_socket k) as Hk. destruct (ts_socket k) as [[f|e] k']; cbn [fst snd].
  - destruct Hs as (_ & Hok & Hc & [Ha He]). cbn [fst snd] in *.
    destruct Hk as (Hp & Hn & Hh & Hc' & Hh' & He' & Ha').
    split; [|by intros ? [= <-]]. split; [done|]. cbn [fst snd listening]. split.
    + eapply service_ok_moved; [exact Hok|done|]. rewrite Hh', tp_reactor, Hc', Hc.
      rewrite insert_empty, dom_singleton_L. set_solver.
    + split; [by rewrite Hc', Hc|]. split; lia.
  - split; [|done]. by eapply constructing_idle.
Qed.

Lemma constructing_opens Y c sv k op :
  opens op -> constructing Y c sv (sv, k) ->
  constructing (with_result (op k).1 Y) c sv (sv, (op k).2) /\ new_result (op k).1 Y.
Proof using All.
  intros Hop (_ & Hok & Hc & Hb). cbn [fst snd] in *.
  destruct (service_ok_opens config_ Y sv k op Hop Hok) as (Hok' & Hr & Ha).
  split; [|done]. split; [done|]. split; [done|].
  split; [|by eapply within_aside]. cbn. by destruct (tp_aside _ _ Ha) as (-> & _).
Qed.

Lemma runTcpReactor_done Y sv k endpoint :
  service_ok config_ Y sv k -> live_of sv = 0 -> conn k = ∅ -> within_bounds k ->
  wp (runTcpReactor (bindTcpCallbacks config_ sv) defaultTcpReactorOptions fuel turns endpoint)
    (fun o s' => o <> Diverge -> reactor_done Y sv s') (sv, k).
Proof using All.
  intros Hok Hlive Hc Hb. unfold runTcpReactor.
  change ((drainTimeout defaultTcpReactorOptions <=? 0) || _) with false. cbn iota.
  assert (Hs0 : constructing Y ∅ sv (sv, k)) by by split_and!.
  assert (Hgone : forall st, constructing Y ∅ sv st -> reactor_done Y sv st).
  { intros [sv' k'] (E & Hok' & Hc' & _). cbn in *. subst sv'. by split_and!. }
  wp_step. eapply wp_mono; [apply step_constructing; [apply tp_block|exact Hs0]|].
  intros [[]|x|] [sv1 k1] [Hn1 Hs1]; [|intros _; by apply Hgone|done].
  assert (sv1 = sv) as -> by apply Hs1.
  wp_step. wp_step. cbn [ts_signalfd service_tcp_setup_ops]. unfold below. cbn [fst snd].
  destruct (constructing_opens _ _ _ _ _ tp_signalfd Hs1) as [Hs2 Hrs].
  destruct (ts_signalfd k1) as [s k2]. cbn [fst snd] in *.
  wp_step. wp_step. cbn [ts_epoll_create service_tcp_setup_ops]. unfold below. cbn [fst snd].
  destruct (constructing_opens _ _ _ _ _ tp_epoll_create Hs2) as [Hs3 Hre].
  destruct (ts_epoll_create k2) as [e k3]. cbn [fst snd] in *.
  wp_step. wp_step. cbn [ts_socket service_tcp_setup_ops]. unfold below. cbn [fst snd].
  destruct (listener_constructing _ _ _ Hs3) as [Hs4 Hlp].
  destruct (ts_socket k3) as [l k4]. cbn [fst snd] in *.
  wp_step. wp_step. eapply wp_mono; [apply setUpListener_constructing; exact Hs4|].
  intros o [sv5 k5] (Hn5 & Hs5 & Hm). assert (sv5 = sv) as -> by apply Hs5.
  destruct Hs5 as (_ & Hok5 & Hc5 & Hb5). cbn [fst snd] in *.
  destruct o as [[]|x|]; [| |done].
  2: { wp_step. wp_step. wp_step. intros _. by apply destroyMembers_done. }
  specialize (Hm eq_refl). wp_step. unfold wp at 1.
  destruct l as [f|x]; [|done]. cbn [member] in *.
  destruct (runReactorObject _ _ _ _ f (sv, k5)) as [o [sv6 k6]] eqn:Hrun. cbn [fst snd].
  intros Hn6. destruct (runReactorObject_done _ _ _ _ _ _ Hok5 Hlive (Hlp f eq_refl) Hc5 Hb5 Hrun Hn6)
    as (Hc6 & Hok6 & Hon6 & Hl6). cbn [fst snd] in *.
  by apply (destroyMembers_done Y s e (inr 0)).
Qed.

Lemma reactor_done_settled Y sv s : reactor_done Y sv s -> settled config_ Y s.
Proof using All.
  intros (Hc & Hok & _ & Hl). split; [|split; [done|by right]]. by rewrite tp_reactor, Hc, dom_empty_L.
Qed.

Lemma runTcpServiceLifecycle_ended m k :
  0 < len (backends config_) <= 256 -> conn k = ∅ -> within_bounds k ->
  live_of (mkService None m) = 0 ->
  wp (runTcpServiceLifecycle config_ fuel turns)
    (fun o s' => o <> Diverge -> ended config_ (held k) s') (mkService None m, k).
Proof using All.
  intros Hn Hc Hb Hl. unfold runTcpServiceLifecycle. wp_step.
  assert (Hthrow : forall e s, settled config_ (held k) s ->
    wp (finishService config_ true ;;; mthrow (A := Z) e)
      (fun o s' => o <> Diverge -> ended config_ (held k) s') s).
  { intros e s Hs. wp_step. eapply wp_mono; [by apply finish_ended|]. intros o s' (-> & He). by wp_step. }
  assert (Hr : reactor_fds k = ∅) by by rewrite tp_reactor, Hc, dom_empty_L.
  wp_step. eapply wp_mono; [apply (makeSelection_spec config_ (mkService None m) k Hn eq_refl Hl Hr)|].
  intros [u|e|] [sv1 k1] (Ha & Hs & Hm & Hok); cbn [fst snd] in *; [|by apply Hthrow|done].
  wp_step. wp_step. cbn [fst]. wp_step.
  destruct (tp_aside _ _ Ha) as (Hc1 & _).
  eapply wp_mono; [apply (runTcpReactor_done (held k) sv1 k1 (listen config_) Hok)|].
  - by destruct Hs as (_ & ? & _).
  - congruence.
  - by eapply within_aside.
  - intros o s2 Hdone. destruct o as [code|e|]; [| |done].
    + specialize (Hdone ltac:(done)). apply reactor_done_settled in Hdone. destruct s2 as [sv2 k2].
      wp_step. wp_step. cbn [fst snd]. wp_step.
      eapply wp_mono; [apply finish_ended|].
      { eapply settled_idle; [exact Hdone|apply pk_err|done|done]. }
      intros o s3 (-> & He). by wp_step.
    + apply Hthrow. eapply reactor_done_settled, Hdone. done.
Qed.

(** The service gives back every descriptor, however it ends. *)
Lemma runTcpService_done k :
  0 < len (backends config_) <= 256 -> conn k = ∅ -> within_bounds k ->
  wp (runTcpService config_ fuel turns)
    (fun o k' => o <> Diverge -> held k' = held k /\ conn k' = ∅) k.
Proof using All.
  intros Hn Hc Hb. unfold runTcpService. wp_step; [by wp_step|].
  eapply wp_mono; [apply runServiceObject_done|].
  - by rewrite tp_reactor, Hc, dom_empty_L.
  - intros m k1 [Ha Hh] Hl. rewrite <-Hh. destruct (tp_aside _ _ Ha) as (Hc1 & _).
    apply runTcpServiceLifecycle_ended; [done|congruence|by eapply within_aside|done].
  - intros o k' Hd Hnd. destruct (Hd Hnd) as [Hh Hr]. split; [done|].
    rewrite tp_reactor in Hr. by apply dom_empty_inv_L.
Qed.
End lifecycle.
