(* ===== verification/UdpServiceSafety.v ===== *)
(** * The UDP service keeps the promises that its reactor asks for

    The same for the UDP service as [TcpServiceSafety] for the TCP service: the
    service and the system below it are a kernel in the sense of
    [UdpReactorSafety], the bound callbacks are admissible there, and the
    lifecycle leaves no socket behind. *)
From S2P Require Import Prelude Config Core HealthState TcpHealth Metrics HealthSelection.
From S2P Require Import UdpReactor UdpReactorSafety MetricsService ServiceRuntime UdpService.
From S2P Require Import SelectionSafety ServiceSafety.

(** ** The system *)

(** The reactor's calls keep the descriptors [X] of the rest of the process. *)
Definition udp_holding {K} `{ProgramGhost K} (G : UdpGhost K) (X : gset Z) : UdpGhost K := {|
  u_opened := u_opened; u_log := u_log; u_live := u_live;
  u_owner_ok k := held k = X /\ X ## u_opened k
|}.

(** The reactor's sockets, the other descriptors of the process, and the calls
    of the constructor. *)
Class UdpProgramKernel (K : Type) `{ServiceOps K} `{TcpProbeOps K} `{UdpOps K} `{UdpSetupOps K}
    `{ProgramGhost K} {G : UdpGhost K} := {
  #[export] up_program :: ProgramKernel K;
  up_kernel : forall X, @UdpKernel K _ (udp_holding G X);
  up_reactor : forall k, reactor_fds k = u_opened k;
  up_aside : forall k k', aside k k' -> u_opened k' = u_opened k /\ u_log k' = u_log k;
  up_block : forall k, idle k (us_block_signals k).2;
  up_restore : forall k, idle k (us_restore_signals k);
  up_signalfd : opens us_signalfd;
  up_epoll_create : opens us_epoll_create;
  up_socket : forall k,
    match us_socket k with
    | (inl f, k') =>
        0 <= f /\ (f ∉ u_opened k) /\ (f ∉ held k) /\ u_opened k' = ({[f]} ∪ u_opened k) /\
        held k' = held k /\ u_log k' = u_log k
    | (inr _, k') => idle k k'
    end;
  up_pktinfo : forall f k, idle k (us_pktinfo f k).2;
  up_bind : forall f e k, idle k (us_bind f e k).2;
  (** close(2) on a descriptor that is not one of the reactor's sockets *)
  up_close : forall f k, f ∈ held k -> (f ∉ reactor_fds k) ->
    aside k (u_close f k) /\ held (u_close f k) = held k ∖ {[f]}
}.

Section udp_service_safety.
Context {K : Type} `{UdpProgramKernel K}.
Context (config_ : Config).
(** The descriptors of the rest of the process, and whether the metrics are on. *)
Context (Y : gset Z) (on : bool).

Definition udp_service_owner_ok (s : Service * K) : Prop :=
  service_ok config_ Y s.1 s.2 /\ metricsEnabled (metrics_ s.1) = on.

#[local] Instance udp_service_ghost : UdpGhost (Service * K) := {
  u_opened s := u_opened s.2;
  u_log s := u_log s.2;
  u_live s := live_of s.1;
  u_owner_ok := udp_service_owner_ok
}.

(** What a call of the reactor may do to the system, seen from the service. *)
Lemma lift_keeps sv k k' :
  @keeps_owner K (udp_holding G (held k)) k k' -> keeps_owner (sv, k) (sv, k').
Proof using All.
  intros Ho [Hok Hon]. split; [|done]. cbn [fst snd] in *.
  pose proof (service_ok_apart _ _ _ _ Hok) as Hap. rewrite up_reactor in Hap.
  destruct Ho as [Hh Hap']; [done|]. eapply service_ok_moved; [exact Hok|exact Hh|].
  by rewrite Hh, up_reactor.
Qed.

Lemma udp_lift_quiet sv k k' :
  @quiet K (udp_holding G (held k)) k k' -> quiet (sv, k) (sv, k').
Proof using All. intros (Ho & Hl & _ & Hk). do 3 (split; [done|]). by apply lift_keeps. Qed.

Lemma lift_logged e sv k k' :
  @logged K (udp_holding G (held k)) e k k' -> logged e (sv, k) (sv, k').
Proof using All. intros (Ho & Hl & _ & Hk). do 3 (split; [done|]). by apply lift_keeps. Qed.

#[local] Instance udp_service_kernel : UdpKernel (Service * K).
Proof using All.
  split; intros; try destruct w as [sv k]; cbn [u_now u_read_signal u_epoll_wait u_epoll_add u_epoll_del
    u_alloc u_socket u_bind u_connect u_recvmsg u_send u_sendmsg u_socket_error u_close u_order
    service_udp_ops u_opened u_log u_live udp_service_ghost]; unfold below, below_; cbn [fst snd].
  - pose proof (@uk_now _ _ _ (up_kernel (held k)) k) as Hk.
    destruct (u_now k). by apply udp_lift_quiet.
  - pose proof (@uk_read_signal _ _ _ (up_kernel (held k)) k) as Hk.
    destruct (u_read_signal k). by apply udp_lift_quiet.
  - pose proof (@uk_epoll_wait _ _ _ (up_kernel (held k)) timeout k) as Hk.
    destruct (u_epoll_wait timeout k). by apply udp_lift_quiet.
  - pose proof (@uk_epoll_add _ _ _ (up_kernel (held k)) f t k) as Hk.
    destruct (u_epoll_add f t k). by apply udp_lift_quiet.
  - pose proof (@uk_epoll_del _ _ _ (up_kernel (held k)) f k) as Hk.
    destruct (u_epoll_del f k). by apply udp_lift_quiet.
  - pose proof (@uk_alloc _ _ _ (up_kernel (held k)) k) as Hk.
    destruct (u_alloc k). by apply udp_lift_quiet.
  - pose proof (@uk_socket _ _ _ (up_kernel (held k)) k) as Hk.
    destruct (u_socket k) as [[?|?] ?]; [|by apply udp_lift_quiet].
    destruct Hk as (? & ? & ? & _ & ?). do 4 (split; [done|]). by apply lift_keeps.
  - pose proof (@uk_bind _ _ _ (up_kernel (held k)) f e k) as Hk.
    destruct (u_bind f e k). by apply udp_lift_quiet.
  - pose proof (@uk_connect _ _ _ (up_kernel (held k)) f e k) as Hk.
    destruct (u_connect f e k). by apply udp_lift_quiet.
  - pose proof (@uk_recvmsg _ _ _ (up_kernel (held k)) f limit k) as Hk.
    destruct (u_recvmsg f limit k) as [[?|?] ?]; [by apply lift_logged|by apply udp_lift_quiet].
  - pose proof (@uk_send _ _ _ (up_kernel (held k)) f d k) as Hk.
    destruct (u_send f d k) as [[?|?] ?]; [by apply lift_logged|by apply udp_lift_quiet].
  - pose proof (@uk_sendmsg _ _ _ (up_kernel (held k)) f d to control k) as Hk.
    destruct (u_sendmsg f d to control k) as [[?|?] ?]; [by apply lift_logged|by apply udp_lift_quiet].
  - pose proof (@uk_socket_error _ _ _ (up_kernel (held k)) f k) as Hk.
    destruct (u_socket_error f k). by apply udp_lift_quiet.
  - destruct (@uk_close _ _ _ (up_kernel (held k)) f k) as (? & ? & _ & ?); [done|].
    do 3 (split; [done|]). by apply lift_keeps.
  - apply (@uk_order _ _ _ (up_kernel (held k))).
Qed.

(** ** The callbacks *)

Lemma udp_served_quiet sv k s' :
  served config_ k sv s' -> udp_service_owner_ok (sv, k) ->
  quiet (sv, k) s' /\ udp_service_owner_ok s'.
Proof using All.
  intros (Ha & Hc & Hs) [Hok Hon]. cbn [fst snd] in *.
  assert (Ho : udp_service_owner_ok s') by (split; [by apply Hs|unfold metricsEnabled; by rewrite Hc]).
  destruct (up_aside _ _ Ha) as (Hopen & Hl).
  split; [|done]. split; [exact Hopen|]. split; [exact Hl|].
  split; [cbn; unfold live_of; by rewrite Hc|by intros _].
Qed.

Lemma udp_served_call {A} (m : M (Service * K) A) :
  (forall sv k, service_ok config_ Y sv k ->
     wp m (fun o s' => o <> Diverge /\ served config_ k sv s') (sv, k)) -> quiet_call m.
Proof using All.
  intros Hm [sv k] Ho. destruct (Hm sv k (proj1 Ho)) as [Hn Hs]. split; [done|].
  by apply udp_served_quiet.
Qed.

Lemma udp_log_call (op : K -> K) : (forall k, idle k (op k)) -> quiet_call (effect (C := Service) op).
Proof using All.
  intros Hi. apply udp_served_call. intros sv k _.
  eapply wp_mono; [by apply (effect_served config_)|]. by intros o s' (-> & ?).
Qed.

Lemma udp_ready_call : quiet_call (onReady (K := K) config_).
Proof using All.
  apply udp_served_call. intros sv k _. unfold onReady. wp_step.
  eapply wp_mono; [apply (effect_served config_), pk_out|]. intros o [sv1 k1] (-> & Hs1).
  eapply wp_mono; [apply (withOutput_served config_); intros d o'; apply emitReady_emits|].
  intros o s' (-> & Hs' & _). split; [done|]. by eapply served_trans.
Qed.

(** The bound callbacks are admissible for a reactor of at most 1024 flows. *)
Lemma bindUdpCallbacks_ok limit sv :
  limit <= 1024 -> metricsEnabled (metrics_ sv) = on ->
  udp_callbacks_ok limit (bindUdpCallbacks (K := K) config_ sv).
Proof using All.
  intros Hlim Hon. split; cbn [backendSelector maintenanceCallback statisticsCallback readyCallback
    flowCallback diagnosticCallback observationCallback bindUdpCallbacks optional].
  - apply udp_served_call. intros sv' k Hok. by eapply selectServiceBackend_served.
  - destruct (_ || _); [|done]. apply udp_served_call. intros sv' k Hok. by eapply onMaintenance_served.
  - rewrite Hon. destruct on eqn:Eon; [|done]. intros e [sv' k] [Hok Hon'] Hcount. cbn [fst snd] in *.
    pose proof (onStatistics_counts limit e sv' k Hlim Hcount) as (Hr & Hk & Hs & Hm & Hl).
    destruct (onStatistics e (sv', k)) as [r [sv2 k2]]. cbn [fst snd] in *. subst k2 r.
    rewrite Eon in Hon'. split; [done|]. split; [done|]. split; [done|]. split; [by apply Hl|].
    intros _. split; cbn [fst snd]; [|congruence].
    eapply service_ok_idle; [exact Hok|apply idle_refl|done].
  - apply udp_ready_call.
  - intros e. apply udp_log_call. intros k. apply pk_err.
  - intros o e. apply udp_log_call. intros k. apply pk_err.
  - done.
Qed.
End udp_service_safety.

(** ** The reactor inside the service *)

Section udp_lifecycle.
Context {K : Type} `{UdpProgramKernel K}.
Context (config_ : Config) (turns : nat).

(** After the reactor: its sockets are closed, the service is as it was apart
    from what its callbacks did, and no flow is counted as active. *)
Definition udp_reactor_done (Y : gset Z) (sv : Service) (s : Service * K) : Prop :=
  u_opened s.2 = ∅ /\ service_ok config_ Y s.1 s.2 /\
  metricsEnabled (metrics_ s.1) = metricsEnabled (metrics_ sv) /\ live_of s.1 = 0.

Lemma udp_runReactorObject_done Y sv k ep l o s' :
  service_ok config_ Y sv k -> live_of sv = 0 -> 0 <= l -> u_opened k = {[l]} -> u_log k = [] ->
  runReactorObject (bindUdpCallbacks config_ sv) defaultUdpReactorOptions turns ep l (sv, k) = (o, s') ->
  o <> Diverge -> udp_reactor_done Y sv s'.
Proof using All.
  intros Hok Hlive Hl Hc Hlog Hrun Hn. set (on := metricsEnabled (metrics_ sv)).
  destruct (@udp_runReactorObject_releases (Service * K) _ (udp_service_ghost config_ Y on)
    (udp_service_kernel config_ Y on) (bindUdpCallbacks config_ sv) defaultUdpReactorOptions ep l
    (bindUdpCallbacks_ok config_ Y on 1024 sv ltac:(lia) eq_refl) turns (sv, k) o s')
    as (Hc' & Hl' & Hok' & Hon'); [|done|done|done|].
  - by split.
  - split; [exact Hc'|]. split; [exact Hok'|]. split; [exact Hon'|].
    destruct on eqn:Eon; [|by apply live_off].
    apply Hl'. cbn. unfold on in Eon. by rewrite Eon.
Qed.

(** The state while the reactor object is being constructed. *)
Definition udp_constructing (Y : gset Z) (c : gset Z) (sv : Service) (s : Service * K) : Prop :=
  s.1 = sv /\ service_ok config_ Y sv s.2 /\ u_opened s.2 = c /\ u_log s.2 = [].

Lemma udp_constructing_idle Y c sv k k' :
  udp_constructing Y c sv (sv, k) -> idle k k' -> udp_constructing Y c sv (sv, k').
Proof using All.
  intros (_ & Hok & Hc & Hb) Hi. cbn [fst snd] in *. split; [done|].
  split; [by eapply service_ok_idle|]. destruct Hi as [Ha _].
  destruct (up_aside _ _ Ha) as (Ho & Hl). cbn. by rewrite Ho, Hl.
Qed.

Lemma udp_step_constructing Y c sv what (op : K -> (unit + Z) * K) s :
  (forall k, idle k (op k).2) -> udp_constructing Y c sv s ->
  wp (orThrow what (below op)) (fun o s' => o <> Diverge /\ udp_constructing Y c sv s') s.
Proof using All.
  intros Hop Hs. destruct s as [sv' k]. assert (sv' = sv) as -> by apply Hs.
  unfold orThrow. wp_step. wp_step. unfold below. cbn [fst snd].
  pose proof (udp_constructing_idle _ _ _ _ _ Hs (Hop k)) as Hs'.
  destruct (op k) as [[[]|e] k']; wp_step; by split.
Qed.

Lemma udp_epoll_constructing Y c sv what f t s :
  udp_constructing Y c sv s ->
  wp (orThrow what (u_epoll_add f t)) (fun o s' => o <> Diverge /\ udp_constructing Y c sv s') s.
Proof using All.
  intros Hs. destruct s as [sv' k]. destruct Hs as (Hsv & Hok & Hc & Hb). cbn [fst snd] in *. subst sv'.
  unfold orThrow. wp_step. wp_step. cbn [u_epoll_add service_udp_ops]. unfold below. cbn [fst snd].
  pose proof (@uk_epoll_add _ _ _ (udp_service_kernel config_ Y (metricsEnabled (metrics_ sv))) f t (sv, k))
    as (Hc' & Hl' & _ & Ho). cbn [u_epoll_add service_udp_ops] in *. unfold below in *.
  cbn [fst snd] in *. destruct (u_epoll_add f t k) as [r k']. cbn [fst snd] in *.
  destruct (Ho (conj Hok eq_refl)) as [Hok' _]. cbn in Hok', Hc', Hl'.
  assert (Hs' : udp_constructing Y c sv (sv, k')) by (split_and!; [done|done|cbn; congruence..]).
  destruct r as [[]|e]; wp_step; by split.
Qed.

Definition udp_listening (l : Z + Z) : gset Z := match l with inl f => {[f]} | inr _ => ∅ end.

(** Closing a member that is not a socket of the reactor. *)
Lemma udp_closeMember_done Y r sv k :
  service_ok config_ (with_result r Y) sv k -> new_result r Y ->
  exists k', closeMember (member r) (sv, k) = (sv, k') /\ service_ok config_ Y sv k' /\
    u_opened k' = u_opened k.
Proof using All.
  intros Hok Hr. destruct (service_ok_closes config_ Y sv k r u_close up_close Hok Hr) as [Hok' Ha].
  exists (match r with inl f => u_close f k | inr _ => k end).
  split; [|split; [done|apply (up_aside _ _ Ha)]].
  unfold closeMember. destruct r as [f|e]; cbn in *; [|done].
  replace (0 <=? f) with true by lia. done.
Qed.

Lemma udp_destroyMembers_done Y s e l sv0 sv k :
  service_ok config_ (with_result e (with_result s Y)) sv k ->
  new_result s Y -> new_result e (with_result s Y) -> u_opened k = udp_listening l ->
  (forall f, l = inl f -> 0 <= f) ->
  metricsEnabled (metrics_ sv) = metricsEnabled (metrics_ sv0) -> live_of sv = 0 ->
  udp_reactor_done Y sv0 (destroyMembers (member s) (member e) (member l) (sv, k)).
Proof using All.
  intros Hok Hs He Hc Hl Hon Hlive. unfold destroyMembers.
  assert (Hk1 : exists k1, closeMember (member l) (sv, k) = (sv, k1) /\
    service_ok config_ (with_result e (with_result s Y)) sv k1 /\ u_opened k1 = ∅).
  { unfold closeMember. destruct l as [f|x]; cbn in *; [|by exists k].
    replace (0 <=? f) with true by (specialize (Hl f eq_refl); lia). eexists. split; [done|].
    destruct (@uk_close _ _ _ (udp_service_kernel config_ (with_result e (with_result s Y))
      (metricsEnabled (metrics_ sv))) f (sv, k)) as (Hc' & _ & _ & Ho).
    { cbn. rewrite Hc. set_solver. }
    destruct (Ho (conj Hok eq_refl)) as [Hok' _]. split; [exact Hok'|].
    etrans; [exact Hc'|]. cbn. rewrite Hc. set_solver. }
  destruct Hk1 as (k1 & -> & Hok1 & Hc1).
  destruct (udp_closeMember_done _ e sv k1 Hok1 He) as (k2 & -> & Hok2 & Hc2).
  destruct (udp_closeMember_done _ s sv k2 Hok2 Hs) as (k3 & -> & Hok3 & Hc3).
  cbn [us_restore_signals service_udp_setup_ops]. unfold below_. cbn [fst snd].
  pose proof (up_restore k3) as Hi. split; [|split; [by eapply service_ok_idle|done]].
  cbn. destruct Hi as [Ha _]. destruct (up_aside _ _ Ha) as (-> & _). congruence.
Qed.

Lemma udp_setUpListener_constructing Y c sv endpoint s e l st :
  udp_constructing Y c sv st ->
  wp (setUpListener endpoint s e l)
    (fun o st' => o <> Diverge /\ udp_constructing Y c sv st' /\ (o = Ret tt -> (member l <? 0) = false)) st.
Proof using All.
  intros Hs. unfold setUpListener.
  wp_step; [by wp_step|]. wp_step; [by wp_step|]. wp_step; [by wp_step|].
  assert (Hgo : forall (o : outcome unit) st', o <> Diverge /\ udp_constructing Y c sv st' ->
    o <> Diverge /\ udp_constructing Y c sv st' /\ (o = Ret tt -> false = false)) by (by intros ? ? [? ?]).
  wp_step. eapply wp_mono; [apply udp_step_constructing; [apply up_pktinfo|exact Hs]|].
  intros [[]|x|] st1 [Hn1 Hs1]; [|exact (Hgo (Throw x) _ (conj Hn1 Hs1))|done].
  wp_step. eapply wp_mono; [apply udp_step_constructing; [intros; apply up_bind|exact Hs1]|].
  intros [[]|x|] st2 [Hn2 Hs2]; [|exact (Hgo (Throw x) _ (conj Hn2 Hs2))|done].
  wp_step. eapply wp_mono; [apply udp_epoll_constructing; exact Hs2|].
  intros [[]|x|] st4 [Hn4 Hs4]; [|exact (Hgo (Throw x) _ (conj Hn4 Hs4))|done].
  eapply wp_mono; [apply udp_epoll_constructing; exact Hs4|]. intros o st5 [Hn5 Hs5]. by apply Hgo.
Qed.

(** The listening socket is the reactor's first one. *)
Lemma udp_listener_constructing Y sv k :
  udp_constructing Y ∅ sv (sv, k) ->
  udp_constructing Y (udp_listening (us_socket k).1) sv (sv, (us_socket k).2) /\
  forall f, (us_socket k).1 = inl f -> 0 <= f.
Proof using All.
  intros Hs. pose proof (up_socket k) as Hk. destruct (us_socket k) as [[f|e] k']; cbn [fst snd].
  - destruct Hs as (_ & Hok & Hc & Hlog). cbn [fst snd] in *.
    destruct Hk as (Hp & Hn & Hh & Hc' & Hh' & Hl').
    split; [|by intros ? [= <-]]. split; [done|]. cbn [fst snd udp_listening]. split.
    + eapply service_ok_moved; [exact Hok|done|]. rewrite Hh', up_reactor, Hc', Hc. set_solver.
    + rewrite Hc', Hc, Hl'. split; [set_solver|done].
  - split; [|done]. by eapply udp_constructing_idle.
Qed.

Lemma udp_constructing_opens Y c sv k op :
  opens op -> udp_constructing Y c sv (sv, k) ->
  udp_constructing (with_result (op k).1 Y) c sv (sv, (op k).2) /\ new_result (op k).1 Y.
Proof using All.
  intros Hop (_ & Hok & Hc & Hb). cbn [fst snd] in *.
  destruct (service_ok_opens config_ Y sv k op Hop Hok) as (Hok' & Hr & Ha).
  split; [|done]. split; [done|]. split; [done|].
  destruct (up_aside _ _ Ha) as (Ho & Hl). cbn. by rewrite Ho, Hl.
Qed.

Lemma runUdpReactor_done Y sv k endpoint :
  service_ok config_ Y sv k -> live_of sv = 0 -> u_opened k = ∅ -> u_log k = [] ->
  wp (runUdpReactor (bindUdpCallbacks config_ sv) defaultUdpReactorOptions turns endpoint)
    (fun o s' => o <> Diverge -> udp_reactor_done Y sv s') (sv, k).
Proof using All.
  intros Hok Hlive Hc Hlog. unfold runUdpReactor.
  change (validOptions _ _) with true. cbn [negb].
  assert (Hs0 : udp_constructing Y ∅ sv (sv, k)) by by split_and!.
  assert (Hgone : forall st, udp_constructing Y ∅ sv st -> udp_reactor_done Y sv st).
  { intros [sv' k'] (E & Hok' & Hc' & _). cbn in *. subst sv'. by split_and!. }
  wp_step. eapply wp_mono; [apply udp_step_constructing; [apply up_block|exact Hs0]|].
  intros [[]|x|] [sv1 k1] [Hn1 Hs1]; [|intros _; by apply Hgone|done].
  assert (sv1 = sv) as -> by apply Hs1.
  wp_step. wp_step. cbn [us_signalfd service_udp_setup_ops]. unfold below. cbn [fst snd].
  destruct (udp_constructing_opens _ _ _ _ _ up_signalfd Hs1) as [Hs2 Hrs].
  destruct (us_signalfd k1) as [s k2]. cbn [fst snd] in *.
  wp_step. wp_step. cbn [us_epoll_create service_udp_setup_ops]. unfold below. cbn [fst snd].
  destruct (udp_constructing_opens _ _ _ _ _ up_epoll_create Hs2) as [Hs3 Hre].
  destruct (us_epoll_create k2) as [e k3]. cbn [fst snd] in *.
  wp_step. wp_step. cbn [us_socket service_udp_setup_ops]. unfold below. cbn [fst snd].
  destruct (udp_listener_constructing _ _ _ Hs3) as [Hs4 Hlp].
  destruct (us_socket k3) as [l k4]. cbn [fst snd] in *.
  wp_step. wp_step. eapply wp_mono; [apply udp_setUpListener_constructing; exact Hs4|].
  intros o [sv5 k5] (Hn5 & Hs5 & Hm). assert (sv5 = sv) as -> by apply Hs5.
  destruct Hs5 as (_ & Hok5 & Hc5 & Hb5). cbn [fst snd] in *.
  destruct o as [[]|x|]; [| |done].
  2: { wp_step. wp_step. wp_step. intros _. by apply udp_destroyMembers_done. }
  specialize (Hm eq_refl). wp_step. unfold wp at 1.
  destruct l as [f|x]; [|done]. cbn [member] in *.
  destruct (runReactorObject _ _ _ _ f (sv, k5)) as [o [sv6 k6]] eqn:Hrun. cbn [fst snd].
  intros Hn6.
  destruct (udp_runReactorObject_done _ _ _ _ _ _ _ Hok5 Hlive (Hlp f eq_refl) Hc5 Hb5 Hrun Hn6)
    as (Hc6 & Hok6 & Hon6 & Hl6). cbn [fst snd] in *.
  by apply (udp_destroyMembers_done Y s e (inr 0)).
Qed.

Lemma udp_reactor_done_settled Y sv s : udp_reactor_done Y sv s -> settled config_ Y s.
Proof using All. intros (Hc & Hok & _ & Hl). split; [|split; [done|by right]]. by rewrite up_reactor. Qed.

Lemma runUdpServiceLifecycle_ended m k :
  0 < len (backends config_) <= 256 -> u_opened k = ∅ -> u_log k = [] ->
  live_of (mkService None m) = 0 ->
  wp (runUdpServiceLifecycle config_ turns)
    (fun o s' => o <> Diverge -> ended config_ (held k) s') (mkService None m, k).
Proof using All.
  intros Hn Hc Hlog Hl. unfold runUdpServiceLifecycle. wp_step.
  assert (Hthrow : forall e s, settled config_ (held k) s ->
    wp (finishService config_ true ;;; effect (std_err stoppedLine) ;;; mthrow (A := Z) e)
      (fun o s' => o <> Diverge -> ended config_ (held k) s') s).
  { intros e s Hs. wp_step. eapply wp_mono; [by apply finish_ended|]. intros o [sv' k'] (-> & He & Hf).
    wp_step. wp_step. wp_step. intros _. cbn [fst snd] in *. split; [|done].
    eapply settled_idle; [exact He|apply pk_err|done|done]. }
  assert (Hr : reactor_fds k = ∅) by by rewrite up_reactor.
  wp_step. eapply wp_mono; [apply (makeSelection_spec config_ (mkService None m) k Hn eq_refl Hl Hr)|].
  intros [u|e|] [sv1 k1] (Ha & Hs & Hm & Hok); cbn [fst snd] in *; [|by apply Hthrow|done].
  wp_step. wp_step. cbn [fst]. wp_step.
  destruct (up_aside _ _ Ha) as (Hc1 & Hl1).
  eapply wp_mono; [apply (runUdpReactor_done (held k) sv1 k1 (listen config_) Hok)|].
  - by destruct Hs as (_ & ? & _).
  - congruence.
  - congruence.
  - intros o s2 Hdone. destruct o as [code|e|]; [| |done].
    + specialize (Hdone ltac:(done)). apply udp_reactor_done_settled in Hdone. destruct s2 as [sv2 k2].
      wp_step. wp_step. cbn [fst snd]. wp_step.
      eapply wp_mono; [apply finish_ended|].
      { eapply settled_idle; [exact Hdone|apply pk_err|done|done]. }
      intros o s3 (-> & He). by wp_step.
    + apply Hthrow. eapply udp_reactor_done_settled, Hdone. done.
Qed.

(** The service gives back every descriptor, however it ends. *)
Lemma runUdpService_done k :
  0 < len (backends config_) <= 256 -> u_opened k = ∅ -> u_log k = [] ->
  wp (runUdpService config_ turns)
    (fun o k' => o <> Diverge -> held k' = held k /\ u_opened k' = ∅) k.
Proof using All.
  intros Hn Hc Hlog. unfold runUdpService. wp_step; [by wp_step|].
  eapply wp_mono; [apply runServiceObject_done|].
  - by rewrite up_reactor.
  - intros m k1 [Ha Hh] Hl. rewrite <-Hh. destruct (up_aside _ _ Ha) as (Hc1 & Hl1).
    apply runUdpServiceLifecycle_ended; [done|congruence|congruence|done].
  - intros o k' Hd Hnd. destruct (Hd Hnd) as [Hh Hr]. split; [done|]. by rewrite up_reactor in Hr.
Qed.
End udp_lifecycle.
