(* ===== verification/Containment.v ===== *)
(** * Failures that stay where they are handled

    [SessionFailure] (src/src/net/TcpReactor.cpp) is not a [std::exception]: the
    [catch] clauses around the services would not handle it.  The rules show
    along the structure of a program that none leaves it, whatever the system
    does. *)
From S2P Require Import Prelude.

(** ** Computations that no session failure leaves *)

Definition ordinary (e : exn) : Prop := match e with SessionFailure _ _ => False | _ => True end.
Definition standard {A} (o : outcome A) : Prop :=
  match o with Throw e => ordinary e | _ => True end.
(** No session failure leaves [m], and what it returns satisfies [P]. *)
Definition returning {St A} (P : A -> Prop) (m : M St A) : Prop :=
  forall s, match (m s).1 with Ret a => P a | Throw e => ordinary e | Diverge => True end.
Definition contained {St A} (m : M St A) : Prop := forall s, standard (m s).1.

Create HintDb contained.

Section rules.
Context {St : Type}.

Lemma contained_ret {A} (a : A) : contained (St := St) (mret a).
Proof. done. Qed.
Lemma contained_throw {A} e : ordinary e -> contained (St := St) (A := A) (mthrow e).
Proof. by intros He s. Qed.
Lemma contained_diverge {A} : contained (St := St) (A := A) mdiverge.
Proof. done. Qed.
Lemma contained_outcome {A} (o : outcome A) : standard o -> contained (St := St) (lift_outcome o).
Proof. by intros Ho s. Qed.
Lemma contained_bind {A B} (m : M St A) (f : A -> M St B) :
  contained m -> (forall a, contained (f a)) -> contained (mbind m f).
Proof.
  intros Hm Hf s. unfold mbind. specialize (Hm s).
  destruct (m s) as [[a|e|] s']; [apply Hf|exact Hm|done].
Qed.
Lemma contained_modify (f : St -> St) : contained (mmodify f).
Proof. done. Qed.
Lemma contained_catch {A} (m : M St A) h : (forall e, contained (h e)) -> contained (mcatch m h).
Proof. intros Hh s. unfold mcatch. destruct (m s) as [[a|e|] s']; [done|apply Hh|done]. Qed.
Lemma contained_handler {A} (m : M St A) h :
  contained m -> (forall e, ordinary e -> contained (h e)) -> contained (mcatch m h).
Proof.
  intros Hm Hh s. unfold mcatch. specialize (Hm s). destruct (m s) as [[a|e|] s']; [done|by apply Hh|done].
Qed.
Lemma contained_finally {A} (m : M St A) cleanup : contained m -> contained (mfinally m cleanup).
Proof. intros Hm s. unfold mfinally. specialize (Hm s). by destruct (m s). Qed.
Lemma contained_when b (m : M St unit) : contained m -> contained (mwhen b m).
Proof. by destruct b. Qed.
Lemma contained_for {A} (l : list A) (m : A -> M St unit) :
  (forall a, contained (m a)) -> contained (mfor l m).
Proof. intros Hm. induction l; [apply contained_ret|by apply contained_bind]. Qed.
Lemma contained_loop {A B} fuel (body : A -> M St (A + B)) a :
  (forall a, contained (body a)) -> contained (mloop fuel body a).
Proof.
  intros Hb. revert a. induction fuel as [|fuel IH]; intros a; [apply contained_diverge|].
  apply contained_bind; [done|]. intros [a'|b]; [done|apply contained_ret].
Qed.
Lemma contained_world {A} (op : St -> A * St) : contained (mworld op).
Proof. intros s. unfold mworld. by destruct (op s). Qed.
Lemma contained_orThrow {A} text (op : St -> (A + Z) * St) : contained (orThrow text op).
Proof. apply contained_bind; [apply contained_world|]. by intros [a|e]. Qed.

(** What remembers the exceptions of reports remembers ordinary ones. *)
Lemma returning_attempt (m : M St unit) failure :
  contained m -> optional ordinary failure -> returning (optional ordinary) (attempt m failure).
Proof.
  intros Hm Hf s. specialize (Hm s). unfold attempt, mcatch, mbind.
  destruct (m s) as [[[]|e|] s']; cbn in *; [done| |done]. by destruct failure.
Qed.
Lemma returning_ret {A} (P : A -> Prop) a : P a -> returning (St := St) P (mret a).
Proof. by intros Ha s. Qed.
Lemma returning_bind {A B} (P : A -> Prop) (Q : B -> Prop) (m : M St A) f :
  returning P m -> (forall a, P a -> returning Q (f a)) -> returning Q (mbind m f).
Proof.
  intros Hm Hf s. unfold mbind. specialize (Hm s).
  destruct (m s) as [[a|e|] s']; [by apply Hf|exact Hm|done].
Qed.
Lemma returning_then {A B} (Q : B -> Prop) (m : M St A) f :
  contained m -> (forall a, returning Q (f a)) -> returning Q (mbind m f).
Proof.
  intros Hm Hf s. unfold mbind. specialize (Hm s).
  destruct (m s) as [[a|e|] s']; [apply Hf|exact Hm|done].
Qed.
Lemma returning_throw {A} (P : A -> Prop) e : ordinary e -> returning (St := St) P (mthrow e).
Proof. by intros He s. Qed.
Lemma returning_finally {A} (P : A -> Prop) (m : M St A) cleanup :
  returning P m -> returning P (mfinally m cleanup).
Proof. intros Hm s. unfold mfinally. specialize (Hm s). by destruct (m s). Qed.
Lemma returning_handler {A} (P : A -> Prop) (m : M St A) h :
  returning P m -> (forall e, ordinary e -> returning P (h e)) -> returning P (mcatch m h).
Proof.
  intros Hm Hh s. unfold mcatch. specialize (Hm s). destruct (m s) as [[a|e|] s']; [done|by apply Hh|done].
Qed.
Lemma returning_loop {A B} (P : B -> Prop) fuel (body : A -> M St (A + B)) a :
  (forall a, returning (fun r => match r with inl _ => True | inr b => P b end) (body a)) ->
  returning P (mloop fuel body a).
Proof.
  intros Hb. revert a. induction fuel as [|fuel IH]; intros a; [by intros s|].
  eapply returning_bind; [apply Hb|]. intros [a'|b] Hr; [apply IH|by apply returning_ret].
Qed.
Lemma returning_contained {A} (P : A -> Prop) (m : M St A) : returning P m -> contained m.
Proof. intros Hm s. specialize (Hm s). by destruct (m s).1. Qed.
Lemma contained_after {A B} (P : A -> Prop) (m : M St A) (f : A -> M St B) :
  returning P m -> (forall a, P a -> contained (f a)) -> contained (mbind m f).
Proof.
  intros Hm Hf s. unfold mbind. specialize (Hm s).
  destruct (m s) as [[a|e|] s']; [by apply Hf|exact Hm|done].
Qed.
Lemma contained_returning {A} (m : M St A) : contained m -> returning (fun _ => True) m.
Proof. intros Hm s. specialize (Hm s). by destruct (m s).1. Qed.
End rules.

Section rules_pair.
Context {C W : Type}.

Lemma contained_own {A} (f : C -> A) : contained (own (W := W) f).
Proof. done. Qed.
Lemma contained_update (f : C -> C) : contained (update (W := W) f).
Proof. done. Qed.
Lemma contained_getworld : contained (world (C := C) (W := W)).
Proof. done. Qed.
Lemma contained_call {A} (op : W -> A * W) : contained (call (C := C) op).
Proof. intros s. unfold call. by destruct (op s.2). Qed.
Lemma contained_effect (op : W -> W) : contained (effect (C := C) op).
Proof. done. Qed.
Lemma contained_outside {A} (m : M W A) : contained m -> contained (outside (C := C) m).
Proof. intros Hm s. unfold outside. specialize (Hm s.2). by destruct (m s.2). Qed.
Lemma contained_zoom {D A} get set (m : M (C * W) A) :
  contained m -> contained (zoom (D := D) get set m).
Proof. intros Hm s. unfold zoom. specialize (Hm (get s.1, s.2)). by destruct (m _) as [? [? ?]]. Qed.
End rules_pair.

#[export] Hint Resolve contained_ret contained_diverge contained_modify contained_world
  contained_orThrow contained_own contained_update contained_getworld contained_call
  contained_effect : contained.

(** Follow the program; [mcatch] needs a rule of its own. *)
Ltac contain :=
  repeat
    lazymatch goal with
    | |- forall _, _ => intros ?
    | |- contained (mthrow _) => apply contained_throw; done
    | |- contained (mbind _ _) => apply contained_bind
    | |- contained (mwhen _ _) => apply contained_when
    | |- contained (mfor _ _) => apply contained_for
    | |- contained (mloop _ _ _) => apply contained_loop
    | |- contained (mfinally _ _) => apply contained_finally
    | |- contained (outside _) => apply contained_outside
    | |- contained (zoom _ _ _) => apply contained_zoom
    | |- contained (let _ := _ in _) => cbv zeta
    | |- contained (match ?x with _ => _ end) => destruct x
    | |- contained _ => solve [eauto with contained]
    end.

(** The same down to what is returned. *)
Ltac conclude :=
  repeat
    lazymatch goal with
    | |- forall _, _ => intros ?
    | |- returning _ (mret _) => apply returning_ret; done
    | |- returning _ (mthrow _) => apply returning_throw; done
    | |- returning _ (mbind _ _) => apply returning_then; [contain|]
    | |- returning _ (mfinally _ _) => apply returning_finally
    | |- returning _ (mloop _ _ _) => apply returning_loop
    | |- returning _ (let _ := _ in _) => cbv zeta
    | |- returning _ (match ?x with _ => _ end) => destruct x
    | |- returning _ _ => solve [eauto with contained]
    end.
