(* ===== verification/TcpContainment.v ===== *)
(** * No session failure leaves the TCP reactor (src/src/net/TcpReactor.cpp) *)
From S2P Require Import Prelude Config Core TcpState TcpReactor TcpReactorTheorems Containment.

Section tcp.
Context {W : Type} `{TcpOps W}.
Context (callbacks_ : TcpReactorCallbacks W) (options_ : TcpReactorOptions) (fuel : nat).

(** The callbacks are functions of the service, which never throws a session failure. *)
Record tcp_callbacks_contained : Prop := {
  tc_selector : optional contained (backendSelector callbacks_);
  tc_maintenance : optional contained (maintenanceCallback callbacks_);
  tc_statistics : optional (fun f => forall e, contained (f e)) (statisticsCallback callbacks_);
  tc_ready : optional contained (readyCallback callbacks_);
  tc_stopping : optional (fun f => forall e, contained (f e)) (stoppingCallback callbacks_);
  tc_session : optional (fun f => forall e, contained (f e)) (sessionCallback callbacks_);
  tc_diagnostic : optional (fun f => forall o e, contained (f o e)) (diagnosticCallback callbacks_);
  tc_observation : optional (fun f => forall o, contained (f o)) (observationCallback callbacks_)
}.

Context (Hcb : tcp_callbacks_contained).

Lemma tcp_stat_contained k n : contained (reportStatEvent callbacks_ k n).
Proof using Hcb.
  unfold reportStatEvent. pose proof (tc_statistics Hcb) as Hc.
  destruct (statisticsCallback callbacks_); contain.
Qed.
Lemma tcp_observation_contained k i sd v : contained (reportObservation callbacks_ k i sd v).
Proof using Hcb.
  unfold reportObservation. pose proof (tc_observation Hcb) as Hc.
  destruct (observationCallback callbacks_); contain.
Qed.
Lemma tcp_diagnostic_contained o e : contained (reportDiagnostic callbacks_ o e).
Proof using Hcb.
  unfold reportDiagnostic. pose proof (tc_diagnostic Hcb) as Hc.
  destruct (diagnosticCallback callbacks_); contain.
Qed.
Hint Resolve tcp_stat_contained tcp_observation_contained tcp_diagnostic_contained : contained.

Lemma startDraining_contained : contained (startDraining callbacks_ options_).
Proof using Hcb.
  unfold startDraining, closeListener. pose proof (tc_stopping Hcb) as Hc.
  destruct (stoppingCallback callbacks_) as [f|]; contain.
Qed.
Hint Resolve startDraining_contained : contained.
Lemma tcp_consume_contained : contained (consumeStopSignals callbacks_ options_ fuel).
Proof using Hcb. unfold consumeStopSignals, readStopSignal. contain. Qed.
Hint Resolve tcp_consume_contained : contained.

(** Closing reports everything, and rethrows an exception of a report. *)
Lemma tcp_detach_contained e : contained (detachEndpointFromEpoll (W := W) e).
Proof. unfold detachEndpointFromEpoll. contain. Qed.
Hint Resolve tcp_detach_contained : contained.

Lemma closeSession_contained i reason error : contained (closeSession callbacks_ i reason error).
Proof using Hcb.
  unfold closeSession, detachAndClose. pose proof (tc_session Hcb) as Hc.
  apply contained_bind; [contain|]. intros r. destruct (sessions_ r !! i) as [x|]; [|contain].
  do 4 (apply contained_bind; [contain|]; intros ?).
  assert (Hclose : forall c failure, optional ordinary failure ->
    returning (optional ordinary) (reportCloseError callbacks_ c failure)).
  { intros c failure Hf. unfold reportCloseError. destruct (c =? 0); [by apply returning_ret|].
    eapply returning_bind; [apply returning_attempt; [contain|done]|]. intros f Hf'.
    apply returning_attempt; [contain|done]. }
  eapply contained_after; [by apply Hclose|]. intros f1 Hf1.
  eapply contained_after; [by apply Hclose|]. intros f2 Hf2.
  eapply contained_after; [apply returning_attempt; [|done]|].
  { destruct (sessionCallback callbacks_); contain. }
  intros f3 Hf3. eapply contained_after; [apply returning_attempt; [contain|done]|].
  intros f4 Hf4. eapply contained_after; [apply returning_attempt; [contain|done]|].
  intros [e|] He; [by apply contained_throw|contain].
Qed.
Hint Resolve closeSession_contained : contained.

Lemma closeAllSessions_contained reason : contained (closeAllSessions callbacks_ reason).
Proof using Hcb.
  unfold closeAllSessions. contain. generalize (size (sessions_ a)) as n. intros n.
  assert (Hf : optional ordinary (@None exn)) by done. revert Hf. generalize (@None exn).
  induction n as [|n IH]; intros failure Hf; cbn [closeAllSessionsLoop];
    (apply contained_bind; [contain|]; intros r); (apply contained_bind; [contain|]; intros w);
    destruct (t_order _ w) as [|i l]; try (destruct failure; [by apply contained_throw|contain]);
    [contain|].
  eapply contained_after; [apply returning_attempt; [contain|done]|]. done.
Qed.
Hint Resolve closeAllSessions_contained : contained.

(** The work on a session may fail in any way. *)
Lemma closeOnFailure_contained i (m : M (TcpReactor * W) unit) :
  contained (closeOnFailure callbacks_ i m).
Proof using Hcb. apply contained_catch. intros []; contain. Qed.
Hint Resolve closeOnFailure_contained : contained.

Lemma dispatchEndpointEvent_contained t events :
  contained (dispatchEndpointEvent callbacks_ options_ fuel t events).
Proof using Hcb. unfold dispatchEndpointEvent. contain. Qed.
Hint Resolve dispatchEndpointEvent_contained : contained.

Lemma updateEpollRegistration_contained op f t mask :
  contained (updateEpollRegistration (W := W) op f t mask).
Proof. unfold updateEpollRegistration. contain. Qed.
Hint Resolve updateEpollRegistration_contained : contained.

Lemma processSessionIds_contained now ids :
  contained (processSessionIds callbacks_ options_ fuel now ids).
Proof using Hcb.
  induction ids as [|i ids IH]; cbn [processSessionIds]; [contain|].
  unfold processSessionDeadline, clearDeferred, ses, upd_end, upd. contain.
Qed.
Lemma advanceStopDrainIds_contained ids :
  contained (advanceStopDrainIds callbacks_ options_ fuel ids).
Proof using Hcb.
  induction ids as [|i ids IH]; cbn [advanceStopDrainIds]; [contain|].
  unfold resumeDeferred, ses, upd_end, upd. contain.
Qed.
Hint Resolve processSessionIds_contained advanceStopDrainIds_contained : contained.

Lemma processSessionDeadlines_contained : contained (processSessionDeadlines callbacks_ options_ fuel).
Proof using Hcb. unfold processSessionDeadlines, sessionIds. contain. Qed.
Hint Resolve processSessionDeadlines_contained : contained.

Lemma advanceStopDrain_contained : contained (advanceStopDrain callbacks_ options_ fuel).
Proof using Hcb. unfold advanceStopDrain, sessionIds. contain. Qed.
Hint Resolve advanceStopDrain_contained : contained.

Lemma backOffListener_contained : contained (backOffListener callbacks_).
Proof using Hcb.
  unfold backOffListener, currentErrno, badFunctionCall. pose proof (tc_diagnostic Hcb) as Hd.
  destruct (diagnosticCallback callbacks_); contain.
Qed.
Lemma closingFront_contained front {A} (m : M (TcpReactor * W) A) :
  contained m -> contained (closingFront front m).
Proof. intros Hm s. unfold closingFront. specialize (Hm s). by destruct (m s) as [? [? ?]]. Qed.
Lemma admitClient_contained front : contained (admitClient callbacks_ options_ front).
Proof using Hcb.
  unfold admitClient, addSession, badFunctionCall.
  pose proof (tc_selector Hcb) as Hs. pose proof (tc_session Hcb) as Hn.
  contain; try (apply closingFront_contained; contain).
  apply contained_handler; [destruct (backendSelector callbacks_); contain|].
  intros e He. contain.
Qed.
Hint Resolve backOffListener_contained admitClient_contained : contained.
Lemma acceptClientSessions_contained : contained (acceptClientSessions callbacks_ options_ fuel).
Proof using Hcb. unfold acceptClientSessions, acceptTurn. contain. Qed.
Hint Resolve acceptClientSessions_contained : contained.

Lemma dispatchTcpReadyEvents_contained events :
  contained (dispatchTcpReadyEvents callbacks_ options_ fuel events).
Proof using Hcb. induction events as [|[t mask] events IH]; cbn [dispatchTcpReadyEvents]; contain. Qed.
Hint Resolve dispatchTcpReadyEvents_contained : contained.

(** A turn that ends the loop ends it with 0. *)
Lemma eventLoopTurn_contained u :
  returning (fun r => match r with inr code => code = 0 | inl _ => True end)
    (eventLoopTurn callbacks_ options_ fuel u).
Proof using Hcb.
  unfold eventLoopTurn, pollTimeout. pose proof (tc_maintenance Hcb) as Hm.
  destruct (maintenanceCallback callbacks_); conclude.
Qed.
Hint Resolve eventLoopTurn_contained : contained.

Lemma runTcpEventLoop_contained turns :
  returning (fun code => code = 0) (runTcpEventLoop callbacks_ options_ fuel turns).
Proof using Hcb.
  unfold runTcpEventLoop, badFunctionCall. pose proof (tc_ready Hcb) as Hr.
  destruct (readyCallback callbacks_); conclude.
Qed.

Lemma runReactorObject_contained turns l :
  returning (fun code => code = 0) (runReactorObject callbacks_ options_ fuel turns l).
Proof using Hcb.
  intros w. unfold runReactorObject.
  pose proof (runTcpEventLoop_contained turns (initialTcpReactor l, w)) as Hl.
  destruct (runTcpEventLoop _ _ _ _ _) as [[code|e|] s]; cbn [fst snd] in *; [| |done];
    by destruct (destroyTcpReactor callbacks_ s) as [? [? ?]].
Qed.
Hint Resolve runReactorObject_contained : contained.

(** [runTcpReactor] returns 0 or throws a [std::exception]. *)
Lemma runTcpReactor_contained `{TcpSetupOps W} turns listen :
  returning (fun code => code = 0) (runTcpReactor callbacks_ options_ fuel turns listen).
Proof using Hcb.
  unfold runTcpReactor, setUpListener. conclude.
  apply contained_handler; contain.
Qed.
End tcp.

(** C17: the failure of a session ends that session only.  From any state of the
    reactor and whatever the system calls return, the event loop and the
    reactor around it return 0 or throw an exception other than the internal
    [SessionFailure], which the callers could not catch. *)
Theorem session_failure_stays_inside {W} `{TcpOps W} `{TcpSetupOps W} callbacks_ options_ fuel
    turns listen (s : TcpReactor * W) :
  tcp_callbacks_contained callbacks_ ->
  let ends_well (o : outcome Z) :=
    match o with
    | Ret code => code = 0
    | Throw e => forall operation error, e <> SessionFailure operation error
    | Diverge => True
    end in
  ends_well (runTcpEventLoop callbacks_ options_ fuel turns s).1 /\
  ends_well (runTcpReactor callbacks_ options_ fuel turns listen s.2).1.
Proof.
  intros Hcb ends_well.
  assert (Hw : forall St (m : M St Z) s, returning (fun code => code = 0) m -> ends_well (m s).1).
  { intros St m t Hm. specialize (Hm t). unfold ends_well. destruct (m t).1 as [code|e|]; [done| |done].
    intros operation error ->. done. }
  split; apply Hw; [by apply runTcpEventLoop_contained|by apply runTcpReactor_contained].
Qed.

Import ScriptedKernel.

(** The descriptor for the backend socket is taken, so the only session fails. *)
Definition crowded : Kernel := mkKernel {[9 := ([], [])]} 0 0 1 [] 0 [128] 8.

#[local] Instance kernel_setup : TcpSetupOps Kernel := {
  ts_block_signals w := (inl tt, w); ts_restore_signals w := w; ts_signalfd w := (inl 3, w);
  ts_epoll_create w := (inl 4, w); ts_socket w := (inl 9, w); ts_reuse_address _ w := (inl tt, w);
  ts_bind _ _ w := (inl tt, w); ts_listen _ w := (inl tt, w)
}.

Lemma scripted_contained : tcp_callbacks_contained callbacks.
Proof.
  split; cbn [optional callbacks backendSelector maintenanceCallback statisticsCallback readyCallback
    stoppingCallback sessionCallback diagnosticCallback observationCallback];
    try exact I; intros; first [apply contained_ret | apply contained_modify].
Qed.

Lemma session_failure_stays_inside_witness :
  let run := runTcpEventLoop callbacks options fuel 6 (initialTcpReactor 9, crowded) in
  nextSessionId_ run.2.1 = 2 /\ size (sessions_ run.2.1) = 0%nat /\
  run.1 <> Diverge /\ match run.1 with Ret code => code = 0 | _ => True end.
Proof.
  assert (Hret : (runTcpEventLoop callbacks options fuel 6 (initialTcpReactor 9, crowded)).1 = Ret 0)
    by (vm_compute; reflexivity).
  split; [vm_compute; reflexivity|]. split; [vm_compute; reflexivity|].
  destruct (session_failure_stays_inside callbacks options fuel 6 (mkEndpoint [0; 0; 0; 0] 80)
    (initialTcpReactor 9, crowded)) as [Hl _].
  { exact scripted_contained. }
  split; [rewrite Hret; discriminate|].
  destruct (runTcpEventLoop _ _ _ _ _).1; [exact Hl|exact I|exact I].
Defined.
