(* ===== verification/UdpContainment.v ===== *)
(** * What leaves the UDP reactor (src/src/net/UdpReactor.cpp) is a [std::exception] *)
From S2P Require Import Prelude Config Core UdpReactor Containment.

Section udp.
Context {W : Type} `{UdpOps W}.
Context (callbacks_ : UdpReactorCallbacks W) (options_ : UdpReactorOptions).

(** The callbacks are functions of the service, which never throws a session failure. *)
Record udp_callbacks_contained : Prop := {
  uc_selector_contained : optional contained (backendSelector callbacks_);
  uc_maintenance_contained : optional contained (maintenanceCallback callbacks_);
  uc_statistics_contained : optional (fun f => forall e, contained (f e)) (statisticsCallback callbacks_);
  uc_ready_contained : optional contained (readyCallback callbacks_);
  uc_flow_contained : optional (fun f => forall e, contained (f e)) (flowCallback callbacks_);
  uc_diagnostic_contained :
    optional (fun f => forall o e, contained (f o e)) (diagnosticCallback callbacks_);
  uc_observation_contained : optional (fun f => forall o, contained (f o)) (observationCallback callbacks_)
}.

Context (Hcb : udp_callbacks_contained).

Lemma udp_stat_contained k n : contained (reportStatEvent callbacks_ k n).
Proof using Hcb.
  unfold reportStatEvent. pose proof (uc_statistics_contained Hcb) as Hc.
  destruct (statisticsCallback callbacks_); contain.
Qed.
Lemma udp_observation_contained k t f : contained (reportObservation callbacks_ k t f).
Proof using Hcb.
  unfold reportObservation. pose proof (uc_observation_contained Hcb) as Hc.
  destruct (observationCallback callbacks_); contain.
Qed.
Hint Resolve udp_stat_contained udp_observation_contained : contained.
Lemma udp_diagnostic_contained o e : contained (reportDiagnostic callbacks_ o e).
Proof using Hcb.
  unfold reportDiagnostic. pose proof (uc_diagnostic_contained Hcb) as Hc.
  destruct (diagnosticCallback callbacks_); contain.
Qed.
Hint Resolve udp_diagnostic_contained : contained.

Lemma udp_consume_contained : contained (consumeStopSignals (W := W)).
Proof. unfold consumeStopSignals. contain. Qed.
Hint Resolve udp_consume_contained : contained.

(** Closing reports everything, and rethrows an exception of a report. *)
Lemma closeFlow_contained t reason error : contained (closeFlow callbacks_ t reason error).
Proof using Hcb.
  unfold closeFlow. pose proof (uc_flow_contained Hcb) as Hf.
  pose proof (uc_diagnostic_contained Hcb) as Hd.
  apply contained_bind; [contain|]. intros r. destruct (flows_ r !! t) as [x|]; [|contain].
  do 2 (apply contained_bind; [contain|]; intros _).
  apply contained_bind; [contain|]. intros deleted. cbv zeta.
  apply contained_bind; [contain|]. intros _.
  apply (contained_after (optional ordinary)).
  { unfold reportDetachError. destruct (_ =? 0); [by apply returning_ret|].
    eapply returning_bind; [apply returning_attempt; [contain|done]|]. intros f Hf'.
    apply returning_attempt; [destruct (diagnosticCallback callbacks_); contain|done]. }
  intros f1 Hf1. eapply contained_after; [apply returning_attempt; [contain|done]|].
  intros f2 Hf2. eapply contained_after; [apply returning_attempt; [contain|done]|].
  intros f3 Hf3. eapply contained_after; [apply returning_attempt; [|done]|].
  { destruct (flowCallback callbacks_); contain. }
  intros [e|] He; [by apply contained_throw|contain].
Qed.
Hint Resolve closeFlow_contained : contained.

Lemma expireIdleFlows_contained : contained (expireIdleFlows callbacks_ options_).
Proof using Hcb.
  unfold expireIdleFlows. contain.
  match goal with |- contained (expireFlows _ _ ?now ?ids) => induction ids as [|t l IH] end;
    cbn [expireFlows]; contain.
Qed.
Hint Resolve expireIdleFlows_contained : contained.

Lemma closeAllFlows_contained : contained (closeAllFlows callbacks_).
Proof using Hcb.
  unfold closeAllFlows. contain. generalize (size (flows_ a)) as n. intros n.
  assert (Hf : optional ordinary (@None exn)) by done. revert Hf. generalize (@None exn).
  induction n as [|n IH]; intros failure Hf; cbn [closeAllFlowsLoop];
    (apply contained_bind; [contain|]; intros r); (apply contained_bind; [contain|]; intros w);
    destruct (u_order _ w) as [|i l]; try (destruct failure; [by apply contained_throw|contain]);
    [contain|].
  eapply contained_after; [apply returning_attempt; [contain|done]|]. done.
Qed.
Hint Resolve closeAllFlows_contained : contained.

Lemma closingFd_contained f {A} (m : M (UdpReactor * W) A) : contained m -> contained (closingFd f m).
Proof. intros Hm s. unfold closingFd. specialize (Hm s). by destruct (m s) as [? [? ?]]. Qed.
Hint Resolve closingFd_contained : contained.

Lemma dropSetup_contained e : contained (dropSetup callbacks_ e).
Proof using Hcb. unfold dropSetup. contain. Qed.
Hint Resolve dropSetup_contained : contained.

Lemma registerFlow_contained flow : contained (registerFlowIndexesAndSocket callbacks_ flow).
Proof using Hcb.
  unfold registerFlowIndexesAndSocket, eraseFlow. contain.
  1,2: apply closingFd_contained; contain.
  apply contained_handler; [unfold registerFlowSocket; contain|].
  intros e He. destruct e; contain.
Qed.
Hint Resolve registerFlow_contained : contained.

Lemma addFlow_contained k b f : contained (addFlow callbacks_ k b f).
Proof using Hcb.
  unfold addFlow, flowCreated. pose proof (uc_flow_contained Hcb) as Hf.
  destruct (flowCallback callbacks_); contain; apply closingFd_contained; contain.
Qed.
Hint Resolve addFlow_contained : contained.

Lemma createFlow_contained k : contained (createFlow callbacks_ options_ k).
Proof using Hcb.
  unfold createFlow, openFlow, badFunctionCall. pose proof (uc_selector_contained Hcb) as Hs.
  destruct (backendSelector callbacks_); contain; apply closingFd_contained; contain.
Qed.
Hint Resolve createFlow_contained : contained.

Lemma handleSocketError_contained code listener t kind :
  contained (handleSocketError callbacks_ code listener t kind).
Proof using Hcb. unfold handleSocketError. contain. Qed.
Hint Resolve handleSocketError_contained : contained.

Lemma flowAt_contained t : contained (flowAt (W := W) t).
Proof. unfold flowAt. contain. Qed.
Lemma flowExpired_contained flow : contained (flowExpired (W := W) options_ flow).
Proof. unfold flowExpired. contain. Qed.
Hint Resolve flowAt_contained flowExpired_contained : contained.

Lemma resolveFlow_contained k : contained (resolveFlowTokenForDatagram callbacks_ options_ k).
Proof using Hcb.
  unfold resolveFlowTokenForDatagram, liveToken. contain. apply contained_handler; contain.
Qed.
Hint Resolve resolveFlow_contained : contained.

Lemma sendFlowDatagram_contained flow size reply :
  contained (sendFlowDatagram callbacks_ flow size reply).
Proof using Hcb.
  unfold sendFlowDatagram. apply contained_bind; [contain|]. intros r. generalize 4%nat. intros n.
  induction n as [|n IH]; cbn [sendAttempts]; unfold submitDatagram, datagramSent; contain.
Qed.
Hint Resolve sendFlowDatagram_contained : contained.

Lemma handleListenerRead_contained : contained (handleListenerRead callbacks_ options_).
Proof using Hcb.
  unfold handleListenerRead. generalize 64%nat. intros n.
  induction n as [|n IH]; cbn [handleListenerReadLoop];
    unfold listenerAttempt, storeDatagram, forwardDatagram; contain.
Qed.
Lemma handleBackendRead_contained t : contained (handleBackendRead callbacks_ options_ t).
Proof using Hcb.
  unfold handleBackendRead. generalize 64%nat. intros n.
  induction n as [|n IH]; cbn [handleBackendReadLoop]; unfold backendAttempt, storeDatagram; contain.
Qed.
Hint Resolve handleListenerRead_contained handleBackendRead_contained : contained.

Lemma checkSocketError_contained t f listener : contained (checkSocketError callbacks_ t f listener).
Proof using Hcb. unfold checkSocketError. contain. Qed.
Hint Resolve checkSocketError_contained : contained.

Lemma dispatchEvents_contained events : contained (dispatchEvents callbacks_ options_ events).
Proof using Hcb.
  induction events as [|[t mask] events IH]; cbn [dispatchEvents];
    unfold dispatchFlowEvent, handleReadyEvent; contain.
Qed.
Hint Resolve dispatchEvents_contained : contained.

Lemma runUdpEventLoop_contained turns :
  returning (fun code => code = 0) (runUdpEventLoop callbacks_ options_ turns).
Proof using Hcb.
  unfold runUdpEventLoop, udpLoopTurn.
  pose proof (uc_ready_contained Hcb) as Hr. pose proof (uc_maintenance_contained Hcb) as Hm.
  destruct (readyCallback callbacks_), (maintenanceCallback callbacks_); conclude.
Qed.

Lemma udp_runReactorObject_contained turns ep l :
  returning (fun code => code = 0) (runReactorObject callbacks_ options_ turns ep l).
Proof using Hcb.
  intros w. unfold runReactorObject.
  assert (Hl : returning (fun code => code = 0)
    (result <- runUdpEventLoop callbacks_ options_ turns ;; closeAllFlows callbacks_ ;;; mret result)).
  { eapply returning_bind; [apply runUdpEventLoop_contained|]. intros code ->. conclude. }
  specialize (Hl (initialUdpReactor ep l, w)).
  destruct ((result <- runUdpEventLoop callbacks_ options_ turns ;; closeAllFlows callbacks_ ;;;
    mret result) (initialUdpReactor ep l, w)) as [[code|e|] s]; cbn [fst snd] in *; [| |done];
    by destruct (destroyUdpReactor callbacks_ s) as [? [? ?]].
Qed.
Hint Resolve udp_runReactorObject_contained : contained.

(** [runUdpReactor] returns 0 or throws a [std::exception]. *)
Lemma runUdpReactor_contained `{UdpSetupOps W} turns listen :
  returning (fun code => code = 0) (runUdpReactor callbacks_ options_ turns listen).
Proof using Hcb.
  unfold runUdpReactor, setUpListener. conclude.
  apply contained_handler; contain.
Qed.
End udp.
