(* ===== verification/ServiceContainment.v ===== *)
(** * What leaves a service is a [std::exception]

    The parts of the services (the health checker, the selection, the metrics,
    the callbacks and the lifecycles) throw no session failure of their own, so
    that [TcpContainment] and [UdpContainment] apply to them. *)
From S2P Require Import Prelude Config Core HealthState TcpHealth Metrics HealthSelection.
From S2P Require Import MetricsService ServiceRuntime Containment TcpContainment UdpContainment.
From S2P Require TcpReactor UdpReactor TcpService UdpService.

Section parts.
Context {K : Type} `{ServiceOps K} `{TcpProbeOps K}.

(** ** The health checks and the selection *)

Lemma completeBackendProbe_contained callback i success reason error time :
  optional (fun f => forall e, contained (f e)) callback ->
  contained (completeBackendProbe (W := K) callback i success reason error time).
Proof.
  intros Hc. unfold completeBackendProbe. destruct callback as [f|]; contain.
Qed.
Hint Resolve completeBackendProbe_contained : contained.

Lemma completeReadyProbe_contained callback events i time :
  optional (fun f => forall e, contained (f e)) callback ->
  contained (completeReadyProbe (W := K) callback events i time).
Proof. intros Hc. induction events as [|e events IH]; cbn [completeReadyProbe]; contain. Qed.
Hint Resolve completeReadyProbe_contained : contained.

Lemma pollHealthProbes_contained callback :
  optional (fun f => forall e, contained (f e)) callback ->
  contained (pollHealthProbes (W := K) callback).
Proof.
  intros Hc. unfold pollHealthProbes, pollBackendProbe, startBackendProbe, startConnected. contain.
Qed.

Lemma pollSelectionProbes_contained : contained (pollSelectionProbes (Sch := RoundRobinScheduler) (W := K)).
Proof.
  unfold pollSelectionProbes. contain. apply pollHealthProbes_contained. cbn. unfold onHealthChange. contain.
Qed.
Hint Resolve pollSelectionProbes_contained : contained.

Lemma selectEligibleBackendIndex_standard (s : RoundRobinScheduler) eligible :
  standard (selectEligibleBackendIndex s eligible).1.
Proof.
  unfold selectEligibleBackendIndex. destruct (forallb _ _); [done|].
  generalize (length eligible). intros n. revert s.
  induction n as [|n IH]; intros s; cbn [selectionAttempts]; [done|].
  destruct (selectNextBackendIndex s) as [i s']. destruct (eligible !! _) as [[]|]; [done|apply IH|done].
Qed.

Lemma selectBackend_contained : contained (selectBackend (Sch := RoundRobinScheduler) (W := K)).
Proof.
  unfold selectBackend. apply contained_bind; [contain|]. intros h. destruct (checker_ h); [|contain].
  do 2 (apply contained_bind; [contain|]; intros ?).
  match goal with |- context [selectEligibleBackendIndex ?s ?l] =>
    pose proof (selectEligibleBackendIndex_standard s l) as Hs; destruct (selectEligibleBackendIndex s l) end.
  contain. by apply contained_outcome.
Qed.

Lemma newHealthSelection_contained config :
  contained (newHealthSelection (W := K) config createBackendScheduler).
Proof.
  unfold newHealthSelection, newTcpHealthChecker. contain. apply contained_outcome.
  unfold createBackendScheduler, newRoundRobinScheduler. destruct (scheduler config). by destruct (_ =? 0).
Qed.
Hint Resolve newHealthSelection_contained : contained.

(** ** The metrics *)

Context (config_ : Config).

Lemma copyBackendHealth_standard (h : Selection) span : standard (copyBackendHealth h span).
Proof.
  unfold copyBackendHealth. destruct (negb _); [done|]. destruct (checker_ h); [|done].
  by destruct (mapM _ _).
Qed.
Lemma contained_may_throw {W A} (op : W -> (A + exn) * W) :
  (forall w e, (op w).1 = inr e -> ordinary e) -> contained (may_throw op).
Proof. intros Ho w. unfold may_throw. specialize (Ho w). by destruct (op w) as [[a|e] w']; [|apply Ho]. Qed.

Lemma metrics_now_contained : contained (may_throw (m_now (MetricsOps := metrics_ops (K := K) config_))).
Proof. apply contained_may_throw. intros w e. cbn. by destruct (steady_now w.2). Qed.
Lemma metrics_write_contained line :
  contained (may_throw (m_write (MetricsOps := metrics_ops (K := K) config_) line)).
Proof. apply contained_may_throw. intros w e. cbn. by destruct (write_stderr line w.2). Qed.
Hint Resolve metrics_now_contained metrics_write_contained : contained.

Lemma emitSnapshot_contained d phase :
  contained (emitSnapshot (H := metrics_ops (K := K) config_) formatMetricsSnapshot d phase).
Proof. unfold emitSnapshot. contain. apply contained_catch. contain. Qed.
Hint Resolve emitSnapshot_contained : contained.

Lemma inMetrics_contained {A} (m : M (MetricsService * (option Selection * K)) A) :
  contained m -> contained (inMetrics m).
Proof. intros Hm s. unfold inMetrics. specialize (Hm (metrics_ s.1, (selection_ s.1, s.2))).
  by destruct (m _) as [? [? [? ?]]]. Qed.
Lemma inSelection_contained {A} (m : M (Selection * K) A) : contained m -> contained (inSelection m).
Proof.
  intros Hm s. unfold inSelection. destruct (selection_ s.1) as [h|]; [|done].
  specialize (Hm (h, s.2)). by destruct (m _) as [? [? ?]].
Qed.

Lemma recordServiceEvent_contained e : contained (recordServiceEvent (K := K) e).
Proof. unfold recordServiceEvent. contain. Qed.
Hint Resolve recordServiceEvent_contained : contained.

Lemma emitServiceReady_contained : contained (emitServiceReady (K := K) config_).
Proof.
  unfold emitServiceReady, withOutput, emitReadySnapshot. contain. apply contained_catch. contain.
Qed.
Lemma emitServicePeriodic_contained : contained (emitServicePeriodic (K := K) config_).
Proof.
  unfold emitServicePeriodic, withOutput, emitPeriodicSnapshotIfDue. contain. apply contained_catch. contain.
Qed.
Lemma finishService_contained error : contained (finishService (K := K) config_ error).
Proof. apply inMetrics_contained. unfold finishMetrics, withOutput, emitFinalSnapshot. contain. Qed.

(** ** The shared callbacks *)

Lemma selectServiceBackend_contained : contained (selectServiceBackend (K := K)).
Proof. apply inSelection_contained, selectBackend_contained. Qed.
Lemma onStatistics_contained e : contained (onStatistics (K := K) e).
Proof. apply inMetrics_contained. contain. Qed.
Lemma onMaintenance_contained : contained (onMaintenance (K := K) config_).
Proof.
  unfold onMaintenance. contain; [apply inSelection_contained; contain|].
  apply inMetrics_contained, emitServicePeriodic_contained.
Qed.
Lemma makeSelection_contained : contained (makeSelection (K := K) config_).
Proof. unfold makeSelection. contain. Qed.
Lemma newMetricsService_contained : contained (newMetricsService (K := K) config_).
Proof.
  unfold newMetricsService. contain. apply contained_outcome. unfold newMetricsCollector.
  by destruct (_ || _).
Qed.

(** The runtime object: what its lifecycle returns or throws. *)
Lemma runServiceObject_returning (P : Z -> Prop) (lifecycle : M (Service * K) Z) :
  returning P lifecycle -> returning P (runServiceObject config_ lifecycle).
Proof.
  intros Hl. unfold runServiceObject. apply returning_then; [apply newMetricsService_contained|].
  intros m k. specialize (Hl (mkService None m, k)). by destruct (lifecycle _) as [? [? ?]].
Qed.
End parts.
#[export] Hint Resolve finishService_contained makeSelection_contained selectServiceBackend_contained
  onStatistics_contained onMaintenance_contained emitServiceReady_contained inMetrics_contained : contained.

(** ** The services *)

Section tcp_service.
Import TcpReactor TcpService.
Context {K : Type} `{ServiceOps K} `{TcpProbeOps K} `{TcpOps K} `{TcpSetupOps K}.
Context (config_ : Config).

Lemma bindTcpCallbacks_contained sv : tcp_callbacks_contained (bindTcpCallbacks (K := K) config_ sv).
Proof.
  split; cbn [backendSelector maintenanceCallback statisticsCallback readyCallback
    stoppingCallback sessionCallback diagnosticCallback observationCallback bindTcpCallbacks];
    try destruct (_ || _); try destruct (metricsEnabled _); cbn [optional];
    unfold onReady, onStopping, onSession, onDiagnostic; contain; done.
Qed.

Lemma runTcpService_returning fuel turns :
  returning (fun code => code = 0) (runTcpService (K := K) config_ fuel turns).
Proof.
  unfold runTcpService. destruct (negb _); [by apply returning_throw|].
  apply runServiceObject_returning. unfold runTcpServiceLifecycle.
  apply returning_handler; [|conclude].
  apply returning_then; [contain|]. intros _. apply returning_then; [contain|]. intros sv.
  eapply returning_bind; [apply runTcpReactor_contained, bindTcpCallbacks_contained|].
  intros code Hc. conclude.
Qed.
End tcp_service.

Section udp_service.
Import UdpReactor UdpService.
Context {K : Type} `{ServiceOps K} `{TcpProbeOps K} `{UdpOps K} `{UdpSetupOps K}.
Context (config_ : Config).

Lemma bindUdpCallbacks_contained sv : udp_callbacks_contained (bindUdpCallbacks (K := K) config_ sv).
Proof.
  split; cbn [backendSelector maintenanceCallback statisticsCallback readyCallback
    flowCallback diagnosticCallback observationCallback bindUdpCallbacks];
    try destruct (_ || _); try destruct (metricsEnabled _); cbn [optional];
    unfold onReady, onFlow, onDiagnostic; contain; done.
Qed.

Lemma runUdpService_returning turns :
  returning (fun code => code = 0) (runUdpService (K := K) config_ turns).
Proof.
  unfold runUdpService. destruct (negb _); [by apply returning_throw|].
  apply runServiceObject_returning. unfold runUdpServiceLifecycle.
  apply returning_handler; [|conclude].
  apply returning_then; [contain|]. intros _. apply returning_then; [contain|]. intros sv.
  eapply returning_bind; [apply runUdpReactor_contained, bindUdpCallbacks_contained|].
  intros code Hc. conclude.
Qed.
End udp_service.
