(* ===== verification/CliTheorems.v ===== *)
(** * The service program as a whole (src/src/cli/main.cpp)

    From the command line to the exit status: no exception escapes, every
    descriptor is given back, and the metrics end settled, for both protocols. *)
From S2P Require Import Prelude Os Config Core TcpHealth Metrics HealthSelection TcpReactorSafety.
From S2P Require Import UdpReactorSafety MetricsService ServiceRuntime Cli SelectionSafety.
From S2P Require Import ServiceSafety TcpServiceSafety UdpServiceSafety Containment.
From S2P Require Import ServiceContainment.
From S2P Require TcpReactor UdpReactor TcpService UdpService.

(** ** Loading the configuration *)

Lemma loadConfig_returns {W} `{FileOps W} path w :
  wp (loadConfig path)
    (fun o _ => exists r, o = Ret r /\ forall c, r = inl c -> valid_config c) w.
Proof.
  assert (Herr : forall reason c, makeConfigFileError path reason = inl c -> valid_config c) by done.
  unfold loadConfig. wp_step. wp_step. destruct (os_open _ _ w) as [[fd|errno] w1]; cbn [fst snd].
  2: { wp_step. eauto. }
  wp_step. wp_step. wp_step. destruct (os_fstat fd w1) as [[st|errno] w2]; cbn [fst snd].
  2: { wp_step. eauto. }
  wp_step; [wp_step; eauto|]. unfold loadConfigRead.
  apply (wp_loop_measure (fun contents _ => Z.to_nat (kMaxConfigBytes + 1 - len contents)) _ _
    (fun _ _ => True)); [change (len []) with 0; unfold kMaxConfigBytes; lia|done|].
  intros contents w3 _. destruct (Z.leb_spec (len contents) kMaxConfigBytes) as [Hle|Hgt].
  2: { wp_step. eauto. }
  cbv zeta. wp_step. wp_step. destruct (os_read _ _ w3) as [[[|c chunk]|errno] w4]; cbn [fst snd].
  - rewrite parseConfig_reference. wp_step. eexists. split; [done|].
    intros c Hc. by eapply parse_reference_valid.
  - wp_step. split; [done|]. rewrite len_app, len_cons. pose proof (len_nonneg chunk). lia.
  - wp_step. eauto.
Qed.

(** The file is a descriptor of the process like the others. *)
Class FileKernel (K : Type) `{FileOps K} `{ProgramGhost K} := {
  fk_open : forall path flags, opens (os_open path flags);
  fk_fstat : forall fd k, idle k (os_fstat fd k).2;
  fk_read : forall fd n k, idle k (os_read fd n k).2;
  fk_close : forall f k, f ∈ held k -> aside k (os_close f k) /\ held (os_close f k) = held k ∖ {[f]}
}.

Lemma loadConfig_balanced {K} `{ProgramKernel K} `{!FileOps K} `{!FileKernel K} path k :
  wp (loadConfig path) (fun _ k' => idle k k') k.
Proof.
  unfold loadConfig. wp_step. wp_step. pose proof (fk_open path [O_RDONLY; O_NONBLOCK; O_CLOEXEC] k) as Ho.
  destruct (os_open _ _ k) as [[fd|errno] k1]; cbn [fst snd]; [|by wp_step].
  destruct Ho as (Hp & Hn & _ & Ha & Hh). wp_step.
  assert (Hend : forall k2, idle k1 k2 -> idle k (os_close fd k2)).
  { intros k2 [Ha2 Hh2]. destruct (fk_close fd k2) as [Ha3 Hh3]; [rewrite Hh2, Hh; set_solver|].
    split; [eapply pk_trans; [exact Ha|]; by eapply pk_trans|]. rewrite Hh3, Hh2, Hh. set_solver. }
  wp_step. wp_step. pose proof (fk_fstat fd k1) as Hs.
  destruct (os_fstat fd k1) as [[st|errno] k2]; cbn [fst snd] in *; [|wp_step; by apply Hend].
  wp_step; [wp_step; by apply Hend|]. unfold loadConfigRead.
  apply (wp_loop _ _ (fun _ k' => idle k1 k')); [done| |].
  2: { intros _ k' Hi. by apply Hend. }
  intros contents k3 Hi. destruct (_ <=? _); [|wp_step; by apply Hend].
  cbv zeta. wp_step. wp_step. pose proof (fk_read fd (Z.min 4096 (kMaxConfigBytes + 1 - len contents)) k3) as Hr.
  destruct (os_read _ _ k3) as [[[|c chunk]|errno] k4]; cbn [fst snd] in *;
    pose proof (idle_trans _ _ _ Hi Hr) as Hi4; [destruct (parseConfig contents)|..];
    wp_step; try done; by apply Hend.
Qed.

(** ** The exit status *)

(** The arguments that the program accepts. *)
Definition usage_ok (args : list bytes) : bool :=
  match args with
  | [option] => bool_decide (option = bs "--help")
  | [option; path] => validArguments option path
  | _ => false
  end.

(** How the program ends from [k] with arguments it accepts: by the result of
    reading the configuration and, with --run, by what becomes of the service. *)
Inductive command_ends {K} `{FileOps K} `{ServiceOps K} `{TcpProbeOps K}
    `{TcpReactor.TcpOps K} `{TcpReactor.TcpSetupOps K} `{UdpReactor.UdpOps K} `{UdpReactor.UdpSetupOps K}
    (fuel turns : nat) (k : K) : list bytes -> outcome Z -> K -> Prop :=
| ends_help :
    command_ends fuel turns k [bs "--help"] (Ret 0) (std_out helpText k)
| ends_invalid option path error k1 :
    loadConfig path k = (Ret (inr error), k1) ->
    command_ends fuel turns k [option; path] (Ret 1) (std_err (configErrorLine error) k1)
| ends_checked path config k1 :
    loadConfig path k = (Ret (inl config), k1) -> valid_config config ->
    command_ends fuel turns k [bs "--check-config"; path] (Ret 0) (std_out (validLine config) k1)
| ends_served path config k1 k2 :
    loadConfig path k = (Ret (inl config), k1) -> valid_config config ->
    runConfiguredService fuel turns config k1 = (Ret 0, k2) ->
    command_ends fuel turns k [bs "--run"; path] (Ret 0) k2
| ends_failed path config e k1 k2 :
    loadConfig path k = (Ret (inl config), k1) -> valid_config config ->
    runConfiguredService fuel turns config k1 = (Throw e, k2) ->
    command_ends fuel turns k [bs "--run"; path] (Ret 1) (std_err (serviceErrorLine (K := K) e) k2)
| ends_serving path config k1 k2 :
    loadConfig path k = (Ret (inl config), k1) -> valid_config config ->
    runConfiguredService fuel turns config k1 = (Diverge, k2) ->
    command_ends fuel turns k [bs "--run"; path] Diverge k2.

Lemma runCommand_ends {K} `{FileOps K} `{ServiceOps K} `{TcpProbeOps K}
    `{TcpReactor.TcpOps K} `{TcpReactor.TcpSetupOps K} `{UdpReactor.UdpOps K} `{UdpReactor.UdpSetupOps K}
    fuel turns option path (k : K) :
  option = bs "--check-config" \/ option = bs "--run" ->
  let '(o, k') := runCommand fuel turns option path k in command_ends fuel turns k [option; path] o k'.
Proof.
  intros Hoption. unfold runCommand. unfold mbind at 1. pose proof (loadConfig_returns path k) as Hl. unfold wp in Hl.
  destruct (loadConfig path k) as [o k1] eqn:Hload. cbn [fst snd] in Hl. destruct Hl as (r & -> & Hvalid).
  destruct r as [config|error]; [|by apply ends_invalid]. specialize (Hvalid config eq_refl).
  case_bool_decide as Hrun.
  2: { destruct Hoption as [->|]; [|done]. by apply ends_checked. }
  subst option. unfold catchServiceError, mcatch.
  assert (Hc : returning (fun code => code = 0) (runConfiguredService (K := K) fuel turns config)).
  { unfold runConfiguredService. destruct (protocol config);
      [apply runTcpService_returning|apply runUdpService_returning]. }
  specialize (Hc k1). destruct (runConfiguredService fuel turns config k1) as [[code|e|] k2] eqn:Hr; cbn [fst snd] in Hc.
  - subst code. by eapply ends_served.
  - destruct e; try (by eapply ends_failed). done.
  - by eapply ends_serving.
Qed.

(** C18: the exit status of the program is the one its arguments, the
    configuration and the run call for, and no exception leaves [main].  The help
    is printed with status 0; other arguments than --help, --check-config and
    --run with a path are a usage error, with status 2 after the usage line and
    nothing else.  A configuration that cannot be read or is not valid gives
    status 1 after the error's line; a valid one that is only checked gives
    status 0 after the line that says so.  A service that returns gives status
    0, one that ends with an exception gives status 1 after the error's line, and
    only a service runs on. *)
Theorem main_exit_status {K} `{FileOps K} `{ServiceOps K} `{TcpProbeOps K}
    `{TcpReactor.TcpOps K} `{TcpReactor.TcpSetupOps K} `{UdpReactor.UdpOps K} `{UdpReactor.UdpSetupOps K}
    fuel turns args (k : K) :
  let '(o, k') := main fuel turns args k in
  if usage_ok args then command_ends fuel turns k args o k'
  else o = Ret 2 /\ k' = std_err usageLine k.
Proof.
  destruct args as [|option [|path [|]]]; [done| | |done]; unfold main, usage_ok.
  - case_bool_decide as Hhelp; [subst option; apply ends_help|done].
  - destruct (validArguments option path) eqn:Hv; [|done]. apply runCommand_ends.
    unfold validArguments in Hv. apply andb_prop in Hv as [Hv _]. apply andb_prop in Hv as [Hv _].
    apply orb_prop in Hv as [Hv|Hv]; apply bool_decide_eq_true in Hv; auto.
Qed.

(** ** Nothing is left open *)

Class ProgramSystem (K : Type) `{FileOps K} `{ServiceOps K} `{TcpProbeOps K}
    `{TcpReactor.TcpOps K} `{TcpReactor.TcpSetupOps K} `{UdpReactor.UdpOps K} `{UdpReactor.UdpSetupOps K}
    `{ProgramGhost K} `{TcpGhost K} `{UdpGhost K} := {
  #[export] ps_tcp :: TcpProgramKernel K;
  #[export] ps_udp :: UdpProgramKernel K;
  #[export] ps_file :: FileKernel K
}.

Section releases.
Context {K : Type} `{ProgramSystem K}.

(** The end of a run that started from [k]. *)
Definition releases (k : K) (o : outcome Z) (k' : K) : Prop :=
  o <> Diverge -> held k' = held k /\ conn k' = ∅ /\ u_opened k' = ∅.

Lemma no_socket (k : K) : conn k = ∅ <-> u_opened k = ∅.
Proof using All. rewrite <-up_reactor, tp_reactor. split; [intros ->; apply dom_empty_L|apply dom_empty_inv_L]. Qed.

Lemma idle_releases k k1 k' o :
  idle k1 k' -> held k1 = held k -> conn k1 = ∅ -> releases k o k'.
Proof using All.
  intros [Ha Hh] Hh1 Hc1 _. destruct (tp_aside _ _ Ha) as (Hc' & _). rewrite <-no_socket, Hc', Hh. done.
Qed.

Lemma say_releases k k1 (op : K -> K) (status : Z) :
  (forall k, idle k (op k)) -> held k1 = held k -> conn k1 = ∅ ->
  wp (mmodify op ;;; mret status) (releases k) k1.
Proof using All. intros Hop ? ?. wp_step. wp_step. wp_step. by eapply idle_releases. Qed.

Lemma service_releases k k1 fuel turns config :
  valid_config config -> idle k k1 -> conn k = ∅ -> u_log k = [] -> within_bounds fuel k ->
  wp (runConfiguredService fuel turns config) (releases k) k1.
Proof using All.
  intros (_ & _ & _ & Hn) [Ha Hh] Hc Hlog Hb. unfold runConfiguredService.
  destruct (tp_aside _ _ Ha) as (Hc1 & _), (up_aside _ _ Ha) as (Ho1 & Hl1). destruct (protocol config).
  - eapply wp_mono; [apply runTcpService_done; [lia|congruence|by eapply within_aside]|].
    intros o k' Hd Hnd. destruct (Hd Hnd) as [Hh' Hc']. rewrite <-no_socket. split; [congruence|done].
  - eapply wp_mono; [apply runUdpService_done; [lia| |congruence]|].
    + rewrite <-no_socket. congruence.
    + intros o k' Hd Hnd. destruct (Hd Hnd) as [Hh' Hc']. rewrite no_socket. split; [congruence|done].
Qed.

Lemma command_releases k fuel turns option path :
  conn k = ∅ -> u_log k = [] -> within_bounds fuel k ->
  wp (runCommand fuel turns option path) (releases k) k.
Proof using All.
  intros Hc Hlog Hb. unfold runCommand. wp_step.
  eapply wp_mono; [apply (wp_conj _ _ _ _ (loadConfig_returns path k) (loadConfig_balanced path k))|].
  intros o k1 ((r & -> & Hr) & Hi). assert (Hh1 : held k1 = held k) by apply Hi.
  assert (Hc1 : conn k1 = ∅) by (destruct (tp_aside _ _ (proj1 Hi)); congruence).
  destruct r as [config|error]; [|apply say_releases; try done; intros; apply pk_err].
  case_bool_decide as Hrun; [|apply say_releases; try done; intros; apply pk_out].
  unfold catchServiceError. wp_step. eapply wp_mono; [by apply service_releases; [apply Hr|..]|].
  intros [code|e|] k2 Hk2; [done| |done]. specialize (Hk2 ltac:(done)) as (Hh2 & Hc2 & _).
  destruct e; try (apply say_releases; try done; intros; apply pk_err).
  wp_step. intros _. rewrite <-no_socket. done.
Qed.

Lemma main_releases k fuel turns args :
  conn k = ∅ -> u_log k = [] -> within_bounds fuel k -> wp (main fuel turns args) (releases k) k.
Proof using All.
  intros Hc Hlog Hb.
  assert (Hbad : wp (mmodify (std_err usageLine) ;;; mret 2) (releases k) k).
  { apply say_releases; try done. intros. apply pk_err. }
  unfold main. destruct args as [|option [|path [|]]]; [exact Hbad| | |exact Hbad].
  - case_bool_decide; [|exact Hbad]. apply say_releases; try done. intros. apply pk_out.
  - destruct (validArguments option path); [by apply command_releases|exact Hbad].
Qed.
End releases.

(** C4: whatever the arguments, the configuration and the events are: when the
    program comes to its end, normally or by an error, the descriptors of the
    process are those it started with, and no socket of a reactor is open. *)
Theorem main_releases_descriptors {K} `{ProgramSystem K} fuel turns args (k : K) :
  conn k = ∅ -> u_log k = [] -> within_bounds fuel k ->
  let '(o, k') := main fuel turns args k in
  o <> Diverge -> held k' = held k /\ conn k' = ∅ /\ u_opened k' = ∅.
Proof.
  intros Hc Hlog Hb. pose proof (main_releases k fuel turns args Hc Hlog Hb) as Hr.
  unfold wp in Hr. by destruct (main _ _ _ _).
Qed.

(** C16: however the lifecycle of a service ends, the metrics count no active
    session or flow any more and are marked as final. *)
Theorem service_metrics_settle {K} `{ProgramSystem K} config m fuel turns (k : K) :
  valid_config config -> conn k = ∅ -> u_log k = [] -> within_bounds fuel k ->
  live_of (mkService None m) = 0 ->
  let quiet_end r := r.1 <> Diverge ->
    live_of r.2.1 = 0 /\
    (output_ (metrics_ r.2.1) <> None -> MetricsService.finalized_ (metrics_ r.2.1) = true) in
  quiet_end (TcpService.runTcpServiceLifecycle config fuel turns (mkService None m, k)) /\
  quiet_end (UdpService.runUdpServiceLifecycle config turns (mkService None m, k)).
Proof.
  intros (_ & _ & _ & Hn) Hc Hlog Hb Hl.
  assert (Ho : u_opened k = ∅) by by rewrite <-up_reactor, tp_reactor, Hc, dom_empty_L.
  split; intros Hnd.
  - destruct (runTcpServiceLifecycle_ended config fuel turns m k ltac:(lia) Hc Hb Hl Hnd) as [(_ & ? & _) ?]. done.
  - destruct (runUdpServiceLifecycle_ended config turns m k ltac:(lia) Ho Hlog Hl Hnd) as [(_ & ? & _) ?]. done.
Qed.

(** ** A scripted process

    The process holds its standard streams and a configuration file whose whole
    contents fit into one read.  One client connects, nothing is ever received,
    the clock advances with every wait and the stop signal arrives after 250 ms. *)
Module ScriptedProcess.
Record Process := mkProcess {
  p_held : gset Z;
  p_conn : gmap Z (bytes * bytes);
  p_log : list UdpLog;
  p_clients : nat;
  p_time : Z;
  p_signals : list Z;
  p_file : bytes;
  p_text : list bytes;
  p_next : Z
}.

Definition with_held (h : gset Z) (k : Process) : Process :=
  mkProcess h (p_conn k) (p_log k) (p_clients k) (p_time k) (p_signals k) (p_file k) (p_text k) (p_next k).
Definition with_conn (c : gmap Z (bytes * bytes)) (k : Process) : Process :=
  mkProcess (p_held k) c (p_log k) (p_clients k) (p_time k) (p_signals k) (p_file k) (p_text k) (p_next k).
Definition with_log (e : UdpLog) (k : Process) : Process :=
  mkProcess (p_held k) (p_conn k) (p_log k ++ [e]) (p_clients k) (p_time k) (p_signals k) (p_file k)
    (p_text k) (p_next k).
Definition with_clients (n : nat) (k : Process) : Process :=
  mkProcess (p_held k) (p_conn k) (p_log k) n (p_time k) (p_signals k) (p_file k) (p_text k) (p_next k).
Definition wait (time : Z) (k : Process) : Process :=
  mkProcess (p_held k) (p_conn k) (p_log k) (p_clients k) (p_time k + Z.max 0 time) (p_signals k)
    (p_file k) (p_text k) (p_next k).
Definition with_signals (l : list Z) (k : Process) : Process :=
  mkProcess (p_held k) (p_conn k) (p_log k) (p_clients k) (p_time k) l (p_file k) (p_text k) (p_next k).
Definition with_file (rest : bytes) (k : Process) : Process :=
  mkProcess (p_held k) (p_conn k) (p_log k) (p_clients k) (p_time k) (p_signals k) rest (p_text k) (p_next k).
Definition say (text : bytes) (k : Process) : Process :=
  mkProcess (p_held k) (p_conn k) (p_log k) (p_clients k) (p_time k) (p_signals k) (p_file k)
    (p_text k ++ [text]) (p_next k).
Definition advance (k : Process) : Process :=
  mkProcess (p_held k) (p_conn k) (p_log k) (p_clients k) (p_time k) (p_signals k) (p_file k)
    (p_text k) (p_next k + 1).

(** The next descriptor, when it is free. *)
Definition free (k : Process) : Prop :=
  0 <= p_next k /\ (p_next k ∉ p_held k) /\ p_conn k !! p_next k = None.
#[export] Instance free_dec k : Decision (free k).
Proof. unfold free. apply _. Defined.

Definition open_held (k : Process) : (Z + Z) * Process :=
  if decide (free k) then (inl (p_next k), advance (with_held ({[p_next k]} ∪ p_held k) k))
  else (inr EMFILE, k).
Definition open_conn (k : Process) : (Z + Z) * Process :=
  if decide (free k) then (inl (p_next k), advance (with_conn (<[p_next k := ([], [])]> (p_conn k)) k))
  else (inr EMFILE, k).
Definition shut (f : Z) (k : Process) : Process :=
  with_conn (delete f (p_conn k)) (with_held (p_held k ∖ {[f]}) k).
Definition signal (k : Process) : (Z + Z) * Process :=
  match bool_decide (ms 250 <= p_time k), p_signals k with
  | true, n :: rest => (inl n, with_signals rest k)
  | _, _ => (inr EAGAIN, k)
  end.

#[export] Instance file_ops : FileOps Process := {
  os_open _ _ := open_held;
  os_fstat _ k := (inl (mkFileStat true (len (p_file k)) 1 1 (0, 0) (0, 0)), k);
  os_read _ limit k :=
    (inl (take (Z.to_nat limit) (p_file k)), with_file (drop (Z.to_nat limit) (p_file k)) k);
  os_close f k := with_held (p_held k ∖ {[f]}) k;
  os_strerror _ := bs "error"
}.

#[export] Instance service_ops : ServiceOps Process := {
  std_out := say;
  std_err := say;
  steady_now k := (p_time k, k);
  write_stderr text k := (len text, say text k);
  error_message _ := bs "error"
}.

#[export] Instance probe_ops : TcpProbeOps Process := {
  probe_now k := (p_time k, k);
  probe_socket := open_held;
  probe_connect _ _ k := (inr EINPROGRESS, k);
  probe_socket_error _ k := (inl 0, k);
  probe_epoll_create := open_held;
  probe_epoll_add _ _ k := (inl tt, k);
  probe_epoll_del _ k := k;
  probe_epoll_poll k := (inl [], k);
  probe_close f k := with_held (p_held k ∖ {[f]}) k
}.

#[export] Instance tcp_ops : TcpReactor.TcpOps Process := {
  t_now k := (p_time k, k);
  t_read_signal := signal;
  t_epoll_wait timeout k := (inl [(1, EPOLLIN)], wait (ms timeout) k);
  t_epoll_ctl _ _ _ _ k := (inl tt, k);
  t_accept _ k :=
    match p_clients k with
    | O => (inr EAGAIN, k)
    | S n => match open_conn k with (inl f, k') => (inl f, with_clients n k') | r => r end
    end;
  t_socket := open_conn;
  t_connect _ _ k := (inl tt, k);
  t_socket_error _ k := (inl 0, k);
  t_send _ _ k := (inr EAGAIN, k);
  t_recv _ _ k := (inr EAGAIN, k);
  t_shutdown _ k := (inl tt, k);
  t_close := shut;
  t_errno _ := EAGAIN;
  t_order l _ := l
}.

#[export] Instance tcp_setup_ops : TcpReactor.TcpSetupOps Process := {
  ts_block_signals k := (inl tt, k);
  ts_restore_signals k := k;
  ts_signalfd := open_held;
  ts_epoll_create := open_held;
  ts_socket := open_conn;
  ts_reuse_address _ k := (inl tt, k);
  ts_bind _ _ k := (inl tt, k);
  ts_listen _ k := (inl tt, k)
}.

#[export] Instance udp_ops : UdpReactor.UdpOps Process := {
  u_now k := (p_time k, k);
  u_read_signal := signal;
  u_epoll_wait timeout k := (inl [], wait (ms timeout) k);
  u_epoll_add _ _ k := (inl tt, k);
  u_epoll_del _ k := (inl tt, k);
  u_alloc k := (true, k);
  u_socket k := match open_conn k with (inl f, k') => (inl f, with_log (LOpen f) k') | r => r end;
  u_bind _ _ k := (inl tt, k);
  u_connect _ _ k := (inl tt, k);
  u_recvmsg _ _ k := (inr EAGAIN, k);
  u_send _ _ k := (inr EAGAIN, k);
  u_sendmsg _ _ _ _ k := (inr EAGAIN, k);
  u_socket_error _ k := (inl 0, k);
  u_close := shut;
  u_order l _ := l
}.

#[export] Instance udp_setup_ops : UdpReactor.UdpSetupOps Process := {
  us_block_signals k := (inl tt, k);
  us_restore_signals k := k;
  us_signalfd := open_held;
  us_epoll_create := open_held;
  us_socket := open_conn;
  us_pktinfo _ k := (inl tt, k);
  us_bind _ _ k := (inl tt, k)
}.

#[export] Instance program_ghost : ProgramGhost Process := {
  held := p_held;
  reactor_fds k := dom (p_conn k);
  aside k k' :=
    p_conn k' = p_conn k /\ p_log k' = p_log k /\ p_clients k' = p_clients k /\ p_time k <= p_time k'
}.

#[export] Instance tcp_ghost : TcpGhost Process := {
  conn := p_conn; eintr_left _ := 0%nat; accepts_left := p_clients; live _ := 0; clock := p_time;
  owner_ok _ := True
}.
#[export] Instance udp_ghost : UdpGhost Process := {
  u_opened k := dom (p_conn k); u_log := p_log; u_live _ := 0; u_owner_ok _ := True
}.

Lemma idle_same k : idle k k.
Proof. split; [|done]. by split_and!. Qed.
Hint Resolve idle_same : core.

Lemma open_held_opens : opens open_held.
Proof.
  intros k. unfold open_held. case_decide as Hf; [|done]. destruct Hf as (Hp & Hh & Hc).
  split; [done|]. split; [done|]. split; [by apply not_elem_of_dom|]. split; [|done]. by split_and!.
Qed.

#[export] Instance program_kernel : ProgramKernel Process.
Proof.
  split; intros; try exact open_held_opens; cbn; try apply idle_same; try (split; [by split_and!|done]).
  - destruct H as (? & ? & ? & ?), H0 as (? & ? & ? & ?). split_and!; try congruence. lia.
  - by destruct H as (-> & _).
Qed.

#[export] Instance file_kernel : FileKernel Process.
Proof.
  split; intros; try exact open_held_opens; cbn; try apply idle_same; by split; [split_and!|].
Qed.

Lemma signal_quiet k :
  let k' := (signal k).2 in
  p_conn k' = p_conn k /\ p_log k' = p_log k /\ p_clients k' = p_clients k /\ p_time k' = p_time k /\
  p_held k' = p_held k /\ (signal k).1 <> inr EINTR.
Proof. unfold signal. destruct (bool_decide _); [|by split_and!]. destruct (p_signals k); by split_and!. Qed.

Section kernels.
Context (X : gset Z).

Lemma process_moved k k' :
  p_conn k' = p_conn k -> p_clients k' = p_clients k -> p_time k <= p_time k' -> p_held k' = p_held k ->
  @TcpReactorSafety.quiet _ (holding tcp_ghost X) k k'.
Proof.
  intros Hc Hn Ht Hh. split; [done|]. split; [done|]. split; [done|]. split; [cbn; lia|].
  split; [done|]. cbn. by rewrite Hh, Hc.
Qed.
Lemma process_quiet k : @TcpReactorSafety.quiet _ (holding tcp_ghost X) k k.
Proof. by apply process_moved. Qed.

Lemma open_conn_opened k :
  match open_conn k with
  | (inl f, k') => @opened _ (holding tcp_ghost X) f k k' /\ p_clients k' = p_clients k /\
                   p_held k' = p_held k /\ p_log k' = p_log k
  | (inr e, k') => k' = k /\ e = EMFILE
  end.
Proof.
  unfold open_conn. case_decide as Hf; [|done]. destruct Hf as (Hp & Hh & Hc).
  split; [|done]. split; [done|]. split; [done|]. split; [done|]. split; [done|].
  split; [done|]. split; [done|]. split; [cbn; lia|]. cbn. intros [<- Hd]. split; [done|].
  rewrite dom_insert_L. set_solver.
Qed.

Lemma shut_owner f k :
  f ∈ dom (p_conn k) -> p_held k = X /\ X ## dom (p_conn k) ->
  p_held (shut f k) = X /\ X ## dom (p_conn (shut f k)).
Proof. intros Hf [<- Hd]. cbn. rewrite dom_delete_L. split; set_solver. Qed.

Lemma tcp_kernel : @TcpKernel Process _ (holding tcp_ghost X).
Proof.
  split; intros; cbn; try apply process_quiet; try (split; [apply process_quiet|done]); try done.
  - pose proof (signal_quiet w) as (Hc & _ & Hn & Ht & Hh & He). destruct (signal w) as [[n|e] w'];
      cbn in *; [|split; [|congruence]]; apply process_moved; (done || lia).
  - apply process_moved; cbn; (done || lia).
  - destruct (p_clients w) eqn:Hn; [split; [apply process_quiet|done]|].
    pose proof (open_conn_opened w) as Ho. destruct (open_conn w) as [[f|e] w'].
    + destruct Ho as ((Hp & Hf & Hc & Hl & He & Ha & Ht & Ho) & Hcl & Hh & Hlog). cbn in *. split; [|lia].
      split; [done|]. split; [done|]. split; [done|]. split; [done|]. split; [done|].
      split; [cbn; lia|]. by split.
    + destruct Ho as [-> ->]. split; [apply process_quiet|done].
  - pose proof (open_conn_opened w) as Ho. destruct (open_conn w) as [[f|e] w']; [by destruct Ho|].
    destruct Ho as [-> ->]. split; [apply process_quiet|done].
  - split; [done|]. split; [done|]. split; [done|]. split; [done|]. split; [done|].
    apply shut_owner. by apply elem_of_dom.
Qed.

Lemma process_udp_moved k k' :
  p_conn k' = p_conn k -> p_log k' = p_log k -> p_held k' = p_held k ->
  @UdpReactorSafety.quiet _ (udp_holding udp_ghost X) k k'.
Proof.
  intros Hc Hl Hh. split; [cbn; by rewrite Hc|]. split; [done|]. split; [done|].
  unfold keeps_owner. cbn. by rewrite Hh, Hc.
Qed.

Lemma udp_kernel : @UdpKernel Process _ (udp_holding udp_ghost X).
Proof.
  split; intros; cbn; try by apply process_udp_moved.
  - apply process_udp_moved; apply (signal_quiet w).
  - pose proof (open_conn_opened w) as Ho. destruct (open_conn w) as [[f|e] w']; [|destruct Ho as [-> _]; by apply process_udp_moved].
    destruct Ho as ((Hp & Hf & Hc & Hl & He & Ha & Ht & Ho) & Hcl & Hh & Hlog). cbn in *.
    split; [by apply not_elem_of_dom|]. split; [by rewrite Hc, dom_insert_L|]. split; [by rewrite Hlog|].
    split; [done|]. exact Ho.
  - split; [by rewrite dom_delete_L|]. split; [done|]. split; [done|]. intros Ho. by apply shut_owner.
  - done.
Qed.
End kernels.

Lemma open_conn_program k :
  match open_conn k with
  | (inl f, k') =>
      0 <= f /\ p_conn k !! f = None /\ (f ∉ p_held k) /\ p_conn k' = <[f := ([], [])]> (p_conn k) /\
      p_held k' = p_held k /\ p_log k' = p_log k /\ p_clients k' = p_clients k
  | (inr _, k') => k' = k
  end.
Proof. unfold open_conn. case_decide as Hf; [|done]. destruct Hf as (? & ? & ?). by split_and!. Qed.

Lemma shut_apart f k :
  (f ∉ reactor_fds k) -> aside k (shut f k) /\ held (shut f k) = held k ∖ {[f]}.
Proof.
  intros Hf. split; [|done]. split; [by apply delete_id, not_elem_of_dom|]. by split_and!.
Qed.

#[export] Instance tcp_program : TcpProgramKernel Process.
Proof.
  split; intros; try exact open_held_opens; try apply tcp_kernel; try apply idle_same; try done.
  - apply _.
  - destruct H as (? & ? & Hn & ?). cbn. split_and!; (done || lia).
  - pose proof (open_conn_program k) as Ho. cbn. destruct (open_conn k) as [[f|e] k'].
    + destruct Ho as (? & ? & ? & ? & ? & ? & Hn). split_and!; (done || lia).
    + subst k'. apply idle_same.
  - by apply shut_apart.
Qed.

#[export] Instance udp_program : UdpProgramKernel Process.
Proof.
  split; intros; try exact open_held_opens; try apply udp_kernel; try apply idle_same; try done.
  - apply _.
  - destruct H as (Hc & Hl & _). cbn. by rewrite Hc.
  - pose proof (open_conn_program k) as Ho. cbn. destruct (open_conn k) as [[f|e] k'].
    + destruct Ho as (? & ? & ? & Hc & ? & ? & Hn). split; [done|]. split; [by apply not_elem_of_dom|].
      split; [done|]. split; [by rewrite Hc, dom_insert_L|done].
    + subst k'. apply idle_same.
  - by apply shut_apart.
Qed.

#[export] Instance program_system : ProgramSystem Process.
Proof. split; apply _. Qed.

Definition fuel : nat := Z.to_nat 66000.
Definition config (p : Protocol) : Config :=
  mkConfig (mkEndpoint [127; 0; 0; 1] 8080) [mkEndpoint [127; 0; 0; 1] 9001; mkEndpoint [10; 0; 0; 255] 9002]
    p kMetricsStderr kHealthTcpConnect kRoundRobin.

Lemma config_valid p : valid_config (config p).
Proof.
  unfold valid_config, valid_backend, valid_listen. split_and!; try done.
  all: repeat first [constructor | split_and! | done | set_solver | lia].
Qed.

(** The standard streams are open. *)
Definition start (p : Protocol) : Process :=
  mkProcess {[0; 1; 2]} ∅ [] 1 0 [128] (render_config (config p)) [] 3.

(** The metrics of a service that was just constructed. *)
Definition metrics_on : MetricsService :=
  match (newMetricsService (config kTcp) (start kTcp)).1 with
  | Ret m => m
  | _ => mkMetricsService false None None
  end.

Lemma start_bounds p : within_bounds fuel (start p).
Proof. split; [done|]. unfold fuel. rewrite Z2Nat.id by lia. done. Qed.
End ScriptedProcess.

Import ScriptedProcess.

(** A usage error, a check of a file that is not a configuration, and a service
    that stops at a signal. *)
Definition bad_file : Process := mkProcess {[0; 1; 2]} ∅ [] 1 0 [128] (bs "nonsense") [] 3.

Lemma main_exit_status_witness :
  (main fuel 10 [bs "--run"; []] (start kTcp)).1 = Ret 2 /\
  p_text (main fuel 10 [bs "--run"; []] (start kTcp)).2 = [usageLine] /\
  (main fuel 10 [bs "--check-config"; bs "l4lb.conf"] bad_file).1 = Ret 1 /\
  (main fuel 10 [bs "--check-config"; bs "l4lb.conf"] (start kTcp)).1 = Ret 0 /\
  command_ends fuel 10 (start kTcp) [bs "--run"; bs "l4lb.conf"] (Ret 0)
    (main fuel 10 [bs "--run"; bs "l4lb.conf"] (start kTcp)).2.
Proof.
  pose proof (main_exit_status fuel 10 [bs "--run"; []] (start kTcp)) as Hu.
  assert (Eu : usage_ok [bs "--run"; []] = false) by (vm_compute; reflexivity). rewrite Eu in Hu.
  pose proof (main_exit_status fuel 10 [bs "--run"; bs "l4lb.conf"] (start kTcp)) as Hr.
  assert (Er : usage_ok [bs "--run"; bs "l4lb.conf"] = true) by (vm_compute; reflexivity). rewrite Er in Hr.
  assert (Ho : (main fuel 10 [bs "--run"; bs "l4lb.conf"] (start kTcp)).1 = Ret 0) by (vm_compute; reflexivity).
  destruct (main fuel 10 [bs "--run"; []] (start kTcp)) as [o1 k1].
  destruct (main fuel 10 [bs "--run"; bs "l4lb.conf"] (start kTcp)) as [o2 k2]. cbn [fst snd] in *.
  destruct Hu as [-> ->]. subst o2. split; [reflexivity|]. split; [reflexivity|].
  split; [vm_compute; reflexivity|]. split; [vm_compute; reflexivity|]. exact Hr.
Defined.

(** Both services start from a configuration file and stop at a signal. *)
Lemma main_releases_descriptors_witness :
  let k p := main fuel 10 [bs "--run"; bs "l4lb.conf"] (start p) in
  (k kTcp).1 = Ret 0 /\ held (k kTcp).2 = {[0; 1; 2]} /\ conn (k kTcp).2 = ∅ /\
  (k kUdp).1 = Ret 0 /\ held (k kUdp).2 = {[0; 1; 2]} /\ u_opened (k kUdp).2 = ∅.
Proof.
  cbv beta zeta.
  assert (Ht : (main fuel 10 [bs "--run"; bs "l4lb.conf"] (start kTcp)).1 = Ret 0) by (vm_compute; reflexivity).
  assert (Hu : (main fuel 10 [bs "--run"; bs "l4lb.conf"] (start kUdp)).1 = Ret 0) by (vm_compute; reflexivity).
  pose proof (main_releases_descriptors fuel 10 [bs "--run"; bs "l4lb.conf"] (start kTcp) eq_refl eq_refl
    (start_bounds kTcp)) as Hrt.
  pose proof (main_releases_descriptors fuel 10 [bs "--run"; bs "l4lb.conf"] (start kUdp) eq_refl eq_refl
    (start_bounds kUdp)) as Hru.
  destruct (main _ _ _ (start kTcp)) as [o1 k1], (main _ _ _ (start kUdp)) as [o2 k2]. cbn [fst snd] in *.
  subst o1 o2. destruct Hrt as (Hh1 & Hc1 & _); [discriminate|]. destruct Hru as (Hh2 & _ & Hc2); [discriminate|].
  split; [reflexivity|]. split; [exact Hh1|]. split; [exact Hc1|]. split; [reflexivity|]. split; [exact Hh2|exact Hc2].
Defined.

Lemma service_metrics_settle_witness :
  let r := TcpService.runTcpServiceLifecycle (config kTcp) fuel 10 (mkService None metrics_on, start kTcp) in
  r.1 = Ret 0 /\ live_of r.2.1 = 0 /\ MetricsService.finalized_ (metrics_ r.2.1) = true.
Proof.
  cbv zeta.
  assert (Ht : (TcpService.runTcpServiceLifecycle (config kTcp) fuel 10
    (mkService None metrics_on, start kTcp)).1 = Ret 0) by (vm_compute; reflexivity).
  assert (Ho : bool_decide (output_ (metrics_ (TcpService.runTcpServiceLifecycle (config kTcp) fuel 10
    (mkService None metrics_on, start kTcp)).2.1) <> None) = true) by (vm_compute; reflexivity).
  pose proof (service_metrics_settle (config kTcp) metrics_on fuel 10 (start kTcp) (config_valid kTcp)) as Hs.
  destruct Hs as [Hs _]; [reflexivity|reflexivity|exact (start_bounds kTcp)|vm_compute; reflexivity|].
  split; [exact Ht|]. destruct Hs as [Hl Hf]; [rewrite Ht; discriminate|].
  split; [exact Hl|]. apply Hf. by apply bool_decide_eq_true_1 in Ho.
Defined.
