(* ===== verification/Frames.v ===== *)
(** * Computations that always end and stay inside a relation

    [keeps R m]: whatever the state, [m] ends, normally or by an exception, in a
    state that [R] relates to the first one.  [R] is a preorder, so the rules
    follow the structure of the program. *)
From S2P Require Import Prelude.

Definition keeps {St A} (R : St -> St -> Prop) (m : M St A) : Prop :=
  forall s, wp m (fun o s' => o <> Diverge /\ R s s') s.

#[export] Instance eq_preorder {A} : PreOrder (@eq A).
Proof. split; [done|]. by intros ? ? ? -> ->. Qed.

Create HintDb keeps.

Section rules.
Context {St : Type} (R : St -> St -> Prop).

Lemma keeps_ret `{!PreOrder R} {A} (a : A) : keeps R (mret a).
Proof. by intros s; apply wp_ret. Qed.
Lemma keeps_throw `{!PreOrder R} {A} e : keeps R (A := A) (mthrow e).
Proof. by intros s; apply wp_throw. Qed.
Lemma keeps_outcome `{!PreOrder R} {A} (o : outcome A) : o <> Diverge -> keeps R (lift_outcome o).
Proof. by intros Ho s; apply wp_outcome. Qed.
Lemma keeps_gets `{!PreOrder R} {A} (f : St -> A) : keeps R (mgets f).
Proof. by intros s; apply wp_gets. Qed.
Lemma keeps_world {A} (op : St -> A * St) : (forall s, R s (op s).2) -> keeps R (mworld op).
Proof. by intros Hop s; apply wp_world. Qed.
Lemma keeps_modify (f : St -> St) : (forall s, R s (f s)) -> keeps R (mmodify f).
Proof. by intros Hf s; apply wp_modify. Qed.

Lemma keeps_bind `{!PreOrder R} {A B} (m : M St A) (f : A -> M St B) :
  keeps R m -> (forall a, keeps R (f a)) -> keeps R (mbind m f).
Proof.
  intros Hm Hf s. apply wp_bind. eapply wp_mono; [apply Hm|]. intros [a|e|] s' [Hd Hr]; [|done..].
  eapply wp_mono; [apply Hf|]. intros o s'' [Ho Hr']. split; [done|]. by etrans.
Qed.
Lemma keeps_catch `{!PreOrder R} {A} (m : M St A) h : keeps R m -> (forall e, keeps R (h e)) -> keeps R (mcatch m h).
Proof.
  intros Hm Hh s. apply wp_catch. eapply wp_mono; [apply Hm|]. intros [a|e|] s' [Hd Hr]; [done| |done].
  eapply wp_mono; [apply Hh|]. intros o s'' [Ho Hr']. split; [done|]. by etrans.
Qed.
Lemma keeps_for `{!PreOrder R} {A} (l : list A) (m : A -> M St unit) : (forall a, keeps R (m a)) -> keeps R (mfor l m).
Proof. intros Hm. induction l as [|a l IH]; [apply keeps_ret|]. by apply keeps_bind. Qed.
End rules.

(** What a theorem says about a run. *)
Lemma wp_result {St A} (m : M St A) (Q : outcome A -> St -> Prop) s :
  wp m Q s -> let '(o, s') := m s in Q o s'.
Proof. unfold wp. by destruct (m s). Qed.

(** A kept relation at the end of a longer run. *)
Lemma wp_keeps {St A B} (R : St -> St -> Prop) (m : M St A) (f : A -> M St B)
    (Q : outcome B -> St -> Prop) s :
  keeps R m -> (forall a s', R s s' -> wp (f a) Q s') -> (forall e s', R s s' -> Q (Throw e) s') ->
  wp (mbind m f) Q s.
Proof.
  intros Hm Hf Ht. apply wp_bind. eapply wp_mono; [apply Hm|]. intros [a|e|] s' [Hd Hr]; [auto|auto|done].
Qed.

#[export] Hint Resolve keeps_ret keeps_throw keeps_gets eq_preorder : keeps.

(** Along the structure of the program; operations are left to the hints. *)
Ltac keep :=
  repeat first
    [ solve [eauto with keeps]
    | apply keeps_bind; [exact _| |intros ?]
    | apply keeps_for; [exact _|intros ?]
    | apply keeps_catch; [exact _| |intros ?]
    | match goal with
      | |- keeps _ (match ?x with _ => _ end) => destruct x eqn:?
      | |- keeps _ (let '(_, _) := ?x in _) => destruct x eqn:?
      end
    | progress cbv zeta ].
