(* ===== verification/XdpMain.v ===== *)
(** * The XDP program of the command line (src/src/xdp/main.cpp)

    The options, the commands attach and detach, what is printed and the exit
    status.  The attachment of [XdpAttachment] is used directly by the static
    modes and through the interface [RuntimeAttachment] by the runtime mode. *)
From S2P Require Import Prelude Os XdpSchema UdpProbe BpfKernel MapStore ConfigSync RuntimeStore.
From S2P Require Import RuntimeConfig XdpAttachment RuntimeService.

(** ** Options *)

Record XdpOptions := mkXdpOptions {
  attach : bool;
  profile : XdpObjectProfile;
  vip : bytes;
  runtimeConfig : bytes;
  targets : list bytes;
  dsr : DsrConfiguration;
  endpoints : list bytes;
  backends : list XdpBackendValue;
  device : bytes;
  object : bytes;
  mode : XdpAttachMode;
  programId : Z
}.

Definition emptyDsrConfiguration : DsrConfiguration :=
  mkDsrConfiguration (mkUdpDsrConfigValue 0 0 0 0 0) [].

Definition newXdpOptions : XdpOptions :=
  mkXdpOptions false kLegacy [] [] [] emptyDsrConfiguration [] [] [] [] kGeneric 0.

Definition set_attach (v : bool) (o : XdpOptions) : XdpOptions :=
  mkXdpOptions v (profile o) (vip o) (runtimeConfig o) (targets o) (dsr o) (endpoints o) (backends o)
    (device o) (object o) (mode o) (programId o).
Definition set_xdp_profile (v : XdpObjectProfile) (o : XdpOptions) : XdpOptions :=
  mkXdpOptions (attach o) v (vip o) (runtimeConfig o) (targets o) (dsr o) (endpoints o) (backends o)
    (device o) (object o) (mode o) (programId o).
Definition set_vip (v : bytes) (o : XdpOptions) : XdpOptions :=
  mkXdpOptions (attach o) (profile o) v (runtimeConfig o) (targets o) (dsr o) (endpoints o) (backends o)
    (device o) (object o) (mode o) (programId o).
Definition set_runtimeConfig (v : bytes) (o : XdpOptions) : XdpOptions :=
  mkXdpOptions (attach o) (profile o) (vip o) v (targets o) (dsr o) (endpoints o) (backends o)
    (device o) (object o) (mode o) (programId o).
Definition set_targets (v : list bytes) (o : XdpOptions) : XdpOptions :=
  mkXdpOptions (attach o) (profile o) (vip o) (runtimeConfig o) v (dsr o) (endpoints o) (backends o)
    (device o) (object o) (mode o) (programId o).
Definition set_dsr (v : DsrConfiguration) (o : XdpOptions) : XdpOptions :=
  mkXdpOptions (attach o) (profile o) (vip o) (runtimeConfig o) (targets o) v (endpoints o) (backends o)
    (device o) (object o) (mode o) (programId o).
Definition set_endpoints (v : list bytes) (o : XdpOptions) : XdpOptions :=
  mkXdpOptions (attach o) (profile o) (vip o) (runtimeConfig o) (targets o) (dsr o) v (backends o)
    (device o) (object o) (mode o) (programId o).
Definition set_backends (v : list XdpBackendValue) (o : XdpOptions) : XdpOptions :=
  mkXdpOptions (attach o) (profile o) (vip o) (runtimeConfig o) (targets o) (dsr o) (endpoints o) v
    (device o) (object o) (mode o) (programId o).
Definition set_device (v : bytes) (o : XdpOptions) : XdpOptions :=
  mkXdpOptions (attach o) (profile o) (vip o) (runtimeConfig o) (targets o) (dsr o) (endpoints o)
    (backends o) v (object o) (mode o) (programId o).
Definition set_object (v : bytes) (o : XdpOptions) : XdpOptions :=
  mkXdpOptions (attach o) (profile o) (vip o) (runtimeConfig o) (targets o) (dsr o) (endpoints o)
    (backends o) (device o) v (mode o) (programId o).
Definition set_mode (v : XdpAttachMode) (o : XdpOptions) : XdpOptions :=
  mkXdpOptions (attach o) (profile o) (vip o) (runtimeConfig o) (targets o) (dsr o) (endpoints o)
    (backends o) (device o) (object o) v (programId o).
Definition set_programId (v : Z) (o : XdpOptions) : XdpOptions :=
  mkXdpOptions (attach o) (profile o) (vip o) (runtimeConfig o) (targets o) (dsr o) (endpoints o)
    (backends o) (device o) (object o) (mode o) v.

(** The options and the variables of the loop. *)
Record Parsing := mkParsing {
  parsed : XdpOptions;
  modeSeen : bool;
  programIdSeen : bool
}.

Definition isEmpty {A} (l : list A) : bool := match l with [] => true | _ => false end.

Definition isModeFlag (key : bytes) : bool :=
  bool_decide (key = bs "--maps") || bool_decide (key = bs "--udp-dsr") ||
  bool_decide (key = bs "--udp-dsr-runtime").

Definition flagProfile (key : bytes) : XdpObjectProfile :=
  if bool_decide (key = bs "--udp-dsr-runtime") then kUdpRuntimeV3
  else if bool_decide (key = bs "--maps") then kMapsV1
  else kUdpDsrV2.

(** An option with its value. *)
Definition parseXdpOption (key value : bytes) (p : Parsing) : outcome Parsing :=
  let o := parsed p in
  let set f := Ret (mkParsing (f o) (modeSeen p) (programIdSeen p)) in
  if bool_decide (key = bs "--backend") && attach o then
    set (set_endpoints (endpoints o ++ [value]))
  else if bool_decide (key = bs "--vip") && attach o && isEmpty (vip o) then set (set_vip value)
  else if bool_decide (key = bs "--runtime-config") && attach o && isEmpty (runtimeConfig o) then
    set (set_runtimeConfig value)
  else if bool_decide (key = bs "--target") && attach o then set (set_targets (targets o ++ [value]))
  else if bool_decide (key = bs "--dev") && isEmpty (device o) then set (set_device value)
  else if bool_decide (key = bs "--object") && attach o && isEmpty (object o) then
    set (set_object value)
  else if bool_decide (key = bs "--mode") && negb (modeSeen p) then
    if negb (bool_decide (value = bs "generic")) && negb (bool_decide (value = bs "native")) then
      Throw (InvalidArgument (bs "mode 只支持 generic 或 native"))
    else
      Ret (mkParsing (set_mode (if bool_decide (value = bs "generic") then kGeneric else kNative) o)
             true (programIdSeen p))
  else if bool_decide (key = bs "--prog-id") && negb (attach o) && negb (programIdSeen p) then
    match from_chars 10 value with
    | (Some id, []) =>
        if id =? 0 then Throw (InvalidArgument (bs "prog-id 必须是正 uint32 整数"))
        else Ret (mkParsing (set_programId id o) (modeSeen p) true)
    | _ => Throw (InvalidArgument (bs "prog-id 必须是正 uint32 整数"))
    end
  else Throw (InvalidArgument (bs "未知、重复或不适用的选项：" ++ key)).

(** The loop over the arguments after the command; an argument is a C string
    without a terminator inside. *)
Fixpoint parseXdpArguments (args : list bytes) (p : Parsing) : outcome Parsing :=
  match args with
  | [] => Ret p
  | key :: args' =>
      let o := parsed p in
      if isModeFlag key && attach o && bool_decide (profile o = kLegacy) then
        parseXdpArguments args'
          (mkParsing (set_xdp_profile (flagProfile key) o) (modeSeen p) (programIdSeen p))
      else
        match args' with
        | value :: args'' =>
            if isEmpty value then Throw (InvalidArgument (bs "选项缺少值：" ++ key))
            else
              match parseXdpOption key value p with
              | Ret p' => parseXdpArguments args'' p'
              | Throw e => Throw e
              | Diverge => Diverge
              end
        | [] => Throw (InvalidArgument (bs "选项缺少值：" ++ key))
        end
  end.

(** [find_first_of("/ \t\r\n:")] *)
Definition isDeviceSeparator (c : ascii) : bool := bool_decide (code c ∈ [47; 32; 9; 13; 10; 58]).
Definition IF_NAMESIZE : Z := 16.

Definition validDevice (name : bytes) : bool :=
  negb (isEmpty name || (IF_NAMESIZE <=? len name) ||
        bool_decide (is_Some (find_if isDeviceSeparator name))).

Definition invalid {A} (text : bytes) : outcome A := Throw (InvalidArgument text).

Section parse.
Context `{AddressParser}.

(** A literal that is only looked at. *)
Definition checkVip (o : XdpOptions) : outcome XdpOptions :=
  match parseXdpBackends [vip o] with
  | Ret _ => Ret o
  | Throw e => Throw e
  | Diverge => Diverge
  end.

Definition checkProfile (o : XdpOptions) : outcome XdpOptions :=
  match profile o with
  | kUdpRuntimeV3 =>
      if isEmpty (vip o) || isEmpty (runtimeConfig o) || negb (isEmpty (targets o)) then
        invalid (bs "动态DSR需要--vip/--runtime-config，禁止--target")
      else checkVip o
  | kUdpDsrV2 => if isEmpty (vip o) then invalid (bs "--udp-dsr 需要 --vip") else checkVip o
  | _ =>
      if negb (isEmpty (vip o)) || negb (isEmpty (targets o)) then
        invalid (bs "--vip/--target 需要 --udp-dsr")
      else Ret o
  end.

(** The checks after the loop. *)
Definition checkOptions (p : Parsing) : outcome XdpOptions :=
  let o := parsed p in
  if negb (validDevice (device o)) then
    invalid (bs "必须指定有效 --dev（1 至 15 字节，不含空白、/、:）")
  else if attach o && isEmpty (object o) then invalid (bs "缺少 --object")
  else if negb (attach o) && negb (programIdSeen p) then invalid (bs "缺少 --prog-id")
  else if negb (bool_decide (profile o = kMapsV1)) && negb (isEmpty (endpoints o)) then
    invalid (bs "--backend 需要 --maps")
  else
    match parseXdpBackends (endpoints o) with
    | Throw e => Throw e
    | Diverge => Diverge
    | Ret l =>
        match checkProfile (set_backends l o) with
        | Ret o =>
            if negb (bool_decide (profile o = kUdpRuntimeV3)) && negb (isEmpty (runtimeConfig o)) then
              invalid (bs "--runtime-config 需要 --udp-dsr-runtime")
            else Ret o
        | r => r
        end
    end.

(** [args] is argv without the name of the program. *)
Definition parseXdpOptions (args : list bytes) : outcome XdpOptions :=
  match args with
  | [] => invalid (bs "缺少 attach/detach 子命令")
  | command :: args' =>
      if negb (bool_decide (command = bs "attach")) && negb (bool_decide (command = bs "detach")) then
        invalid (bs "未知子命令：" ++ command)
      else
        match parseXdpArguments args'
                (mkParsing (set_attach (bool_decide (command = bs "attach")) newXdpOptions) false false)
        with
        | Ret p => checkOptions p
        | Throw e => Throw e
        | Diverge => Diverge
        end
  end.
End parse.

(** ** The attachment of the runtime mode *)

Section attachment_runtime.
Context {K : Type} `{FileOps K} `{Libbpf K} `{BpfCalls K} `{XdpCalls K}.
Context `{BpfElements K UdpRuntimeSnapshot} `{BpfElements K Z} `{BpfElements K (list UdpDsrStatsValue)}.
Context `{BpfElements K XdpConfigValue} `{BpfElements K XdpBackendValue} `{BpfElements K (list Z)}.
Context `{BpfElements K UdpDsrConfigValue} `{BpfElements K UdpDsrBackendValue}.

(** What [RuntimeDsrService.cpp] calls on its [XdpAttachment]; [readFuel] bounds
    the reads of the object file. *)
#[export] Instance attachment_runtime (readFuel : nat) : RuntimeAttachment (XdpAttachment * K) := {
  ra_loadObject path snapshot :=
    loadObject readFuel path kUdpRuntimeV3 [] emptyDsrConfiguration (Some snapshot);
  ra_attachProgram ingress mode :=
    ifindex <- outside (resolveInterfaceIndex ingress) ;; attachProgram ifindex mode;
  ra_publishRuntime := publishRuntime;
  ra_detachProgram := detachProgram;
  ra_readRuntimeStats := a <- own (fun a => a) ;; outside (readRuntimeStats a);
  ra_programId s := programId_ s.1
}.
End attachment_runtime.

(** ** The command *)

Definition SIGINT : Z := 2.
Definition SIGTERM : Z := 15.

(** The calls of [main] itself.  [cout] is one output expression; [cout_good]
    is the state of the stream after what was written so far. *)
Class XdpMainSystem (Y : Type) := {
  cout : bytes -> Y -> Y;
  cout_good : Y -> bool;
  block_signals : list Z -> Y -> bool * Y;
  sigwait : list Z -> Y -> (Z + Z) * Y
}.

Definition usageText : bytes :=
  bs "用法：" ++ [chr 10] ++
  bs "  l4lb-xdp attach --dev NAME --object PATH [--mode generic|native]" ++ [chr 10] ++
  bs "    maps 模式：追加 --maps [--backend IPv4:PORT]..." ++ [chr 10] ++
  bs "    DSR 模式：追加 --udp-dsr --vip IPv4:PORT [--target EGRESS@MAC]..." ++ [chr 10] ++
  bs "    动态 DSR：--udp-dsr-runtime --vip IPv4:PORT --runtime-config PATH" ++ [chr 10] ++
  bs "  l4lb-xdp detach --dev NAME --prog-id ID [--mode generic|native]" ++ [chr 10] ++
  bs "  l4lb-xdp --help" ++ [chr 10] ++
  bs "默认 generic；attach 前台等待 SIGINT/SIGTERM，然后条件卸载。" ++ [chr 10] ++
  bs "不会覆盖已有程序；detach 必须指定预期程序 ID。" ++ [chr 10].

(** [dev=... mode=... prog_id=...] *)
Definition linkFields (o : XdpOptions) (id : Z) : bytes :=
  bs "dev=" ++ device o ++ bs " mode=" ++ xdpAttachModeName (mode o) ++ bs " prog_id=" ++ to_string id.

Definition detachedLine (o : XdpOptions) : bytes :=
  bs "DETACHED " ++ linkFields o (programId o) ++ bs "（已卸载或本模式无程序）" ++ [chr 10].

Definition readyLine (o : XdpOptions) (id : Z) : bytes :=
  bs "READY " ++ linkFields o id ++
  (if bool_decide (profile o = kMapsV1) then
     bs " schema=1 backend_count=" ++ to_string (len (backends o)) else []) ++
  (if bool_decide (profile o = kUdpDsrV2) then
     bs " schema=2 profile=udp-dsr backend_count=" ++ to_string (len (dsr_backends (dsr o))) else []) ++
  [chr 10].

Definition endLine (o : XdpOptions) (id : Z) : bytes :=
  bs "DETACHED " ++ linkFields o id ++ [chr 10].

Definition passPacketsLine (packets : Z) : bytes :=
  bs "XDP_STATS schema=1 pass_packets=" ++ to_string packets ++ [chr 10].

Definition dsrStatsLine (s : UdpDsrStatsValue) : bytes :=
  bs "XDP_STATS schema=2 total_packets=" ++ to_string (totalPackets s) ++
  bs " pass_packets=" ++ to_string (passPackets s) ++
  bs " redirect_requests=" ++ to_string (redirectRequests s) ++
  bs " drop_packets=" ++ to_string (dropPackets s) ++
  bs " unsupported_packets=" ++ to_string (unsupportedPackets s) ++
  bs " no_backend_packets=" ++ to_string (noBackendPackets s) ++
  bs " invalid_config_packets=" ++ to_string (invalidConfigPackets s) ++
  bs " helper_error_packets=" ++ to_string (helperErrorPackets s) ++ [chr 10].

Section main.
Context {K P F Y : Type} `{FileOps K} `{Libbpf K} `{BpfCalls K} `{XdpCalls K}.
Context `{BpfElements K UdpRuntimeSnapshot} `{BpfElements K Z} `{BpfElements K (list UdpDsrStatsValue)}.
Context `{BpfElements K XdpConfigValue} `{BpfElements K XdpBackendValue} `{BpfElements K (list Z)}.
Context `{BpfElements K UdpDsrConfigValue} `{BpfElements K UdpDsrBackendValue}.
Context `{ProbeCollaborators P} `{FileOps F} `{InterfaceOps F} `{AddressParser}.
Context `{RuntimeSystem Y} `{XdpMainSystem Y}.
(** Bounds of the loops that read files, of the passes of the runtime mode and
    of the rounds that drain its output. *)
Context (readFuel turns fuel drain : nat).

(** The kernel stands in the place of the attachment while there is none. *)
Abbreviation WK := (World K P F Y).

Definition onKernel {X} (m : M K X) : M WK X := onAttachment m.
Definition say (text : bytes) : M WK unit := onSystem (mmodify (cout text)).
Definition complain (text : bytes) : M WK unit := onKernel (mmodify (write_cerr text)).
Definition goodOutput : M WK bool := onSystem (mgets cout_good).
Definition message (e : exn) : bytes := what sys_strerror e.

(** A method of the attachment on the stack. *)
Definition withAttachment {X} (m : M (XdpAttachment * K) X) : M (XdpAttachment * WK) X :=
  fun s =>
    let '(o, (a, k)) := m (s.1, w_attachment s.2) in
    (o, (a, mkWorld k (w_probes s.2) (w_files s.2) (w_system s.2) (w_requests s.2))).

(** [std::cerr << ... << error.what(); cleanupFailed = true;] *)
Definition cleanupStep (text : bytes) (m : M (XdpAttachment * WK) unit) (failed : bool)
    : M (XdpAttachment * WK) bool :=
  mcatch (m ;;; mret failed)
    (fun e => outside (complain (text ++ message e ++ [chr 10])) ;;; mret true).

Definition reportStatistics (o : XdpOptions) (failed : bool) : M (XdpAttachment * WK) bool :=
  let step {X} (read : XdpAttachment -> M K X) (line : X -> bytes) :=
    cleanupStep (bs "XDP 统计失败：")
      (a <- own (fun a => a) ;; x <- outside (onKernel (read a)) ;; outside (say (line x))) in
  match profile o with
  | kMapsV1 => step attachmentPassPackets passPacketsLine failed
  | kUdpDsrV2 => step readDsrStats dsrStatsLine failed
  | _ => mret failed
  end.

(** Loading, attaching, waiting for a signal and detaching. *)
Definition staticBody (path : bytes) (o : XdpOptions) (ifindex : Z) (signals : list Z)
    : M (XdpAttachment * WK) Z :=
  withAttachment (loadObject readFuel path (profile o) (backends o) (dsr o) None) ;;;
  withAttachment (attachProgram ifindex (mode o)) ;;;
  a <- own (fun a => a) ;;
  outside (say (readyLine o (programId_ a))) ;;;
  good <- outside goodOutput ;;
  if negb good then mthrow (RuntimeError (bs "READY 输出失败，清理挂载"))
  else
    waited <- outside (onSystem (mworld (sigwait signals))) ;;
    match waited with
    | inr error => mthrow (RuntimeError (bs "等待信号失败：" ++ sys_strerror error))
    | inl received =>
        failed <- cleanupStep (bs "XDP 卸载失败：") (withAttachment detachProgram) false ;;
        failed <- reportStatistics o failed ;;
        if failed : bool then mret 1
        else
          a <- own (fun a => a) ;;
          outside (say (endLine o (programId_ a))) ;;;
          good <- outside goodOutput ;;
          mret (if good && negb (received =? SIGPIPE) then 0 else 1)
    end.

(** The attachment is constructed, used and destroyed on every way out. *)
Definition runStaticMode (o : XdpOptions) (ifindex : Z) (signals : list Z) : M WK Z :=
  fun w =>
    let '(r, (a, w')) := staticBody (object o) o ifindex signals (newXdpAttachment, w) in
    (r, mkWorld (destroyXdpAttachment a (w_attachment w')) (w_probes w') (w_files w') (w_system w')
      (w_requests w')).

Definition runRuntimeMode (o : XdpOptions) : M WK Z :=
  fun w =>
    let '(r, w') :=
      runRuntimeDsrControlLoop (H := attachment_runtime readFuel) turns fuel drain
        (object o) (device o) (vip o) (runtimeConfig o) (mode o)
        (mkWorld (newXdpAttachment, w_attachment w) (w_probes w) (w_files w) (w_system w) (w_requests w)) in
    (r, mkWorld (destroyXdpAttachment (w_attachment w').1 (w_attachment w').2) (w_probes w')
          (w_files w') (w_system w') (w_requests w')).

Definition waitedSignals (o : XdpOptions) : list Z :=
  [SIGINT; SIGTERM; SIGPIPE] ++ (if bool_decide (profile o = kUdpRuntimeV3) then [SIGHUP] else []).

(** The body of the [try] block. *)
Definition runXdpCommand (o : XdpOptions) : M WK Z :=
  blocked <- onSystem (mworld (block_signals (waitedSignals o))) ;;
  if negb blocked then mthrow (RuntimeError (bs "无法阻塞退出信号"))
  else
    ifindex <- onKernel (resolveInterfaceIndex (device o)) ;;
    if negb (attach o) then
      onKernel (detachExpectedProgram ifindex (mode o) (programId o)) ;;;
      say (detachedLine o) ;;;
      good <- goodOutput ;;
      mret (if good : bool then 0 else 1)
    else
      c <- (if bool_decide (profile o = kUdpDsrV2)
            then onFiles (parseDsrConfiguration (device o) (vip o) (targets o)) else mret (dsr o)) ;;
      let o := set_dsr c o in
      if bool_decide (profile o = kUdpRuntimeV3) then runRuntimeMode o
      else runStaticMode o ifindex (waitedSignals o).

Definition parameterError (text : bytes) : bytes := bs "参数错误：" ++ text ++ [chr 10].
Definition failureLine (o : XdpOptions) (e : exn) : bytes :=
  bs "XDP 失败 dev=" ++ device o ++ bs " mode=" ++ xdpAttachModeName (mode o) ++ bs "：" ++ message e ++
  [chr 10].

(** The [catch] clauses; every exception of this program is a [std::exception]. *)
Definition xdpHandler (o : XdpOptions) (e : exn) : M WK Z :=
  match e with
  | InvalidArgument text => complain (parameterError text) ;;; mret 2
  | e => complain (failureLine o e) ;;; mret 1
  end.

(** [args] is argv without the name of the program. *)
Definition xdpMain (args : list bytes) : M WK Z :=
  if bool_decide (args = [bs "--help"]) then
    say usageText ;;; good <- goodOutput ;; mret (if good : bool then 0 else 1)
  else
    match parseXdpOptions args with
    | Ret o => mcatch (runXdpCommand o) (xdpHandler o)
    | Throw (InvalidArgument text) =>
        complain (parameterError text) ;;; say usageText ;;; mret 2
    | Throw e => mthrow e
    | Diverge => mdiverge
    end.
End main.
