(* ===== verification/AttachmentSafety.v ===== *)
(** * The attachment behind the interface of the runtime mode

    [XdpAttachment] with the kernel below it implements [RuntimeAttachmentLaws]:
    the store's transactions and the history of the links are what the control
    loop of [RuntimeService] relies on. *)
From S2P Require Import Prelude Frames Os XdpSchema BpfKernel RuntimeStore MapStore ConfigSync.
From S2P Require Import RuntimeConfig XdpAttachment RuntimeService RuntimeServiceSafety XdpMain.

(** ** One kernel below the attachment

    [RuntimeKernel] speaks of maps, [LinkKernel] of links and of the
    descriptors of programs; [files] are the descriptors of open files.  A
    descriptor is of one kind, and a call on one kind leaves the others alone. *)

Section kernel.
Context {K : Type} `{RuntimeKernel K} `{!Libbpf K} `{!XdpCalls K} `{!LinkKernel K}.

Record same_maps (k k' : K) : Prop := {
  sm_fds : fds k' = fds k;
  sm_slots : slots k' = slots k;
  sm_snaps : snaps k' = snaps k
}.
Record same_links (k k' : K) : Prop := {
  sl_links : links k' = links k;
  sl_programs : programs k' = programs k
}.
(** What libbpf tells about the maps of an object. *)
Record same_objects (k k' : K) : Prop := {
  so_find : forall object name,
    bpf_object__find_map_by_name object name k' = bpf_object__find_map_by_name object name k;
  so_fd : forall m, bpf_map__fd m k' = bpf_map__fd m k
}.

#[export] Instance same_maps_preorder : PreOrder same_maps.
Proof. split; [done|]. intros k1 k2 k3 [] []. split; congruence. Qed.
#[export] Instance same_links_preorder : PreOrder same_links.
Proof. split; [done|]. intros k1 k2 k3 [] []. split; congruence. Qed.
#[export] Instance same_objects_preorder : PreOrder same_objects.
Proof. split; [done|]. intros k1 k2 k3 [E1 F1] [E2 F2]. split; intros; by rewrite ?E2, ?F2. Qed.
End kernel.

Class AttachmentKernel (K : Type) `{RuntimeKernel K} `{!Libbpf K} `{!XdpCalls K} `{!LinkKernel K}
    `{!FileOps K} `{!BpfElements K (list UdpDsrStatsValue)} := {
  files : K -> gset Z;
  xk_kind : forall k fd i, fds k !! fd = Some i -> programs k !! fd = None /\ fd ∉ files k;
  (** links and programs *)
  xk_query : forall ifindex flags k, let k' := (bpf_xdp_query_id ifindex flags k).2 in
    same_maps k k' /\ files k' = files k;
  xk_attach : forall ifindex fd flags k, let k' := (bpf_xdp_attach ifindex fd flags k).2 in
    same_maps k k' /\ files k' = files k;
  xk_detach : forall ifindex flags old k, let k' := (bpf_xdp_detach ifindex flags old k).2 in
    same_maps k k' /\ files k' = files k;
  xk_dup : forall fd least id k, programs k !! fd = Some id ->
    let '(r, k') := dup_fd_cloexec fd least k in
    same_maps k k' /\ files k' = files k /\
    forall fd', r = inl fd' -> fds k !! fd' = None /\ fd' ∉ files k;
  xk_prog_info : forall fd k, let '(r, k') := bpf_prog_get_info fd k in
    same_maps k k' /\ same_links k k' /\ same_objects k k' /\ files k' = files k /\
    forall id, r = inl id -> programs k !! fd = Some id;
  xk_ifindex : forall name k, let k' := (xdp_if_nametoindex name k).2 in
    same_maps k k' /\ same_links k k' /\ files k' = files k;
  (** maps; the metadata say of which kind a map is *)
  xk_create : forall type name key value entries flags k,
    let k' := (bpf_map_create type name key value entries flags k).2 in
    same_links k k' /\ files k' = files k;
  xk_freeze : forall fd k, let k' := (bpf_map_freeze fd k).2 in same_links k k' /\ files k' = files k;
  xk_map_info : forall fd k, let '(r, k') := bpf_map_get_info fd k in
    same_links k k' /\ same_objects k k' /\ files k' = files k /\
    forall info i, r = inl info -> fds k !! fd = Some i ->
      (info_type info = BPF_MAP_TYPE_ARRAY_OF_MAPS -> is_Some (slots k !! i)) /\
      (info_type info = BPF_MAP_TYPE_ARRAY -> info_value_size info = runtimeSnapshotSize ->
         is_Some (snaps k !! i));
  xk_close : forall fd k, fd ∉ files k -> files (bpf_close fd k) = files k;
  xk_stats : forall fd key k,
    same_maps k (@bpf_map_lookup_elem K (list UdpDsrStatsValue) _ fd key k).2;
  (** objects; the outer map of a new object is empty *)
  xk_open_mem : forall contents k, let k' := (bpf_object__open_mem contents k).2 in
    same_maps k k' /\ same_links k k' /\ files k' = files k;
  xk_load : forall object k, let '(r, k') := bpf_object__load object k in
    links k' = links k /\ files k' = files k /\
    forall name m, r = inl tt -> bpf_object__find_map_by_name object name k' = Some m ->
      exists i, fds k' !! bpf_map__fd m k' = Some i /\ forall h, slots k' !! i = Some h -> h = None;
  (** files *)
  xk_open : forall path flags k, let '(r, k') := os_open path flags k in
    same_maps k k' /\ same_links k k' /\
    match r with inl fd => files k' = {[fd]} ∪ files k | inr _ => files k' = files k end;
  xk_fstat : forall fd k, let k' := (os_fstat fd k).2 in
    same_maps k k' /\ same_links k k' /\ files k' = files k;
  xk_read : forall fd n k, let k' := (os_read fd n k).2 in
    same_maps k k' /\ same_links k k' /\ files k' = files k;
  xk_os_close : forall fd k, fd ∈ files k -> let k' := os_close fd k in
    same_maps k k' /\ same_links k k'
}.

(** The elements of maps. *)
Class ElementFrame (K V : Type) `{AttachmentKernel K} `{!BpfElements K V} := {
  ef_update : forall fd key (v : V) k, let k' := (bpf_map_update_elem fd key v k).2 in
    same_links k k' /\ files k' = files k;
  ef_lookup : forall fd key k, let k' := (@bpf_map_lookup_elem K V _ fd key k).2 in
    same_links k k' /\ files k' = files k
}.

(** ** The maps' operations leave the links alone *)

Section store.
Context {K : Type} `{AttachmentKernel K} `{!ElementFrame K UdpRuntimeSnapshot} `{!ElementFrame K Z}
  `{!ElementFrame K (list UdpDsrStatsValue)}.

Definition apart (k k' : K) : Prop := same_links k k' /\ files k' = files k.
#[export] Instance apart_preorder : PreOrder apart.
Proof. split; [done|]. intros k1 k2 k3 [? ?] [? ?]. split; [by etrans|congruence]. Qed.

Lemma keeps_orThrowMap {A} (R : K -> K -> Prop) `{!PreOrder R} text (op : K -> (A + Z) * K) :
  (forall k, R k (op k).2) -> keeps R (orThrowMap text op).
Proof. intros Hop. unfold orThrowMap. apply keeps_bind; [done|by apply keeps_world|]. intros []; eauto with keeps. Qed.

Lemma apart_info fd k : apart k (bpf_map_get_info fd k).2.
Proof. pose proof (xk_map_info fd k) as Hi. destruct (bpf_map_get_info fd k). by destruct Hi as (? & _ & ? & _). Qed.
Lemma apart_freeze fd k : apart k (bpf_map_freeze fd k).2.
Proof. apply xk_freeze. Qed.
Lemma apart_create t name a b c d k : apart k (bpf_map_create t name a b c d k).2.
Proof. apply xk_create. Qed.
Lemma apart_update {V} `{!BpfElements K V} `{!ElementFrame K V} fd key (v : V) k :
  apart k (bpf_map_update_elem fd key v k).2.
Proof. apply ef_update. Qed.
Lemma apart_lookup V `{!BpfElements K V} `{!ElementFrame K V} fd key k :
  apart k (@bpf_map_lookup_elem K V _ fd key k).2.
Proof. apply ef_lookup. Qed.
End store.
#[export] Hint Resolve keeps_orThrowMap keeps_world apart_info apart_freeze apart_create apart_update
  apart_lookup apart_preorder : keeps.

Section publish.
Context {K : Type} `{AttachmentKernel K} `{!ElementFrame K UdpRuntimeSnapshot} `{!ElementFrame K Z}
  `{!ElementFrame K (list UdpDsrStatsValue)}.

Lemma prepareCandidate_apart candidate snapshot :
  keeps apart (prepareCandidate (K := K) candidate snapshot).
Proof using All. unfold prepareCandidate, validateMapMetadata, verifyFrozenSnapshot. keep. Qed.

(** Closing a descriptor of a map. *)
Lemma apart_close fd i k k' :
  fds k !! fd = Some i -> same_links k k' -> files k' = files k -> apart k (bpf_close fd k').
Proof.
  intros Hfd [Hl Hp] Hf. destruct (xk_kind k fd i Hfd) as [Hn Hnf]. destruct (lk_close fd k') as [Cl Cp].
  split; [split|]; [congruence| |].
  - rewrite Cp, Hp. by apply delete_id.
  - rewrite xk_close by by rewrite Hf. done.
Qed.

Lemma publishSnapshot_apart base snapshot s (k : K) :
  owns base s k ->
  wp (publishSnapshot snapshot) (fun _ s' => apart k s'.2) (s, k).
Proof using All.
  intros Ho. unfold publishSnapshot. wp_step. wp_step. wp_step. wp_step.
  destruct (validateCandidateSnapshot _ _); [|reflexivity..].
  wp_step. apply wp_outside_spec. unfold createCandidate. apply wp_orThrowMap. cbn [fst snd].
  pose proof (rk_create (bs "l4lb_snap_v3") k) as Hc.
  pose proof (xk_create BPF_MAP_TYPE_ARRAY (bs "l4lb_snap_v3") 4 runtimeSnapshotSize 1 BPF_F_RDONLY_PROG k) as Hk.
  destruct (bpf_map_create _ _ _ _ _ _ k) as [[c|error] k1]; cbn [fst snd] in *; [|exact Hk].
  destruct Hc as (i & v & Hc0 & Hcn & Hf & _). wp_step. wp_step. wp_step.
  assert (Hc1 : fds k1 !! c = Some i) by (rewrite Hf; apply lookup_insert_eq).
  apply wp_outside_spec. unfold orCloseCandidate. cbn [fst snd].
  apply wp_mono with (Q := fun o k2 => o <> Diverge /\ apart k k2).
  { apply wp_catch.
    assert (Hb : keeps apart (info <- prepareCandidate c snapshot ;;
      orThrowMap (bs "发布 runtime outer") (bpf_map_update_elem (outerFd_ s) 0 c) ;;; mret info))
      by (apply keeps_bind; [exact _|apply prepareCandidate_apart|intros info; keep]).
    eapply wp_mono; [apply Hb|]. intros [info|e|] k2 [Hd Ha]; [|..|done].
    - split; [done|]. by transitivity k1.
    - wp_step. wp_step. wp_step. split; [done|]. transitivity k1; [done|].
      destruct Ha. by apply (apart_close c i). }
  intros [info|e|] k2 [Hd Ha]; [|exact Ha|done]. wp_step. wp_step. wp_step. wp_step. wp_step. wp_step. cbn [fst snd].
  set (k3 := if 0 <=? _ then _ else _).
  assert (Ha3 : apart k k3).
  { subst k3. destruct Ho as [o Hact _ _ _ _|o j w Hact _ Hfk _ _ _ _]; [by rewrite Hact|].
    destruct (0 <=? activeFd_ s); [|done]. destruct Ha. apply (apart_close _ j); [|done..].
    rewrite Hfk. apply lookup_insert_eq. }
  wp_step. wp_step. cbn [fst snd].
  pose proof (ef_lookup (V := Z) (outerFd_ s) 0 k3) as Hl. cbv zeta in Hl.
  destruct (bpf_map_lookup_elem (outerFd_ s) 0 k3) as [[id|error] k4]; cbn [fst snd] in *;
    [destruct (negb _)|]; wp_step; cbn [fst snd]; by transitivity k3.
Qed.
End publish.

(** ** Construction of the store *)

Section construct.
Context {K : Type} `{AttachmentKernel K} `{!ElementFrame K UdpRuntimeSnapshot} `{!ElementFrame K Z}
  `{!ElementFrame K (list UdpDsrStatsValue)}.

(** The object was loaded and its outer maps hold nothing. *)
Definition object_loaded (object : bpf_object) (k : K) : Prop :=
  forall name m, bpf_object__find_map_by_name object name k = Some m ->
    exists i, fds k !! bpf_map__fd m k = Some i /\ forall h, slots k !! i = Some h -> h = None.

Record unchanged (k k' : K) : Prop := {
  uc_maps : same_maps k k';
  uc_objects : same_objects k k';
  uc_apart : apart k k'
}.
#[export] Instance unchanged_preorder : PreOrder unchanged.
Proof. split; [done|]. intros k1 k2 k3 [] []. split; by etrans. Qed.

Lemma object_unchanged object k k' : object_loaded object k -> unchanged k k' -> object_loaded object k'.
Proof.
  intros Ho [[Mf Ms _] [Of Od] _] name m Hm. rewrite Of in Hm. destruct (Ho name m Hm) as (i & Hi & Hh).
  exists i. by rewrite Mf, Ms, Od.
Qed.

(** A descriptor that is accepted is of the specified kind. *)
Lemma wp_validateMapDescriptor object spec k :
  object_loaded object k ->
  wp (RuntimeStore.validateMapDescriptor object spec) (fun o k' => o <> Diverge /\ unchanged k k' /\
    forall fd, o = Ret fd -> exists i, fds k !! fd = Some i /\ (forall h, slots k !! i = Some h -> h = None) /\
      (mapType spec = BPF_MAP_TYPE_ARRAY_OF_MAPS -> is_Some (slots k' !! i)) /\
      (mapType spec = BPF_MAP_TYPE_ARRAY -> valueSize spec = runtimeSnapshotSize ->
         is_Some (snaps k' !! i))) k.
Proof.
  intros Ho. unfold RuntimeStore.validateMapDescriptor, validateMapMetadata. wp_step. wp_step.
  destruct (bpf_object__find_map_by_name _ _ _) as [m|] eqn:Hm; [|by wp_step]. destruct (Ho _ _ Hm) as (i & Hi & Hh).
  wp_step. wp_step. wp_step. wp_step. apply wp_orThrowMap.
  pose proof (rk_info (bpf_map__fd m k) k) as Hr. pose proof (xk_map_info (bpf_map__fd m k) k) as Hx.
  destruct (bpf_map_get_info _ k) as [[info|error] k1]; destruct Hr as (Mf & Ms & Mn);
    destruct Hx as (Hl & Hob & Hf & Hk); (assert (Hu : unchanged k k1) by (by repeat split; try apply Hl; try apply Hob)); [|done].
  destruct (matchesMetadata _ _ _) eqn:Hmeta; wp_step; [|done]. wp_step. split; [done|]. split; [done|].
  intros fd [= <-]. exists i. split; [done|]. split; [done|]. unfold matchesMetadata in Hmeta. bool_to_prop.
  destruct (Hk info i eq_refl Hi) as [Hk1 Hk2]. rewrite Ms, Mn. split; intros; [apply Hk1|apply Hk2]; congruence.
Qed.

(** Reading and writing the map [t] behind [fd] changes neither the descriptors
    nor the outer maps. *)
Definition known (fd t : Z) (k : K) : Prop := fds k !! fd = Some t /\ is_Some (snaps k !! t).
Definition element_only (fd t : Z) (k k' : K) : Prop :=
  known fd t k -> fds k' = fds k /\ slots k' = slots k /\ known fd t k'.
#[export] Instance element_only_preorder fd t : PreOrder (element_only fd t).
Proof.
  split; [by intros k Hk|]. intros k1 k2 k3 R1 R2 Hk. destruct (R1 Hk) as (F & S & Hk2).
  destruct (R2 Hk2) as (F' & S' & ?). split_and!; congruence || done.
Qed.

Lemma element_update fd t (v : UdpRuntimeSnapshot) k : element_only fd t k (bpf_map_update_elem fd 0 v k).2.
Proof.
  intros [Hf [[w frozen] Hs]]. pose proof (rk_write fd t w frozen v k Hf Hs) as Hw.
  destruct (bpf_map_update_elem fd 0 v k) as [r k1]. destruct Hw as (F & S & N). cbn [snd].
  split_and!; [done..|]. split; [congruence|]. destruct frozen; [rewrite N; eauto|]. destruct N as [w' ->].
  rewrite lookup_insert_eq. eauto.
Qed.
Lemma element_lookup fd t k : element_only fd t k (@bpf_map_lookup_elem K UdpRuntimeSnapshot _ fd 0 k).2.
Proof.
  intros [Hf [[w frozen] Hs]]. pose proof (rk_read fd t w frozen k Hf Hs) as Hw.
  destruct (bpf_map_lookup_elem fd 0 k) as [r k1]. destruct Hw as (F & S & N & _). cbn [snd].
  split_and!; [done..|]. split; [congruence|]. rewrite N. eauto.
Qed.
Lemma element_freeze fd t k : element_only fd t k (bpf_map_freeze fd k).2.
Proof.
  intros [Hf [[w frozen] Hs]]. pose proof (rk_freeze fd t w frozen k Hf Hs) as Hw.
  destruct (bpf_map_freeze fd k) as [r k1]. destruct Hw as (F & S & N). cbn [snd].
  split_and!; [done..|]. split; [congruence|]. destruct r; rewrite N; [rewrite lookup_insert_eq|]; eauto.
Qed.

Definition initialiseTemplate (fd : Z) (s : RuntimeMapStore) : M K RuntimeMapStore :=
  orThrowMap (bs "初始化 runtime 模板") (bpf_map_update_elem fd 0 emptySnapshot) ;;;
  readback <- orThrowMap (bs "回读 runtime 模板") (bpf_map_lookup_elem fd 0) ;;
  if bool_decide (readback <> emptySnapshot) then mthrow (RuntimeError (bs "runtime 模板非零"))
  else
    orThrowMap (bs "冻结 runtime 模板") (bpf_map_freeze fd) ;;;
    verifyFrozenSnapshot fd emptySnapshot ;;;
    mret s.

#[local] Hint Resolve element_update element_lookup element_freeze element_only_preorder : keeps.

Lemma initialiseTemplate_element fd t s : keeps (element_only fd t) (initialiseTemplate fd s).
Proof. unfold initialiseTemplate, verifyFrozenSnapshot. keep. Qed.
Lemma initialiseTemplate_apart fd s : keeps apart (initialiseTemplate fd s).
Proof using All. unfold initialiseTemplate, verifyFrozenSnapshot. keep. Qed.
Lemma initialiseTemplate_returns fd s k s' :
  (initialiseTemplate fd s k).1 = Ret s' -> s' = s.
Proof.
  enough (Hw : wp (initialiseTemplate fd s) (fun o _ => forall x, o = Ret x -> x = s) k) by apply Hw.
  unfold initialiseTemplate, verifyFrozenSnapshot, orThrowMap.
  repeat (wp_step; try by intros ? [=]).
Qed.

Lemma wp_newRuntimeMapStore object k :
  object_loaded object k ->
  wp (newRuntimeMapStore object) (fun o k' => o <> Diverge /\ apart k k' /\
    forall s, o = Ret s -> owns (fds k') s k' /\ generation_ s = 0) k.
Proof using All.
  intros Ho. unfold newRuntimeMapStore. wp_step.
  eapply wp_mono; [by apply wp_validateMapDescriptor|]. intros [outer|e|] k1 (Hd & Hu1 & Hs); [|by destruct Hu1|done].
  destruct (Hs outer eq_refl) as (o & Hof & Hoh & Hos & _). specialize (Hos eq_refl). clear Hs Hd.
  wp_step. pose proof (object_unchanged _ _ _ Ho Hu1) as Ho1.
  eapply wp_mono; [by apply wp_validateMapDescriptor|]. intros [stats|e|] k2 (Hd & Hu2 & _);
    [|split; [done|]; split; [transitivity k1; [apply Hu1|apply Hu2]|done]|done].
  wp_step. pose proof (object_unchanged _ _ _ Ho1 Hu2) as Ho2. assert (Hu : unchanged k k2) by by etrans.
  eapply wp_mono; [by apply wp_validateMapDescriptor|]. intros [template|e|] k3 (Hd3 & Hu3 & Hs); [| |done].
  2: { split; [done|]. split; [transitivity k2; [apply Hu|apply Hu3]|done]. }
  destruct (Hs template eq_refl) as (t & Htf & _ & _ & Htn). specialize (Htn eq_refl eq_refl).
  assert (Hu' : unchanged k k3) by by etrans. destruct Hu' as [[Mf Ms _] _ Ha3].
  assert (Hk3 : known template t k3) by (split; [by rewrite (sm_fds _ _ (uc_maps _ _ Hu3))|done]).
  set (s0 := mkRuntimeMapStore outer stats (-1) 0). fold (initialiseTemplate template s0).
  pose proof (initialiseTemplate_element template t s0 k3) as [_ He]. destruct (He Hk3) as (F & S & _).
  pose proof (initialiseTemplate_apart template s0 k3) as [Hd' Ha].
  pose proof (initialiseTemplate_returns template s0 k3) as Hr. unfold wp.
  destruct (initialiseTemplate template s0 k3) as [r k4]. cbn [fst snd] in *.
  split; [done|]. split; [by transitivity k3|]. intros s ->. rewrite (Hr s eq_refl). split; [|done].
  assert (Hsl : exists h, slots k !! o = Some h) by (destruct Hos as [h Hh]; exists h; by rewrite <-(sm_slots _ _ (uc_maps _ _ Hu1))).
  destruct Hsl as [h Hh]. assert (h = None) as -> by by apply Hoh.
  apply (owns_nothing _ s0 k4 o); cbn; congruence.
Qed.
End construct.

(** ** Loading *)

Section load.
Context {K : Type} `{AttachmentKernel K} `{!ElementFrame K UdpRuntimeSnapshot} `{!ElementFrame K Z}
  `{!ElementFrame K (list UdpDsrStatsValue)}.
Context `{!BpfElements K XdpConfigValue} `{!BpfElements K XdpBackendValue} `{!BpfElements K (list Z)}
  `{!BpfElements K UdpDsrConfigValue} `{!BpfElements K UdpDsrBackendValue}.
Context `{!ElementFrame K XdpConfigValue} `{!ElementFrame K XdpBackendValue} `{!ElementFrame K (list Z)}
  `{!ElementFrame K UdpDsrConfigValue} `{!ElementFrame K UdpDsrBackendValue}.

Lemma keeps_orThrowXdp {A} (R : K -> K -> Prop) `{!PreOrder R} text (op : K -> (A + Z) * K) :
  (forall k, R k (op k).2) -> keeps R (orThrowXdp text op).
Proof.
  intros Hop. unfold orThrowXdp. apply keeps_bind; [done|by apply keeps_world|]. intros []; eauto with keeps.
Qed.

(** The static stores. *)
Lemma newStore_apart specs object : keeps apart (newStore (K := K) specs object).
Proof using All. unfold newStore, MapStore.validateMapDescriptor. keep. Qed.

Lemma writeAndVerify_apart {C B} `{!BpfElements K C} `{!BpfElements K B} `{!ElementFrame K C}
    `{!ElementFrame K B} `{EqDecision C} `{EqDecision B} s (config : C) (empty : B) backends :
  keeps apart (@writeAndVerify K C B (mapStoreAccess s) _ _ config empty backends).
Proof using All.
  unfold writeAndVerify, verifyBackend, writeBackend, writeConfig, readConfig, readBackend, freezeBackends,
    freezeConfig, mapStoreAccess, writeBackendMap, writeConfigMap, readConfigMap, readBackendMap,
    freezeBackendsMap, freezeConfigMap. keep.
Qed.
#[local] Hint Resolve newStore_apart writeAndVerify_apart : keeps.

Lemma synchronizeXdpConfig_apart s backends :
  keeps apart (@synchronizeXdpConfig K (mapStoreAccess s) backends).
Proof using All. unfold synchronizeXdpConfig. keep. Qed.
Lemma synchronizeDsrConfig_apart s configuration :
  keeps apart (@synchronizeDsrConfig K (mapStoreAccess s) configuration).
Proof using All. unfold synchronizeDsrConfig. keep. Qed.

(** The checks of an object read only. *)
Lemma validateProfileMaps_pure p object : keeps eq (validateProfileMaps (K := K) p object).
Proof.
  unfold validateProfileMaps, validateRuntimeMapObject, orRuntimeError, validateConfigMapObject,
    validateDsrMapObject, validateMapObject. keep.
Qed.

(** The store publishes [v]. *)
Definition publishing (v : UdpRuntimeSnapshot) (s : RuntimeMapStore) (k : K) : Prop :=
  (exists base, owns base s k) /\ activeSnapshot (outerFd_ s) k = Some v /\
  generation_ s = rs_generation v /\ 0 <= generation_ s < 2 ^ 64.

Lemma transaction_publishing base v s k o s' k' :
  transaction base v s k o s' k' -> 0 <= generation_ s -> 
  o = Ret tt \/ (exists text, o = Throw (RuntimePublishError text true)) ->
  publishing v s' k' /\ rs_generation v = generation_ s + 1 /\ publishable v.
Proof.
  intros (Ho & Hout & _ & Hc) Hg Hcase.
  assert (generation_ s' = generation_ s + 1 /\ generation_ s' <= UINT64_MAX /\
    rs_generation v = generation_ s' /\ publishable v /\ activeSnapshot (outerFd_ s) k' = Some v)
    as (G1 & G2 & G3 & Hp & Ha) by (destruct Hcase as [->|[text ->]]; exact Hc).
  split; [|split; [congruence|done]]. split; [eauto|]. split; [by rewrite Hout|].
  split; [done|]. unfold UINT64_MAX in G2. lia.
Qed.

(** What the maps are brought to. *)
Definition synchronized (p : XdpObjectProfile) (runtime : option UdpRuntimeSnapshot) (a : XdpAttachment) (k : K)
    : Prop :=
  p = kUdpRuntimeV3 -> exists v s, runtime = Some v /\ runtimeMaps_ a = Some s /\ publishing v s k /\
    publishable v /\ rs_generation v = 1.

Lemma wp_synchronizeMaps p object backends dsr runtime a k :
  object_loaded object k ->
  wp (synchronizeMaps p object backends dsr runtime) (fun o s => o <> Diverge /\ apart k s.2 /\
    (exists m, s.1 = set_runtimeMaps m a) /\ (o = Ret tt -> synchronized p runtime s.1 s.2)) (a, k).
Proof using All.
  intros Ho. assert (Hsame : exists m, a = set_runtimeMaps m a) by (exists (runtimeMaps_ a); by destruct a).
  assert (Hstatic : forall {X} (make : M K X) sync, p <> kUdpRuntimeV3 -> keeps apart make ->
    (forall x, keeps apart (sync x)) ->
    wp (x <- outside make ;; outside (sync x)) (fun o s => o <> Diverge /\ apart k s.2 /\
      (exists m, s.1 = set_runtimeMaps m a) /\ (o = Ret tt -> synchronized p runtime s.1 s.2)) (a, k)).
  { intros X make sync Hp Hm Hs. wp_step. apply wp_outside_spec. eapply wp_mono; [apply Hm|].
    intros [x|e|] k1 [Hd1 Ha1]; [|by split_and!|done]. apply wp_outside_spec.
    eapply wp_mono; [apply Hs|]. intros o k2 [Hd2 Ha2]. split; [done|]. split; [by transitivity k1|]. split; [exact Hsame|]. by intros _ ?. }
  unfold synchronizeMaps. destruct p.
  - wp_step. by split_and!.
  - apply Hstatic; [done|apply newStore_apart|]. intros s. apply synchronizeXdpConfig_apart.
  - apply Hstatic; [done|apply newStore_apart|]. intros s. apply synchronizeDsrConfig_apart.
  - destruct runtime as [v|]; [|wp_step; by split_and!].
    wp_step. apply wp_outside_spec. eapply wp_mono; [by apply wp_newRuntimeMapStore|].
    intros [s|e|] k1 (Hd1 & Ha1 & Hs1); [|by split_and!|done]. destruct (Hs1 s eq_refl) as [Hown Hg].
    wp_step. wp_step. unfold withRuntimeMaps. wp_step. wp_step. cbn [fst snd set_runtimeMaps runtimeMaps_].
    apply wp_zoom. cbn [fst snd].
    eapply wp_mono; [apply wp_conj; [by apply (wp_publishSnapshot (fds k1) v s k1); [|rewrite Hg]|
                                     by apply (publishSnapshot_apart (fds k1))]|].
    intros o [s2 k2] [Ht Ha2]. cbn [fst snd] in *. split; [by destruct o; destruct Ht as (_ & _ & _ & Hc)|].
    split; [by transitivity k1|]. split; [by eexists|]. intros -> _.
    destruct (transaction_publishing _ _ _ _ _ _ _ Ht) as (Hpub & Hgen & Hp); [lia|by left|].
    exists v, s2. rewrite Hg in Hgen. by split_and!.
Qed.

(** Reading the file of the object. *)
Record same_kernel (k k' : K) : Prop := {
  sk_maps : same_maps k k';
  sk_apart : apart k k'
}.
#[export] Instance same_kernel_preorder : PreOrder same_kernel.
Proof. split; [done|]. intros k1 k2 k3 [] []. split; by etrans. Qed.

Definition reads_enough (fuel : nat) (size : Z) : Prop :=
  UninterruptedReads K /\ size <= Z.of_nat fuel.

Lemma wp_readObjectBytes fuel path fd size contents k :
  wp (readObjectBytes fuel path fd size contents) (fun o k' => same_kernel k k' /\
    (reads_enough fuel (size - len contents) -> o <> Diverge)) k.
Proof.
  revert contents k. induction fuel as [|fuel IH]; intros contents k; cbn [readObjectBytes].
  - destruct (Z.leb_spec size (len contents)); wp_step; (split; [done|]); [done|].
    intros [_ Hf] _. lia.
  - destruct (Z.leb_spec size (len contents)); [by wp_step|]. wp_step. wp_step.
    pose proof (xk_read fd (size - len contents) k) as (Hm & Hl & Hf).
    destruct (os_read fd (size - len contents) k) as [r k1] eqn:Hr. cbn [fst snd] in *.
    assert (Hk : same_kernel k k1) by done.
    assert (Hnext : forall c m, len contents + 1 <= len c -> m = readObjectBytes fuel path fd size c ->
      wp m (fun o k' => same_kernel k k' /\ (reads_enough (S fuel) (size - len contents) -> o <> Diverge)) k1).
    { intros c m Hc ->. eapply wp_mono; [apply IH|]. intros o k2 [Hk2 Hd]. split; [by etrans|].
      intros [Hu He]. apply Hd. split; [done|lia]. }
    destruct r as [[|b chunk]|errno]; [by wp_step| |].
    + eapply Hnext; [|reflexivity]. rewrite len_app, len_cons. pose proof (len_nonneg chunk). lia.
    + destruct (Z.eqb_spec errno EINTR) as [->|]; [|done].
      eapply wp_mono; [apply IH|]. intros o k2 [Hk2 _]. split; [by etrans|]. intros [Hu _].
      specialize (Hu fd (size - len contents) k). by rewrite Hr in Hu.
Qed.

Lemma wp_readObjectFile fuel path fd k :
  wp (readObjectFile fuel path fd) (fun o k' => same_kernel k k' /\
    (reads_enough fuel kMaxObjectBytes -> o <> Diverge)) k.
Proof.
  unfold readObjectFile, orThrowXdp. wp_step. wp_step. wp_step.
  pose proof (xk_fstat fd k) as (Hm & Hl & Hf).
  destruct (os_fstat fd k) as [[info|error] k1]; cbn [fst snd] in *; [|done].
  assert (Hk : same_kernel k k1) by done. wp_step.
  destruct (negb (st_isreg info)); [by wp_step|].
  destruct ((st_size info <=? 0) || (kMaxObjectBytes <? st_size info)) eqn:Hs; [by wp_step|].
  bool_to_prop. eapply wp_mono; [apply wp_readObjectBytes|]. intros o k2 [Hk2 Hd]. split; [by etrans|].
  intros [Hu He]. apply Hd. split; [done|]. unfold len. cbn [length]. lia.
Qed.

(** How loading ends, from the kernel [k]. *)
Definition load_post (p : XdpObjectProfile) (runtime : option UdpRuntimeSnapshot) (k : K)
    (o : outcome unit) (s : XdpAttachment * K) : Prop :=
  attached_ s.1 = false /\ links s.2 = links k /\
  match o with
  | Ret _ => profile_ s.1 = p /\ programs s.2 !! programFd_ s.1 = Some (programId_ s.1) /\
      synchronized p runtime s.1 s.2
  | _ => profile_ s.1 = kLegacy
  end.

Lemma load_failed p runtime k e a' k' :
  attached_ a' = false -> profile_ a' = kLegacy -> links k' = links k ->
  load_post p runtime k (Throw e) (a', k').
Proof. by intros ? ? ?. Qed.

Lemma wp_loadObjectBytes path p contents backends dsr runtime a k :
  attached_ a = false -> profile_ a = kLegacy ->
  wp (loadObjectBytes path p contents backends dsr runtime) (fun o s => o <> Diverge /\
    load_post p runtime k o s /\ files s.2 = files k) (a, k).
Proof using All.
  intros Hat Hp. unfold loadObjectBytes. wp_step. wp_step. cbn [fst snd].
  pose proof (xk_open_mem contents k) as (Hm1 & [L1 P1] & F1).
  destruct (bpf_object__open_mem contents k) as [[object|error] k1]; cbn [fst snd] in *; [|done].
  wp_step. wp_step. wp_step. wp_step. cbn [fst snd mgets].
  destruct (selectProgram p object k1) as [program|]; cbn [fst snd]; [|by wp_step].
  wp_step. apply wp_outside_spec. cbn [fst snd]. eapply wp_mono; [apply validateProfileMaps_pure|].
  intros [[]|e|] k1' [Hd1 <-]; [|by split_and!|done].
  wp_step. apply wp_outside_spec, wp_orThrowXdp. cbn [fst snd].
  pose proof (xk_load object k1) as Hl. destruct (bpf_object__load object k1) as [[[]|error] k2];
    destruct Hl as (L2 & F2 & Hob); [|intros w; split; [done|]; split; [apply load_failed; cbn; congruence|cbn; congruence]].
  specialize (fun name m => Hob name m eq_refl).
  wp_step. wp_step. cbn [fst snd mgets]. wp_step. wp_step. cbn [fst snd].
  wp_step. apply wp_outside_spec, wp_orThrowXdp. cbn [fst snd].
  pose proof (xk_prog_info (bpf_program__fd program k2) k2) as Hi.
  destruct (bpf_prog_get_info _ k2) as [[id|error] k3]; destruct Hi as ([M3 S3 _] & [L3 P3] & [O3 D3] & F3 & Hid);
    [|intros w; split; [done|]; split; [apply load_failed; cbn; congruence|cbn; congruence]].
  specialize (Hid id eq_refl). wp_step. wp_step. cbn [fst snd].
  assert (Hloaded : object_loaded object k3).
  { intros name m Hf. rewrite O3 in Hf. destruct (Hob name m Hf) as (i & Hi & Hh). exists i.
    by rewrite M3, S3, D3. }
  wp_step. eapply wp_mono; [by apply wp_synchronizeMaps|].
  intros o [a4 k4] (Hd4 & [[L4 P4] F4] & [m Ha4] & Hsync). cbn [fst snd] in *. subst a4.
  destruct o as [[]|e|]; [|split; [done|]; split; [apply load_failed; cbn; congruence|congruence]|done].
  wp_step. cbn [fst snd]. split; [done|]. split; [|congruence]. split; [done|]. split; [cbn; congruence|].
  split; [done|]. split; [cbn; congruence|]. exact (Hsync eq_refl).
Qed.

Lemma publishing_stays v s k k' : publishing v s k -> same_maps k k' -> publishing v s k'.
Proof.
  intros ([base Hown] & Hact & Hg) [Mf Ms Mn].
  destruct (owns_frame base s k k' Hown Mf Ms) as [Hown' [_ Ha']]; [by rewrite Mn|].
  split; [by exists base|]. split; [by rewrite Ha'|done].
Qed.

Lemma load_stays p runtime k o a k2 k3 :
  load_post p runtime k o (a, k2) -> same_maps k2 k3 -> same_links k2 k3 -> load_post p runtime k o (a, k3).
Proof.
  unfold load_post, synchronized. cbn [fst snd]. intros (Q1 & Q2 & Q3) Hm [Hl Hp].
  split; [done|]. split; [congruence|]. destruct o; [|done..]. destruct Q3 as (Q3 & Q4 & Q5).
  split; [done|]. split; [by rewrite Hp|]. intros Hv3. destruct (Q5 Hv3) as (v & s & ? & ? & Hpub & ?).
  exists v, s. split; [done|]. split; [done|]. split; [by eapply publishing_stays|done].
Qed.

Lemma wp_loadObject fuel path p backends dsr runtime k :
  wp (loadObject fuel path p backends dsr runtime) (fun o s => load_post p runtime k o s /\
    (reads_enough fuel kMaxObjectBytes -> o <> Diverge)) (newXdpAttachment, k).
Proof using All.
  unfold loadObject. wp_step. wp_step. cbn [fst snd newXdpAttachment object_].
  case_bool_decide as Hs; [by destruct Hs|]. clear Hs. wp_step.
  apply wp_outside_spec, wp_orThrowXdp. cbn [fst snd].
  pose proof (xk_open path [O_RDONLY; O_CLOEXEC; O_NONBLOCK] k) as Ho.
  destruct (os_open _ _ k) as [[fd|error] k1]; destruct Ho as (M1 & [L1 P1] & F1); [|by intros w].
  apply wp_finally. apply wp_mono with (Q := fun o s => load_post p runtime k o s /\
    (reads_enough fuel kMaxObjectBytes -> o <> Diverge) /\ fd ∈ files s.2).
  2: { intros o [a2 k2] (Hpost & Hd & Hfd). destruct (xk_os_close fd k2 Hfd). split; [|done].
       by apply (load_stays _ _ _ _ _ k2). }
  wp_step. apply wp_outside_spec. cbn [fst snd]. eapply wp_mono; [apply wp_readObjectFile|].
  intros o k2 [[_ [[L2 P2] F2]] Hd].
  assert (Hfd : fd ∈ files k2) by (rewrite F2, F1; set_solver).
  assert (Hstop : forall x, (forall u, x <> Ret u) -> load_post p runtime k x (newXdpAttachment, k2)).
  { intros x Hx. split; [done|]. split; [cbn [snd]; congruence|]. by destruct x as [[]|e'|]; [destruct (Hx tt)|..]. }
  destruct o as [contents|e|]; [|by split; [apply Hstop|]|].
  2: { split; [by apply Hstop|]. split; [intros He _; exact (Hd He eq_refl)|done]. }
  wp_step. wp_step. cbn [fst snd].
  eapply wp_mono; [by apply wp_loadObjectBytes|]. intros o [a3 k3] (Hd3 & (Q1 & Q2 & Q3) & F3). cbn [fst snd] in *.
  split; [|split; [done|by rewrite F3]]. split; [done|]. split; [cbn; congruence|done].
Qed.
End load.

(** ** Attaching, publishing and detaching *)

Section laws.
Context {K : Type} `{AttachmentKernel K} `{!ElementFrame K UdpRuntimeSnapshot} `{!ElementFrame K Z}
  `{!ElementFrame K (list UdpDsrStatsValue)}.

(** The open maps keep their contents. *)
Record maps_stay (k k' : K) : Prop := {
  ms_fds : fds k' = fds k;
  ms_slots : slots k' = slots k;
  ms_snaps : forall i fd, fds k !! fd = Some i -> snaps k' !! i = snaps k !! i
}.
#[export] Instance maps_stay_preorder : PreOrder maps_stay.
Proof.
  split; [done|]. intros k1 k2 k3 [F1 S1 N1] [F2 S2 N2]. split; [congruence..|].
  intros i fd Hfd. rewrite (N2 i fd) by congruence. eauto.
Qed.
Lemma same_maps_stay k k' : same_maps k k' -> maps_stay k k'.
Proof. intros [F S N]. split; [done|done|]. intros. by rewrite N. Qed.

Lemma publishing_stay v s k k' : publishing v s k -> maps_stay k k' -> publishing v s k'.
Proof.
  intros ([base Hown] & Hact & Hg) [Mf Ms Mn].
  destruct (owns_frame base s k k' Hown Mf Ms Mn) as [Hown' [_ Ha']].
  split; [by exists base|]. split; [by rewrite Ha'|done].
Qed.

Lemma detachExpectedProgramFd_maps ifindex mode fd id k :
  programs k !! fd = Some id ->
  wp (detachExpectedProgramFd ifindex mode fd id) (fun _ k' => maps_stay k k') k.
Proof using All.
  intros Hfd. unfold detachExpectedProgramFd, queryAttachedProgramId. wp_step. wp_step. wp_step.
  pose proof (lk_query ifindex (xdpAttachFlags mode) k) as Hq.
  pose proof (xk_query ifindex (xdpAttachFlags mode) k) as [Hm Hf]. cbv zeta in *.
  destruct (bpf_xdp_query_id _ _ k) as [[current|error] k1]; destruct Hq as [L1 P1]; cbn [fst snd] in *;
    apply same_maps_stay in Hm; [|by destruct (error =? ENODEV)].
  wp_step. destruct (current =? 0); [by wp_step|]. destruct (negb _); [by wp_step|].
  wp_step. apply wp_orThrowXdp. assert (Hfd1 : programs k1 !! fd = Some id) by (rewrite P1; exact Hfd).
  pose proof (lk_dup fd 3 id k1 Hfd1) as Hd. pose proof (xk_dup fd 3 id k1 Hfd1) as Hx.
  destruct (dup_fd_cloexec fd 3 k1) as [[c|error] k2]; destruct Hx as (Hm2 & Hf2 & Hc);
    apply same_maps_stay in Hm2; [|intros w; by etrans].
  specialize (Hc c eq_refl) as [Hc _]. wp_step. wp_step.
  pose proof (xk_detach ifindex (xdpAttachFlags mode) c k2) as [Hm3 _]. cbv zeta in *.
  destruct (bpf_xdp_detach _ _ c k2) as [r k3]. cbn [fst snd] in *. apply same_maps_stay in Hm3.
  assert (Hm13 : maps_stay k1 k3) by by etrans.
  wp_step. wp_step. destruct (rk_close c k3) as (Cf & Cs & Cn).
  assert (Cf' : fds (bpf_close c k3) = fds k3).
  { rewrite Cf. apply delete_id. by rewrite (ms_fds _ _ Hm13). }
  assert (Hm4 : maps_stay k (bpf_close c k3)).
  { transitivity k3; [by transitivity k1|]. split; [done|done|]. intros i fd' Hfd'. apply Cn. exists fd'. by rewrite Cf'. }
  destruct r as [[]|error]; [by wp_step|]. by destruct (error =? ENODEV).
Qed.

(** The link's fields are the only ones that change. *)
Definition relinked (a a' : XdpAttachment) : Prop :=
  exists ifindex mode attached, a' = set_link ifindex mode attached a.
Lemma relinked_refl a : relinked a a.
Proof. exists (interfaceIndex_ a), (mode_ a), (attached_ a). by destruct a. Qed.

Lemma detachProgram_maps a k :
  (attached_ a = true -> programs k !! programFd_ a = Some (programId_ a)) ->
  wp detachProgram (fun _ s => relinked a s.1 /\ maps_stay k s.2) (a, k).
Proof using All.
  intros Hfd. unfold detachProgram. wp_step. wp_step. cbn [fst snd].
  destruct (attached_ a); cbn [negb]; [|wp_step; split; [apply relinked_refl|done]].
  wp_step. apply wp_outside_spec. cbn [fst snd].
  eapply wp_mono; [by apply detachExpectedProgramFd_maps; apply Hfd|]. intros [[]|e|] k1 Hm;
    [|split; [apply relinked_refl|done]..].
  wp_step. split; [|done]. by eexists _, _, _.
Qed.

Lemma attachProgram_maps ifindex mode a k :
  wp (attachProgram ifindex mode) (fun _ s => relinked a s.1 /\ maps_stay k s.2) (a, k).
Proof using All.
  unfold attachProgram. wp_step. wp_step. wp_step. wp_step. cbn [fst snd].
  destruct (_ || _); [wp_step; split; [apply relinked_refl|done]|].
  wp_step. apply wp_outside_spec, wp_orThrowXdp. cbn [fst snd].
  pose proof (xk_attach ifindex (programFd_ a) (Z.lor (xdpAttachFlags mode) XDP_FLAGS_UPDATE_IF_NOEXIST) k) as [Hm _].
  cbv zeta in Hm. destruct (bpf_xdp_attach _ _ _ k) as [[[]|error] k1]; cbn [fst snd] in *; apply same_maps_stay in Hm.
  - wp_step. split; [|done]. by eexists _, _, _.
  - intros w. split; [apply relinked_refl|done].
Qed.
End laws.

(** ** The promise to the control loop *)

Section promise.
Context {K : Type} `{AttachmentKernel K} `{!ElementFrame K UdpRuntimeSnapshot} `{!ElementFrame K Z}
  `{!ElementFrame K (list UdpDsrStatsValue)}.
Context `{!BpfElements K XdpConfigValue} `{!BpfElements K XdpBackendValue} `{!BpfElements K (list Z)}
  `{!BpfElements K UdpDsrConfigValue} `{!BpfElements K UdpDsrBackendValue}.
Context `{!ElementFrame K XdpConfigValue} `{!ElementFrame K XdpBackendValue} `{!ElementFrame K (list Z)}
  `{!ElementFrame K UdpDsrConfigValue} `{!ElementFrame K UdpDsrBackendValue}.

Abbreviation state := (XdpAttachment * K)%type.

(** A loaded program, and the links since they were [l0]. *)
Definition linked (l0 : list LinkEvent) (s : state) : Prop :=
  exists fd id, programs s.2 !! fd = Some id /\ living l0 (programs s.2) fd id s.1 s.2.
Definition tidy (l0 : list LinkEvent) (s : state) : Prop :=
  (attached_ s.1 = false /\ links s.2 = l0) \/ linked l0 s.
Definition runtime_loaded (l0 : list LinkEvent) (s : state) : Prop :=
  profile_ s.1 = kUdpRuntimeV3 /\ linked l0 s /\
  exists v m, runtimeMaps_ s.1 = Some m /\ publishing v m s.2.
(** What the XDP program finds. *)
Definition runtime_active (s : state) : option UdpRuntimeSnapshot :=
  m ← runtimeMaps_ s.1; activeSnapshot (outerFd_ m) s.2.

Lemma linked_loaded a k :
  attached_ a = false -> programs k !! programFd_ a = Some (programId_ a) -> linked (links k) (a, k).
Proof.
  intros Hat Hp. exists (programFd_ a), (programId_ a). split; [exact Hp|]. split; [done..|].
  exists []. cbn [fst snd]. rewrite app_nil_r. split; [done|]. unfold currentLink. rewrite Hat. constructor.
Qed.

Lemma linked_programs l0 a k : linked l0 (a, k) -> programs k !! programFd_ a = Some (programId_ a).
Proof. intros (fd & id & Hp & [Lf Li _ _]). cbn in *. congruence. Qed.

Lemma linked_apart l0 a a' k k' :
  linked l0 (a, k) -> apart k k' -> currentLink a' = currentLink a -> programFd_ a' = programFd_ a ->
  programId_ a' = programId_ a -> linked l0 (a', k').
Proof.
  intros (fd & id & Hp & [Lf Li _ (events & Le & Lh)]) [[Hl Hpr] _] Hc Hf Hi. cbn [fst snd] in *.
  exists fd, id. cbn [fst snd]. rewrite Hpr. split; [done|]. split; [congruence..|done|].
  exists events. split; [congruence|]. by rewrite Hc.
Qed.

Lemma runtime_relinked l0 a k a' k' :
  runtime_loaded l0 (a, k) -> relinked a a' -> maps_stay k k' -> linked l0 (a', k') ->
  runtime_loaded l0 (a', k') /\ runtime_active (a', k') = runtime_active (a, k).
Proof.
  intros (Hp & _ & v & m & Hm & Hpub) (i & md & b & ->) Hstay Hl. unfold runtime_active.
  cbn [fst snd] in *. pose proof (publishing_stay _ _ _ _ Hpub Hstay) as Hpub'.
  split; [split; [done|]; split; [done|]; by exists v, m|].
  cbn [set_link runtimeMaps_]. rewrite Hm. cbn. destruct Hpub as (_ & -> & _). by destruct Hpub' as (_ & -> & _).
Qed.

Lemma wp_resolveInterfaceIndex device k :
  wp (resolveInterfaceIndex device) (fun o k' => o <> Diverge /\ same_kernel k k') k.
Proof.
  unfold resolveInterfaceIndex. wp_step. wp_step. pose proof (xk_ifindex device k) as (Hm & Hl & Hf).
  destruct (xdp_if_nametoindex device k) as [[index errno] k1]. cbn [fst snd] in *.
  destruct (index =? 0); [done|]. by wp_step.
Qed.

(** A program was attached in the mode since the links were [l0]. *)
Definition held (l0 : list LinkEvent) (mode : XdpAttachMode) (s : state) : Prop :=
  exists events ifindex id, links s.2 = l0 ++ events /\
    Attached ifindex (Z.lor (xdpAttachFlags mode) XDP_FLAGS_UPDATE_IF_NOEXIST) id ∈ events.

Lemma held_grows l0 mode s s' : held l0 mode s -> (exists new, links s'.2 = links s.2 ++ new) -> held l0 mode s'.
Proof.
  intros (events & i & id & Hl & Hi) [new Hn]. exists (events ++ new), i, id.
  rewrite Hn, Hl, (assoc_L (++)). split; [done|]. apply elem_of_app. by left.
Qed.
Lemma held_same l0 mode a k a' k' : held l0 mode (a, k) -> links k' = links k -> held l0 mode (a', k').
Proof. intros Hh Hl. apply (held_grows _ _ _ _ Hh). exists []. by rewrite app_nil_r. Qed.

Lemma wp_linked_attach l0 ifindex mode a k :
  linked l0 (a, k) ->
  wp (attachProgram ifindex mode) (fun o s => o <> Diverge /\ linked l0 s /\
    attached_ s.1 = (if o is Ret _ then true else attached_ a) /\
    (o = Ret tt -> held l0 mode s)) (a, k).
Proof.
  intros (fd & id & Hp & Hl). cbn [fst snd] in *.
  eapply wp_mono; [by apply (wp_attachProgram l0 (programs k) fd id)|]. intros o [a1 k1] [Hl1 Ho].
  cbn [fst snd] in *. split; [by destruct o|]. split.
  - exists fd, id. cbn [fst snd]. rewrite (lv_programs _ _ _ _ _ _ Hl1). by split.
  - destruct o as [u|e|]; [|by destruct Ho as [-> _]|done]. unfold currentLink in Ho.
    split; [by destruct (attached_ a1)|]. intros _.
    destruct (lv_links _ _ _ _ _ _ Hl1) as (events & Le & Lh). unfold currentLink in Lh. rewrite Ho in Lh.
    exists events, ifindex, id. split; [done|]. by apply history_attached.
Qed.

Lemma wp_linked_detach l0 a k :
  linked l0 (a, k) ->
  wp detachProgram (fun o s => o <> Diverge /\ linked l0 s /\
    attached_ s.1 = (if o is Ret _ then false else attached_ a) /\
    exists new, links s.2 = links k ++ new) (a, k).
Proof.
  intros (fd & id & Hp & Hl). cbn [fst snd] in *.
  eapply wp_mono; [by apply (wp_detachProgram l0 (programs k) fd id)|]. intros o [a1 k1] (Hl1 & Hg & Ho).
  cbn [fst snd] in *. split; [by destruct o|]. split.
  - exists fd, id. cbn [fst snd]. rewrite (lv_programs _ _ _ _ _ _ Hl1). by split.
  - split; [|done]. destruct o as [u|e|]; [|by destruct Ho as [-> _]|done]. unfold currentLink in Ho. by destruct (attached_ a1).
Qed.

(** After the destructor, from any state that is left. *)
Lemma tidy_destroyed l0 a k :
  tidy l0 (a, k) -> exists id events link, links (destroyXdpAttachment a k) = l0 ++ events /\
    history id events link /\ (attached_ a = false -> link = None) /\
    (attached_ a = false -> links (destroyXdpAttachment a k) = links k).
Proof.
  intros Ht. assert (Hquiet : attached_ a = false -> links (destroyXdpAttachment a k) = links k).
  { intros Hat. unfold destroyXdpAttachment. rewrite Hat.
    set (k2 := match object_ a with Some object => _ | None => k end).
    assert (links k2 = links k) as <- by (subst k2; destruct (object_ a); [apply lk_object_close|done]).
    destruct (runtimeMaps_ a) as [m|]; [|done]. unfold destroyRuntimeMapStore.
    destruct (0 <=? activeFd_ m); [apply lk_close|done]. }
  destruct Ht as [[Hat Hl]|(fd & id & Hp & Hl)]; cbn [fst snd] in *.
  - exists 0, [], None. rewrite Hquiet, app_nil_r by done. split; [done|]. split; [constructor|]. by rewrite Hl.
  - destruct (attached_ a) eqn:Hat.
    + destruct (living_destroyed l0 (programs k) fd id a k Hp Hl) as (events & link & He & Hh).
      by exists id, events, link.
    + destruct (lv_links _ _ _ _ _ _ Hl) as (events & Le & Lh). exists id, events, None.
      rewrite Hquiet by done. split; [done|]. unfold currentLink in Lh. by rewrite Hat in Lh.
Qed.

Lemma wp_readRuntimeStats a k :
  wp (readRuntimeStats a) (fun o k' => o <> Diverge /\ same_maps k k' /\ apart k k') k.
Proof using All.
  unfold readRuntimeStats. destruct (runtimeMaps_ a) as [m|]; [|by wp_step].
  unfold readRuntimeStatistics, readPerCpu. wp_step. wp_step. destruct (_ || _); [by wp_step|].
  wp_step. apply wp_orThrowMap. pose proof (xk_stats (RuntimeStore.statsFd_ m) 0 k) as Hm.
  pose proof (ef_lookup (V := list UdpDsrStatsValue) (RuntimeStore.statsFd_ m) 0 k) as Ha. cbv zeta in Ha.
  destruct (bpf_map_lookup_elem (RuntimeStore.statsFd_ m) 0 k) as [[values|error] k1]; cbn [snd] in *; [by wp_step|done].
Qed.

Lemma wp_publishRuntime l0 v0 v a k :
  runtime_loaded l0 (a, k) -> runtime_active (a, k) = Some v0 ->
  wp (publishRuntime v) (fun o s => o <> Diverge /\ runtime_loaded l0 s /\ attached_ s.1 = attached_ a /\
    (forall mode, held l0 mode (a, k) -> held l0 mode s) /\
    match o with
    | Ret _ | Throw (RuntimePublishError _ true) =>
        runtime_active s = Some v /\ rs_generation v = rs_generation v0 + 1 /\ publishable v
    | _ => runtime_active s = Some v0
    end) (a, k).
Proof using All.
  intros (Hp & Hlk & v1 & m & Hm & ([base Hown] & Hact & Hg & Hr)) Ha.
  unfold runtime_active in Ha. cbn [fst snd] in *. rewrite Hm in Ha. cbn in Ha.
  assert (v1 = v0) as -> by congruence.
  unfold publishRuntime, withRuntimeMaps. wp_step. wp_step. cbn [fst snd]. rewrite Hm. apply wp_zoom. cbn [fst snd].
  eapply wp_mono; [apply wp_conj; [by apply (wp_publishSnapshot base)|by apply (publishSnapshot_apart base)]|].
  intros o [m1 k1] [Ht Hap]. cbn [fst snd] in *. split; [by destruct o; destruct Ht as (_ & _ & _ & Hc)|].
  assert (Hlk1 : linked l0 (set_runtimeMaps (Some m1) a, k1)) by by eapply linked_apart.
  assert (Hheld : forall mode, held l0 mode (a, k) -> held l0 mode (set_runtimeMaps (Some m1) a, k1))
    by (intros mode Hh; eapply held_same; [exact Hh|apply Hap]).
  assert (Hcommit : o = Ret tt \/ (exists text, o = Throw (RuntimePublishError text true)) ->
    runtime_loaded l0 (set_runtimeMaps (Some m1) a, k1) /\
    runtime_active (set_runtimeMaps (Some m1) a, k1) = Some v /\ rs_generation v = rs_generation v0 + 1 /\
    publishable v).
  { intros Hc. destruct (transaction_publishing _ _ _ _ _ _ _ Ht ltac:(lia) Hc) as (Hpub & Hgen & Hpv).
    split; [split; [done|]; split; [done|]; by exists v, m1|].
    split; [apply Hpub|]. split; [congruence|done]. }
  assert (Hkept : m1 = m /\ unpublished (outerFd_ m) k k1 ->
    runtime_loaded l0 (set_runtimeMaps (Some m1) a, k1) /\
    runtime_active (set_runtimeMaps (Some m1) a, k1) = Some v0).
  { intros [-> [_ Hu]]. destruct Ht as (Ho1 & _). split.
    2: { change (activeSnapshot (outerFd_ m) k1 = Some v0). by rewrite Hu. }
    split; [done|]. split; [done|]. exists v0, m. split; [done|]. split; [by exists base|]. cbn [snd]. by rewrite Hu. }
  destruct o as [[]|e|]; [|destruct e as [| | | | | | | | | |text []]|by destruct Ht as (_ & _ & _ & ?)].
  1,12: destruct Hcommit as (? & ? & ? & ?); eauto; by split_and!.
  all: destruct Hkept as (? & ?); [by destruct Ht as (_ & _ & _ & ?)|by split_and!].
Qed.

Context `{!UninterruptedReads K} (l0 : list LinkEvent) (fuel : nat).
Context (Hfuel : kMaxObjectBytes <= Z.of_nat fuel).

#[local] Existing Instance attachment_runtime.

(** The interface of the control loop, implemented. *)
Definition attachment_promise : @RuntimeAttachmentLaws state (attachment_runtime fuel).
Proof using All.
  refine (@Build_RuntimeAttachmentLaws state (attachment_runtime fuel)
    (fun s => s.1 = newXdpAttachment /\ links s.2 = l0) (tidy l0) (runtime_loaded l0) runtime_active
    (fun s => attached_ s.1) (held l0) _ _ _ _ _ _ _).
  - intros [a k] [Hn Hl]. cbn [fst snd] in *. subst a. split; [by left|]. split; [done|]. by intros (? & _).
  - intros s (_ & Hl & _). by right.
  - intros object v [a k] [Hn Hl]. cbn [fst snd] in *. subst a.
    pose proof (wp_loadObject fuel object kUdpRuntimeV3 [] emptyDsrConfiguration (Some v) k) as Hw.
    unfold wp in Hw. cbn [ra_loadObject attachment_runtime].
    destruct (loadObject _ _ _ _ _ _ _) as [o [a1 k1]]. destruct Hw as [(Hat & Hl1 & Ho) Hd]. cbn [fst snd] in *.
    split; [by apply Hd|]. rewrite Hl in Hl1.
    destruct o as [u|e|].
    + destruct Ho as (Hp & Hprog & Hs). destruct (Hs eq_refl) as (v' & m & [= <-] & Hm & Hpub & Hv & Hg).
      assert (Hlk : linked l0 (a1, k1)) by (rewrite <-Hl1; by apply linked_loaded).
      split; [by right|]. split; [done|]. split; [split; [done|]; split; [done|]; by exists v, m|].
      split; [|done]. unfold runtime_active. cbn [fst snd]. rewrite Hm. apply Hpub.
    + split; [by left|]. split; [done|]. intros (Hp & _). cbn in Hp. congruence.
    + split; [by left|]. split; [done|]. intros (Hp & _). cbn in Hp. congruence.
  - intros ingress mode [a k] Hld. pose proof Hld as (_ & Hlk & _).
    cbn [ra_attachProgram attachment_runtime].
    assert (Hw : wp (ifindex <- outside (resolveInterfaceIndex ingress) ;; attachProgram ifindex mode)
      (fun o s => o <> Diverge /\ runtime_loaded l0 s /\ runtime_active s = runtime_active (a, k) /\
        attached_ s.1 = (if o is Ret _ then true else attached_ a) /\ (o = Ret tt -> held l0 mode s)) (a, k));
      [|exact (wp_result _ _ _ Hw)].
    wp_step. apply wp_outside_spec. cbn [fst snd]. eapply wp_mono; [apply wp_resolveInterfaceIndex|].
    intros o k1 [Hd [Hm Ha]]. assert (Hlk1 : linked l0 (a, k1)) by by eapply linked_apart.
    destruct (runtime_relinked l0 a k a k1 Hld (relinked_refl a) (same_maps_stay _ _ Hm) Hlk1) as [Hld1 Hac1].
    destruct o as [ifindex|e|]; [|by split_and!|done].
    eapply wp_mono; [apply wp_conj; [by apply (wp_linked_attach l0)|apply attachProgram_maps]|].
    intros o [a2 k2] [(Hd2 & Hlk2 & Hat2 & Hh2) [Hre Hst]].
    destruct (runtime_relinked l0 a k1 a2 k2 Hld1 Hre Hst Hlk2) as [Hld2 Hac2].
    split; [done|]. split; [done|]. split; [congruence|]. by split.
  - intros v0 v [a k] Hld Ha. pose proof (wp_publishRuntime l0 v0 v a k Hld Ha) as Hw. unfold wp in Hw.
    cbn [ra_publishRuntime attachment_runtime]. by destruct (publishRuntime v (a, k)) as [o s].
  - intros [a k] Hld. pose proof Hld as (_ & Hlk & _). cbn [ra_detachProgram attachment_runtime].
    assert (Hw : wp detachProgram (fun o s => o <> Diverge /\ runtime_loaded l0 s /\
      runtime_active s = runtime_active (a, k) /\
      attached_ s.1 = (if o is Ret _ then false else attached_ a) /\
      (forall mode, held l0 mode (a, k) -> held l0 mode s)) (a, k)); [|exact (wp_result _ _ _ Hw)].
    eapply wp_mono; [apply wp_conj; [by apply (wp_linked_detach l0)|apply detachProgram_maps]|].
    { intros _. by apply (linked_programs l0). }
    intros o [a2 k2] [(Hd2 & Hlk2 & Hat2 & Hg2) [Hre Hst]].
    destruct (runtime_relinked l0 a k a2 k2 Hld Hre Hst Hlk2) as [Hld2 Hac2].
    split_and!; try done. intros mode Hh. by apply (held_grows _ _ _ _ Hh).
  - intros [a k] Hld. pose proof Hld as (_ & Hlk & _). cbn [ra_readRuntimeStats attachment_runtime].
    assert (Hw : wp (a <- own (fun a => a) ;; outside (readRuntimeStats a))
      (fun o s => o <> Diverge /\ runtime_loaded l0 s /\ runtime_active s = runtime_active (a, k) /\
        attached_ s.1 = attached_ a /\ (forall mode, held l0 mode (a, k) -> held l0 mode s)) (a, k));
      [|exact (wp_result _ _ _ Hw)].
    wp_step. wp_step. apply wp_outside_spec. cbn [fst snd]. eapply wp_mono; [apply wp_readRuntimeStats|].
    intros o k1 (Hd & Hm & Ha). assert (Hlk1 : linked l0 (a, k1)) by by eapply linked_apart.
    destruct (runtime_relinked l0 a k a k1 Hld (relinked_refl a) (same_maps_stay _ _ Hm) Hlk1) as [Hld1 Hac1].
    split_and!; try done. intros mode Hh. by eapply held_same; [|apply Ha].
Defined.
End promise.
