(* ===== verification/XdpMainTheorems.v ===== *)
(** * The XDP program of the command line: properties

    The options that the parser accepts are exactly the well-formed ones, and
    every well-formed one has a command line. *)
From S2P Require Import Prelude Os Config XdpSchema BpfKernel MapStore ConfigSync RuntimeStore.
From S2P Require Import XdpAttachment XdpMain.

(** ** Well-formed options *)

Section options.
Context `{AddressParser}.

(** What belongs to each mode of attach, and what only attach has. *)
Definition profile_ok (o : XdpOptions) : Prop :=
  match profile o with
  | kLegacy => vip o = [] /\ targets o = [] /\ runtimeConfig o = [] /\ endpoints o = []
  | kMapsV1 => vip o = [] /\ targets o = [] /\ runtimeConfig o = []
  | kUdpDsrV2 => vip o <> [] /\ (exists l, parseXdpBackends [vip o] = Ret l) /\
      runtimeConfig o = [] /\ endpoints o = []
  | kUdpRuntimeV3 => vip o <> [] /\ (exists l, parseXdpBackends [vip o] = Ret l) /\
      targets o = [] /\ runtimeConfig o <> [] /\ endpoints o = []
  end.

Record options_ok (o : XdpOptions) : Prop := {
  oo_device : 0 < len (device o) < IF_NAMESIZE /\ Forall (fun c => isDeviceSeparator c = false) (device o);
  oo_attach : attach o = true -> object o <> [] /\ programId o = 0;
  oo_detach : attach o = false ->
    0 < programId o < 2 ^ 32 /\ object o = [] /\ profile o = kLegacy;
  oo_profile : profile_ok o;
  oo_backends : parseXdpBackends (endpoints o) = Ret (backends o);
  oo_values : Forall (fun v => v <> []) (endpoints o) /\ Forall (fun v => v <> []) (targets o);
  oo_dsr : dsr o = emptyDsrConfiguration
}.

(** ** What the loop keeps *)

Record parsing_ok (command : bool) (p : Parsing) : Prop := {
  po_attach : attach (parsed p) = command;
  po_detach : command = false -> object (parsed p) = [] /\ profile (parsed p) = kLegacy;
  po_id : (programIdSeen p = true /\ command = false /\ 0 < programId (parsed p) < 2 ^ 32) \/
          (programIdSeen p = false /\ programId (parsed p) = 0);
  po_values : Forall (fun v => v <> []) (endpoints (parsed p)) /\
              Forall (fun v => v <> []) (targets (parsed p));
  po_dsr : dsr (parsed p) = emptyDsrConfiguration
}.

Definition refused {A} (P : A -> Prop) (o : outcome A) : Prop :=
  match o with
  | Ret a => P a
  | Throw e => exists text, e = InvalidArgument text
  | Diverge => False
  end.

Lemma from_chars_value base text v rest :
  0 <= base -> from_chars base text = (Some v, rest) -> 0 <= v < 2 ^ 32.
Proof.
  intros Hb. unfold from_chars. pose proof (from_chars_loop_nonneg base text 0 Hb ltac:(done)) as Hn.
  destruct (from_chars_loop base text 0) as [x r]. cbn [fst] in Hn.
  destruct (_ || _) eqn:E; [done|]. intros [= <- _]. bool_to_prop. lia.
Qed.

Lemma refused_throw {A} (P : A -> Prop) text : refused P (Throw (InvalidArgument text)).
Proof. by exists text. Qed.

Ltac branch E := match goal with |- refused _ (if ?b then _ else _) => destruct b eqn:E end.

Lemma parseXdpOption_ok command key value p :
  value <> [] -> parsing_ok command p -> refused (parsing_ok command) (parseXdpOption key value p).
Proof.
  intros Hv [Ha Hd Hi [He Ht] Hs]. unfold parseXdpOption. rewrite Ha. cbv zeta.
  branch E1; [split; [exact Ha|exact Hd|exact Hi| |exact Hs]|].
  { split; [by apply Forall_app_2, Forall_singleton|done]. }
  branch E2; [by split|]. branch E3; [by split|].
  branch E4; [split; [exact Ha|exact Hd|exact Hi| |exact Hs]|].
  { split; [done|by apply Forall_app_2, Forall_singleton]. }
  branch E5; [by split|]. branch E6.
  { split; [exact Ha| |exact Hi|done|exact Hs]. intros ->. by rewrite andb_false_r in E6. }
  branch E7; [branch E8; [apply refused_throw|by split]|]. branch E8; [|apply refused_throw].
  apply andb_true_iff in E8 as [[_ E8]%andb_true_iff _]. apply negb_true_iff in E8.
  clear E1 E2 E3 E4 E5 E6 E7.
  destruct (from_chars 10 value) as [[id|] [|]] eqn:Hf; [|apply refused_throw..].
  destruct (Z.eqb_spec id 0); [apply refused_throw|].
  assert (Hr : 0 <= id < 2 ^ 32) by (apply (from_chars_value 10 value id [] ltac:(lia) Hf)).
  split; [exact Ha|exact Hd| |exact (conj He Ht)|exact Hs].
  left. split; [reflexivity|]. split; [exact E8|]. cbn [programId parsed set_programId]. lia.
Qed.

Lemma parseXdpArguments_ok command args p :
  parsing_ok command p -> refused (parsing_ok command) (parseXdpArguments args p).
Proof.
  remember (length args) as n eqn:Hn. revert args p Hn.
  induction n as [n IH] using lt_wf_ind. intros [|key args'] p -> Hp; cbn [parseXdpArguments]; [done|].
  cbv zeta. branch E1.
  - eapply IH; [|reflexivity|]; [cbn; lia|]. destruct Hp as [Ha Hd Hi Hv Hs].
    split; [exact Ha| |exact Hi|exact Hv|exact Hs]. intros ->. cbn in E1. rewrite Ha in E1.
    by rewrite andb_false_r in E1.
  - destruct args' as [|value args'']; [apply refused_throw|].
    destruct (isEmpty value) eqn:Ev; [apply refused_throw|].
    pose proof (parseXdpOption_ok command key value p ltac:(by destruct value) Hp) as Ho.
    destruct (parseXdpOption key value p) as [p'|e|]; cbn [refused] in Ho; [|done..].
    eapply IH; [|reflexivity|done]. cbn. lia.
Qed.

(** ** The checks *)

Lemma parseXdpBackend_refused seen e : refused (fun _ => True) (parseXdpBackend seen e).
Proof.
  unfold parseXdpBackend. repeat case_match; try done; apply refused_throw.
Qed.
Lemma parseXdpBackends_refused l : refused (fun _ => True) (parseXdpBackends l).
Proof.
  unfold parseXdpBackends. branch E; [apply refused_throw|]. clear E. generalize (@nil XdpBackendValue).
  induction l as [|e l IH]; intros acc; cbn [parseXdpBackends_loop]; [done|].
  pose proof (parseXdpBackend_refused acc e) as He. by destruct (parseXdpBackend acc e).
Qed.

Lemma find_if_none (q : ascii -> bool) l : find_if q l = None <-> Forall (fun c => q c = false) l.
Proof.
  induction l as [|c l IH]; cbn [find_if]; [done|]. rewrite Forall_cons. destruct (q c).
  - split; [done|by intros [? _]].
  - rewrite <-IH. destruct (find_if q l); cbn; naive_solver.
Qed.

Lemma validDevice_ok name :
  validDevice name = true <->
  0 < len name < IF_NAMESIZE /\ Forall (fun c => isDeviceSeparator c = false) name.
Proof.
  unfold validDevice. rewrite negb_true_iff, !orb_false_iff, bool_decide_eq_false, Z.leb_gt,
    <-find_if_none, <-eq_None_not_Some. unfold IF_NAMESIZE.
  destruct name as [|c name]; cbn [isEmpty]; [|rewrite len_cons; pose proof (len_nonneg name)].
  - split; [by intros [[? _] _]|intros [[? _] _]; by unfold len in *].
  - split; [intros [[_ ?] ?]; split; [lia|done]|intros [? ?]; split; [split; [done|lia]|done]].
Qed.

Lemma isEmpty_true {A} (l : list A) : isEmpty l = true <-> l = [].
Proof. by destruct l. Qed.
Lemma isEmpty_false {A} (l : list A) : isEmpty l = false <-> l <> [].
Proof. by destruct l. Qed.

Definition profile_literals (o : XdpOptions) : Prop :=
  match profile o with
  | kUdpRuntimeV3 => vip o <> [] /\ (exists l, parseXdpBackends [vip o] = Ret l) /\ targets o = [] /\
      runtimeConfig o <> []
  | kUdpDsrV2 => vip o <> [] /\ exists l, parseXdpBackends [vip o] = Ret l
  | _ => vip o = [] /\ targets o = []
  end.

Lemma checkVip_refused o :
  refused (fun q => q = o /\ exists l, parseXdpBackends [vip o] = Ret l) (checkVip o).
Proof.
  unfold checkVip. pose proof (parseXdpBackends_refused [vip o]) as Hv.
  destruct (parseXdpBackends [vip o]) as [l|e|]; [split; [done|by exists l]|exact Hv|done].
Qed.

Lemma checkProfile_refused o : refused (fun q => q = o /\ profile_literals o) (checkProfile o).
Proof.
  unfold checkProfile, invalid, profile_literals. pose proof (checkVip_refused o) as Hv.
  destruct (profile o).
  1,2: branch E; [apply refused_throw|]; apply orb_false_iff in E as [E1 E2];
    apply negb_false_iff in E1, E2; apply isEmpty_true in E1, E2; done.
  - branch E; [apply refused_throw|]. apply isEmpty_false in E.
    destruct (checkVip o); cbn [refused] in *; [naive_solver|exact Hv|done].
  - branch E; [apply refused_throw|]. apply orb_false_iff in E as [[E1 E2]%orb_false_iff E3].
    apply isEmpty_false in E1, E2. apply negb_false_iff, isEmpty_true in E3.
    destruct (checkVip o); cbn [refused] in *; [naive_solver|exact Hv|done].
Qed.

(** The checks establish the rest, and change nothing but the backends. *)
Lemma checkOptions_ok command p : parsing_ok command p -> refused options_ok (checkOptions p).
Proof.
  intros [Ha Hd Hi Hv Hs]. unfold checkOptions, invalid. set (o := parsed p) in *. cbv zeta.
  branch E1; [apply refused_throw|]. apply negb_false_iff, validDevice_ok in E1.
  branch E2; [apply refused_throw|]. branch E3; [apply refused_throw|]. branch E4; [apply refused_throw|].
  pose proof (parseXdpBackends_refused (endpoints o)) as Hb.
  destruct (parseXdpBackends (endpoints o)) as [l|e|] eqn:Hl; [clear Hb|exact Hb|done].
  pose proof (checkProfile_refused (set_backends l o)) as Hp.
  destruct (checkProfile (set_backends l o)) as [q|e|]; cbn [refused] in Hp; [|exact Hp|done].
  destruct Hp as [-> Hp]. branch E5; [apply refused_throw|]. cbn [refused].
  split; [exact E1| | | |exact Hl|exact Hv|exact Hs].
  - cbn [attach set_backends]. intros Hat. rewrite Hat in E2. split; [by apply isEmpty_false|].
    destruct Hi as [(_ & Hc & _)|[_ Hi]]; [congruence|exact Hi].
  - cbn [attach set_backends]. intros Hat. destruct (Hd (eq_trans (eq_sym Ha) Hat)) as [Ho Hf].
    split; [|by split]. rewrite Hat in E3.
    destruct Hi as [(_ & _ & Hi)|[Hi _]]; [exact Hi|by rewrite Hi in E3].
  - unfold profile_literals in Hp. unfold profile_ok. cbn [set_backends profile vip targets runtimeConfig endpoints] in *.
    destruct (profile o); cbn in E4, E5; try apply negb_false_iff, isEmpty_true in E4;
      try apply negb_false_iff, isEmpty_true in E5; naive_solver.
Qed.

Lemma parseXdpOptions_refused args : refused options_ok (parseXdpOptions args).
Proof.
  unfold parseXdpOptions, invalid. destruct args as [|command args]; [apply refused_throw|].
  branch E; [apply refused_throw|]. clear E. set (b := bool_decide _).
  pose proof (parseXdpArguments_ok b args (mkParsing (set_attach b newXdpOptions) false false)) as Hp.
  destruct (parseXdpArguments _ _) as [p|e|]; cbn [refused] in Hp.
  - apply (checkOptions_ok b), Hp. split; try done. by right.
  - apply Hp. split; try done. by right.
  - apply Hp. split; try done. by right.
Qed.

(** ** Every well-formed command has a command line *)

Definition flagOf (p : XdpObjectProfile) : list bytes :=
  match p with
  | kLegacy => []
  | kMapsV1 => [bs "--maps"]
  | kUdpDsrV2 => [bs "--udp-dsr"]
  | kUdpRuntimeV3 => [bs "--udp-dsr-runtime"]
  end.

Definition optional_value (key value : bytes) : list bytes := if isEmpty value then [] else [key; value].
Definition repeated (key : bytes) (values : list bytes) : list bytes :=
  flat_map (fun value => [key; value]) values.

Definition render_options (o : XdpOptions) : list bytes :=
  (if attach o then bs "attach" else bs "detach") :: flagOf (profile o) ++
  repeated (bs "--backend") (endpoints o) ++ optional_value (bs "--vip") (vip o) ++
  optional_value (bs "--runtime-config") (runtimeConfig o) ++ repeated (bs "--target") (targets o) ++
  [bs "--dev"; device o] ++ optional_value (bs "--object") (object o) ++
  [bs "--mode"; xdpAttachModeName (mode o)] ++
  (if attach o then [] else [bs "--prog-id"; to_string (programId o)]).

(** A step over an option that is accepted. *)
Lemma parse_value key value rest p p' :
  isModeFlag key = false -> value <> [] -> parseXdpOption key value p = Ret p' ->
  parseXdpArguments (key :: value :: rest) p = parseXdpArguments rest p'.
Proof.
  intros Hk Hv Ho. cbn [parseXdpArguments]. rewrite Hk. cbn [andb].
  apply isEmpty_false in Hv. by rewrite Hv, Ho.
Qed.

Definition with_parsed (f : XdpOptions -> XdpOptions) (p : Parsing) : Parsing :=
  mkParsing (f (parsed p)) (modeSeen p) (programIdSeen p).

Lemma parse_backends values rest p :
  attach (parsed p) = true -> Forall (fun v => v <> []) values ->
  parseXdpArguments (repeated (bs "--backend") values ++ rest) p =
  parseXdpArguments rest (with_parsed (fun o => set_endpoints (endpoints o ++ values) o) p).
Proof.
  intros Ha Hv. revert p Ha. induction Hv as [|v values Hne Hv IH]; intros p Ha.
  - cbn [repeated flat_map app]. f_equal. destruct p as [[] ? ?]. unfold with_parsed. cbn. by rewrite app_nil_r.
  - cbn [repeated flat_map app].
    rewrite (parse_value _ _ _ _ (with_parsed (fun o => set_endpoints (endpoints o ++ [v]) o) p));
      [|reflexivity|exact Hne|].
    + rewrite IH by exact Ha. unfold with_parsed. cbn [parsed modeSeen programIdSeen endpoints set_endpoints].
      rewrite <-(assoc_L (++)). reflexivity.
    + unfold parseXdpOption. rewrite Ha. reflexivity.
Qed.

Lemma parse_targets values rest p :
  attach (parsed p) = true -> Forall (fun v => v <> []) values ->
  parseXdpArguments (repeated (bs "--target") values ++ rest) p =
  parseXdpArguments rest (with_parsed (fun o => set_targets (targets o ++ values) o) p).
Proof.
  intros Ha Hv. revert p Ha. induction Hv as [|v values Hne Hv IH]; intros p Ha.
  - cbn [repeated flat_map app]. f_equal. destruct p as [[] ? ?]. unfold with_parsed. cbn. by rewrite app_nil_r.
  - cbn [repeated flat_map app].
    rewrite (parse_value _ _ _ _ (with_parsed (fun o => set_targets (targets o ++ [v]) o) p));
      [|reflexivity|exact Hne|].
    + rewrite IH by exact Ha. unfold with_parsed. cbn [parsed modeSeen programIdSeen targets set_targets].
      rewrite <-(assoc_L (++)). reflexivity.
    + unfold parseXdpOption. rewrite Ha. reflexivity.
Qed.

(** An option that is left out has the empty value already. *)
Lemma parse_optional key value rest p (set : bytes -> XdpOptions -> XdpOptions) :
  isModeFlag key = false ->
  (value <> [] -> parseXdpOption key value p = Ret (with_parsed (set value) p)) ->
  with_parsed (set []) p = p ->
  parseXdpArguments (optional_value key value ++ rest) p =
  parseXdpArguments rest (with_parsed (set value) p).
Proof.
  intros Hk Ho He. unfold optional_value. destruct value as [|c value]; cbn [isEmpty app]; [by rewrite He|].
  apply parse_value; [exact Hk|done|by apply Ho].
Qed.

Lemma digitValue_digit c : is_digit c -> digitValue c = code c - 48 /\ (digitValue c <? 10) = true.
Proof.
  intros Hc. unfold is_digit in Hc. unfold digitValue.
  replace ((48 <=? code c) && (code c <=? 57)) with true by lia. split; [done|lia].
Qed.

Lemma from_chars_loop_digits text v :
  Forall is_digit text -> from_chars_loop 10 text v = (foldl dec_step v text, []).
Proof.
  intros Ht. revert v. induction Ht as [|c text Hc Ht IH]; intros v; cbn [from_chars_loop foldl]; [done|].
  apply digitValue_digit in Hc as [Hv Hlt]. rewrite Hlt, IH, Hv. reflexivity.
Qed.

Lemma from_chars_to_string n : 0 <= n < 2 ^ 32 -> from_chars 10 (to_string n) = (Some n, []).
Proof.
  intros Hn. unfold from_chars. rewrite from_chars_loop_digits by (apply to_string_digits; lia).
  pose proof (to_string_value n) as Hv. unfold dec_value in Hv. rewrite Hv by lia.
  pose proof (to_string_nonempty n). destruct (to_string n) as [|c text]; [done|]. cbn [length Nat.eqb orb].
  by replace (2 ^ 32 <=? n) with false by lia.
Qed.

Lemma parse_flag pr rest p :
  attach (parsed p) = true -> profile (parsed p) = kLegacy ->
  parseXdpArguments (flagOf pr ++ rest) p =
  parseXdpArguments rest (with_parsed (set_xdp_profile pr) p).
Proof.
  intros Ha Hp. destruct pr; cbn [flagOf app].
  1: { destruct p as [[] ? ?]. cbn in Hp. by rewrite Hp. }
  all: cbn [parseXdpArguments]; rewrite Ha, Hp; reflexivity.
Qed.

Lemma parse_mode m rest p :
  modeSeen p = false ->
  parseXdpArguments ([bs "--mode"; xdpAttachModeName m] ++ rest) p =
  parseXdpArguments rest (mkParsing (set_mode m (parsed p)) true (programIdSeen p)).
Proof.
  intros Hm. cbn [app]. apply parse_value; [reflexivity|by destruct m|].
  unfold parseXdpOption. rewrite Hm. destruct (attach (parsed p)), m; reflexivity.
Qed.

Lemma parse_device d rest p :
  d <> [] -> device (parsed p) = [] ->
  parseXdpArguments ([bs "--dev"; d] ++ rest) p = parseXdpArguments rest (with_parsed (set_device d) p).
Proof.
  intros Hd Hp. cbn [app]. apply parse_value; [reflexivity|exact Hd|].
  unfold parseXdpOption. rewrite Hp. destruct (attach (parsed p)); reflexivity.
Qed.

(** The checks accept what is well-formed. *)
Lemma checkOptions_accepts o seen :
  options_ok o -> (attach o = false -> seen = true) ->
  checkOptions (mkParsing (set_backends [] o) true seen) = Ret o.
Proof.
  intros [Hdev Hat Hde Hp Hb [He Ht] Hs] Hseen. unfold checkOptions, invalid. cbv zeta.
  cbn [parsed programIdSeen device set_backends attach object profile endpoints].
  apply validDevice_ok in Hdev. rewrite Hdev. cbn [negb].
  replace (attach o && isEmpty (object o)) with false
    by (destruct (attach o); [destruct (Hat eq_refl) as [Ho _]; apply isEmpty_false in Ho; by rewrite Ho|done]).
  replace (negb (attach o) && negb seen) with false
    by (destruct (attach o); [done|by rewrite Hseen]).
  replace (negb (bool_decide (profile o = kMapsV1)) && negb (isEmpty (endpoints o))) with false
    by (unfold profile_ok in Hp; destruct (profile o); cbn; try done; destruct (endpoints o); naive_solver).
  rewrite Hb. assert (Ho : set_backends (backends o) (set_backends [] o) = o) by by destruct o.
  rewrite Ho.
  assert (Hv : (exists l, parseXdpBackends [vip o] = Ret l) -> checkVip o = Ret o)
    by (intros [l Hl]; unfold checkVip; by rewrite Hl).
  unfold checkProfile, invalid. unfold profile_ok in Hp. destruct (profile o) eqn:Epr.
  - destruct Hp as (Hv' & Ht' & Hr' & _). rewrite Hv', Ht'. cbn [isEmpty negb orb]. by rewrite Epr, Hr'.
  - destruct Hp as (Hv' & Ht' & Hr'). rewrite Hv', Ht'. cbn [isEmpty negb orb]. by rewrite Epr, Hr'.
  - destruct Hp as (Hne & Hl & Hr' & _). apply isEmpty_false in Hne. rewrite Hne, Hv by done.
    by rewrite Epr, Hr'.
  - destruct Hp as (Hne & Hl & Ht' & Hr' & _). apply isEmpty_false in Hne, Hr'.
    rewrite Hne, Hr', Ht', Hv by done. cbn [isEmpty negb orb]. by rewrite Epr.
Qed.

Lemma bounded_ne {A} (l : list A) n : 0 < len l < n -> l <> [].
Proof. intros Hl ->. unfold len in Hl. cbn in Hl. lia. Qed.

Lemma attach_options o :
  options_ok o -> attach o = true -> parseXdpOptions (render_options o) = Ret o.
Proof.
  intros Hok Ha. pose proof Hok as [[Hdev _] Hat _ _ _ [He Ht] Hs]. destruct (Hat Ha) as [_ Hid].
  unfold render_options, parseXdpOptions. rewrite Ha.
  change (negb (bool_decide (bs "attach" = bs "attach")) && negb (bool_decide (bs "attach" = bs "detach")))
    with false. cbn iota. change (bool_decide (bs "attach" = bs "attach")) with true.
  rewrite parse_flag, parse_backends by (reflexivity || exact He).
  rewrite (parse_optional _ _ _ _ set_vip); [|reflexivity..].
  rewrite (parse_optional _ _ _ _ set_runtimeConfig); [|reflexivity..].
  rewrite parse_targets by (reflexivity || exact Ht).
  rewrite parse_device; [|exact (bounded_ne _ _ Hdev)|reflexivity].
  rewrite (parse_optional _ _ _ _ set_object); [|reflexivity..].
  rewrite parse_mode by reflexivity. cbn [parseXdpArguments].
  etrans; [|apply (checkOptions_accepts o false Hok); by rewrite Ha].
  f_equal. destruct o. cbn in *. subst. reflexivity.
Qed.

Lemma detach_options o :
  options_ok o -> attach o = false -> parseXdpOptions (render_options o) = Ret o.
Proof.
  intros Hok Ha. pose proof Hok as [[Hdev _] _ Hde Hp _ _ Hs]. destruct (Hde Ha) as (Hid & Hob & Hpr).
  unfold profile_ok in Hp. rewrite Hpr in Hp. destruct Hp as (Hv & Ht & Hr & He).
  unfold render_options, parseXdpOptions. rewrite Ha, Hpr, Hv, Ht, Hr, He, Hob.
  change (negb (bool_decide (bs "detach" = bs "attach")) && negb (bool_decide (bs "detach" = bs "detach")))
    with false. cbn iota. change (bool_decide (bs "detach" = bs "attach")) with false.
  cbn [flagOf repeated optional_value isEmpty flat_map]. change ([] ++ ?l) with l.
  rewrite !app_nil_l.
  rewrite parse_device; [|exact (bounded_ne _ _ Hdev)|reflexivity].
  rewrite parse_mode by reflexivity.
  rewrite (parse_value _ _ _ _ (mkParsing (set_programId (programId o)
    (set_mode (mode o) (set_device (device o) (set_attach false newXdpOptions)))) true true));
    [|reflexivity|apply to_string_nonempty|].
  2: { unfold parseXdpOption. cbn -[from_chars bs]. rewrite from_chars_to_string by lia.
       by replace (programId o =? 0) with false by lia. }
  cbn [parseXdpArguments].
  etrans; [|by apply (checkOptions_accepts o true Hok)].
  f_equal. destruct o. cbn in *. subst. reflexivity.
Qed.

(** C31: [parseXdpOptions] on any argument vector either returns options that are
    well formed — a device name of one to fifteen bytes without separators; an
    object and no program id for attach, a positive 32-bit program id and no
    object for detach; exactly the options of the chosen profile; the backends
    that the endpoints denote, no empty endpoint or target — or throws
    [std::invalid_argument].  It always ends, and throws nothing else. *)
Theorem parseXdpOptions_well_formed args :
  match parseXdpOptions args with
  | Ret o => options_ok o
  | Throw e => exists text, e = InvalidArgument text
  | Diverge => False
  end.
Proof. apply parseXdpOptions_refused. Qed.

(** C30: every well-formed value of the options is the result of parsing the
    command line that spells it out, of attach in each of its profiles as of
    detach: the flag of the profile, each repeated option once per value and
    each optional one where it is not empty, the mode and the decimal program
    id. *)
Theorem parseXdpOptions_render o : options_ok o -> parseXdpOptions (render_options o) = Ret o.
Proof. intros Hok. destruct (attach o) eqn:Ha; [by apply attach_options|by apply detach_options]. Qed.
End options.

(** Two backends on one address, attached in the maps mode. *)
Definition attach_example : XdpOptions :=
  mkXdpOptions true kMapsV1 [] [] [] emptyDsrConfiguration [bs "10.0.0.1:53"; bs "10.0.0.1:54"]
    [mkXdpBackendValue 16777226 (htons 53) 0; mkXdpBackendValue 16777226 (htons 54) 0]
    (bs "eth0") (bs "lb.o") kNative 0.

Lemma parseXdpOptions_render_witness :
  @parseXdpOptions (fun _ => Some 16777226) (render_options attach_example) = Ret attach_example /\
  render_options attach_example =
    [bs "attach"; bs "--maps"; bs "--backend"; bs "10.0.0.1:53"; bs "--backend"; bs "10.0.0.1:54";
     bs "--dev"; bs "eth0"; bs "--object"; bs "lb.o"; bs "--mode"; bs "native"].
Proof.
  split; [|reflexivity]. apply (parseXdpOptions_render (H := fun _ => Some 16777226)).
  split.
  - split; [split; reflexivity|]. repeat constructor.
  - intros _. by split.
  - intros [=].
  - by split_and!.
  - vm_compute. reflexivity.
  - split; repeat constructor; discriminate.
  - reflexivity.
Defined.
