(* ===== verification/XdpKernelExample.v ===== *)
(** * A scripted kernel below the attachment

    One table of descriptors, so that a descriptor is of one kind; the maps and
    the program of the object of the runtime mode; links by interface and mode.
    It satisfies every promise that [AttachmentSafety] relies on. *)
From S2P Require Import Prelude Os XdpSchema BpfKernel RuntimeStore MapStore RuntimeConfig.
From S2P Require Import XdpAttachment AttachmentSafety.

Module ScriptedXdp.
Inductive Descriptor := DFile | DProgram (id : Z) | DMap (i : Z).
#[export] Instance descriptor_eq_dec : EqDecision Descriptor.
Proof. solve_decision. Defined.

Record world := mkWorld {
  w_table : gmap Z Descriptor;
  w_snaps : gmap Z (UdpRuntimeSnapshot * bool);
  w_slots : gmap Z (option Z);
  w_links : list LinkEvent;
  w_current : gmap (Z * Z) Z;
  w_next : Z;
  w_object : bytes;
  w_base : Z
}.

Definition set_table (t : gmap Z Descriptor) (n : Z) (w : world) : world :=
  mkWorld t (w_snaps w) (w_slots w) (w_links w) (w_current w) n (w_object w) (w_base w).
Definition set_snaps (s : gmap Z (UdpRuntimeSnapshot * bool)) (w : world) : world :=
  mkWorld (w_table w) s (w_slots w) (w_links w) (w_current w) (w_next w) (w_object w) (w_base w).
Definition set_slots (s : gmap Z (option Z)) (w : world) : world :=
  mkWorld (w_table w) (w_snaps w) s (w_links w) (w_current w) (w_next w) (w_object w) (w_base w).
Definition set_links (l : list LinkEvent) (c : gmap (Z * Z) Z) (w : world) : world :=
  mkWorld (w_table w) (w_snaps w) (w_slots w) l c (w_next w) (w_object w) (w_base w).

Definition mapOf (d : Descriptor) : option Z := if d is DMap i then Some i else None.
Definition programOf (d : Descriptor) : option Z := if d is DProgram id then Some id else None.
Definition fileOf (d : Descriptor) : option unit := if d is DFile then Some tt else None.

(** A new descriptor of at least [least]. *)
Definition alloc (least : Z) (d : Descriptor) (w : world) : (Z + Z) * world :=
  let n := Z.max (Z.max 0 least) (w_next w) in
  if decide (w_table w !! n = None) then (inl n, set_table (<[n := d]> (w_table w)) (n + 1) w)
  else (inr EMFILE, w).

(** The object is 1, its program 2 and its maps 3, 4 and 5. *)
Definition mapNamed (name : bytes) : option Z :=
  if bool_decide (name = mapName activeSpec) then Some 3
  else if bool_decide (name = mapName templateSpec) then Some 4
  else if bool_decide (name = mapName statsSpec) then Some 5 else None.
Definition specOf (m : Z) : MapSpec :=
  if m =? 3 then activeSpec else if m =? 4 then templateSpec else statsSpec.

(** The program has the descriptor [w_base], the map [m] the [m - 2]-th after
    it; a map's number is its descriptor. *)
Definition loadObject1 (w : world) : (unit + Z) * world :=
  let b := Z.max 0 (w_next w) in
  if decide (w_table w !! b = None /\ w_table w !! (b + 1) = None /\ w_table w !! (b + 2) = None /\
             w_table w !! (b + 3) = None) then
    (inl tt, mkWorld (<[b + 3 := DMap (b + 3)]> (<[b + 2 := DMap (b + 2)]> (<[b + 1 := DMap (b + 1)]>
                      (<[b := DProgram 7]> (w_table w)))))
               {[b + 2 := (emptySnapshot, false)]} {[b + 1 := None]} (w_links w) (w_current w) (b + 4)
               (w_object w) b)
  else (inr EMFILE, w).

#[export] Instance library : Libbpf world := {
  bpf_object__open_mem _ w := (inl 1, w);
  bpf_object__load _ w := loadObject1 w;
  bpf_object__close _ w :=
    set_table (delete (w_base w + 3) (delete (w_base w + 2) (delete (w_base w + 1)
      (delete (w_base w) (w_table w))))) (w_next w) w;
  bpf_object_maps _ _ := [3; 4; 5];
  bpf_object_programs _ _ := [2];
  bpf_object__find_map_by_name _ name _ := mapNamed name;
  bpf_map__name m _ := mapName (specOf m);
  bpf_map__type m _ := mapType (specOf m);
  bpf_map__key_size _ _ := 4;
  bpf_map__value_size m _ := valueSize (specOf m);
  bpf_map__max_entries m _ := maxEntries (specOf m);
  bpf_map__map_flags m _ := mapFlags (specOf m);
  bpf_map__inner_map m _ := Some 4;
  bpf_map__fd m w := w_base w + m - 2;
  bpf_program__name _ _ := bs "xdp_udp_rt";
  bpf_program__section_name _ _ := bs "xdp";
  bpf_program__type _ _ := BPF_PROG_TYPE_XDP;
  bpf_program__fd _ w := w_base w;
  libbpf_num_possible_cpus _ := 1
}.

Definition infoOf (i : Z) (w : world) : bpf_map_info :=
  let spec := match w_slots w !! i, w_snaps w !! i with
              | Some _, _ => activeSpec
              | None, Some _ => templateSpec
              | None, None => statsSpec
              end in
  mkBpfMapInfo (mapName spec) (mapType spec) i 4 (valueSize spec) (maxEntries spec) (mapFlags spec).

(** The map behind a descriptor. *)
Definition behind (fd : Z) (w : world) : option Z := w_table w !! fd ≫= mapOf.

#[export] Instance calls : BpfCalls world := {
  bpf_map_get_info fd w := (match behind fd w with Some i => inl (infoOf i w) | None => inr EBADF end, w);
  bpf_map_freeze fd w :=
    match behind fd w ≫= fun i => (fun s => (i, s)) <$> w_snaps w !! i with
    | Some (i, (v, _)) => (inl tt, set_snaps (<[i := (v, true)]> (w_snaps w)) w)
    | None => (inr EBADF, w)
    end;
  bpf_map_create _ _ _ _ _ _ w :=
    if decide (map_Forall (fun _ d => d <> DMap (w_next w)) (w_table w)) then
      match alloc 0 (DMap (w_next w)) w with
      | (inl n, w') => (inl n, set_snaps (<[w_next w := (emptySnapshot, false)]> (w_snaps w')) w')
      | r => r
      end
    else (inr EMFILE, w);
  bpf_close fd w := set_table (delete fd (w_table w)) (w_next w) w;
  bpf_strerror _ := bs "error"
}.

#[export] Instance snapshot_elements : BpfElements world UdpRuntimeSnapshot := {
  bpf_map_update_elem fd _ v w :=
    match behind fd w ≫= fun i => (fun s => (i, s)) <$> w_snaps w !! i with
    | Some (i, (_, false)) => (inl tt, set_snaps (<[i := (v, false)]> (w_snaps w)) w)
    | _ => (inr EPERM, w)
    end;
  bpf_map_lookup_elem fd _ w :=
    (match behind fd w ≫= fun i => w_snaps w !! i with Some (v, _) => inl v | None => inr EBADF end, w)
}.
#[export] Instance outer_elements : BpfElements world Z := {
  bpf_map_update_elem outer _ fd w :=
    match behind outer w, behind fd w with
    | Some o, Some i => (inl tt, set_slots (<[o := Some i]> (w_slots w)) w)
    | _, _ => (inr EBADF, w)
    end;
  bpf_map_lookup_elem outer _ w :=
    (match behind outer w ≫= fun o => w_slots w !! o with Some (Some i) => inl i | _ => inr ENOENT end, w)
}.
#[export] Instance stats_elements : BpfElements world (list UdpDsrStatsValue) := {
  bpf_map_update_elem _ _ _ w := (inr EINVAL, w);
  bpf_map_lookup_elem _ _ w := (inl [zeroStats], w)
}.

(** The maps of the static modes are not there. *)
Definition absent V : BpfElements world V := {|
  bpf_map_update_elem _ _ _ w := (inr EBADF, w);
  bpf_map_lookup_elem _ _ w := (inr EBADF, w)
|}.
#[export] Instance config_elements : BpfElements world XdpConfigValue := absent _.
#[export] Instance backend_elements : BpfElements world XdpBackendValue := absent _.
#[export] Instance bytes_elements : BpfElements world (list Z) := absent _.
#[export] Instance dsr_config_elements : BpfElements world UdpDsrConfigValue := absent _.
#[export] Instance dsr_backend_elements : BpfElements world UdpDsrBackendValue := absent _.

(** The link of an interface and mode; the lowest bit of the flags is
    [XDP_FLAGS_UPDATE_IF_NOEXIST]. *)
Definition slot (ifindex flags : Z) : Z * Z := (ifindex, Z.land flags 6).
Definition program (fd : Z) (w : world) : option Z := w_table w !! fd ≫= programOf.

#[export] Instance xdp_calls : XdpCalls world := {
  bpf_xdp_query_id ifindex flags w :=
    let id := default 0 (w_current w !! slot ifindex flags) in
    (inl id, set_links (w_links w ++ told_absent ifindex flags (inl id)) (w_current w) w);
  bpf_xdp_attach ifindex fd flags w :=
    match program fd w, w_current w !! slot ifindex flags with
    | Some id, None =>
        (inl tt, set_links (w_links w ++ (if has_any flags XDP_FLAGS_UPDATE_IF_NOEXIST then []
                                          else [Replaced ifindex flags]) ++ [Attached ifindex flags id])
                   (<[slot ifindex flags := id]> (w_current w)) w)
    | _, _ => (inr EBUSY, w)
    end;
  bpf_xdp_detach ifindex flags old w :=
    match w_current w !! slot ifindex flags with
    | Some id =>
        if decide (old = 0 \/ program old w = Some id) then
          (inl tt, set_links (w_links w ++ [Detached ifindex flags id]) (delete (slot ifindex flags) (w_current w)) w)
        else (inr EEXIST, w)
    | None => (inr ENOENT, w)
    end;
  bpf_prog_get_fd_by_id id w := alloc 0 (DProgram id) w;
  bpf_prog_get_info fd w := (match program fd w with Some id => inl id | None => inr EBADF end, w);
  dup_fd_cloexec fd least w :=
    match program fd w with Some id => alloc least (DProgram id) w | None => (inr EBADF, w) end;
  xdp_if_nametoindex _ w := ((2, 0), w);
  write_cerr _ w := w
}.

(** The file of the object is read in one piece. *)
#[export] Instance files_ops : FileOps world := {
  os_open _ _ w := alloc 0 DFile w;
  os_fstat _ w := (inl (mkFileStat true (len (w_object w)) 1 1 (0, 0) (0, 0)), w);
  os_read _ limit w := (inl (take (Z.to_nat limit) (w_object w)), w);
  os_close fd w :=
    if decide (w_table w !! fd = Some DFile) then set_table (delete fd (w_table w)) (w_next w) w else w;
  os_strerror _ := bs "error"
}.

(** ** The promises *)

Lemma alloc_spec least d w :
  let '(r, w') := alloc least d w in
  match r with
  | inl n => 0 <= n /\ least <= n /\ w_next w <= n /\ w_table w !! n = None /\
      w' = set_table (<[n := d]> (w_table w)) (n + 1) w
  | inr _ => w' = w
  end.
Proof. unfold alloc. case_decide; [|done]. split_and!; try done; lia. Qed.

(** The views of the table. *)
Lemma view_insert {A} (f : Descriptor -> option A) (t : gmap Z Descriptor) n d :
  t !! n = None ->
  omap f (<[n := d]> t) = match f d with Some a => <[n := a]> (omap f t) | None => omap f t end.
Proof.
  intros Hn. rewrite omap_insert. destruct (f d); [done|]. apply delete_id. by rewrite lookup_omap, Hn.
Qed.
Lemma view_fresh {A} (f : Descriptor -> option A) (t : gmap Z Descriptor) n : t !! n = None -> omap f t !! n = None.
Proof. intros Hn. by rewrite lookup_omap, Hn. Qed.
Lemma view_delete {A} (f : Descriptor -> option A) (t : gmap Z Descriptor) n :
  (forall d, t !! n = Some d -> f d = None) -> omap f (delete n t) = omap f t.
Proof.
  intros Hn. rewrite omap_delete. apply delete_id. rewrite lookup_omap. destruct (t !! n) eqn:E; [|done]. by apply Hn.
Qed.

#[export] Instance maps_kernel : RuntimeKernel world.
Proof.
  refine {| fds w := omap mapOf (w_table w); snaps := w_snaps; slots := w_slots |}.
  - intros name w. cbn. case_decide as Hd; [|done]. pose proof (alloc_spec 0 (DMap (w_next w)) w) as Ha.
    destruct (alloc 0 (DMap (w_next w)) w) as [[n|error] w']; [|by subst w'].
    destruct Ha as (H0 & _ & _ & Hn & ->). exists (w_next w), emptySnapshot. cbn.
    split; [done|]. split; [by apply view_fresh|]. split; [by rewrite view_insert|]. split; [|done].
    intros fd' Hfd. rewrite lookup_omap in Hfd. apply bind_Some in Hfd as (d & Hd' & Hm).
    apply (Hd fd' d Hd'). by destruct d; cbn in Hm; simplify_eq.
  - intros fd i v frozen value w Hf Hi. rewrite lookup_omap in Hf. cbn. unfold behind. rewrite Hf. cbn. rewrite Hi. cbn.
    destruct frozen; [done|]. split_and!; eauto.
  - intros fd i v frozen w Hf Hi. rewrite lookup_omap in Hf. cbn. unfold behind. rewrite Hf. cbn. by rewrite Hi.
  - intros fd i v frozen w Hf Hi. rewrite lookup_omap in Hf. cbn. unfold behind. rewrite Hf. cbn. by rewrite Hi.
  - done.
  - intros outer o held fd i w Ho Hh Hf. rewrite lookup_omap in Ho, Hf. cbn. unfold behind. by rewrite Ho, Hf.
  - done.
  - intros fd w. cbn. split; [|done]. apply omap_delete.
Defined.

#[export] Instance links_kernel : LinkKernel world.
Proof.
  refine {| links := w_links; programs w := omap programOf (w_table w) |}.
  - done.
  - intros ifindex fd flags w. cbn. unfold program. rewrite lookup_omap.
    destruct (w_table w !! fd ≫= programOf) as [id|]; [|done]. destruct (w_current w !! _); [done|]. eauto.
  - intros ifindex flags old w. cbn. destruct (w_current w !! _) as [id|].
    2: { by rewrite app_nil_r. }
    case_decide as Hd; [|by rewrite app_nil_r]. split; [done|]. exists id. split; [|done]. intros Hne. rewrite lookup_omap.
    by destruct Hd.
  - intros id w. cbn. pose proof (alloc_spec 0 (DProgram id) w) as Ha.
    destruct (alloc 0 (DProgram id) w) as [[n|error] w']; [|by subst w'].
    destruct Ha as (_ & _ & _ & Hn & ->). split; [done|]. split; [by apply view_fresh|]. cbn. by rewrite view_insert.
  - intros fd least id w Hfd. rewrite lookup_omap in Hfd. cbn. unfold program. rewrite Hfd.
    pose proof (alloc_spec least (DProgram id) w) as Ha.
    destruct (alloc least (DProgram id) w) as [[n|error] w']; [|by subst w'].
    destruct Ha as (_ & Hl & _ & Hn & ->). split; [done|]. split; [done|]. split; [by apply view_fresh|].
    cbn. by rewrite view_insert.
  - intros fd w. cbn. split; [done|]. apply omap_delete.
  - done.
  - done.
Defined.

(** A new descriptor of one kind is not seen by the others. *)
Lemma alloc_maps least d w :
  mapOf d = None -> same_maps w (alloc least d w).2.
Proof.
  intros Hd. pose proof (alloc_spec least d w) as Ha. destruct (alloc least d w) as [[n|error] w']; [|by subst w'].
  destruct Ha as (_ & _ & _ & Hn & ->). split; [|done|done]. cbn. by rewrite view_insert, Hd.
Qed.
Lemma alloc_links least d w :
  programOf d = None -> same_links w (alloc least d w).2.
Proof.
  intros Hd. pose proof (alloc_spec least d w) as Ha. destruct (alloc least d w) as [[n|error] w']; [|by subst w'].
  destruct Ha as (_ & _ & _ & Hn & ->). split; [done|]. cbn. by rewrite view_insert, Hd.
Qed.

Definition filesOf (w : world) : gset Z := dom (omap fileOf (w_table w)).
Lemma alloc_files least d w :
  filesOf (alloc least d w).2 =
  match (alloc least d w).1 with
  | inl n => if fileOf d is Some _ then {[n]} ∪ filesOf w else filesOf w
  | inr _ => filesOf w
  end.
Proof.
  pose proof (alloc_spec least d w) as Ha. destruct (alloc least d w) as [[n|error] w']; [|by subst w'].
  destruct Ha as (_ & _ & _ & Hn & ->). unfold filesOf. cbn. rewrite view_insert by done.
  destruct (fileOf d); [apply dom_insert_L|done].
Qed.
Lemma not_file fd w : fd ∉ filesOf w <-> w_table w !! fd <> Some DFile.
Proof.
  unfold filesOf. rewrite not_elem_of_dom, lookup_omap. destruct (w_table w !! fd) as [[]|]; cbn; naive_solver.
Qed.

#[export] Instance attachment_kernel : AttachmentKernel world.
Proof.
  refine {| files := filesOf |}.
  - intros w fd i Hi. cbn in Hi. rewrite lookup_omap in Hi. rewrite not_file. cbn. rewrite lookup_omap.
    destruct (w_table w !! fd) as [[]|]; naive_solver.
  - done.
  - intros ifindex fd flags w. cbn. destruct (program fd w); [|done]. by destruct (w_current w !! _).
  - intros ifindex flags old w. cbn. destruct (w_current w !! _); [|done]. by case_decide.
  - intros fd least id w Hfd. cbn in Hfd |- *. rewrite lookup_omap in Hfd. unfold program. rewrite Hfd.
    pose proof (alloc_spec least (DProgram id) w) as Ha. pose proof (alloc_maps least (DProgram id) w eq_refl) as Hm.
    pose proof (alloc_files least (DProgram id) w) as Hf.
    destruct (alloc least (DProgram id) w) as [r w']. cbn [fst snd] in *. split; [done|].
    split; [by destruct r|]. intros n ->. destruct Ha as (_ & _ & _ & Hn & _).
    split; [by apply view_fresh|]. rewrite not_file. by rewrite Hn.
  - intros fd w. cbn. unfold program. rewrite lookup_omap.
    destruct (w_table w !! fd ≫= programOf) as [id|]; [|done]. split_and!; try done. by intros id' [= <-].
  - done.
  - intros t name a b c d w. cbn. case_decide; [|done].
    pose proof (alloc_links 0 (DMap (w_next w)) w eq_refl) as Hl. pose proof (alloc_files 0 (DMap (w_next w)) w) as Hf.
    destruct (alloc 0 (DMap (w_next w)) w) as [[n|error] w']; cbn [fst snd fileOf] in *;
      (split; [destruct Hl as [Hl Hp]; by split|exact Hf]).
  - intros fd w. cbn. by destruct (_ ≫= _) as [[i [v f]]|].
  - intros fd w. cbn. unfold behind. destruct (w_table w !! fd ≫= mapOf) as [i|] eqn:Hb; [|done].
    split; [done|]. split; [done|]. split; [done|]. intros info j [= <-] Hj. rewrite lookup_omap, Hb in Hj.
    injection Hj as <-. unfold infoOf. destruct (w_slots w !! i); [by split|]. by destruct (w_snaps w !! i).
  - intros fd w Hf. rewrite not_file in Hf. unfold filesOf. cbn. f_equal. apply view_delete.
    intros d Hd. destruct d; [by rewrite Hd in Hf|done|done].
  - done.
  - done.
  - intros object w. cbn. unfold loadObject1. set (b := Z.max 0 (w_next w)). case_decide as Hd; [|done].
    destruct Hd as (E0 & E1 & E2 & E3). split; [done|]. split.
    + unfold filesOf. cbn. by rewrite !view_insert by (rewrite ?lookup_insert_ne by lia; done).
    + intros name m _ Hm. unfold mapNamed in Hm. cbn [fds maps_kernel w_table slots w_slots].
      assert (Hfd : forall n d, n = b + d -> d = 1 \/ d = 2 \/ d = 3 -> exists i,
        omap mapOf (<[b + 3 := DMap (b + 3)]> (<[b + 2 := DMap (b + 2)]> (<[b + 1 := DMap (b + 1)]>
          (<[b := DProgram 7]> (w_table w))))) !! n = Some i /\
        forall h, ({[b + 1 := None]} : gmap Z (option Z)) !! i = Some h -> h = None).
      { intros n d -> Hd. exists (b + d). split.
        - rewrite lookup_omap. destruct Hd as [->|[->| ->]].
          + by rewrite !lookup_insert_ne, lookup_insert_eq by lia.
          + by rewrite lookup_insert_ne, lookup_insert_eq by lia.
          + by rewrite lookup_insert_eq.
        - intros h Hh. by apply lookup_singleton_Some in Hh as [_ <-]. }
      cbn. repeat case_bool_decide; simplify_eq.
      * apply (Hfd _ 1); [lia|by left].
      * apply (Hfd _ 2); [lia|by right; left].
      * apply (Hfd _ 3); [lia|by right; right].
  - intros path flags w. cbn. pose proof (alloc_maps 0 DFile w eq_refl). pose proof (alloc_links 0 DFile w eq_refl).
    pose proof (alloc_files 0 DFile w) as Hf. destruct (alloc 0 DFile w) as [[n|error] w'];
      cbn [fst snd fileOf] in *; done.
  - done.
  - done.
  - intros fd w Hf. cbn. case_decide as Hd; [|done]. split; split; cbn; try done; apply view_delete; rewrite Hd;
      by intros d [= <-].
Defined.

#[export] Instance snapshot_frame : ElementFrame world UdpRuntimeSnapshot.
Proof. split; [intros fd key v k|intros fd key k]; cbn; [|done]. by destruct (_ ≫= _) as [[i [v' []]]|]. Defined.
#[export] Instance outer_frame : ElementFrame world Z.
Proof. split; [intros fd key v k|intros fd key k]; cbn; [|done]. destruct (behind _ _); [|done]. by destruct (behind _ _). Defined.
#[export] Instance stats_frame : ElementFrame world (list UdpDsrStatsValue).
Proof. by split. Defined.
#[export] Instance config_frame : ElementFrame world XdpConfigValue.
Proof. by split. Defined.
#[export] Instance backend_frame : ElementFrame world XdpBackendValue.
Proof. by split. Defined.
#[export] Instance bytes_frame : ElementFrame world (list Z).
Proof. by split. Defined.
#[export] Instance dsr_config_frame : ElementFrame world UdpDsrConfigValue.
Proof. by split. Defined.
#[export] Instance dsr_backend_frame : ElementFrame world UdpDsrBackendValue.
Proof. by split. Defined.
#[export] Instance uninterrupted : UninterruptedReads world.
Proof. by intros fd limit w. Defined.

(** Interface 5 carries another program. *)
Definition start : world := mkWorld ∅ ∅ ∅ [] {[(5, 2) := 9]} 3 (bs "object") 0.
End ScriptedXdp.
