(* ===== verification/XdpMainSafety.v ===== *)
(** * The XDP program of the command line: what it leaves behind

    The exit status, and the history of the links, of a whole run of [xdpMain]
    in each of its modes, over the kernel below the attachment. *)
From S2P Require Import Prelude Frames Os Containment XdpSchema UdpProbe UdpProbeSafety BpfKernel.
From S2P Require Import RuntimeStore MapStore ConfigSync RuntimeConfig XdpAttachment RuntimeService.
From S2P Require Import RuntimeServiceSafety RuntimeServiceTheorems XdpMain AttachmentSafety.
From S2P Require Import XdpMainTheorems XdpKernelExample.

(** ** The status of the runtime mode *)

Definition success_or_failure (code : Z) : Prop := code = 0 \/ code = 1.

(** What [m] returns, if it returns, satisfies [P]. *)
Definition yields {St A} (P : A -> Prop) (m : M St A) : Prop :=
  forall s x, (m s).1 = Ret x -> P x.

Section yields.
Context {St : Type}.
Lemma yields_ret {A} (P : A -> Prop) (a : A) : P a -> yields (St := St) P (mret a).
Proof. by intros Ha s x [= <-]. Qed.
Lemma yields_throw {A} (P : A -> Prop) e : yields (St := St) P (mthrow e).
Proof. by intros s x [=]. Qed.
Lemma yields_bind {A B} (P : B -> Prop) (m : M St A) (f : A -> M St B) :
  (forall a, yields P (f a)) -> yields P (mbind m f).
Proof. intros Hf s x. unfold mbind. destruct (m s) as [[a|e|] s']; [apply Hf|done..]. Qed.
Lemma yields_catch {A} (P : A -> Prop) (m : M St A) h :
  yields P m -> (forall e, yields P (h e)) -> yields P (mcatch m h).
Proof.
  intros Hm Hh s x. unfold mcatch. specialize (Hm s x). destruct (m s) as [[a|e|] s']; [exact Hm|apply Hh|done].
Qed.
Lemma yields_finally {A} (P : A -> Prop) (m : M St A) cleanup : yields P m -> yields P (mfinally m cleanup).
Proof. intros Hm s x. unfold mfinally. specialize (Hm s x). by destruct (m s). Qed.
End yields.

Section runtime.
Context {A P F Y : Type} `{RuntimeAttachment A} `{ProbeCollaborators P}.
Context `{FileOps F} `{InterfaceOps F} `{AddressParser} `{RuntimeSystem Y}.

Lemma runRuntimeDsrControlLoop_yields turns fuel drain object ingress vip path mode :
  yields success_or_failure
    (runRuntimeDsrControlLoop (A := A) (P := P) (F := F) (Y := Y) turns fuel drain object ingress vip path mode).
Proof.
  assert (Hattached : forall fd path, yields success_or_failure
    (attachedPhase (A := A) (P := P) (F := F) (Y := Y) turns fuel drain path ingress vip mode fd)).
  { intros fd p. unfold attachedPhase. repeat (apply yields_bind; intros ?). apply yields_ret.
    destruct (brokenPipe _); [by right|by left]. }
  unfold runRuntimeDsrControlLoop. do 3 (apply yields_bind; intros ?). intros w x.
  enough (Hc : forall path, yields success_or_failure
    (checkedPhase (A := A) (P := P) (F := F) (Y := Y) turns fuel drain object path ingress vip mode)).
  { match goal with |- context [checkedPhase turns fuel drain object ?p ingress vip mode ?s] =>
      pose proof (Hc p s) as Hs; destruct (checkedPhase turns fuel drain object p ingress vip mode s) as [o [c w']] end.
    apply Hs. }
  intros p. unfold checkedPhase. do 3 (apply yields_bind; intros ?).
  unfold withSignalFd. apply yields_bind. intros [fd|]; [|apply yields_throw]. apply yields_finally.
  unfold RuntimeService.withOutput. apply yields_bind. intros [flags|]; [|apply yields_throw].
  apply yields_bind. intros [[]|]; [|apply yields_throw]. apply yields_finally.
  do 2 (apply yields_bind; intros ?). unfold detachOnFailure. apply yields_catch; [apply Hattached|].
  intros e. apply yields_bind. intros ?. apply yields_throw.
Qed.
End runtime.

(** ** The history of the links *)

Section safety.
Context {K : Type} `{AttachmentKernel K} `{!ElementFrame K UdpRuntimeSnapshot} `{!ElementFrame K Z}
  `{!ElementFrame K (list UdpDsrStatsValue)}.
Context `{!BpfElements K XdpConfigValue} `{!BpfElements K XdpBackendValue} `{!BpfElements K (list Z)}
  `{!BpfElements K UdpDsrConfigValue} `{!BpfElements K UdpDsrBackendValue}.
Context `{!ElementFrame K XdpConfigValue} `{!ElementFrame K XdpBackendValue} `{!ElementFrame K (list Z)}
  `{!ElementFrame K UdpDsrConfigValue} `{!ElementFrame K UdpDsrBackendValue}.
Context {P F Y : Type} `{ProbeLaws P} `{FileContent F} `{!UninterruptedReads F} `{InterfaceLaws F}
  `{AddressParser} `{SystemLaws Y} `{!XdpMainSystem Y}.
Context `{!UninterruptedReads K} (objectFuel drain : nat).
Context (Hobject : kMaxObjectBytes <= Z.of_nat objectFuel).

Abbreviation WK := (World K P F Y).

Lemma wp_onKernel {X} (m : M K X) (Q : outcome X -> WK -> Prop) w :
  wp m (fun o k => Q o (mkWorld k (w_probes w) (w_files w) (w_system w) (w_requests w))) (w_attachment w) ->
  wp (onKernel m) Q w.
Proof. unfold wp, onKernel, onAttachment. by destruct (m (w_attachment w)). Qed.

(** Output and signals are not the kernel's business. *)
Definition kernel_same (w w' : WK) : Prop := w_attachment w' = w_attachment w.
#[local] Instance kernel_same_preorder : PreOrder kernel_same.
Proof. split; [done|]. unfold kernel_same. intros ? ? ? ? ?. congruence. Qed.
Lemma keeps_onSystem {X} (op : Y -> X * Y) : keeps kernel_same (onSystem (mworld op)).
Proof. intros w. apply wp_onSystem, wp_world. done. Qed.
Lemma keeps_say text : keeps kernel_same (say text).
Proof. intros w. unfold say. apply wp_onSystem, wp_modify. done. Qed.
Lemma keeps_goodOutput : keeps kernel_same goodOutput.
Proof. intros w. unfold goodOutput. apply wp_onSystem, wp_gets. done. Qed.

(** An error message keeps the links. *)
Definition links_same (w w' : WK) : Prop := same_links (w_attachment w) (w_attachment w').
Lemma wp_complain text (Q : outcome unit -> WK -> Prop) w :
  (forall w', links_same w w' -> Q (Ret tt) w') -> wp (complain text) Q w.
Proof.
  intros HQ. unfold complain. apply wp_onKernel, wp_modify. apply HQ. unfold links_same. cbn [w_attachment].
  destruct (lk_cerr text (w_attachment w)). by split.
Qed.

Lemma wp_withAttachment {X} (m : M (XdpAttachment * K) X) (Q : outcome X -> XdpAttachment * WK -> Prop) s :
  wp m (fun o t => Q o (t.1, mkWorld t.2 (w_probes s.2) (w_files s.2) (w_system s.2) (w_requests s.2)))
    (s.1, w_attachment s.2) ->
  wp (withAttachment m) Q s.
Proof. unfold wp, withAttachment. by destruct (m (s.1, w_attachment s.2)) as [o [a k]]. Qed.

(** ** The static modes *)

Abbreviation state := (XdpAttachment * WK)%type.
Definition below_of (s : state) : XdpAttachment * K := (s.1, w_attachment s.2).

(** How a part of the static mode goes on: the links stay tidy. *)
Definition attached_as (s s' : state) : Prop := s'.1 = s.1.

Lemma linked_same l0 a w w' : linked l0 (a, w_attachment w) -> links_same w w' -> linked l0 (a, w_attachment w').
Proof.
  intros (fd & id & Hp & [Lf Li Lp (events & Le & Lh)]) [Hl Hpr]. cbn [fst snd] in *.
  exists fd, id. cbn [fst snd]. rewrite Hpr. split; [done|]. split; [done..|].
  exists events. split; [congruence|done].
Qed.

Lemma wp_cleanupStep l0 text (m : M (XdpAttachment * WK) unit) failed (Q : outcome bool -> state -> Prop) s
    (R : outcome unit -> state -> Prop) :
  wp m (fun o t => o <> Diverge /\ linked l0 (below_of t) /\ R o t) s ->
  (forall t, linked l0 (below_of t) -> R (Ret tt) t -> Q (Ret failed) t) ->
  (forall e t w, linked l0 (t.1, w_attachment w) -> links_same t.2 w -> R (Throw e) t -> Q (Ret true) (t.1, w)) ->
  wp (cleanupStep text m failed) Q s.
Proof.
  intros Hm Hret Hthrow. unfold cleanupStep. apply wp_catch, wp_bind.
  eapply wp_mono; [exact Hm|]. intros [[]|e|] t (Hd & Hl & Hr); [apply wp_ret; by apply Hret| |done].
  apply wp_bind, wp_outside_spec, wp_complain. intros w Hw. apply wp_ret. eapply Hthrow; [|exact Hw|exact Hr].
  by eapply linked_same.
Qed.

(** The statistics change nothing. *)
Lemma sumPerCpu_ends values cpus : sumPerCpuPassPackets values cpus <> Diverge.
Proof. unfold sumPerCpuPassPackets, perCpuStatsBufferSize. repeat case_match; by try congruence. Qed.
Lemma bufferSize_ends cpus : perCpuStatsBufferSize cpus <> Diverge.
Proof. unfold perCpuStatsBufferSize. by case_match. Qed.

Lemma attachmentPassPackets_apart a : keeps apart (attachmentPassPackets (K := K) a).
Proof using All.
  unfold attachmentPassPackets. destruct (profile_ a), (object_ a); try apply keeps_throw; try exact _.
  apply keeps_bind; [exact _|apply newStore_apart|intros m]. unfold readPassPackets.
  apply keeps_bind; [exact _|apply keeps_gets; exact _|intros cpus].
  apply keeps_bind; [exact _|apply keeps_outcome; [exact _|apply bufferSize_ends]|intros size].
  apply keeps_bind; [exact _|eauto with keeps|intros values].
  apply keeps_outcome; [exact _|apply sumPerCpu_ends].
Qed.
Lemma readDsrStats_apart a : keeps apart (readDsrStats (K := K) a).
Proof using All.
  unfold readDsrStats. destruct (profile_ a), (object_ a); try apply keeps_throw; try exact _.
  apply keeps_bind; [exact _|apply newStore_apart|intros m]. unfold readDsrStatistics, readPerCpu. keep.
Qed.

Definition links_kept (s t : state) : Prop :=
  t.1 = s.1 /\ links (w_attachment t.2) = links (w_attachment s.2).

Lemma wp_reportStatistics l0 o failed s :
  linked l0 (below_of s) ->
  wp (reportStatistics o failed) (fun r t => linked l0 (below_of t) /\ links_kept s t /\
    exists b, r = Ret b /\ (b = false -> failed = false)) s.
Proof using All.
  intros Hl.
  assert (Hstep : forall {X} (read : XdpAttachment -> M K X) (line : X -> bytes),
    (forall a, keeps apart (read a)) ->
    wp (cleanupStep (bs "XDP 统计失败：")
      (a <- own (fun a => a) ;; x <- outside (onKernel (read a)) ;; outside (say (line x))) failed)
      (fun r t => linked l0 (below_of t) /\ links_kept s t /\ exists b, r = Ret b /\ (b = false -> failed = false)) s).
  { intros X read line Hread. apply (wp_cleanupStep l0 _ _ _ _ _ (fun _ t => links_kept s t)).
    - wp_step. wp_step. wp_step. apply wp_outside_spec, wp_onKernel. eapply wp_mono; [apply Hread|].
      intros r k [Hd Ha]. assert (Hl' : linked l0 (s.1, k)) by by eapply linked_apart.
      pose proof (sl_links _ _ (proj1 Ha)) as Hk.
      destruct r as [x|e|]; [|by split_and!|done].
      apply wp_outside_spec. eapply wp_mono; [apply keeps_say|]. intros r w [Hd' Hw]. unfold kernel_same in Hw.
      cbn [fst snd w_attachment] in *. unfold below_of, links_kept. cbn [fst snd]. rewrite Hw. by split_and!.
    - intros t Ht Hs. split; [done|]. split; [done|]. by exists failed.
    - intros e t w Ht [Hw _] [Hs1 Hs2]. split; [done|]. split; [split; [done|]; cbn [snd]; congruence|]. by exists true. }
  unfold reportStatistics. destruct (profile o).
  - apply wp_ret. split; [done|]. split; [done|]. by exists failed.
  - apply Hstep, attachmentPassPackets_apart.
  - apply Hstep, readDsrStats_apart.
  - apply wp_ret. split; [done|]. split; [done|]. by exists failed.
Qed.

(** How the static mode ends: successfully only after it was attached and
    detached. *)
Definition static_post (l0 : list LinkEvent) (m : XdpAttachMode) (r : outcome Z) (t : state) : Prop :=
  tidy l0 (below_of t) /\ r <> Diverge /\
  forall c, r = Ret c ->
    success_or_failure c /\ (c = 0 -> attached_ t.1 = false /\ held l0 m (below_of t)).

Lemma static_throw l0 m e t : tidy l0 (below_of t) -> static_post l0 m (Throw e) t.
Proof. intros Ht. split; [done|]. by split. Qed.
Lemma static_failed l0 m t : linked l0 (below_of t) -> static_post l0 m (Ret 1) t.
Proof. intros Ht. split; [by right|]. split; [done|]. intros c [= <-]. split; [by right|done]. Qed.

(** Output between the steps. *)
Lemma wp_static_output {X} l0 md (m : M WK X) f s :
  keeps kernel_same m -> linked l0 (below_of s) ->
  (forall x t, below_of t = below_of s -> wp (f x) (static_post l0 md) t) ->
  wp (x <- outside m ;; f x) (static_post l0 md) s.
Proof.
  intros Hm Hl Hf. wp_step. apply wp_outside_spec. eapply wp_mono; [apply Hm|]. intros r w [Hd Hw].
  assert (E : below_of (s.1, w) = below_of s) by (unfold below_of, kernel_same in *; cbn [fst snd]; by rewrite Hw).
  destruct r as [x|e|]; [by apply Hf| |done]. apply static_throw. right. by rewrite E.
Qed.

(** After the detachment: the statistics and the last line. *)
Definition staticEnd (o : XdpOptions) (received : Z) (failed : bool) : M state Z :=
  failed <- reportStatistics o failed ;;
  if failed : bool then mret 1
  else
    a <- own (fun a => a) ;;
    outside (say (endLine o (programId_ a))) ;;;
    good <- outside goodOutput ;;
    mret (if good && negb (received =? SIGPIPE) then 0 else 1).

Lemma wp_staticEnd l0 o received failed s :
  linked l0 (below_of s) ->
  (failed = false -> attached_ s.1 = false /\ held l0 (mode o) (below_of s)) ->
  wp (staticEnd o received failed) (static_post l0 (mode o)) s.
Proof using All.
  intros Hl Hs. unfold staticEnd. wp_step. eapply wp_mono; [by apply wp_reportStatistics|].
  intros r t (Hlt & [Ht1 Ht2] & b & -> & Hb). destruct b; [wp_step; by apply static_failed|].
  destruct (Hs (Hb eq_refl)) as [Hat Hh]. wp_step. wp_step.
  apply wp_static_output; [apply keeps_say|done|]. intros [] t1 E1. rewrite <-E1 in Hlt.
  apply wp_static_output; [apply keeps_goodOutput|done|]. intros good t2 E2. rewrite <-E2 in Hlt. wp_step.
  split; [by right|]. split; [done|]. intros c [= <-].
  split; [destruct (good && _); [by left|by right]|]. intros _.
  assert (E : below_of t2 = below_of t) by congruence. split.
  - change (attached_ (below_of t2).1 = false). rewrite E. unfold below_of. cbn [fst]. by rewrite Ht1.
  - rewrite E. destruct s as [a w]. unfold below_of in *. cbn [fst snd] in *. rewrite Ht1.
    by eapply held_same.
Qed.

Lemma wp_staticBody path o ifindex signals (w : WK) :
  wp (staticBody objectFuel path o ifindex signals) (static_post (links (w_attachment w)) (mode o))
    (newXdpAttachment, w).
Proof using All.
  set (l0 := links (w_attachment w)). unfold staticBody. wp_step. apply wp_withAttachment. cbn [fst snd].
  eapply wp_mono; [apply wp_loadObject|]. intros r [a1 k1] [(Hat1 & Hl1 & Hr) Hd]. cbn [fst snd] in *.
  assert (Ht1 : forall w1, w_attachment w1 = k1 -> tidy l0 (below_of (a1, w1)))
    by (intros w1 E; left; unfold below_of; cbn [fst snd]; by rewrite E).
  destruct r as [[]|e|]; [|by apply static_throw, Ht1|by destruct (Hd (conj UninterruptedReads1 Hobject) eq_refl)].
  destruct Hr as (_ & Hp1 & _). clear Hd.
  assert (Hlk1 : linked l0 (a1, k1)) by (unfold l0; rewrite <-Hl1; by apply linked_loaded).
  wp_step. apply wp_withAttachment. cbn [fst snd w_attachment w_probes w_files w_system w_requests].
  eapply wp_mono; [by apply (wp_linked_attach l0)|]. intros r [a2 k2] (Hd2 & Hlk2 & Hat2 & Hh2). cbn [fst snd] in *.
  destruct r as [[]|e|]; [|apply static_throw; by right|done]. specialize (Hh2 eq_refl).
  wp_step. wp_step. cbn [fst snd]. set (s2 := (a2, _)). change (linked l0 (below_of s2)) in Hlk2.
  change (held l0 (mode o) (below_of s2)) in Hh2.
  apply wp_static_output; [apply keeps_say|done|]. intros [] t3 E3. rewrite <-E3 in Hlk2, Hh2.
  apply wp_static_output; [apply keeps_goodOutput|done|]. intros good t4 E4. rewrite <-E4 in Hlk2, Hh2.
  destruct (negb good); [apply static_throw; by right|].
  apply wp_static_output; [apply keeps_onSystem|done|]. intros waited t5 E5. rewrite <-E5 in Hlk2, Hh2.
  destruct waited as [received|error]; [|apply static_throw; by right].
  wp_step. apply (wp_cleanupStep l0 _ _ _ _ _ (fun r t => r = Ret tt ->
    attached_ t.1 = false /\ held l0 (mode o) (below_of t))).
  { apply wp_withAttachment. destruct t5 as [a5 w5]. unfold below_of in *. cbn [fst snd] in *.
    eapply wp_mono; [by apply (wp_linked_detach l0)|]. intros r [a6 k6] (Hd6 & Hlk6 & Hat6 & Hg6). cbn [fst snd] in *.
    split; [done|]. split; [done|]. intros ->. split; [done|]. by apply (held_grows _ _ _ _ Hh2). }
  - intros t6 Hlk6 Hr6. fold (staticEnd o received false). apply wp_staticEnd; [done|]. intros _. by apply Hr6.
  - intros e t w6 Hlk6 _ _. fold (staticEnd o received true). by apply wp_staticEnd.
Qed.

(** ** What a command leaves *)

(** An attach leaves the history of one attachment; if it succeeds, the program
    was attached in the mode asked for and no link of it is left.  A detach removes at most the link of the expected program, and
    succeeds only if it did or was told that there is none. *)
Definition link_story (o : XdpOptions) (r : outcome Z) (l l' : list LinkEvent) : Prop :=
  exists events, l' = l ++ events /\
  if attach o then exists id link, history id events link /\
    (r = Ret 0 -> link = None /\
       exists ifindex, Attached ifindex (Z.lor (xdpAttachFlags (mode o)) XDP_FLAGS_UPDATE_IF_NOEXIST) id ∈ events)
  else (events = [] /\ r <> Ret 0) \/
    exists ifindex, detach_events ifindex (xdpAttachFlags (mode o)) (programId o) (Ret tt) events.

Lemma story_tidy o (r : outcome Z) l0 a (w : WK) :
  attach o = true -> tidy l0 (a, w_attachment w) ->
  (r = Ret 0 -> attached_ a = false /\ held l0 (mode o) (a, w_attachment w)) ->
  link_story o r l0 (links (destroyXdpAttachment a (w_attachment w))).
Proof.
  intros Ha Ht Hr. destruct (tidy_destroyed l0 _ _ Ht) as (id & events & link & He & Hh & Hn & Hq).
  exists events. split; [done|]. rewrite Ha. exists id, link. split; [done|]. intros E.
  destruct (Hr E) as [Hat (events' & i & id' & Hl & Hi)]. split; [auto|]. exists i. cbn [snd] in Hl.
  rewrite <-Hq, He in Hl by done. apply app_inv_head in Hl as ->.
  by rewrite <-(history_id _ _ _ _ _ _ Hh Hi).
Qed.

Lemma story_nothing o (r : outcome Z) l : r <> Ret 0 -> link_story o r l l.
Proof.
  intros Hr. exists []. rewrite app_nil_r. split; [done|]. destruct (attach o); [|by left].
  exists 0, None. split; [constructor|]. by intros ?.
Qed.

Definition command_post (o : XdpOptions) (w : WK) (r : outcome Z) (w' : WK) : Prop :=
  link_story o r (links (w_attachment w)) (links (w_attachment w')) /\
  match r with
  | Ret c => success_or_failure c
  | Throw _ => True
  | Diverge => attach o = true /\ profile o = kUdpRuntimeV3
  end.

Lemma wp_runStaticMode o ifindex signals (w : WK) :
  attach o = true ->
  wp (runStaticMode objectFuel o ifindex signals) (command_post o w) w.
Proof using All.
  intros Ha. pose proof (wp_staticBody (object o) o ifindex signals w) as Hs. unfold wp in Hs |- *.
  unfold runStaticMode. destruct (staticBody _ _ _ _ _ _) as [r [a w1]]. cbn [fst snd] in *.
  destruct Hs as (Ht & Hd & Hr). split; cbn [w_attachment].
  - apply story_tidy; [done|exact Ht|]. intros ->. by apply (Hr 0 eq_refl).
  - destruct r as [c|e|]; [by apply Hr|done|done].
Qed.

Lemma wp_runRuntimeMode turns o (w : WK) :
  attach o = true -> profile o = kUdpRuntimeV3 ->
  wp (runRuntimeMode objectFuel turns readFuel drain o) (command_post o w) w.
Proof using All.
  intros Ha Hp. unfold runRuntimeMode.
  set (w0 := mkWorld (newXdpAttachment, w_attachment w) (w_probes w) (w_files w) (w_system w) (w_requests w)).
  pose proof (wp_runRuntimeDsrControlLoop (H := attachment_runtime objectFuel)
    (H0 := attachment_promise (links (w_attachment w)) objectFuel Hobject)
    drain turns (object o) (device o) (vip o) (runtimeConfig o) (mode o) w0 (conj eq_refl eq_refl)) as Hr.
  pose proof (runRuntimeDsrControlLoop_yields (H := attachment_runtime objectFuel) turns readFuel drain
    (object o) (device o) (vip o) (runtimeConfig o) (mode o) w0) as Hy.
  unfold wp in Hr |- *. destruct (runRuntimeDsrControlLoop _ _ _ _ _ _ _ _ _) as [r w1]. cbn [fst snd] in *.
  destruct Hr as (_ & Hgood & _ & _ & Hcase).
  cbn [ra_good ra_attached ra_held attachment_promise] in Hgood, Hcase.
  destruct (w_attachment w1) as [a k]. cbn [fst snd w_attachment] in *. split; cbn [w_attachment].
  - apply (story_tidy o r _ a (mkWorld k (w_probes w1) (w_files w1) (w_system w1) (w_requests w1)) Ha Hgood).
    intros ->. exact Hcase.
  - destruct r as [c|e|]; [by apply Hy|done|done].
Qed.

Lemma wp_command_output {X} o (w w1 : WK) (m : M WK X) f :
  keeps kernel_same m -> w_attachment w1 = w_attachment w ->
  (forall x w2, w_attachment w2 = w_attachment w -> wp (f x) (command_post o w) w2) ->
  wp (mbind m f) (command_post o w) w1.
Proof.
  intros Hm Hw Hf. apply wp_bind. eapply wp_mono; [apply Hm|]. intros r w2 [Hd Hs]. unfold kernel_same in Hs.
  assert (Hw2 : w_attachment w2 = w_attachment w) by congruence.
  destruct r as [x|e|]; [by apply Hf| |done]. split; [rewrite Hw2; by apply story_nothing|done].
Qed.

Lemma wp_detachCommand o ifindex (w w1 : WK) :
  attach o = false -> links (w_attachment w1) = links (w_attachment w) ->
  wp (onKernel (detachExpectedProgram ifindex (mode o) (programId o)) ;;;
      say (detachedLine o) ;;; good <- goodOutput ;; mret (if good : bool then 0 else 1))
    (command_post o w) w1.
Proof using All.
  intros Ha Hl. wp_step. apply wp_onKernel. eapply wp_mono; [apply wp_detachExpectedProgram|].
  intros r k [_ (events & Hk & He)]. rewrite Hl in Hk. destruct r as [[]|e|]; [| |done].
  2: { cbn in He. subst events. rewrite app_nil_r in Hk. split; cbn [w_attachment]; [rewrite Hk; by apply story_nothing|done]. }
  assert (Hend : forall r' w2, w_attachment w2 = k ->
    match r' with Ret c => success_or_failure c | Throw _ => True | Diverge => False end ->
    command_post o w r' w2).
  { intros r' w2 E Hr. split; [rewrite E; exists events; split; [done|]; rewrite Ha; right; by exists ifindex|].
    by destruct r'. }
  apply (wp_keeps kernel_same); [apply keeps_say| |]; unfold kernel_same; cbn [w_attachment].
  2: { intros e w2 E. by apply Hend. }
  intros _ w2 E2. apply (wp_keeps kernel_same); [apply keeps_goodOutput| |]; unfold kernel_same.
  - intros good w3 E3. wp_step. apply Hend; [congruence|]. destruct good; [by left|by right].
  - intros e w3 E3. apply Hend; [congruence|done].
Qed.

Lemma wp_runXdpCommand turns o (w : WK) :
  wp (runXdpCommand objectFuel turns readFuel drain o) (command_post o w) w.
Proof using All.
  unfold runXdpCommand. apply wp_command_output; [apply keeps_onSystem|done|]. intros blocked w1 E1.
  assert (Hstop : forall (e : exn) w', links (w_attachment w') = links (w_attachment w) ->
    command_post o w (Throw e) w') by (intros e w' E; split; [rewrite E; by apply story_nothing|done]).
  destruct (negb blocked); [wp_step; apply Hstop; congruence|].
  wp_step. apply wp_onKernel. eapply wp_mono; [apply wp_resolveInterfaceIndex|].
  intros r k [Hd [_ [[Hl _] _]]]. rewrite E1 in Hl. destruct r as [ifindex|e|]; [|by apply Hstop|done].
  destruct (attach o) eqn:Ha; cbn [negb]; [|by apply wp_detachCommand].
  wp_step. set (w2 := mkWorld k _ _ _ _).
  apply wp_mono with (Q := fun r w' => r <> Diverge /\ links (w_attachment w') = links (w_attachment w)).
  { destruct (bool_decide (profile o = kUdpDsrV2)); [|by wp_step].
    apply wp_onFiles. eapply wp_mono; [apply wp_parseDsrConfiguration|]. intros r f Hr. by destruct r. }
  intros r w3 [Hd3 Hl3]. destruct r as [c|e|]; [|by apply Hstop|done].
  assert (Hpost : forall r w', command_post (set_dsr c o) w3 r w' -> command_post o w r w').
  { intros r w' [Hs Hr]. split; [by rewrite <-Hl3|exact Hr]. }
  cbv zeta. case_bool_decide as Hp.
  - eapply wp_mono; [apply (wp_runRuntimeMode turns (set_dsr c o)); [exact Ha|exact Hp]|exact Hpost].
  - eapply wp_mono; [apply (wp_runStaticMode (set_dsr c o)); exact Ha|exact Hpost].
Qed.

Lemma wp_say text (Q : outcome unit -> WK -> Prop) w :
  (forall w', w_attachment w' = w_attachment w -> Q (Ret tt) w') -> wp (say text) Q w.
Proof. intros HQ. unfold say. apply wp_onSystem, wp_modify. by apply HQ. Qed.
Lemma wp_goodOutput (Q : outcome bool -> WK -> Prop) w :
  (forall good w', w_attachment w' = w_attachment w -> Q (Ret good) w') -> wp goodOutput Q w.
Proof. intros HQ. unfold goodOutput. apply wp_onSystem, wp_gets. by apply HQ. Qed.

(** The [catch] clauses. *)
Lemma wp_handled turns o (w : WK) :
  wp (mcatch (runXdpCommand objectFuel turns readFuel drain o) (xdpHandler o)) (fun r w' =>
    link_story o r (links (w_attachment w)) (links (w_attachment w')) /\
    match r with
    | Ret c => c = 0 \/ c = 1 \/ c = 2
    | Throw _ => False
    | Diverge => attach o = true /\ profile o = kUdpRuntimeV3
    end) w.
Proof using All.
  apply wp_catch. eapply wp_mono; [apply wp_runXdpCommand|]. intros r w1 [Hs Hr].
  destruct r as [c|e|]; [split; [done|]; destruct Hr; auto| |done].
  assert (Hout : forall c (w2 : WK), links_same w1 w2 -> c = 1 \/ c = 2 ->
    link_story o (Ret c) (links (w_attachment w)) (links (w_attachment w2)) /\ (c = 0 \/ c = 1 \/ c = 2)).
  { intros c w2 [Hl _] Hc. split; [|by right]. destruct Hs as (events & He & Hcase). exists events.
    split; [congruence|]. assert (Hc0 : Ret c <> Ret 0) by (intros [= ->]; destruct Hc; discriminate).
    destruct (attach o); [|destruct Hcase as [[-> _]|Hcase]; [by left|by right]].
    destruct Hcase as (id & link & Hh & _). by exists id, link. }
  unfold xdpHandler. destruct e; wp_step; apply wp_complain; intros w2 Hw2; wp_step; apply Hout; auto.
Qed.

(** C3: a whole run of the XDP program, for every command line and every
    behaviour of the kernel, of the network and of the terminal.  No exception
    leaves [main]; the status is 0, 1 or 2, and 2 after a usage error.  A usage
    error and the help change no link.  An attach, in the static modes and in
    the runtime mode alike, changes links only as one attachment does: it
    replaces no program, attaches only while it holds no link and removes only
    its own program from the link it holds; when it ends with status 0, its
    program was attached in the mode of the command line and none of its links
    is left: each was detached, or the kernel told that it is gone.  A detach
    removes at most the link of the program it was given, and ends with status 0
    only if it did or was told that there is none.  The program always ends, but
    for the runtime mode, which may still be running. *)
Theorem xdp_main_links turns args (w : WK) :
  let '(r, w') := xdpMain objectFuel turns readFuel drain args w in
  let l := links (w_attachment w) in
  let l' := links (w_attachment w') in
  match r, parseXdpOptions args with
  | Ret status, Ret o => (status = 0 \/ status = 1 \/ status = 2) /\ link_story o r l l'
  | Ret status, _ => l' = l /\
      ((args = [bs "--help"] /\ (status = 0 \/ status = 1)) \/ (args <> [bs "--help"] /\ status = 2))
  | Throw _, _ => False
  | Diverge, Ret o => attach o = true /\ profile o = kUdpRuntimeV3 /\ link_story o r l l'
  | Diverge, _ => False
  end.
Proof using All.
  set (Q := fun (r : outcome Z) (w' : WK) =>
    match r, parseXdpOptions args with
    | Ret status, Ret o => (status = 0 \/ status = 1 \/ status = 2) /\
        link_story o r (links (w_attachment w)) (links (w_attachment w'))
    | Ret status, _ => links (w_attachment w') = links (w_attachment w) /\
        ((args = [bs "--help"] /\ (status = 0 \/ status = 1)) \/ (args <> [bs "--help"] /\ status = 2))
    | Throw _, _ => False
    | Diverge, Ret o => attach o = true /\ profile o = kUdpRuntimeV3 /\
        link_story o r (links (w_attachment w)) (links (w_attachment w'))
    | Diverge, _ => False
    end).
  assert (Hw : wp (xdpMain objectFuel turns readFuel drain args) Q w); [|exact (wp_result _ _ _ Hw)].
  unfold xdpMain. case_bool_decide as Hhelp.
  - wp_step. apply wp_say. intros w1 E1. wp_step. apply wp_goodOutput. intros good w2 E2. wp_step.
    unfold Q. replace (parseXdpOptions args) with (@Throw XdpOptions (InvalidArgument (bs "未知子命令：" ++ bs "--help")))
      by by rewrite Hhelp.
    split; [congruence|]. left. split; [done|]. destruct good; [by left|by right].
  - pose proof (parseXdpOptions_refused args) as Hparse. unfold refused in Hparse. unfold Q.
    destruct (parseXdpOptions args) as [o|e|]; [| |done].
    + eapply wp_mono; [apply wp_handled|]. intros r w1 [Hs Hr]. destruct r; [done..|]. by destruct Hr.
    + destruct Hparse as [text ->]. wp_step. apply wp_complain. intros w1 [E1 _]. wp_step. apply wp_say.
      intros w2 E2. wp_step. split; [congruence|]. by right.
Qed.
End safety.

(** ** A scripted run of the runtime mode *)

Module ScriptedMain.
Import UdpProbeTheorems.ScriptedNetwork RuntimeConfig.ScriptedFiles RuntimeServiceTheorems.ScriptedRuntime.
Import ScriptedXdp.

(** The terminal takes everything. *)
#[export] Instance main_system : XdpMainSystem System := {
  cout text y := mkSystem (y_time y) (y_quiet y) (y_signals y) (y_output y ++ text);
  cout_good _ := true;
  block_signals _ y := (true, y);
  sigwait _ y := (inl 15, y)
}.

Abbreviation WM := (World ScriptedXdp.world (Network * ProbeNonceSequence) Files System).
Definition machine : WM :=
  RuntimeService.mkWorld ScriptedXdp.start network (mkFiles [one; two] 0 []) (mkSystem 0 5 [SIGHUP] []) [].

Definition arguments : list bytes :=
  [bs "attach"; bs "--udp-dsr-runtime"; bs "--vip"; bs "10.0.0.1:53"; bs "--runtime-config"; bs "rt.conf";
   bs "--dev"; bs "eth1"; bs "--object"; bs "rt.o"].

Definition run_with (n : nat) : outcome Z * WM := xdpMain (S (S n)) 30 readFuel 20 arguments machine.
(** Two reads are enough for this object, whatever more is allowed. *)
Lemma run_computed n :
  (run_with n).1 = Ret 0 /\ links (w_attachment (run_with n).2) = [Attached 2 3 7; Detached 2 2 7] /\
  w_table (w_attachment (run_with n).2) = ∅ /\ psockets (w_probes (run_with n).2) = {[1]}.
Proof. vm_compute. split_and!; reflexivity. Qed.
Lemma enough (m : Z) : m <= Z.of_nat (S (S (Z.to_nat m))).
Proof. lia. Qed.
End ScriptedMain.

Import RuntimeConfig.ScriptedFiles RuntimeServiceTheorems.ScriptedRuntime UdpProbeTheorems.ScriptedNetwork.
Import ScriptedXdp ScriptedMain.

(** A target becomes healthy, the configuration is reloaded, a signal stops the
    program: the link and every descriptor are given back. *)
Lemma xdp_main_links_witness :
  let run := run_with (Z.to_nat kMaxObjectBytes) in
  run.1 = Ret 0 /\ w_table (w_attachment run.2) = ∅ /\
  links (w_attachment run.2) = [Attached 2 3 7; Detached 2 2 7] /\
  exists o, parseXdpOptions arguments = Ret o /\ profile o = kUdpRuntimeV3 /\
    link_story o (Ret 0) [] (links (w_attachment run.2)).
Proof.
  intros run. pose proof (xdp_main_links (S (S (Z.to_nat kMaxObjectBytes))) 20 (enough kMaxObjectBytes) 30
    arguments machine) as Hr. fold (run_with (Z.to_nat kMaxObjectBytes)) in Hr. fold run in Hr.
  destruct (run_computed (Z.to_nat kMaxObjectBytes)) as (H1 & H2 & H3 & _). fold run in H1, H2, H3.
  split; [exact H1|]. split; [exact H3|]. split; [exact H2|].
  destruct run as [r w']. cbn [fst snd] in *. subst r. cbv zeta in Hr.
  destruct (parseXdpOptions arguments) as [o|e|] eqn:Hp.
  - exists o. split; [reflexivity|]. split; [|exact (proj2 Hr)].
    assert (E : match parseXdpOptions arguments with Ret o => profile o | _ => kLegacy end = kUdpRuntimeV3)
      by (vm_compute; reflexivity).
    by rewrite Hp in E.
  - exfalso. assert (E : match parseXdpOptions arguments with Ret _ => true | _ => false end = true)
      by (vm_compute; reflexivity). by rewrite Hp in E.
  - exfalso. assert (E : match parseXdpOptions arguments with Ret _ => true | _ => false end = true)
      by (vm_compute; reflexivity). by rewrite Hp in E.
Defined.
